(** * Reality-signed approvals: the signature protocol and the session machine

    A shallow embedding of the TypeScript sources
    - [src/lib/crypto/hash.ts]       (hashDocument, canonicalizeIntent),
    - [src/lib/crypto/signing.ts]    (sign, verify),
    - [src/lib/signature/payload.ts] (buildSignaturePayload, extractPayloadFields),
    - [src/lib/signature/create.ts]  (createRealitySignature, (de)serialize),
    - [src/lib/verification/verify.ts] (isValidSignatureFormat, verify),
    - the route POST /api/verify       (parseSignature),
    - [src/lib/session/approval-session.ts] (the approval session machine).

    JavaScript strings are sequences of UTF-16 code units; they are modelled
    as lists of [N].  The ECMAScript built-ins the sources call
    ([String.prototype.replace] with the three regular expressions of
    [canonicalizeIntent], [trim], [JSON.stringify], [JSON.parse]) are written
    out as functions on such lists.  Unicode normalisation, SHA-256, UTF-8,
    base64 and Ed25519 come from the platform and are parameters. *)

From Stdlib Require Import Strings.String Strings.Ascii Strings.Byte.
From Stdlib Require Import List NArith ZArith Bool Lia.
From Stdlib Require Import DecimalFacts DecimalZ.
Import ListNotations.

Local Open Scope N_scope.

(* ================================================================== *)
(** * JavaScript strings *)
(* ================================================================== *)

Module JS.

(** A UTF-16 code unit. *)
Definition char16 := N.

(** A JavaScript string. *)
Definition jsstring := list char16.

Definition char16_of_ascii (a : ascii) : char16 := N_of_ascii a.

(** An ASCII literal of the source text as a JavaScript string. *)
Fixpoint lit (s : string) : jsstring :=
  match s with
  | EmptyString => []
  | String a r => char16_of_ascii a :: lit r
  end.

Fixpoint jsstring_eqb (a b : jsstring) : bool :=
  match a, b with
  | [], [] => true
  | x :: a', y :: b' => (x =? y) && jsstring_eqb a' b'
  | _, _ => false
  end.

Definition TAB : char16 := 9.
Definition LF : char16 := 10.
Definition VT : char16 := 11.
Definition FF : char16 := 12.
Definition CR : char16 := 13.
Definition SP : char16 := 32.

(** ECMAScript [WhiteSpace] and [LineTerminator]: the characters matched by
    [\s] in a regular expression and stripped by [String.prototype.trim]. *)
Definition is_whitespace (c : char16) : bool :=
  (c =? TAB) || (c =? LF) || (c =? VT) || (c =? FF) || (c =? CR) || (c =? SP)
  || (c =? 160)                         (* U+00A0 *)
  || (c =? 5760)                        (* U+1680 *)
  || ((8192 <=? c) && (c <=? 8202))     (* U+2000 .. U+200A *)
  || (c =? 8232) || (c =? 8233)         (* U+2028, U+2029 *)
  || (c =? 8239)                        (* U+202F *)
  || (c =? 8287)                        (* U+205F *)
  || (c =? 12288)                       (* U+3000 *)
  || (c =? 65279).                      (* U+FEFF *)

(** The character class [[^\S\n]]: white space other than the line feed. *)
Definition is_inline_space (c : char16) : bool :=
  is_whitespace c && negb (c =? LF).

(** [s.replace(/\r\n/g, '\n')]: left to right, matches do not overlap. *)
Fixpoint replace_crlf (s : jsstring) : jsstring :=
  match s with
  | [] => []
  | c :: r =>
      match r with
      | d :: r' =>
          if (c =? CR) && (d =? LF) then LF :: replace_crlf r'
          else c :: replace_crlf r
      | [] => [c]
      end
  end.

(** [s.replace(/\r/g, '\n')]. *)
Definition replace_cr (s : jsstring) : jsstring :=
  map (fun c => if c =? CR then LF else c) s.

(** [s.replace(/[^\S\n]+/g, ' ')]: every maximal run of inline white space
    becomes one space.  [in_run] tells that the previous character was part
    of the run being replaced. *)
Fixpoint collapse_from (in_run : bool) (s : jsstring) : jsstring :=
  match s with
  | [] => []
  | c :: r =>
      if is_inline_space c
      then (if in_run then collapse_from true r else SP :: collapse_from true r)
      else c :: collapse_from false r
  end.

Definition collapse_inline_space (s : jsstring) : jsstring :=
  collapse_from false s.

(** [String.prototype.trimStart]. *)
Fixpoint trimStart (s : jsstring) : jsstring :=
  match s with
  | [] => []
  | c :: r => if is_whitespace c then trimStart r else s
  end.

(** [String.prototype.trimEnd]. *)
Fixpoint trimEnd (s : jsstring) : jsstring :=
  match s with
  | [] => []
  | c :: r =>
      match trimEnd r with
      | [] => if is_whitespace c then [] else [c]
      | r' => c :: r'
      end
  end.

(** [String.prototype.trim]. *)
Definition trim (s : jsstring) : jsstring := trimEnd (trimStart s).

#[global] Arguments is_whitespace : simpl never.
#[global] Arguments is_inline_space : simpl never.

End JS.
Import JS.

(* ================================================================== *)
(** * src/lib/crypto/hash.ts: intent canonicalisation *)
(* ================================================================== *)

Module Hash.

(** The four steps of [canonicalizeIntent] that follow the normalisation. *)
Definition rewrite_whitespace (s : jsstring) : jsstring :=
  trim (collapse_inline_space (replace_cr (replace_crlf s))).

Section Canonicalize.

(** [String.prototype.normalize('NFC')], given by the platform's Unicode
    tables. *)
Variable normalize_NFC : jsstring -> jsstring.

Definition canonicalizeIntent (text : jsstring) : jsstring :=
  trim
    (collapse_inline_space
       (replace_cr
          (replace_crlf
             (normalize_NFC text)))).

End Canonicalize.

(** A string in normal form: [normalize] leaves it as it is. *)
Definition normal_form (normalize : jsstring -> jsstring) (s : jsstring)
  : Prop :=
  normalize s = s.

(** A fragment of NFC that touches white space: the singleton
    decompositions of EN QUAD (U+2000) and EM QUAD (U+2001) into EN SPACE
    (U+2002) and EM SPACE (U+2003). *)
Definition normalize_quads (s : jsstring) : jsstring :=
  map (fun c => if c =? 8192 then 8194 else if c =? 8193 then 8195 else c) s.

(** Code units that [normalize_quads] leaves alone. *)
Definition not_a_quad (c : char16) : Prop := c <> 8192 /\ c <> 8193.

(** The shape [collapse_from] leaves behind: every inline white space is a
    single space and none follows another. *)
Fixpoint collapsed (after_space : bool) (s : jsstring) : bool :=
  match s with
  | [] => true
  | c :: r =>
      if is_inline_space c
      then (c =? SP) && negb after_space && collapsed true r
      else collapsed false r
  end.

(** The first character, if any, is not white space. *)
Definition starts_clean (s : jsstring) : bool :=
  match s with
  | [] => true
  | c :: _ => negb (is_whitespace c)
  end.

End Hash.


(* ================================================================== *)
(** * Results of operations that may throw *)
(* ================================================================== *)

(** [Ok a] is a normal return, [Throw e] a raised exception. *)
Inductive Result (E A : Type) : Type :=
| Ok (a : A)
| Throw (e : E).

Arguments Ok {E A} a.
Arguments Throw {E A} e.

(* ================================================================== *)
(** * src/lib/session/approval-session.ts *)
(* ================================================================== *)

Module Session.

Local Open Scope Z_scope.

Inductive ApprovalSessionStatus : Set := pending | approved | expired.

Definition status_eqb (a b : ApprovalSessionStatus) : bool :=
  match a, b with
  | pending, pending | approved, approved | expired, expired => true
  | _, _ => false
  end.

(** [ApprovalSession] of src/lib/types.ts; times are epoch milliseconds,
    [None] is JavaScript's [null]. *)
Record ApprovalSession : Type := mkSession {
  id : jsstring;
  secure_token : jsstring;
  document_hash : jsstring;
  document_path : jsstring;
  document_name : jsstring;
  intent_text : jsstring;
  intent_hash : jsstring;
  status : ApprovalSessionStatus;
  created_at : Z;
  expires_at : Z;
  approved_at : option Z;
  signature_id : option jsstring
}.

(** The messages of the [Error]s thrown by [approveSession]. *)
Inductive SessionError : Set := SESSION_EXPIRED | SESSION_ALREADY_APPROVED.

(** Default session expiration time: 24 hours in milliseconds. *)
Definition DEFAULT_EXPIRATION_MS : Z := 24 * 60 * 60 * 1000.

(** [createSession].  The effects of the body are made explicit: [now] is
    the value read from [Date.now()], [uuid1] and [uuid2] are the two
    values drawn from [uuidv4()], [hashIntent] is the function imported
    from crypto/hash. *)
Definition createSession (hashIntent : jsstring -> jsstring)
    (now : Z) (uuid1 uuid2 : jsstring)
    (documentHash documentPath documentName intentText : jsstring)
  : ApprovalSession :=
  {| id := uuid1;
     secure_token := uuid2;
     document_hash := documentHash;
     document_path := documentPath;
     document_name := documentName;
     intent_text := intentText;
     intent_hash := hashIntent intentText;
     status := pending;
     created_at := now;
     expires_at := now + DEFAULT_EXPIRATION_MS;
     approved_at := None;
     signature_id := None |}.

(** [canApprove]; [now] is the value read from [Date.now()]. *)
Definition canApprove (now : Z) (session : ApprovalSession) : bool :=
  if negb (status_eqb (status session) pending) then false
  else if now >? expires_at session then false
  else true.

(** [approveSession].  The clock is read twice: [now] inside [canApprove]
    and [stamp] for [approved_at]. *)
Definition approveSession (now stamp : Z)
    (session : ApprovalSession) (signatureId : jsstring)
  : Result SessionError ApprovalSession :=
  if negb (canApprove now session) then
    Throw (if status_eqb (status session) expired
           then SESSION_EXPIRED
           else SESSION_ALREADY_APPROVED)
  else
    Ok {| id := id session;
          secure_token := secure_token session;
          document_hash := document_hash session;
          document_path := document_path session;
          document_name := document_name session;
          intent_text := intent_text session;
          intent_hash := intent_hash session;
          status := approved;
          created_at := created_at session;
          expires_at := expires_at session;
          approved_at := Some stamp;
          signature_id := Some signatureId |}.

(** [expireSession]: the spread copy with [status] overwritten. *)
Definition expireSession (session : ApprovalSession) : ApprovalSession :=
  {| id := id session;
     secure_token := secure_token session;
     document_hash := document_hash session;
     document_path := document_path session;
     document_name := document_name session;
     intent_text := intent_text session;
     intent_hash := intent_hash session;
     status := expired;
     created_at := created_at session;
     expires_at := expires_at session;
     approved_at := approved_at session;
     signature_id := signature_id session |}.

(** A session as it stands after one approval at time [1000]. *)
Definition sample_approved : ApprovalSession :=
  {| id := lit "s-1";
     secure_token := lit "t-1";
     document_hash := lit "aa";
     document_path := lit "/uploads/test.pdf";
     document_name := lit "test.pdf";
     intent_text := lit "Approve contract with ACME Corp";
     intent_hash := lit "bb";
     status := approved;
     created_at := 0;
     expires_at := DEFAULT_EXPIRATION_MS;
     approved_at := Some 1000;
     signature_id := Some (lit "sig-123") |}.

(** A session still pending whose deadline [5000] has passed by [5001]. *)
Definition sample_overdue : ApprovalSession :=
  {| id := lit "s-2";
     secure_token := lit "t-2";
     document_hash := lit "aa";
     document_path := lit "/uploads/test.pdf";
     document_name := lit "test.pdf";
     intent_text := lit "Approve contract with ACME Corp";
     intent_hash := lit "bb";
     status := pending;
     created_at := 0;
     expires_at := 5000;
     approved_at := None;
     signature_id := None |}.

End Session.

(* ================================================================== *)
(** * JavaScript values and the JSON built-ins *)
(* ================================================================== *)

Module JSON.

(** A JavaScript number.  [NumInt z] is the number whose value is the
    integer [z] (timestamps are integer milliseconds); [NumDecimal m k] is
    the non-integral value [m / 10^k], with [m] not a multiple of [10].
    Rounding to 64-bit precision is not represented: a value stands for a
    JavaScript number only when it is one of the 64-bit values, as every
    integer of magnitude up to [2^53] is, the readings of [Date.now()] among
    them. *)
Inductive JSNumber : Type :=
| NumInt (z : Z)
| NumDecimal (m : Z) (k : positive)
| NumNaN
| NumInfinity (negative : bool).

#[warnings="-register-all"]
Inductive JSValue : Type :=
| JUndefined
| JNull
| JBool (b : bool)
| JNumber (n : JSNumber)
| JString (s : jsstring)
| JArray (elements : list JSValue)
| JObject (props : list (jsstring * JSValue)).

(** The exceptions the built-ins and the sources raise. *)
Inductive JSError : Type :=
| SyntaxError
| TypeError
| Error (message : string).

(** Own properties in insertion order.  (Integer-like property names, which
    JavaScript enumerates first, do not occur in this program.) *)
Definition Props := list (jsstring * JSValue).

Fixpoint lookup (k : jsstring) (ps : Props) : option JSValue :=
  match ps with
  | [] => None
  | (k', v) :: r => if jsstring_eqb k k' then Some v else lookup k r
  end.

(** [CreateDataProperty]: an existing key keeps its place and takes the new
    value, a new key goes last. *)
Fixpoint set_prop (ps : Props) (k : jsstring) (v : JSValue) : Props :=
  match ps with
  | [] => [(k, v)]
  | (k', v') :: r =>
      if jsstring_eqb k k' then (k', v) :: r else (k', v') :: set_prop r k v
  end.

(** [typeof v === 'object']. *)
Definition typeof_object (v : JSValue) : bool :=
  match v with
  | JNull | JArray _ | JObject _ => true
  | _ => false
  end.

(** [v.k] for one of the property names of this program (none of them is
    [length] or an index): [undefined] unless [v] is an object that has the
    property; reading a property of [null] or [undefined] throws. *)
Definition get (v : JSValue) (k : jsstring) : Result JSError JSValue :=
  match v with
  | JUndefined | JNull => Throw TypeError
  | JObject ps =>
      match lookup k ps with
      | Some x => Ok x
      | None => Ok JUndefined
      end
  | _ => Ok JUndefined
  end.

(** [k in v]: throws unless [v] is an object. *)
Definition has_property (k : jsstring) (v : JSValue) : Result JSError bool :=
  match v with
  | JObject ps =>
      match lookup k ps with
      | Some _ => Ok true
      | None => Ok false
      end
  | JArray _ => Ok false
  | _ => Throw TypeError
  end.

(** ** JSON.stringify *)

Definition hex_digit (n : N) : char16 :=
  if n <? 10 then 48 + n else 87 + n.

(** [\uXXXX] with lower-case hexadecimal digits. *)
Definition unicode_escape (c : char16) : jsstring :=
  [92; 117; hex_digit (c / 4096 mod 16); hex_digit (c / 256 mod 16);
   hex_digit (c / 16 mod 16); hex_digit (c mod 16)].

Definition is_high_surrogate (c : char16) : bool :=
  (55296 <=? c) && (c <=? 56319).

Definition is_low_surrogate (c : char16) : bool :=
  (56320 <=? c) && (c <=? 57343).

(** [String.prototype.isWellFormed]: no surrogate stands alone.  These
    are the strings that [TextEncoder] encodes without loss; a lone
    surrogate is encoded as U+FFFD. *)
Fixpoint isWellFormed (s : jsstring) : bool :=
  match s with
  | [] => true
  | c :: r =>
      if is_high_surrogate c then
        match r with
        | d :: r' => is_low_surrogate d && isWellFormed r'
        | [] => false
        end
      else negb (is_low_surrogate c) && isWellFormed r
  end.

(** One code unit that is not a surrogate, as [QuoteJSONString] writes it. *)
Definition quote_unit (c : char16) : jsstring :=
  if c =? 8 then [92; 98]
  else if c =? 9 then [92; 116]
  else if c =? 10 then [92; 110]
  else if c =? 12 then [92; 102]
  else if c =? 13 then [92; 114]
  else if c =? 34 then [92; 34]
  else if c =? 92 then [92; 92]
  else if c <? 32 then unicode_escape c
  else [c].

(** The characters between the quotes: a surrogate pair goes out as it is,
    a lone surrogate as a [\u] escape (well-formed [JSON.stringify]). *)
Fixpoint quote_body (s : jsstring) : jsstring :=
  match s with
  | [] => []
  | c :: r =>
      if is_high_surrogate c then
        match r with
        | d :: r' =>
            if is_low_surrogate d then c :: d :: quote_body r'
            else unicode_escape c ++ quote_body r
        | [] => unicode_escape c
        end
      else if is_low_surrogate c then unicode_escape c ++ quote_body r
      else quote_unit c ++ quote_body r
  end.

Definition QuoteJSONString (s : jsstring) : jsstring :=
  34 :: quote_body s ++ [34].

Fixpoint uint_chars (u : Decimal.uint) : jsstring :=
  match u with
  | Decimal.Nil => []
  | Decimal.D0 r => 48 :: uint_chars r
  | Decimal.D1 r => 49 :: uint_chars r
  | Decimal.D2 r => 50 :: uint_chars r
  | Decimal.D3 r => 51 :: uint_chars r
  | Decimal.D4 r => 52 :: uint_chars r
  | Decimal.D5 r => 53 :: uint_chars r
  | Decimal.D6 r => 54 :: uint_chars r
  | Decimal.D7 r => 55 :: uint_chars r
  | Decimal.D8 r => 56 :: uint_chars r
  | Decimal.D9 r => 57 :: uint_chars r
  end.

(** [Number::toString] of an integer: its decimal digits.  This is what
    JavaScript writes for the integers of magnitude up to [2^53]; above, it
    writes the shortest digits that read back as the same 64-bit value,
    followed by zeros, and from [10^21] on it uses exponent notation
    ([buildSignaturePayload_with] below leaves that text open). *)
Definition integer_to_string (z : Z) : jsstring :=
  match Z.to_int z with
  | Decimal.Pos u => uint_chars u
  | Decimal.Neg u => 45 :: uint_chars u
  end.

(** [m / 10^k] in positional notation, [k] digits after the point. *)
Definition decimal_to_string (m : Z) (k : positive) : jsstring :=
  let ds := uint_chars (N.to_uint (Z.to_N (Z.abs m))) in
  let pad := repeat 48 (S (Pos.to_nat k) - length ds) ++ ds in
  let n := (length pad - Pos.to_nat k)%nat in
  (if (m <? 0)%Z then [45] else []) ++ firstn n pad ++ 46 :: skipn n pad.

Definition number_to_json (n : JSNumber) : jsstring :=
  match n with
  | NumInt z => integer_to_string z
  | NumDecimal m k => decimal_to_string m k
  | NumNaN | NumInfinity _ => lit "null"
  end.

Section Serialize.

(** [SerializeJSONProperty] on the values held by a container. *)
Variable serialize : JSValue -> option jsstring.

(** The members of an object; a property whose value is [undefined] is
    left out. *)
Fixpoint serialize_members (ps : Props) (first : bool) : jsstring :=
  match ps with
  | [] => []
  | (k, v) :: r =>
      match serialize v with
      | Some t =>
          (if first then [] else [44]) ++ QuoteJSONString k ++ 58 :: t
          ++ serialize_members r false
      | None => serialize_members r first
      end
  end.

(** The elements of an array; [undefined] is written [null]. *)
Fixpoint serialize_elements (l : list JSValue) (first : bool) : jsstring :=
  match l with
  | [] => []
  | v :: r =>
      (if first then [] else [44])
      ++ match serialize v with Some t => t | None => lit "null" end
      ++ serialize_elements r false
  end.

End Serialize.

(** [SerializeJSONProperty] without replacer or indentation; [None] is the
    result [undefined]. *)
Fixpoint SerializeJSONProperty (v : JSValue) : option jsstring :=
  match v with
  | JUndefined => None
  | JNull => Some (lit "null")
  | JBool true => Some (lit "true")
  | JBool false => Some (lit "false")
  | JNumber n => Some (number_to_json n)
  | JString s => Some (QuoteJSONString s)
  | JArray l => Some (91 :: serialize_elements SerializeJSONProperty l true ++ [93])
  | JObject ps => Some (123 :: serialize_members SerializeJSONProperty ps true ++ [125])
  end.

(** [JSON.stringify] of an object built by an object literal. *)
Definition stringify_object (ps : Props) : jsstring :=
  123 :: serialize_members SerializeJSONProperty ps true ++ [125].

(** The same with [Number::toString] on the integers as a parameter, so
    that nothing is fixed about the digits and the notation it chooses. *)
Section NumberToString.

Variable Number_toString : Z -> jsstring.

Definition number_to_json_with (n : JSNumber) : jsstring :=
  match n with
  | NumInt z => Number_toString z
  | NumDecimal m k => decimal_to_string m k
  | NumNaN | NumInfinity _ => lit "null"
  end.

Fixpoint SerializeJSONProperty_with (v : JSValue) : option jsstring :=
  match v with
  | JUndefined => None
  | JNull => Some (lit "null")
  | JBool true => Some (lit "true")
  | JBool false => Some (lit "false")
  | JNumber n => Some (number_to_json_with n)
  | JString s => Some (QuoteJSONString s)
  | JArray l =>
      Some (91 :: serialize_elements SerializeJSONProperty_with l true ++ [93])
  | JObject ps =>
      Some (123 :: serialize_members SerializeJSONProperty_with ps true
            ++ [125])
  end.

Definition stringify_object_with (ps : Props) : jsstring :=
  123 :: serialize_members SerializeJSONProperty_with ps true ++ [125].

End NumberToString.

(** ** JSON.parse *)

Definition is_json_space (c : char16) : bool :=
  (c =? 32) || (c =? 9) || (c =? 10) || (c =? 13).

Fixpoint skip_space (s : jsstring) : jsstring :=
  match s with
  | [] => []
  | c :: r => if is_json_space c then skip_space r else s
  end.

Definition hex_value (c : char16) : option N :=
  if (48 <=? c) && (c <=? 57) then Some (c - 48)
  else if (97 <=? c) && (c <=? 102) then Some (c - 87)
  else if (65 <=? c) && (c <=? 70) then Some (c - 55)
  else None.

Definition hex4_value (a b c d : char16) : option char16 :=
  match hex_value a, hex_value b, hex_value c, hex_value d with
  | Some x, Some y, Some z, Some w => Some (((x * 16 + y) * 16 + z) * 16 + w)
  | _, _, _, _ => None
  end.

(** The character a two-character escape stands for. *)
Definition simple_escape (e : char16) : option char16 :=
  if e =? 34 then Some 34
  else if e =? 92 then Some 92
  else if e =? 47 then Some 47
  else if e =? 98 then Some 8
  else if e =? 102 then Some 12
  else if e =? 110 then Some 10
  else if e =? 114 then Some 13
  else if e =? 116 then Some 9
  else None.

Definition cons_char (c : char16) (r : option (jsstring * jsstring))
  : option (jsstring * jsstring) :=
  match r with
  | Some (s, rest) => Some (c :: s, rest)
  | None => None
  end.

(** A string literal after its opening quote: the string and what follows
    the closing quote. *)
Fixpoint parse_string_body (s : jsstring) : option (jsstring * jsstring) :=
  match s with
  | [] => None
  | c :: r =>
      if c =? 34 then Some ([], r)
      else if c =? 92 then
        match r with
        | [] => None
        | e :: r1 =>
            if e =? 117 then
              match r1 with
              | h1 :: h2 :: h3 :: h4 :: r2 =>
                  match hex4_value h1 h2 h3 h4 with
                  | Some u => cons_char u (parse_string_body r2)
                  | None => None
                  end
              | _ => None
              end
            else
              match simple_escape e with
              | Some u => cons_char u (parse_string_body r1)
              | None => None
              end
        end
      else if c <? 32 then None
      else cons_char c (parse_string_body r)
  end.

Definition digit_of_char (c : char16)
  : option (Decimal.uint -> Decimal.uint) :=
  if c =? 48 then Some Decimal.D0
  else if c =? 49 then Some Decimal.D1
  else if c =? 50 then Some Decimal.D2
  else if c =? 51 then Some Decimal.D3
  else if c =? 52 then Some Decimal.D4
  else if c =? 53 then Some Decimal.D5
  else if c =? 54 then Some Decimal.D6
  else if c =? 55 then Some Decimal.D7
  else if c =? 56 then Some Decimal.D8
  else if c =? 57 then Some Decimal.D9
  else None.

(** The longest prefix of decimal digits and what follows it. *)
Fixpoint take_digits (s : jsstring) : Decimal.uint * jsstring :=
  match s with
  | [] => (Decimal.Nil, [])
  | c :: r =>
      match digit_of_char c with
      | Some d => let '(u, rest) := take_digits r in (d u, rest)
      | None => (Decimal.Nil, s)
      end
  end.

(** Divide [m] by ten as long as the scale [k] allows and [m] ends in a
    zero. *)
Fixpoint strip_zeros (fuel : nat) (m : Z) (k : Z) : Z * Z :=
  match fuel with
  | O => (m, k)
  | S f =>
      if ((0 <? k) && (m mod 10 =? 0))%Z then strip_zeros f (m / 10)%Z (k - 1)%Z
      else (m, k)
  end.

(** The number denoted by the digits [ip . fp] times [10^ex]. *)
Definition decimal_value (negative : bool) (ip fp : Decimal.uint) (ex : Z)
  : JSNumber :=
  let m0 := Z.of_uint (Decimal.app ip fp) in
  let m := if negative then (- m0)%Z else m0 in
  let k0 := (Z.of_nat (Decimal.nb_digits fp) - ex)%Z in
  let '(m', k) := strip_zeros (Z.to_nat k0) m k0 in
  match k with
  | Zpos p => NumDecimal m' p
  | _ => NumInt (m' * 10 ^ (- k))%Z
  end.

(** The exponent part, if any: its value and what follows. *)
Definition parse_exponent (s : jsstring) : option (Z * jsstring) :=
  match s with
  | c :: r =>
      if (c =? 101) || (c =? 69) then
        let '(negative, r1) :=
          match r with
          | sg :: r' =>
              if sg =? 45 then (true, r')
              else if sg =? 43 then (false, r')
              else (false, r)
          | [] => (false, r)
          end in
        match take_digits r1 with
        | (Decimal.Nil, _) => None
        | (u, rest) =>
            Some (if negative then (- Z.of_uint u)%Z else Z.of_uint u, rest)
        end
      else Some (0%Z, s)
  | [] => Some (0%Z, s)
  end.

(** A number literal, [s] standing after the optional minus sign.  The
    value is the one the literal denotes; [JSON.parse] rounds it to the
    nearest 64-bit value, which is the same value for the integers of
    magnitude up to [2^53]. *)
Definition parse_number (negative : bool) (s : jsstring)
  : option (JSValue * jsstring) :=
  match take_digits s with
  | (Decimal.Nil, _) => None
  | (Decimal.D0 (Decimal.D0 _ | Decimal.D1 _ | Decimal.D2 _ | Decimal.D3 _
                 | Decimal.D4 _ | Decimal.D5 _ | Decimal.D6 _ | Decimal.D7 _
                 | Decimal.D8 _ | Decimal.D9 _), _) => None
  | (ip, r) =>
      match r with
      | c :: r1 =>
          if c =? 46 then
            match take_digits r1 with
            | (Decimal.Nil, _) => None
            | (fp, r2) =>
                match parse_exponent r2 with
                | Some (ex, r3) =>
                    Some (JNumber (decimal_value negative ip fp ex), r3)
                | None => None
                end
            end
          else if (c =? 101) || (c =? 69) then
            match parse_exponent r with
            | Some (ex, r3) =>
                Some (JNumber (decimal_value negative ip Decimal.Nil ex), r3)
            | None => None
            end
          else
            Some (JNumber (NumInt (if negative then - Z.of_uint ip
                                   else Z.of_uint ip)%Z), r)
      | [] =>
          Some (JNumber (NumInt (if negative then - Z.of_uint ip
                                 else Z.of_uint ip)%Z), r)
      end
  end.

(** [s] starts with the ASCII word [w]: what follows it. *)
Fixpoint expect (w s : jsstring) : option jsstring :=
  match w with
  | [] => Some s
  | a :: w' =>
      match s with
      | c :: r => if c =? a then expect w' r else None
      | [] => None
      end
  end.

(** Recursive descent over the JSON grammar.  [parse_members] and
    [parse_elements] stand before a member and before an element.  [fuel]
    bounds the number of nested calls; each of them is paid for by a
    character of the text, so the length of the text is fuel enough. *)
Fixpoint parse_value (fuel : nat) (s : jsstring) {struct fuel}
  : option (JSValue * jsstring) :=
  match fuel with
  | O => None
  | S f =>
      match skip_space s with
      | [] => None
      | c :: r =>
          if c =? 34 then
            match parse_string_body r with
            | Some (str, rest) => Some (JString str, rest)
            | None => None
            end
          else if c =? 123 then
            match skip_space r with
            | c1 :: r1 =>
                if c1 =? 125 then Some (JObject [], r1)
                else parse_members f [] r
            | [] => None
            end
          else if c =? 91 then
            match skip_space r with
            | c1 :: r1 =>
                if c1 =? 93 then Some (JArray [], r1)
                else parse_elements f [] r
            | [] => None
            end
          else if c =? 116 then
            match expect (lit "rue") r with
            | Some rest => Some (JBool true, rest)
            | None => None
            end
          else if c =? 102 then
            match expect (lit "alse") r with
            | Some rest => Some (JBool false, rest)
            | None => None
            end
          else if c =? 110 then
            match expect (lit "ull") r with
            | Some rest => Some (JNull, rest)
            | None => None
            end
          else if c =? 45 then parse_number true r
          else parse_number false (c :: r)
      end
  end

with parse_members (fuel : nat) (acc : Props) (s : jsstring) {struct fuel}
  : option (JSValue * jsstring) :=
  match fuel with
  | O => None
  | S f =>
      match skip_space s with
      | [] => None
      | q :: r =>
          if q =? 34 then
            match parse_string_body r with
            | Some (k, r1) =>
                match skip_space r1 with
                | colon :: r2 =>
                    if colon =? 58 then
                      match parse_value f r2 with
                      | Some (v, r3) =>
                          match skip_space r3 with
                          | sep :: r4 =>
                              if sep =? 44 then
                                parse_members f (set_prop acc k v) r4
                              else if sep =? 125 then
                                Some (JObject (set_prop acc k v), r4)
                              else None
                          | [] => None
                          end
                      | None => None
                      end
                    else None
                | [] => None
                end
            | None => None
            end
          else None
      end
  end

with parse_elements (fuel : nat) (acc : list JSValue) (s : jsstring)
  {struct fuel} : option (JSValue * jsstring) :=
  match fuel with
  | O => None
  | S f =>
      match parse_value f s with
      | Some (v, r1) =>
          match skip_space r1 with
          | sep :: r2 =>
              if sep =? 44 then parse_elements f (acc ++ [v]) r2
              else if sep =? 93 then Some (JArray (acc ++ [v]), r2)
              else None
          | [] => None
          end
      | None => None
      end
  end.

(** [JSON.parse] without reviver: one value, then only white space. *)
Definition JSON_parse (text : jsstring) : Result JSError JSValue :=
  match parse_value (S (length text)) text with
  | Some (v, rest) =>
      match skip_space rest with
      | [] => Ok v
      | _ :: _ => Throw SyntaxError
      end
  | None => Throw SyntaxError
  end.

(** ** Shapes used to state the properties of the two built-ins *)

(** [rest] does not continue a number: it is empty or starts with a comma
    or a closing brace. *)
Definition delimited (rest : jsstring) : Prop :=
  match rest with
  | [] => True
  | c :: _ => c = 44 \/ c = 125
  end.

(** The values the object literals of this program hold. *)
Definition scalar (v : JSValue) : Prop :=
  match v with
  | JNull | JBool _ | JString _ | JNumber (NumInt _) => True
  | _ => False
  end.

(** An object all of whose properties hold scalars. *)
Definition flat (ps : Props) : Prop := Forall (fun kv => scalar (snd kv)) ps.

(** The properties of [ps] defined one after the other on top of [acc]. *)
Definition add_all (acc ps : Props) : Props :=
  fold_left (fun a kv => set_prop a (fst kv) (snd kv)) ps acc.

(** The text of one member: the quoted ASCII name, a colon, the value. *)
Definition json_member (name : string) (value : jsstring) : jsstring :=
  34 :: lit name ++ 34 :: 58 :: value.

End JSON.

Import JSON.

(** Sequencing of computations that may throw. *)
Definition bind {E A B : Type} (m : Result E A) (f : A -> Result E B)
  : Result E B :=
  match m with
  | Ok a => f a
  | Throw e => Throw e
  end.

Notation "x <- m ;; k" := (bind m (fun x => k))
  (at level 61, m at next level, right associativity).

(* ================================================================== *)
(** * src/lib/types.ts *)
(* ================================================================== *)

(** The literal type ["1.0"] of the [version] fields. *)
Inductive SchemaVersion : Set := V1_0.

Definition version_text (v : SchemaVersion) : jsstring :=
  match v with V1_0 => lit "1.0" end.

(** Document bytes ([Buffer], [Uint8Array]). *)
Definition Bytes := list Byte.byte.

Module RealitySignature.

Record t : Type := make {
  version : SchemaVersion;
  document_hash : jsstring;
  intent_hash : jsstring;
  intent_text : jsstring;
  approver_id : jsstring;
  approver_name : jsstring;
  timestamp : Z;
  presence_proof_id : jsstring;
  presence_proof_hash : jsstring;
  ai_flag : bool;
  signature : jsstring;
  public_key : jsstring
}.

(** The property names in the order of the object literal that
    [createRealitySignature] returns. *)
Definition props (r : t) : Props :=
  [ (lit "version", JString (version_text (version r)));
    (lit "document_hash", JString (document_hash r));
    (lit "intent_hash", JString (intent_hash r));
    (lit "intent_text", JString (intent_text r));
    (lit "approver_id", JString (approver_id r));
    (lit "approver_name", JString (approver_name r));
    (lit "timestamp", JNumber (NumInt (timestamp r)));
    (lit "presence_proof_id", JString (presence_proof_id r));
    (lit "presence_proof_hash", JString (presence_proof_hash r));
    (lit "ai_flag", JBool (ai_flag r));
    (lit "signature", JString (signature r));
    (lit "public_key", JString (public_key r)) ].

(** The record as the JavaScript object it is at run time. *)
Definition to_value (r : t) : JSValue := JObject (props r).

(** The names of the ten signed fields. *)
Definition signed_fields : list jsstring :=
  [ lit "version"; lit "document_hash"; lit "intent_hash"; lit "intent_text";
    lit "approver_id"; lit "approver_name"; lit "timestamp";
    lit "presence_proof_id"; lit "presence_proof_hash"; lit "ai_flag" ].

End RealitySignature.

Module SignaturePayloadFields.

Record t : Type := make {
  version : SchemaVersion;
  document_hash : jsstring;
  intent_hash : jsstring;
  intent_text : jsstring;
  approver_id : jsstring;
  approver_name : jsstring;
  timestamp : Z;
  presence_proof_id : jsstring;
  presence_proof_hash : jsstring;
  ai_flag : bool
}.

End SignaturePayloadFields.

Module RealitySignatureParams.

(** [ai_flag] is optional: [None] is an absent (or [undefined]) property. *)
Record t : Type := make {
  document_hash : jsstring;
  intent_hash : jsstring;
  intent_text : jsstring;
  approver_id : jsstring;
  approver_name : jsstring;
  timestamp : Z;
  presence_proof_id : jsstring;
  presence_proof_hash : jsstring;
  ai_flag : option bool
}.

End RealitySignatureParams.

(* ================================================================== *)
(** * The platform: node:crypto, TextEncoder, Buffer, @noble/ed25519 *)
(* ================================================================== *)

Record Platform : Type := {
  (** [createHash('sha256').update(b).digest('hex')] *)
  sha256_hex : Bytes -> jsstring;
  (** [new TextEncoder().encode(s)] *)
  utf8_encode : jsstring -> Bytes;
  (** [Buffer.from(b).toString('base64')] *)
  base64_encode : Bytes -> jsstring;
  (** [Buffer.from(s, 'base64')] *)
  base64_decode : jsstring -> Bytes;
  (** [ed.sign(message, privateKey)] *)
  ed25519_sign : Bytes -> Bytes -> Result JSError Bytes;
  (** [ed.getPublicKey(privateKey)] *)
  ed25519_getPublicKey : Bytes -> Result JSError Bytes;
  (** [ed.verify(signature, message, publicKey)] *)
  ed25519_verify : Bytes -> Bytes -> Bytes -> Result JSError bool
}.

(* ================================================================== *)
(** * src/lib/crypto/hash.ts and src/lib/crypto/signing.ts *)
(* ================================================================== *)

Module Signing.

Definition hashDocument (P : Platform) (buffer : Bytes) : jsstring :=
  sha256_hex P buffer.

(** [createHash('sha256').update(text, 'utf8').digest('hex')]. *)
Definition hashString (P : Platform) (text : jsstring) : jsstring :=
  sha256_hex P (utf8_encode P text).

Definition hashIntent (P : Platform) (normalize_NFC : jsstring -> jsstring)
    (text : jsstring) : jsstring :=
  let canonical := Hash.canonicalizeIntent normalize_NFC text in
  hashString P canonical.

Definition sign (P : Platform) (payload : jsstring) (privateKey : Bytes)
  : Result JSError jsstring :=
  let messageBytes := utf8_encode P payload in
  signatureBytes <- ed25519_sign P messageBytes privateKey ;;
  Ok (base64_encode P signatureBytes).

(** [verify] of signing.ts: whatever is thrown inside is caught and turned
    into [false]. *)
Definition verify (P : Platform) (payload signature publicKey : jsstring)
  : bool :=
  let messageBytes := utf8_encode P payload in
  let signatureBytes := base64_decode P signature in
  let publicKeyBytes := base64_decode P publicKey in
  match ed25519_verify P signatureBytes messageBytes publicKeyBytes with
  | Ok b => b
  | Throw _ => false
  end.

End Signing.

(* ================================================================== *)
(** * src/lib/signature/payload.ts *)
(* ================================================================== *)

Module Payload.

(** The object literal [payload] of [buildSignaturePayload]. *)
Definition canonical_payload (fields : SignaturePayloadFields.t) : Props :=
  [ (lit "v", JString (version_text (SignaturePayloadFields.version fields)));
    (lit "dh", JString (SignaturePayloadFields.document_hash fields));
    (lit "ih", JString (SignaturePayloadFields.intent_hash fields));
    (lit "it", JString (SignaturePayloadFields.intent_text fields));
    (lit "ai", JString (SignaturePayloadFields.approver_id fields));
    (lit "an", JString (SignaturePayloadFields.approver_name fields));
    (lit "ts", JNumber (NumInt (SignaturePayloadFields.timestamp fields)));
    (lit "pp", JString (SignaturePayloadFields.presence_proof_id fields));
    (lit "pph", JString (SignaturePayloadFields.presence_proof_hash fields));
    (lit "af", JBool (SignaturePayloadFields.ai_flag fields)) ].

Definition buildSignaturePayload (fields : SignaturePayloadFields.t)
  : jsstring :=
  stringify_object (canonical_payload fields).

(** [buildSignaturePayload] with the text of the number left to
    [Number_toString]. *)
Definition buildSignaturePayload_with (Number_toString : Z -> jsstring)
    (fields : SignaturePayloadFields.t) : jsstring :=
  stringify_object_with Number_toString (canonical_payload fields).

Definition extractPayloadFields (signature : RealitySignature.t)
  : SignaturePayloadFields.t :=
  {| SignaturePayloadFields.version := RealitySignature.version signature;
     SignaturePayloadFields.document_hash :=
       RealitySignature.document_hash signature;
     SignaturePayloadFields.intent_hash :=
       RealitySignature.intent_hash signature;
     SignaturePayloadFields.intent_text :=
       RealitySignature.intent_text signature;
     SignaturePayloadFields.approver_id :=
       RealitySignature.approver_id signature;
     SignaturePayloadFields.approver_name :=
       RealitySignature.approver_name signature;
     SignaturePayloadFields.timestamp := RealitySignature.timestamp signature;
     SignaturePayloadFields.presence_proof_id :=
       RealitySignature.presence_proof_id signature;
     SignaturePayloadFields.presence_proof_hash :=
       RealitySignature.presence_proof_hash signature;
     SignaturePayloadFields.ai_flag := RealitySignature.ai_flag signature |}.

(** The ten short keys in the order of the object literal. *)
Definition payload_keys : list jsstring :=
  [ lit "v"; lit "dh"; lit "ih"; lit "it"; lit "ai"; lit "an"; lit "ts";
    lit "pp"; lit "pph"; lit "af" ].

End Payload.

(* ================================================================== *)
(** * src/lib/signature/create.ts *)
(* ================================================================== *)

Module Create.
Import Payload.

Definition createRealitySignature (P : Platform)
    (params : RealitySignatureParams.t) (privateKey : Bytes)
  : Result JSError RealitySignature.t :=
  let ai := match RealitySignatureParams.ai_flag params with
            | Some b => b
            | None => false
            end in
  let payloadFields :=
    {| SignaturePayloadFields.version := V1_0;
       SignaturePayloadFields.document_hash :=
         RealitySignatureParams.document_hash params;
       SignaturePayloadFields.intent_hash :=
         RealitySignatureParams.intent_hash params;
       SignaturePayloadFields.intent_text :=
         RealitySignatureParams.intent_text params;
       SignaturePayloadFields.approver_id :=
         RealitySignatureParams.approver_id params;
       SignaturePayloadFields.approver_name :=
         RealitySignatureParams.approver_name params;
       SignaturePayloadFields.timestamp :=
         RealitySignatureParams.timestamp params;
       SignaturePayloadFields.presence_proof_id :=
         RealitySignatureParams.presence_proof_id params;
       SignaturePayloadFields.presence_proof_hash :=
         RealitySignatureParams.presence_proof_hash params;
       SignaturePayloadFields.ai_flag := ai |} in
  let payload := buildSignaturePayload payloadFields in
  signature <- Signing.sign P payload privateKey ;;
  publicKeyBytes <- ed25519_getPublicKey P privateKey ;;
  let publicKey := base64_encode P publicKeyBytes in
  Ok {| RealitySignature.version := V1_0;
        RealitySignature.document_hash :=
          RealitySignatureParams.document_hash params;
        RealitySignature.intent_hash :=
          RealitySignatureParams.intent_hash params;
        RealitySignature.intent_text :=
          RealitySignatureParams.intent_text params;
        RealitySignature.approver_id :=
          RealitySignatureParams.approver_id params;
        RealitySignature.approver_name :=
          RealitySignatureParams.approver_name params;
        RealitySignature.timestamp := RealitySignatureParams.timestamp params;
        RealitySignature.presence_proof_id :=
          RealitySignatureParams.presence_proof_id params;
        RealitySignature.presence_proof_hash :=
          RealitySignatureParams.presence_proof_hash params;
        RealitySignature.ai_flag := ai;
        RealitySignature.signature := signature;
        RealitySignature.public_key := publicKey |}.

(** The object literal [serialized] of [serializeRealitySignature]. *)
Definition serialized (sig : RealitySignature.t) : Props :=
  [ (lit "v", JString (version_text (RealitySignature.version sig)));
    (lit "dh", JString (RealitySignature.document_hash sig));
    (lit "ih", JString (RealitySignature.intent_hash sig));
    (lit "it", JString (RealitySignature.intent_text sig));
    (lit "ai", JString (RealitySignature.approver_id sig));
    (lit "an", JString (RealitySignature.approver_name sig));
    (lit "ts", JNumber (NumInt (RealitySignature.timestamp sig)));
    (lit "pp", JString (RealitySignature.presence_proof_id sig));
    (lit "pph", JString (RealitySignature.presence_proof_hash sig));
    (lit "af", JBool (RealitySignature.ai_flag sig));
    (lit "sg", JString (RealitySignature.signature sig));
    (lit "pk", JString (RealitySignature.public_key sig)) ].

Definition serializeRealitySignature (sig : RealitySignature.t) : jsstring :=
  stringify_object (serialized sig).

(** [x === "1.0"]. *)
Definition is_version_1_0 (x : JSValue) : bool :=
  match x with
  | JString s => jsstring_eqb s (lit "1.0")
  | _ => false
  end.

(** [deserializeRealitySignature]: the result is an object with the twelve
    long names, each holding what the parsed value has under the short key
    ([undefined] when it has none). *)
Definition deserializeRealitySignature (json : jsstring)
  : Result JSError JSValue :=
  parsed <- JSON_parse json ;;
  v <- get parsed (lit "v") ;;
  if negb (is_version_1_0 v) then Throw (Error "Invalid signature version")
  else
    dh <- get parsed (lit "dh") ;;
    ih <- get parsed (lit "ih") ;;
    it <- get parsed (lit "it") ;;
    ai <- get parsed (lit "ai") ;;
    an <- get parsed (lit "an") ;;
    ts <- get parsed (lit "ts") ;;
    pp <- get parsed (lit "pp") ;;
    pph <- get parsed (lit "pph") ;;
    af <- get parsed (lit "af") ;;
    sg <- get parsed (lit "sg") ;;
    pk <- get parsed (lit "pk") ;;
    Ok (JObject
          [ (lit "version", v);
            (lit "document_hash", dh);
            (lit "intent_hash", ih);
            (lit "intent_text", it);
            (lit "approver_id", ai);
            (lit "approver_name", an);
            (lit "timestamp", ts);
            (lit "presence_proof_id", pp);
            (lit "presence_proof_hash", pph);
            (lit "ai_flag", af);
            (lit "signature", sg);
            (lit "public_key", pk) ]).

(** [JSON.stringify(sig)]: the record under its long names. *)
Definition stringify_long (sig : RealitySignature.t) : jsstring :=
  stringify_object (RealitySignature.props sig).

End Create.

(* ================================================================== *)
(** * The route POST /api/verify *)
(* ================================================================== *)

Module VerifyRoute.

(** [parseSignature]: the compact form is renamed, anything else is passed
    on as it was parsed. *)
Definition parseSignature (json : jsstring) : Result JSError JSValue :=
  parsed <- JSON_parse json ;;
  has_v <- has_property (lit "v") parsed ;;
  has_version <- (if has_v then has_property (lit "version") parsed
                  else Ok false) ;;
  if has_v && negb has_version then
    v <- get parsed (lit "v") ;;
    dh <- get parsed (lit "dh") ;;
    ih <- get parsed (lit "ih") ;;
    it <- get parsed (lit "it") ;;
    ai <- get parsed (lit "ai") ;;
    an <- get parsed (lit "an") ;;
    ts <- get parsed (lit "ts") ;;
    pp <- get parsed (lit "pp") ;;
    pph <- get parsed (lit "pph") ;;
    af <- get parsed (lit "af") ;;
    sg <- get parsed (lit "sg") ;;
    pk <- get parsed (lit "pk") ;;
    Ok (JObject
          [ (lit "version", v);
            (lit "document_hash", dh);
            (lit "intent_hash", ih);
            (lit "intent_text", it);
            (lit "approver_id", ai);
            (lit "approver_name", an);
            (lit "timestamp", ts);
            (lit "presence_proof_id", pp);
            (lit "presence_proof_hash", pph);
            (lit "ai_flag", af);
            (lit "signature", sg);
            (lit "public_key", pk) ])
  else Ok parsed.

End VerifyRoute.

(* ================================================================== *)
(** * src/lib/verification/verify.ts *)
(* ================================================================== *)

Module Verify.
Import Payload.

Inductive VerificationError : Set :=
| document_altered
| signature_not_authentic
| invalid_signature_format.

Inductive DocumentIntegrity : Set := intact | altered | unknown.

(** The union [VerificationResult]; the fields [valid], [error] and
    [document_integrity], fixed for each member, are the functions below. *)
Inductive VerificationResult : Type :=
| VerificationSuccess (approver_id approver_name : jsstring)
    (timestamp : Z) (ai_used : bool)
| VerificationFailureDocumentAltered (computed_hash expected_hash : jsstring)
| VerificationFailureInvalidSignature
| VerificationFailureMalformed.

Definition valid (r : VerificationResult) : bool :=
  match r with
  | VerificationSuccess _ _ _ _ => true
  | _ => false
  end.

Definition error (r : VerificationResult) : option VerificationError :=
  match r with
  | VerificationSuccess _ _ _ _ => None
  | VerificationFailureDocumentAltered _ _ => Some document_altered
  | VerificationFailureInvalidSignature => Some signature_not_authentic
  | VerificationFailureMalformed => Some invalid_signature_format
  end.

Definition document_integrity (r : VerificationResult) : DocumentIntegrity :=
  match r with
  | VerificationSuccess _ _ _ _ => intact
  | VerificationFailureDocumentAltered _ _ => altered
  | VerificationFailureInvalidSignature => unknown
  | VerificationFailureMalformed => unknown
  end.

(** [sig.k] once [sig] is known to be a non-null object. *)
Definition member (sig : JSValue) (k : jsstring) : JSValue :=
  match sig with
  | JObject ps =>
      match lookup k ps with
      | Some x => x
      | None => JUndefined
      end
  | _ => JUndefined
  end.

Definition is_lower_hex (c : char16) : bool :=
  ((48 <=? c) && (c <=? 57)) || ((97 <=? c) && (c <=? 102)).

(** [/^[0-9a-f]{64}$/.test(s)]. *)
Definition is_hex64 (s : jsstring) : bool :=
  (length s =? 64)%nat && forallb is_lower_hex s.

(** [typeof x === 'string' && /^[0-9a-f]{64}$/.test(x)]. *)
Definition is_hex64_string (x : JSValue) : bool :=
  match x with
  | JString s => is_hex64 s
  | _ => false
  end.

(** [typeof x === 'string' && x.length !== 0]. *)
Definition is_nonempty_string (x : JSValue) : bool :=
  match x with
  | JString s => negb (length s =? 0)%nat
  | _ => false
  end.

(** [typeof x === 'number' && Number.isInteger(x) && x > 0]. *)
Definition is_positive_integer (x : JSValue) : bool :=
  match x with
  | JNumber (NumInt z) => negb (z <=? 0)%Z
  | _ => false
  end.

(** [typeof x === 'boolean']. *)
Definition is_boolean (x : JSValue) : bool :=
  match x with
  | JBool _ => true
  | _ => false
  end.

Definition is_null (x : JSValue) : bool :=
  match x with
  | JNull => true
  | _ => false
  end.

Definition isValidSignatureFormat (signature : JSValue) : bool :=
  if negb (typeof_object signature) || is_null signature then false
  else
    let sig := signature in
    if negb (Create.is_version_1_0 (member sig (lit "version"))) then false
    else if negb (is_hex64_string (member sig (lit "document_hash"))) then false
    else if negb (is_hex64_string (member sig (lit "intent_hash"))) then false
    else if negb (is_nonempty_string (member sig (lit "intent_text"))) then false
    else if negb (is_nonempty_string (member sig (lit "approver_id"))) then false
    else if negb (is_nonempty_string (member sig (lit "approver_name"))) then false
    else if negb (is_positive_integer (member sig (lit "timestamp"))) then false
    else if negb (is_nonempty_string (member sig (lit "presence_proof_id")))
    then false
    else if negb (is_hex64_string (member sig (lit "presence_proof_hash")))
    then false
    else if negb (is_boolean (member sig (lit "ai_flag"))) then false
    else if negb (is_nonempty_string (member sig (lit "signature"))) then false
    else if negb (is_nonempty_string (member sig (lit "public_key"))) then false
    else true.

(** The type guard [signature is RealitySignature]: the value read as a
    record, when each property has the type the interface declares. *)
Definition narrow (signature : JSValue) : option RealitySignature.t :=
  match member signature (lit "version"),
        member signature (lit "document_hash"),
        member signature (lit "intent_hash"),
        member signature (lit "intent_text"),
        member signature (lit "approver_id"),
        member signature (lit "approver_name"),
        member signature (lit "timestamp"),
        member signature (lit "presence_proof_id"),
        member signature (lit "presence_proof_hash"),
        member signature (lit "ai_flag"),
        member signature (lit "signature"),
        member signature (lit "public_key") with
  | JString v, JString dh, JString ih, JString it, JString ai, JString an,
    JNumber (NumInt ts), JString pp, JString pph, JBool af,
    JString sg, JString pk =>
      if jsstring_eqb v (lit "1.0") then
        Some {| RealitySignature.version := V1_0;
                RealitySignature.document_hash := dh;
                RealitySignature.intent_hash := ih;
                RealitySignature.intent_text := it;
                RealitySignature.approver_id := ai;
                RealitySignature.approver_name := an;
                RealitySignature.timestamp := ts;
                RealitySignature.presence_proof_id := pp;
                RealitySignature.presence_proof_hash := pph;
                RealitySignature.ai_flag := af;
                RealitySignature.signature := sg;
                RealitySignature.public_key := pk |}
      else None
  | _, _, _, _, _, _, _, _, _, _, _, _ => None
  end.

(** [verify] of verify.ts. *)
Definition verify (P : Platform) (document : Bytes) (signature : JSValue)
  : VerificationResult :=
  (* Step 1: validate signature format *)
  if negb (isValidSignatureFormat signature) then VerificationFailureMalformed
  else
    match narrow signature with
    | None => VerificationFailureMalformed
    | Some sig =>
        (* Step 2: compute document hash *)
        let computedHash := Signing.hashDocument P document in
        (* Step 3: compare document hashes *)
        if negb (jsstring_eqb computedHash (RealitySignature.document_hash sig))
        then VerificationFailureDocumentAltered
               computedHash (RealitySignature.document_hash sig)
        else
          (* Step 4: reconstruct canonical payload *)
          let payloadFields := extractPayloadFields sig in
          let payload := buildSignaturePayload payloadFields in
          (* Step 5: verify cryptographic signature *)
          let isSignatureValid :=
            Signing.verify P payload (RealitySignature.signature sig)
                           (RealitySignature.public_key sig) in
          if negb isSignatureValid then VerificationFailureInvalidSignature
          else
            (* Step 6: return success with approver details *)
            VerificationSuccess
              (RealitySignature.approver_id sig)
              (RealitySignature.approver_name sig)
              (RealitySignature.timestamp sig)
              (RealitySignature.ai_flag sig)
    end.

(** The format constraints of step 1 on a typed record. *)
Definition well_formed (r : RealitySignature.t) : bool :=
  is_hex64 (RealitySignature.document_hash r)
  && is_hex64 (RealitySignature.intent_hash r)
  && negb (length (RealitySignature.intent_text r) =? 0)%nat
  && negb (length (RealitySignature.approver_id r) =? 0)%nat
  && negb (length (RealitySignature.approver_name r) =? 0)%nat
  && negb (RealitySignature.timestamp r <=? 0)%Z
  && negb (length (RealitySignature.presence_proof_id r) =? 0)%nat
  && is_hex64 (RealitySignature.presence_proof_hash r)
  && negb (length (RealitySignature.signature r) =? 0)%nat
  && negb (length (RealitySignature.public_key r) =? 0)%nat.

(** The same constraints on the parameters of [createRealitySignature]. *)
Definition well_formed_params (p : RealitySignatureParams.t) : bool :=
  is_hex64 (RealitySignatureParams.document_hash p)
  && is_hex64 (RealitySignatureParams.intent_hash p)
  && negb (length (RealitySignatureParams.intent_text p) =? 0)%nat
  && negb (length (RealitySignatureParams.approver_id p) =? 0)%nat
  && negb (length (RealitySignatureParams.approver_name p) =? 0)%nat
  && negb (RealitySignatureParams.timestamp p <=? 0)%Z
  && negb (length (RealitySignatureParams.presence_proof_id p) =? 0)%nat
  && is_hex64 (RealitySignatureParams.presence_proof_hash p).

(** A failure result with one of the three error codes. *)
Definition detected (r : VerificationResult) : Prop :=
  valid r = false
  /\ (error r = Some invalid_signature_format
      \/ error r = Some document_altered
      \/ error r = Some signature_not_authentic).

(** The record with one property overwritten. *)
Definition tamper (r : RealitySignature.t) (k : jsstring) (x : JSValue)
  : JSValue :=
  JObject (set_prop (RealitySignature.props r) k x).

End Verify.

(* ================================================================== *)
(** * What the properties assume of the platform *)
(* ================================================================== *)

(** The platform with another [ed.verify]. *)
Definition with_ed25519_verify (P : Platform)
    (g : Bytes -> Bytes -> Bytes -> Result JSError bool) : Platform :=
  {| sha256_hex := sha256_hex P;
     utf8_encode := utf8_encode P;
     base64_encode := base64_encode P;
     base64_decode := base64_decode P;
     ed25519_sign := ed25519_sign P;
     ed25519_getPublicKey := ed25519_getPublicKey P;
     ed25519_verify := g |}.

(** Functional correctness of base64 and of Ed25519 (RFC 4648, RFC 8032):
    decoding undoes encoding, only the empty buffer encodes to the empty
    string, a private key that has a public key signs every message,
    signatures and public keys are not empty, and a signature verifies
    against the message it signs under the matching public key. *)
Record PlatformLaws (P : Platform) : Prop := {
  base64_decode_encode :
    forall b, base64_decode P (base64_encode P b) = b;
  base64_encode_nonempty :
    forall b, b <> [] -> base64_encode P b <> [];
  ed25519_sign_defined :
    forall m sk pk, ed25519_getPublicKey P sk = Ok pk ->
                    exists s, ed25519_sign P m sk = Ok s;
  ed25519_signature_nonempty :
    forall m sk s, ed25519_sign P m sk = Ok s -> s <> [];
  ed25519_public_key_nonempty :
    forall sk pk, ed25519_getPublicKey P sk = Ok pk -> pk <> [];
  ed25519_verify_sign :
    forall m sk s pk,
      ed25519_sign P m sk = Ok s -> ed25519_getPublicKey P sk = Ok pk ->
      ed25519_verify P s m pk = Ok true
}.

(** Idealised unforgeability for one record: among the well-formed texts,
    which are the ones the encoder of [Signing.verify] tells apart, its
    signature verifies, under its public key, for no payload other than the
    one that was signed. *)
Definition signature_binds (P : Platform) (r : RealitySignature.t) : Prop :=
  forall payload',
    isWellFormed payload' = true ->
    Signing.verify P payload' (RealitySignature.signature r)
                   (RealitySignature.public_key r) = true ->
    payload' = Payload.buildSignaturePayload (Payload.extractPayloadFields r).

(* ================================================================== *)
(** * A small platform on which the definitions evaluate *)
(* ================================================================== *)

Module Sample.

(** Lower-case hexadecimal of the bytes themselves. *)
Definition hex (b : Bytes) : jsstring :=
  flat_map (fun x => [hex_digit (Byte.to_N x / 16);
                      hex_digit (Byte.to_N x mod 16)]) b.

(** A self-delimiting, injective encoding of a code unit: its binary digits,
    least significant first. *)
Fixpoint positive_bytes (p : positive) : Bytes :=
  match p with
  | xH => [x03]
  | xO q => x00 :: positive_bytes q
  | xI q => x01 :: positive_bytes q
  end%byte.

Definition unit_bytes (c : char16) : Bytes :=
  match c with
  | N0 => [x02]%byte
  | Npos p => positive_bytes p
  end.

Definition encode (s : jsstring) : Bytes := flat_map unit_bytes s.

(** One character for each byte. *)
Definition armour (b : Bytes) : jsstring := map Byte.to_N b.

Definition dearmour (s : jsstring) : Bytes :=
  map (fun c => match Byte.of_N c with Some x => x | None => x00%byte end) s.

Fixpoint bytes_eqb (a b : Bytes) : bool :=
  match a, b with
  | [], [] => true
  | x :: a', y :: b' => Byte.eqb x y && bytes_eqb a' b'
  | _, _ => false
  end.

(** A keyed tag in place of Ed25519: the public key is the private key and
    the signature is the key followed by the message.  Keys are 32 bytes. *)
Definition tag_sign (m sk : Bytes) : Result JSError Bytes :=
  if (length sk =? 32)%nat then Ok (sk ++ m)
  else Throw (Error "invalid private key").

Definition tag_getPublicKey (sk : Bytes) : Result JSError Bytes :=
  if (length sk =? 32)%nat then Ok sk
  else Throw (Error "invalid private key").

Definition tag_verify (s m pk : Bytes) : Result JSError bool :=
  if (length pk =? 32)%nat then Ok (bytes_eqb s (pk ++ m))
  else Throw (Error "invalid public key").

Definition platform : Platform :=
  {| sha256_hex := hex;
     utf8_encode := encode;
     base64_encode := armour;
     base64_decode := dearmour;
     ed25519_sign := tag_sign;
     ed25519_getPublicKey := tag_getPublicKey;
     ed25519_verify := tag_verify |}.

(** Thirty-two bytes of document. *)
Definition document : Bytes :=
  list_byte_of_string "hello, this document has 32 byte".

(** The same bytes but for the second one. *)
Definition document' : Bytes :=
  list_byte_of_string "hullo, this document has 32 byte".

Definition key : Bytes := repeat x07%byte 32.

Definition params : RealitySignatureParams.t :=
  {| RealitySignatureParams.document_hash := hex document;
     RealitySignatureParams.intent_hash := repeat 97 64;
     RealitySignatureParams.intent_text := lit "Approve X";
     RealitySignatureParams.approver_id := lit "user-123";
     RealitySignatureParams.approver_name := lit "Test User";
     RealitySignatureParams.timestamp := 1234567890123;
     RealitySignatureParams.presence_proof_id := lit "proof-456";
     RealitySignatureParams.presence_proof_hash := repeat 98 64;
     RealitySignatureParams.ai_flag := Some true |}.

(** The record [createRealitySignature platform params key] returns. *)
Definition record : RealitySignature.t :=
  let payload :=
    Payload.buildSignaturePayload
      {| SignaturePayloadFields.version := V1_0;
         SignaturePayloadFields.document_hash := hex document;
         SignaturePayloadFields.intent_hash := repeat 97 64;
         SignaturePayloadFields.intent_text := lit "Approve X";
         SignaturePayloadFields.approver_id := lit "user-123";
         SignaturePayloadFields.approver_name := lit "Test User";
         SignaturePayloadFields.timestamp := 1234567890123;
         SignaturePayloadFields.presence_proof_id := lit "proof-456";
         SignaturePayloadFields.presence_proof_hash := repeat 98 64;
         SignaturePayloadFields.ai_flag := true |} in
  {| RealitySignature.version := V1_0;
     RealitySignature.document_hash := hex document;
     RealitySignature.intent_hash := repeat 97 64;
     RealitySignature.intent_text := lit "Approve X";
     RealitySignature.approver_id := lit "user-123";
     RealitySignature.approver_name := lit "Test User";
     RealitySignature.timestamp := 1234567890123;
     RealitySignature.presence_proof_id := lit "proof-456";
     RealitySignature.presence_proof_hash := repeat 98 64;
     RealitySignature.ai_flag := true;
     RealitySignature.signature := armour (key ++ encode payload);
     RealitySignature.public_key := armour key |}.

End Sample.

(* ================================================================== *)
(** * Sequences of session operations *)
(* ================================================================== *)

Module SessionTrace.
Import Session.

Local Open Scope Z_scope.

(** A call made on a session: [approveSession] with the two clock readings
    and the signature reference, or [expireSession]. *)
Inductive Operation : Type :=
| Approve (now stamp : Z) (signatureId : jsstring)
| Expire.

(** The session the caller holds after the call: the returned session, or
    the one it had when [approveSession] throws. *)
Definition apply (s : ApprovalSession) (op : Operation) : ApprovalSession :=
  match op with
  | Approve now stamp signatureId =>
      match approveSession now stamp s signatureId with
      | Ok s' => s'
      | Throw _ => s
      end
  | Expire => expireSession s
  end.

Definition run (s : ApprovalSession) (ops : list Operation)
  : ApprovalSession :=
  fold_left apply ops s.

(** The call returns a session. *)
Definition accepted (s : ApprovalSession) (op : Operation) : bool :=
  match op with
  | Approve now stamp signatureId =>
      match approveSession now stamp s signatureId with
      | Ok _ => true
      | Throw _ => false
      end
  | Expire => false
  end.

(** The number of approvals that are accepted along the sequence. *)
Fixpoint approvals (s : ApprovalSession) (ops : list Operation) : nat :=
  match ops with
  | [] => O
  | op :: r =>
      ((if accepted s op then 1 else 0) + approvals (apply s op) r)%nat
  end.

(** The fields no session operation writes. *)
Definition same_subject (a b : ApprovalSession) : Prop :=
  id a = id b
  /\ secure_token a = secure_token b
  /\ document_hash a = document_hash b
  /\ document_path a = document_path b
  /\ document_name a = document_name b
  /\ intent_text a = intent_text b
  /\ intent_hash a = intent_hash b
  /\ created_at a = created_at b
  /\ expires_at a = expires_at b.

(** What the status says about the two approval fields. *)
Definition coherent (s : ApprovalSession) : Prop :=
  match status s with
  | pending => approved_at s = None /\ signature_id s = None
  | approved =>
      exists stamp sig, approved_at s = Some stamp /\ signature_id s = Some sig
  | expired =>
      (approved_at s = None /\ signature_id s = None)
      \/ exists stamp sig,
           approved_at s = Some stamp /\ signature_id s = Some sig
  end.

End SessionTrace.

(* ================================================================== *)
(** * src/lib/storage/memory-store.ts *)
(* ================================================================== *)

Module MemoryStore.

(** The messages of the [Error]s thrown by the store:
    ["Item with id '<id>' already exists"] and
    ["Item with id '<id>' not found"]. *)
Inductive StoreError : Type :=
| AlreadyExists (id : jsstring)
| NotFound (id : jsstring).

Section Store.

(** The item type, its [id] property, the type of [Partial<T>] and the
    object literal [{ ...existing, ...updates, id }]. *)
Variable T : Type.
Variable item_id : T -> jsstring.
Variable Partial : Type.
Variable assign : T -> Partial -> jsstring -> T.

(** The private [Map<string, T>]: its entries in insertion order. *)
Definition t : Type := list (jsstring * T).

Definition empty : t := [].

(** [Map.prototype.get]. *)
Fixpoint map_get (m : t) (k : jsstring) : option T :=
  match m with
  | [] => None
  | (k', v) :: r => if jsstring_eqb k k' then Some v else map_get r k
  end.

(** [Map.prototype.has]. *)
Definition map_has (m : t) (k : jsstring) : bool :=
  match map_get m k with
  | Some _ => true
  | None => false
  end.

(** [Map.prototype.set]: a present key keeps its place. *)
Fixpoint map_set (m : t) (k : jsstring) (v : T) : t :=
  match m with
  | [] => [(k, v)]
  | (k', v') :: r =>
      if jsstring_eqb k k' then (k', v) :: r else (k', v') :: map_set r k v
  end.

(** [Map.prototype.delete]: the map without the key. *)
Fixpoint map_remove (m : t) (k : jsstring) : t :=
  match m with
  | [] => []
  | (k', v') :: r =>
      if jsstring_eqb k k' then map_remove r k
      else (k', v') :: map_remove r k
  end.

(** [create]: the returned item and the store after the call. *)
Definition create (m : t) (item : T) : Result StoreError (T * t) :=
  if map_has m (item_id item) then Throw (AlreadyExists (item_id item))
  else Ok (item, map_set m (item_id item) item).

(** [get]; [None] is [undefined]. *)
Definition get (m : t) (id : jsstring) : option T := map_get m id.

(** [update]. *)
Definition update (m : t) (id : jsstring) (updates : Partial)
  : Result StoreError (T * t) :=
  match map_get m id with
  | None => Throw (NotFound id)
  | Some existing =>
      let updated := assign existing updates id in
      Ok (updated, map_set m id updated)
  end.

(** [delete]: what [Map.prototype.delete] returns and the store after. *)
Definition delete (m : t) (id : jsstring) : bool * t :=
  (map_has m id, map_remove m id).

(** [getAll]. *)
Definition getAll (m : t) : list T := map snd m.

(** [clear]. *)
Definition clear (m : t) : t := [].

(** Every key is held once and is the [id] of its item. *)
Definition well_keyed (m : t) : Prop :=
  NoDup (map fst m) /\ Forall (fun kv => item_id (snd kv) = fst kv) m.

(** A call of one of the methods that write. *)
Inductive Call : Type :=
| CallCreate (item : T)
| CallUpdate (id : jsstring) (updates : Partial)
| CallDelete (id : jsstring)
| CallClear.

(** The store after the call (unchanged when the call throws). *)
Definition after (m : t) (c : Call) : t :=
  match c with
  | CallCreate item =>
      match create m item with
      | Ok (_, m') => m'
      | Throw _ => m
      end
  | CallUpdate id updates =>
      match update m id updates with
      | Ok (_, m') => m'
      | Throw _ => m
      end
  | CallDelete id => snd (delete m id)
  | CallClear => clear m
  end.

End Store.

Arguments empty {T}.
Arguments map_get {T} m k.
Arguments map_has {T} m k.
Arguments map_set {T} m k v.
Arguments map_remove {T} m k.
Arguments create {T} item_id m item.
Arguments get {T} m id.
Arguments update {T Partial} assign m id updates.
Arguments delete {T} m id.
Arguments getAll {T} m.
Arguments clear {T} m.
Arguments well_keyed {T} item_id m.
Arguments CallCreate {T Partial} item.
Arguments CallUpdate {T Partial} id updates.
Arguments CallDelete {T Partial} id.
Arguments CallClear {T Partial}.
Arguments after {T} item_id {Partial} assign m c.

(** [Partial<ApprovalSession>]: each property present or absent. *)
Record SessionUpdates : Type := {
  u_id : option jsstring;
  u_secure_token : option jsstring;
  u_document_hash : option jsstring;
  u_document_path : option jsstring;
  u_document_name : option jsstring;
  u_intent_text : option jsstring;
  u_intent_hash : option jsstring;
  u_status : option Session.ApprovalSessionStatus;
  u_created_at : option Z;
  u_expires_at : option Z;
  u_approved_at : option (option Z);
  u_signature_id : option (option jsstring)
}.

Definition or_else {A : Type} (o : option A) (d : A) : A :=
  match o with
  | Some a => a
  | None => d
  end.

(** [{ ...existing, ...updates, id }] for sessions. *)
Definition assign_session (existing : Session.ApprovalSession)
    (updates : SessionUpdates) (id : jsstring) : Session.ApprovalSession :=
  {| Session.id := id;
     Session.secure_token :=
       or_else (u_secure_token updates) (Session.secure_token existing);
     Session.document_hash :=
       or_else (u_document_hash updates) (Session.document_hash existing);
     Session.document_path :=
       or_else (u_document_path updates) (Session.document_path existing);
     Session.document_name :=
       or_else (u_document_name updates) (Session.document_name existing);
     Session.intent_text :=
       or_else (u_intent_text updates) (Session.intent_text existing);
     Session.intent_hash :=
       or_else (u_intent_hash updates) (Session.intent_hash existing);
     Session.status := or_else (u_status updates) (Session.status existing);
     Session.created_at :=
       or_else (u_created_at updates) (Session.created_at existing);
     Session.expires_at :=
       or_else (u_expires_at updates) (Session.expires_at existing);
     Session.approved_at :=
       or_else (u_approved_at updates) (Session.approved_at existing);
     Session.signature_id :=
       or_else (u_signature_id updates) (Session.signature_id existing) |}.

(** A whole session passed as [updates], as the approve route does. *)
Definition all_of (s : Session.ApprovalSession) : SessionUpdates :=
  {| u_id := Some (Session.id s);
     u_secure_token := Some (Session.secure_token s);
     u_document_hash := Some (Session.document_hash s);
     u_document_path := Some (Session.document_path s);
     u_document_name := Some (Session.document_name s);
     u_intent_text := Some (Session.intent_text s);
     u_intent_hash := Some (Session.intent_hash s);
     u_status := Some (Session.status s);
     u_created_at := Some (Session.created_at s);
     u_expires_at := Some (Session.expires_at s);
     u_approved_at := Some (Session.approved_at s);
     u_signature_id := Some (Session.signature_id s) |}.

(** [sessionStore]. *)
Definition SessionStore : Type := t Session.ApprovalSession.

(** [findSessionByToken]: [Array.prototype.find] over [getAll()]. *)
Definition findSessionByToken (m : SessionStore) (token : jsstring)
  : option Session.ApprovalSession :=
  find (fun s => jsstring_eqb (Session.secure_token s) token) (getAll m).

End MemoryStore.

(* ================================================================== *)
(** * Objects within objects *)
(* ================================================================== *)

Module JSONNested.

(** Object literals nested in one another, with scalars at the leaves and
    no property name twice in one object. *)
#[warnings="-register-all"]
Inductive nested : JSValue -> Prop :=
| nested_scalar (v : JSValue) : scalar v -> nested v
| nested_object (ps : Props) :
    NoDup (map fst ps) -> Forall (fun kv => nested (snd kv)) ps ->
    nested (JObject ps).

(** [v] is written by [JSON.stringify] as a text that [JSON.parse] reads
    back as [v], whatever delimiter follows. *)
Definition readable (v : JSValue) : Prop :=
  exists t, SerializeJSONProperty v = Some t
    /\ forall rest, delimited rest ->
         exists f, parse_value f (t ++ rest) = Some (v, rest).

End JSONNested.

(* ================================================================== *)
(** * Truthiness and [typeof] *)
(* ================================================================== *)

Module Truthiness.

(** [ToBoolean]: what [!v] negates. *)
Definition to_boolean (v : JSValue) : bool :=
  match v with
  | JUndefined | JNull => false
  | JBool b => b
  | JNumber (NumInt z) => negb (z =? 0)%Z
  | JNumber (NumDecimal m _) => negb (m =? 0)%Z
  | JNumber NumNaN => false
  | JNumber (NumInfinity _) => true
  | JString s => negb (length s =? 0)%nat
  | JArray _ | JObject _ => true
  end.

(** [typeof v === 'string']. *)
Definition typeof_string (v : JSValue) : bool :=
  match v with
  | JString _ => true
  | _ => false
  end.

(** [typeof v === 'number']. *)
Definition typeof_number (v : JSValue) : bool :=
  match v with
  | JNumber _ => true
  | _ => false
  end.

End Truthiness.

(* ================================================================== *)
(** * src/lib/presence/presence-proof.ts *)
(* ================================================================== *)

Module PresenceProof.
Import Truthiness.

Local Open Scope Z_scope.

(** The three flags.  Their declared type is [boolean]; at run time they
    are what the caller passed, and the module tests them with [!]. *)
Record Acknowledgments : Type := mkAcknowledgments {
  understands_approval : JSValue;
  is_authorized : JSValue;
  acting_knowingly : JSValue
}.

Record ChallengeResult : Type := mkChallengeResult {
  completed : bool;
  completed_at : Z
}.

Record t : Type := make {
  id : jsstring;
  session_id : jsstring;
  challenge_completed : bool;
  challenge_completed_at : Z;
  acknowledgments : Acknowledgments;
  acknowledged_at : Z
}.

(** The error class of the module, with its message. *)
Inductive PresenceError : Type :=
| AcknowledgmentsIncompleteError (message : string).

Definition validateAcknowledgments (acks : Acknowledgments)
  : Result PresenceError bool :=
  if negb (to_boolean (understands_approval acks)) then
    Throw (AcknowledgmentsIncompleteError
             "Approver must understand what they are approving")
  else if negb (to_boolean (is_authorized acks)) then
    Throw (AcknowledgmentsIncompleteError
             "Approver must be authorized to approve")
  else if negb (to_boolean (acting_knowingly acks)) then
    Throw (AcknowledgmentsIncompleteError
             "Approver must be acting knowingly and voluntarily")
  else Ok true.

(** [createPresenceProof]; [uuid] is the value of [uuidv4()] and [now] the
    value of [Date.now()]. *)
Definition createPresenceProof (uuid : jsstring) (now : Z)
    (sessionId : jsstring) (challengeResult : ChallengeResult)
    (acks : Acknowledgments) : Result PresenceError t :=
  _ <- validateAcknowledgments acks ;;
  Ok {| id := uuid;
        session_id := sessionId;
        challenge_completed := completed challengeResult;
        challenge_completed_at := completed_at challengeResult;
        acknowledgments :=
          {| understands_approval := understands_approval acks;
             is_authorized := is_authorized acks;
             acting_knowingly := acting_knowingly acks |};
        acknowledged_at := now |}.

(** The object literal that [hashPresenceProof] stringifies. *)
Definition canonical (proof : t) : Props :=
  [ (lit "id", JString (id proof));
    (lit "sid", JString (session_id proof));
    (lit "cc", JBool (challenge_completed proof));
    (lit "cca", JNumber (NumInt (challenge_completed_at proof)));
    (lit "ack",
      JObject
        [ (lit "ua", understands_approval (acknowledgments proof));
          (lit "ia", is_authorized (acknowledgments proof));
          (lit "ak", acting_knowingly (acknowledgments proof)) ]);
    (lit "aa", JNumber (NumInt (acknowledged_at proof))) ].

Definition hashPresenceProof (P : Platform) (proof : t) : jsstring :=
  Signing.hashString P (stringify_object (canonical proof)).

(** The flags are booleans, as the interface declares. *)
Definition boolean_flags (proof : t) : Prop :=
  Verify.is_boolean (understands_approval (acknowledgments proof)) = true
  /\ Verify.is_boolean (is_authorized (acknowledgments proof)) = true
  /\ Verify.is_boolean (acting_knowingly (acknowledgments proof)) = true.

End PresenceProof.

(* ================================================================== *)
(** * Texts of white space *)
(* ================================================================== *)

Module HashShape.

(** A string that holds nothing but white space. *)
Definition blank (s : jsstring) : Prop :=
  Forall (fun ch => is_whitespace ch = true) s.

(** What is assumed of NFC normalisation: it is idempotent, and white
    space, which neither decomposes nor composes, can be replaced by a
    space or a line feed or dropped next to other white space or at an end
    without leaving the normal form. *)
Definition nfc_laws (normalize : jsstring -> jsstring) : Prop :=
  (forall s, Hash.normal_form normalize (normalize s))
  /\ (forall a w b, is_whitespace w = true ->
        Hash.normal_form normalize (a ++ w :: b) ->
        Hash.normal_form normalize (a ++ SP :: b))
  /\ (forall a w b, is_whitespace w = true ->
        Hash.normal_form normalize (a ++ w :: b) ->
        Hash.normal_form normalize (a ++ LF :: b))
  /\ (forall a w1 w2 b, is_whitespace w1 = true -> is_whitespace w2 = true ->
        Hash.normal_form normalize (a ++ w1 :: w2 :: b) ->
        Hash.normal_form normalize (a ++ w2 :: b))
  /\ (forall a w1 w2 b, is_whitespace w1 = true -> is_whitespace w2 = true ->
        Hash.normal_form normalize (a ++ w1 :: w2 :: b) ->
        Hash.normal_form normalize (a ++ w1 :: b))
  /\ (forall w b, is_whitespace w = true ->
        Hash.normal_form normalize (w :: b) -> Hash.normal_form normalize b)
  /\ (forall a w, is_whitespace w = true ->
        Hash.normal_form normalize (a ++ [w]) ->
        Hash.normal_form normalize a).

End HashShape.

(* ================================================================== *)
(** * What [verify] reads of its argument *)
(* ================================================================== *)

Module VerifyReads.
Import Verify.

(** The twelve property names of a Reality Signature. *)
Definition field_names : list jsstring :=
  RealitySignature.signed_fields ++ [lit "signature"; lit "public_key"].

(** Two values that answer alike to [typeof], to the comparison with
    [null] and to the reading of each of the twelve properties. *)
Definition same_fields (v v' : JSValue) : Prop :=
  typeof_object v = typeof_object v'
  /\ is_null v = is_null v'
  /\ forall k, In k field_names -> member v k = member v' k.

End VerifyReads.

(* ================================================================== *)
(** * Multipart form data *)
(* ================================================================== *)

Module Form.

(** What [formData.get] returns: [null], a [File] with its name, MIME type
    and bytes, or a string. *)
Inductive FormDataEntryValue : Type :=
| NoEntry
| FileEntry (name type : jsstring) (content : Bytes)
| StringEntry (s : jsstring).

(** [!x] is [false]: a [File] is an object, a string counts unless it is
    empty. *)
Definition truthy (x : FormDataEntryValue) : bool :=
  match x with
  | NoEntry => false
  | FileEntry _ _ _ => true
  | StringEntry s => negb (length s =? 0)%nat
  end.

End Form.

(* ================================================================== *)
(** * The route POST /api/verify: the handler *)
(* ================================================================== *)

Module VerifyApi.
Import Form Verify.

(** A response: [errorResponse(code, message, status)], or the JSON of a
    verification result with status 200, to which the handler adds a
    [message] when the signature could not be parsed. *)
Inductive Response : Type :=
| ErrorResponse (code message : string) (status : Z)
| ResultResponse (result : VerificationResult) (message : option string).

(** [POST].  [utf8_decode] is [Buffer.prototype.toString('utf-8')]; [form]
    is [None] when [request.formData()] rejects, else the entries
    [document] and [signature]. *)
Definition POST (P : Platform) (utf8_decode : Bytes -> jsstring)
    (form : option (FormDataEntryValue * FormDataEntryValue)) : Response :=
  match form with
  | None => ErrorResponse "INTERNAL_ERROR" "Failed to verify signature" 500
  | Some (documentFile, signatureData) =>
      match documentFile with
      | FileEntry _ _ documentBuffer =>
          if negb (truthy signatureData) then
            ErrorResponse "INVALID_SIGNATURE" "Signature is required" 400
          else
            match
              match signatureData with
              | FileEntry _ _ sigArrayBuffer => Some (utf8_decode sigArrayBuffer)
              | StringEntry s => Some s
              | NoEntry => None
              end
            with
            | None =>
                ErrorResponse "INVALID_SIGNATURE"
                  "Signature must be a file or JSON string" 400
            | Some signatureJson =>
                match VerifyRoute.parseSignature signatureJson with
                | Throw _ =>
                    ResultResponse VerificationFailureMalformed
                      (Some "Failed to parse signature JSON"%string)
                | Ok signature =>
                    ResultResponse (verify P documentBuffer signature) None
                end
            end
      | _ => ErrorResponse "INVALID_FILE" "Document file is required" 400
      end
  end.

End VerifyApi.

(* ================================================================== *)
(** * cli/verify.ts: the standalone verifier *)
(* ================================================================== *)

Module Cli.
Import Truthiness.

(** The interface [RealitySignature] of the verifier: the short keys. *)
Record Signature : Type := mkSignature {
  v : jsstring;
  dh : jsstring;
  ih : jsstring;
  it : jsstring;
  ai : jsstring;
  an : jsstring;
  ts : JSNumber;
  pp : jsstring;
  pph : jsstring;
  af : bool;
  sg : jsstring;
  pk : jsstring
}.

Inductive Check : Set := pass | fail.

Record Details : Type := mkDetails {
  approver_id : jsstring;
  approver_name : jsstring;
  timestamp : jsstring;
  intent : jsstring;
  ai_used : bool
}.

Record VerificationResult : Type := mkResult {
  valid : bool;
  document_integrity : Check;
  signature_validity : Check;
  format_valid : Check;
  details : option Details;
  error : option jsstring
}.

(** The error of [Date.prototype.toISOString] on an invalid date. *)
Inductive CliError : Set := RangeError.

Definition hashDocument (P : Platform) (buffer : Bytes) : jsstring :=
  sha256_hex P buffer.

Definition buildPayload (sig : Signature) : jsstring :=
  stringify_object
    [ (lit "v", JString (v sig));
      (lit "dh", JString (dh sig));
      (lit "ih", JString (ih sig));
      (lit "it", JString (it sig));
      (lit "ai", JString (ai sig));
      (lit "an", JString (an sig));
      (lit "ts", JNumber (ts sig));
      (lit "pp", JString (pp sig));
      (lit "pph", JString (pph sig));
      (lit "af", JBool (af sig)) ].

(** [verifySignature]: whatever is thrown is caught and turned into
    [false]. *)
Definition verifySignature (P : Platform)
    (payload signature publicKey : jsstring) : bool :=
  let signatureBytes := base64_decode P signature in
  let publicKeyBytes := base64_decode P publicKey in
  let messageBytes := utf8_encode P payload in
  match ed25519_verify P signatureBytes messageBytes publicKeyBytes with
  | Ok b => b
  | Throw _ => false
  end.

(** [typeof str === 'string' && /^[a-f0-9]{64}$/.test(str)]. *)
Definition isValidHex64 (str : JSValue) : bool :=
  match str with
  | JString s => Verify.is_hex64 s
  | _ => false
  end.

Definition validateSignatureFormat (sig : JSValue) : bool :=
  if negb (to_boolean sig) || negb (typeof_object sig) then false
  else
    let s := Verify.member sig in
    Create.is_version_1_0 (s (lit "v"))
    && isValidHex64 (s (lit "dh"))
    && isValidHex64 (s (lit "ih"))
    && typeof_string (s (lit "it"))
    && typeof_string (s (lit "ai"))
    && typeof_string (s (lit "an"))
    && typeof_number (s (lit "ts"))
    && typeof_string (s (lit "pp"))
    && isValidHex64 (s (lit "pph"))
    && Verify.is_boolean (s (lit "af"))
    && typeof_string (s (lit "sg"))
    && typeof_string (s (lit "pk")).

(** The type guard [sig is RealitySignature]: the value read as a record
    when each property has the type the interface declares. *)
Definition narrow (sig : JSValue) : option Signature :=
  let s := Verify.member sig in
  match s (lit "v"), s (lit "dh"), s (lit "ih"), s (lit "it"), s (lit "ai"),
        s (lit "an"), s (lit "ts"), s (lit "pp"), s (lit "pph"),
        s (lit "af"), s (lit "sg"), s (lit "pk") with
  | JString v, JString dh, JString ih, JString it, JString ai, JString an,
    JNumber ts, JString pp, JString pph, JBool af, JString sg, JString pk =>
      Some (mkSignature v dh ih it ai an ts pp pph af sg pk)
  | _, _, _, _, _, _, _, _, _, _, _, _ => None
  end.

(** The result returned when a file cannot be read or the format is
    wrong. *)
Definition failure (message : jsstring) : VerificationResult :=
  {| valid := false;
     document_integrity := fail;
     signature_validity := fail;
     format_valid := fail;
     details := None;
     error := Some message |}.

Section Verify.

Variable P : Platform.

(** [fs.readFileSync(path)]: [None] when it throws. *)
Variable readFileSync : jsstring -> option Bytes.

(** The decoding of [fs.readFileSync(path, 'utf-8')]. *)
Variable utf8_decode : Bytes -> jsstring.

(** [new Date(ts).toISOString()]: [None] when it throws a [RangeError]. *)
Variable toISOString : JSNumber -> option jsstring.

(** [verify]; [Throw] is a rejected promise. *)
Definition verify (documentPath signaturePath : jsstring)
  : Result CliError VerificationResult :=
  match readFileSync documentPath with
  | None => Ok (failure (lit "Cannot read document: " ++ documentPath))
  | Some documentBuffer =>
      match
        match readFileSync signaturePath with
        | None => None
        | Some sigContent =>
            match JSON_parse (utf8_decode sigContent) with
            | Ok x => Some x
            | Throw _ => None
            end
        end
      with
      | None =>
          Ok (failure (lit "Cannot read or parse signature: " ++ signaturePath))
      | Some signatureJson =>
          if negb (validateSignatureFormat signatureJson) then
            Ok (failure (lit "Invalid signature format"))
          else
            match narrow signatureJson with
            | None => Ok (failure (lit "Invalid signature format"))
            | Some sig =>
                let computedHash := hashDocument P documentBuffer in
                let documentIntegrity :=
                  if jsstring_eqb computedHash (dh sig) then pass else fail in
                let payload := buildPayload sig in
                let signatureValid :=
                  verifySignature P payload (sg sig) (pk sig) in
                let signatureValidity :=
                  if signatureValid then pass else fail in
                let valid :=
                  match documentIntegrity, signatureValidity with
                  | pass, pass => true
                  | _, _ => false
                  end in
                match toISOString (ts sig) with
                | None => Throw RangeError
                | Some iso =>
                    Ok {| valid := valid;
                          document_integrity := documentIntegrity;
                          signature_validity := signatureValidity;
                          format_valid := pass;
                          details :=
                            Some {| approver_id := ai sig;
                                    approver_name := an sig;
                                    timestamp := iso;
                                    intent := it sig;
                                    ai_used := af sig |};
                          error :=
                            if negb valid then
                              match documentIntegrity with
                              | fail => Some (lit "Document has been altered")
                              | pass => Some (lit "Signature is not authentic")
                              end
                            else None |}
                end
            end
      end
  end.

(** [main]: the exit code of the process, for the arguments after the
    script name. *)
Definition main (args : list jsstring) : Z :=
  match args with
  | [documentPath; signaturePath] =>
      match verify documentPath signaturePath with
      | Ok result => if valid result then 0%Z else 1%Z
      | Throw _ => 1%Z
      end
  | _ => 1%Z
  end.

End Verify.

(** The record as the verifier reads it from a file written by
    [serializeRealitySignature]. *)
Definition of_record (r : RealitySignature.t) : Signature :=
  {| v := version_text (RealitySignature.version r);
     dh := RealitySignature.document_hash r;
     ih := RealitySignature.intent_hash r;
     it := RealitySignature.intent_text r;
     ai := RealitySignature.approver_id r;
     an := RealitySignature.approver_name r;
     ts := NumInt (RealitySignature.timestamp r);
     pp := RealitySignature.presence_proof_id r;
     pph := RealitySignature.presence_proof_hash r;
     af := RealitySignature.ai_flag r;
     sg := RealitySignature.signature r;
     pk := RealitySignature.public_key r |}.

End Cli.

(* ================================================================== *)
(** * Files on which the standalone verifier evaluates *)
(* ================================================================== *)

Module CliSample.

(** The three digests of a record are 64 lower-case hexadecimal
    characters. *)
Definition hex_fields (r : RealitySignature.t) : bool :=
  Verify.is_hex64 (RealitySignature.document_hash r)
  && Verify.is_hex64 (RealitySignature.intent_hash r)
  && Verify.is_hex64 (RealitySignature.presence_proof_hash r).

(** The files of the two witnesses: the sample document under the name
    [doc] and, under any other name, a file that decodes to the serialized
    sample record. *)
Definition sample_files (path : jsstring) : option Bytes :=
  if jsstring_eqb path (lit "doc") then Some Sample.document else Some [].

Definition sample_decode (_ : Bytes) : jsstring :=
  Create.serializeRealitySignature Sample.record.

Definition sample_date (_ : JSNumber) : option jsstring :=
  Some (lit "2009-02-13T23:31:30.123Z").

End CliSample.

(* ================================================================== *)
(** * The route POST /api/approvals/[id]/approve *)
(* ================================================================== *)

Module ApproveApi.
Import Truthiness Session.

Local Open Scope Z_scope.

(** [{ id: signatureId, ...realitySignature }]. *)
Record StoredRealitySignature : Type := mkStored {
  stored_id : jsstring;
  stored_signature : RealitySignature.t
}.

(** The three stores of memory-store.ts, the number of times [Date.now()]
    has been read and the number of times [uuidv4()] has been called. *)
Record World : Type := mkWorld {
  sessionStore : MemoryStore.t ApprovalSession;
  signatureStore : MemoryStore.t StoredRealitySignature;
  presenceProofStore : MemoryStore.t PresenceProof.t;
  ticks : nat;
  draws : nat
}.

(** What the handler can throw. *)
Inductive Exception : Type :=
| JSException (e : JSError)
| StoreException (e : MemoryStore.StoreError)
| SessionException (e : SessionError)
| PresenceException (e : PresenceProof.PresenceError).

(** [error.message], where the text is fixed by the source; the texts of
    the engine's own [SyntaxError] and [TypeError] are not. *)
Definition message_of (e : Exception) : option jsstring :=
  match e with
  | JSException (Error m) => Some (lit m)
  | JSException _ => None
  | StoreException (MemoryStore.AlreadyExists id) =>
      Some (lit "Item with id '" ++ id ++ lit "' already exists")
  | StoreException (MemoryStore.NotFound id) =>
      Some (lit "Item with id '" ++ id ++ lit "' not found")
  | SessionException SESSION_EXPIRED => Some (lit "SESSION_EXPIRED")
  | SessionException SESSION_ALREADY_APPROVED =>
      Some (lit "SESSION_ALREADY_APPROVED")
  | PresenceException (PresenceProof.AcknowledgmentsIncompleteError m) =>
      Some (lit m)
  end.

(** [error.message === text]. *)
Definition message_is (e : Exception) (text : string) : bool :=
  match message_of e with
  | Some m => jsstring_eqb m (lit text)
  | None => false
  end.

(** A response: [errorResponse(code, message, status)] or
    [NextResponse.json(body, { status })]. *)
Inductive Response : Type :=
| ErrorResponse (code message : string) (status : Z)
| JsonResponse (body : JSValue) (status : Z).

(** Computations that read and write the world and may throw; what was
    written before a throw stays written. *)
Definition M (A : Type) : Type := World -> Result Exception A * World.

Definition ret {A : Type} (a : A) : M A := fun w => (Ok a, w).

Definition seq {A B : Type} (m : M A) (k : A -> M B) : M B :=
  fun w =>
    match m w with
    | (Ok a, w') => k a w'
    | (Throw e, w') => (Throw e, w')
    end.

Definition raise {A : Type} (e : Exception) : M A := fun w => (Throw e, w).

Definition lift {E A : Type} (inj : E -> Exception) (r : Result E A) : M A :=
  match r with
  | Ok a => ret a
  | Throw e => raise (inj e)
  end.

Notation "x <~ m ;; k" := (seq m (fun x => k))
  (at level 61, m at next level, right associativity).

Definition set_sessionStore (s : MemoryStore.t ApprovalSession) (w : World)
  : World :=
  mkWorld s (signatureStore w) (presenceProofStore w) (ticks w) (draws w).

Definition set_signatureStore (s : MemoryStore.t StoredRealitySignature)
    (w : World) : World :=
  mkWorld (sessionStore w) s (presenceProofStore w) (ticks w) (draws w).

Definition set_presenceProofStore (s : MemoryStore.t PresenceProof.t)
    (w : World) : World :=
  mkWorld (sessionStore w) (signatureStore w) s (ticks w) (draws w).

(** [s.trim()] once [typeof s === 'string'] holds. *)
Definition trimmed (x : JSValue) : jsstring :=
  match x with
  | JString s => trim s
  | _ => []
  end.

(** [!x || typeof x !== 'string' || x.trim().length === 0]. *)
Definition missing_text (x : JSValue) : bool :=
  negb (to_boolean x) || negb (typeof_string x)
  || (length (trimmed x) =? 0)%nat.

(** The argument [acknowledgments] as the presence module reads it. *)
Definition acknowledgments_of (a : JSValue) : PresenceProof.Acknowledgments :=
  {| PresenceProof.understands_approval :=
       Verify.member a (lit "understands_approval");
     PresenceProof.is_authorized := Verify.member a (lit "is_authorized");
     PresenceProof.acting_knowingly :=
       Verify.member a (lit "acting_knowingly") |}.

(** [presenceProofStore.get(x)]: the keys of the map are strings. *)
Definition find_proof (store : MemoryStore.t PresenceProof.t) (x : JSValue)
  : option (jsstring * PresenceProof.t) :=
  match x with
  | JString s =>
      match MemoryStore.get store s with
      | Some proof => Some (s, proof)
      | None => None
      end
  | _ => None
  end.

(** The four properties the handler reads of the request body. *)
Definition body_reads (body approver_id approver_name acknowledgments
    presence_proof_id : JSValue) : Prop :=
  get body (lit "approver_id") = Ok approver_id
  /\ get body (lit "approver_name") = Ok approver_name
  /\ get body (lit "acknowledgments") = Ok acknowledgments
  /\ get body (lit "presence_proof_id") = Ok presence_proof_id.

(** The three checks of the body pass. *)
Definition accepted_fields (approver_id approver_name acknowledgments
    : JSValue) : Prop :=
  missing_text approver_id = false
  /\ missing_text approver_name = false
  /\ to_boolean acknowledgments = true
  /\ typeof_object acknowledgments = true.

(** The three stores are the same. *)
Definition same_stores (w w' : World) : Prop :=
  sessionStore w' = sessionStore w
  /\ signatureStore w' = signatureStore w
  /\ presenceProofStore w' = presenceProofStore w.

(** The parameters the handler passes to [createRealitySignature]. *)
Definition signature_params (session : ApprovalSession)
    (approver_id approver_name : jsstring) (timestamp : Z)
    (presence_proof_id presence_proof_hash : jsstring)
  : RealitySignatureParams.t :=
  {| RealitySignatureParams.document_hash := document_hash session;
     RealitySignatureParams.intent_hash := intent_hash session;
     RealitySignatureParams.intent_text := intent_text session;
     RealitySignatureParams.approver_id := approver_id;
     RealitySignatureParams.approver_name := approver_name;
     RealitySignatureParams.timestamp := timestamp;
     RealitySignatureParams.presence_proof_id := presence_proof_id;
     RealitySignatureParams.presence_proof_hash := presence_proof_hash;
     RealitySignatureParams.ai_flag := Some false |}.

(** The session [approveSession] returns. *)
Definition approved_session (session : ApprovalSession) (stamp : Z)
    (signatureId : jsstring) : ApprovalSession :=
  {| id := id session;
     secure_token := secure_token session;
     document_hash := document_hash session;
     document_path := document_path session;
     document_name := document_name session;
     intent_text := intent_text session;
     intent_hash := intent_hash session;
     status := approved;
     created_at := created_at session;
     expires_at := expires_at session;
     approved_at := Some stamp;
     signature_id := Some signatureId |}.

Section Handler.

Variable P : Platform.

(** The successive values of [Date.now()] and of [uuidv4()]. *)
Variable now : nat -> Z.
Variable uuid : nat -> jsstring.

(** The value of [getSystemKey()] for this request. *)
Variable privateKey : Bytes.

Definition Date_now : M Z :=
  fun w =>
    (Ok (now (ticks w)),
     mkWorld (sessionStore w) (signatureStore w) (presenceProofStore w)
       (S (ticks w)) (draws w)).

Definition uuidv4 : M jsstring :=
  fun w =>
    (Ok (uuid (draws w)),
     mkWorld (sessionStore w) (signatureStore w) (presenceProofStore w)
       (ticks w) (S (draws w))).

(** [canApprove] with its reading of the clock, which it makes for a
    pending session only. *)
Definition canApprove_io (session : ApprovalSession) : M bool :=
  if negb (status_eqb (status session) pending) then ret false
  else n <~ Date_now ;; ret (canApprove n session).

(** [approveSession] with its readings of the clock: one in [canApprove]
    for a pending session, one for [approved_at] when the approval goes
    through. *)
Definition approveSession_io (session : ApprovalSession)
    (signatureId : jsstring) : M ApprovalSession :=
  can <~ canApprove_io session ;;
  if negb can then
    raise (SessionException
             (if status_eqb (status session) expired then SESSION_EXPIRED
              else SESSION_ALREADY_APPROVED))
  else
    stamp <~ Date_now ;;
    ret (approved_session session stamp signatureId).

(** [createPresenceProof] with its draw of an id and its reading of the
    clock, both made after the validation. *)
Definition createPresenceProof_io (sessionId : jsstring)
    (challengeResult : PresenceProof.ChallengeResult)
    (acks : PresenceProof.Acknowledgments) : M PresenceProof.t :=
  _ <~ lift PresenceException (PresenceProof.validateAcknowledgments acks) ;;
  u <~ uuidv4 ;;
  n <~ Date_now ;;
  lift PresenceException
    (PresenceProof.createPresenceProof u n sessionId challengeResult acks).

(** The methods of the three stores on the world. *)
Definition presenceProofStore_create (proof : PresenceProof.t)
  : M PresenceProof.t :=
  fun w =>
    match MemoryStore.create PresenceProof.id (presenceProofStore w) proof with
    | Ok (item, store) => (Ok item, set_presenceProofStore store w)
    | Throw e => (Throw (StoreException e), w)
    end.

Definition signatureStore_create (item : StoredRealitySignature)
  : M StoredRealitySignature :=
  fun w =>
    match MemoryStore.create stored_id (signatureStore w) item with
    | Ok (item', store) => (Ok item', set_signatureStore store w)
    | Throw e => (Throw (StoreException e), w)
    end.

Definition sessionStore_update (id : jsstring)
    (updates : MemoryStore.SessionUpdates) : M ApprovalSession :=
  fun w =>
    match MemoryStore.update MemoryStore.assign_session
            (sessionStore w) id updates with
    | Ok (item, store) => (Ok item, set_sessionStore store w)
    | Throw e => (Throw (StoreException e), w)
    end.

Definition sessionStore_get (id : jsstring) : M (option ApprovalSession) :=
  fun w => (Ok (MemoryStore.get (sessionStore w) id), w).

Definition presenceProofStore_find (x : JSValue)
  : M (option (jsstring * PresenceProof.t)) :=
  fun w => (Ok (find_proof (presenceProofStore w) x), w).

(** Lines 100 to 109: the answer for a session that cannot be approved. *)
Definition refusal (session : ApprovalSession) : M Response :=
  if status_eqb (status session) expired then
    ret (ErrorResponse "SESSION_EXPIRED" "Approval session has expired" 400)
  else
    n <~ Date_now ;;
    if n >? expires_at session then
      ret (ErrorResponse "SESSION_EXPIRED" "Approval session has expired" 400)
    else if status_eqb (status session) approved then
      ret (ErrorResponse "SESSION_ALREADY_APPROVED"
             "Session already has a signature" 400)
    else
      ret (ErrorResponse "SESSION_CANNOT_APPROVE"
             "Session cannot be approved" 400).

(** Lines 121 to 142: the id and the hash of the presence proof to use, a
    new one or the one referred to; [None] when that one is not found. *)
Definition presence_to_use (session : ApprovalSession)
    (acks : PresenceProof.Acknowledgments) (presence_proof_id : JSValue)
  : M (option (jsstring * jsstring)) :=
  if negb (to_boolean presence_proof_id) then
    completed_at <~ Date_now ;;
    presenceProof <~ createPresenceProof_io (Session.id session)
                       (PresenceProof.mkChallengeResult true completed_at)
                       acks ;;
    _ <~ presenceProofStore_create presenceProof ;;
    ret (Some (PresenceProof.id presenceProof,
               PresenceProof.hashPresenceProof P presenceProof))
  else
    existing <~ presenceProofStore_find presence_proof_id ;;
    match existing with
    | None => ret None
    | Some (key, existingProof) =>
        ret (Some (key, PresenceProof.hashPresenceProof P existingProof))
    end.

(** Lines 144 to 177: the signature is made and stored, the session is
    approved and updated, the signature is returned. *)
Definition sign_and_store (session : ApprovalSession)
    (approver_id approver_name : JSValue)
    (presenceProofIdToUse presenceProofHashToUse : jsstring) : M Response :=
  timestamp <~ Date_now ;;
  realitySignature <~
    lift JSException
      (Create.createRealitySignature P
         (signature_params session (trimmed approver_id)
            (trimmed approver_name) timestamp
            presenceProofIdToUse presenceProofHashToUse)
         privateKey) ;;
  signatureId <~ uuidv4 ;;
  _ <~ signatureStore_create (mkStored signatureId realitySignature) ;;
  approvedSession <~ approveSession_io session signatureId ;;
  _ <~ sessionStore_update (Session.id session)
         (MemoryStore.all_of approvedSession) ;;
  parsed <~ lift JSException
              (JSON_parse (Create.serializeRealitySignature realitySignature)) ;;
  ret (JsonResponse parsed 200).

(** The body of the [try] block of [POST]; [body] is [None] when
    [request.json()] rejects. *)
Definition handler (body : option JSValue) (id : jsstring) : M Response :=
  match body with
  | None =>
      ret (ErrorResponse "INVALID_JSON" "Request body must be valid JSON" 400)
  | Some body =>
      approver_id <~ lift JSException (get body (lit "approver_id")) ;;
      approver_name <~ lift JSException (get body (lit "approver_name")) ;;
      acknowledgments <~
        lift JSException (get body (lit "acknowledgments")) ;;
      presence_proof_id <~
        lift JSException (get body (lit "presence_proof_id")) ;;
      if missing_text approver_id then
        ret (ErrorResponse "INVALID_APPROVER_ID" "Approver ID is required"
               400)
      else if missing_text approver_name then
        ret (ErrorResponse "INVALID_APPROVER_NAME" "Approver name is required"
               400)
      else if negb (to_boolean acknowledgments)
              || negb (typeof_object acknowledgments) then
        ret (ErrorResponse "INVALID_ACKNOWLEDGMENTS"
               "Acknowledgments object is required" 400)
      else
        found <~ sessionStore_get id ;;
        match found with
        | None =>
            ret (ErrorResponse "SESSION_NOT_FOUND"
                   "Approval session not found" 404)
        | Some session =>
            can <~ canApprove_io session ;;
            if negb can then refusal session
            else
              let acks := acknowledgments_of acknowledgments in
              match PresenceProof.validateAcknowledgments acks with
              | Throw (PresenceProof.AcknowledgmentsIncompleteError message) =>
                  ret (ErrorResponse "ACKNOWLEDGMENTS_INCOMPLETE" message 400)
              | Ok _ =>
                  presence <~ presence_to_use session acks presence_proof_id ;;
                  match presence with
                  | None =>
                      ret (ErrorResponse "PRESENCE_PROOF_NOT_FOUND"
                             "Referenced presence proof not found" 400)
                  | Some (presenceProofIdToUse, presenceProofHashToUse) =>
                      sign_and_store session approver_id approver_name
                        presenceProofIdToUse presenceProofHashToUse
                  end
              end
        end
  end.

(** The [catch] block of [POST]. *)
Definition on_error (e : Exception) : Response :=
  if message_is e "SESSION_EXPIRED" then
    ErrorResponse "SESSION_EXPIRED" "Approval session has expired" 400
  else if message_is e "SESSION_ALREADY_APPROVED" then
    ErrorResponse "SESSION_ALREADY_APPROVED" "Session already has a signature"
      400
  else ErrorResponse "INTERNAL_ERROR" "Failed to approve session" 500.

(** [POST]: the response and the world after the request. *)
Definition POST (body : option JSValue) (id : jsstring) (w : World)
  : Response * World :=
  match handler body id w with
  | (Ok response, w') => (response, w')
  | (Throw e, w') => (on_error e, w')
  end.

End Handler.

(** A world, a clock, an id generator and a request on which the handler
    evaluates. *)
Module ApproveSample.

Definition now (n : nat) : Z := 1000 + Z.of_nat n.

Definition uuid (n : nat) : jsstring := lit "id-" ++ repeat 49%N n.

Definition session : ApprovalSession :=
  createSession (fun text => text) 0 (lit "s-1") (lit "t-1")
    (Sample.hex Sample.document) (lit "uploads/x.pdf") (lit "x.pdf")
    (lit "Approve X").

Definition world : World :=
  mkWorld [(lit "s-1", session)] [] [] 0 0.

Definition acknowledgments : JSValue :=
  JObject [ (lit "understands_approval", JBool true);
            (lit "is_authorized", JBool true);
            (lit "acting_knowingly", JBool true) ].

Definition body : JSValue :=
  JObject [ (lit "approver_id", JString (lit " user-123 "));
            (lit "approver_name", JString (lit "Test User"));
            (lit "acknowledgments", acknowledgments) ].

(** A clock that passes the expiry of [session] after its fourth
    reading. *)
Definition late (n : nat) : Z :=
  if (n <? 4)%nat then 1000 + Z.of_nat n else 90000000.

End ApproveSample.

End ApproveApi.

(* ================================================================== *)
(** * The route POST /api/approvals *)
(* ================================================================== *)

Module ApprovalsApi.
Import Truthiness Session Form ApproveApi.

Local Open Scope Z_scope.

(** [ALLOWED_TYPES]. *)
Definition ALLOWED_TYPES : list jsstring :=
  [ lit "application/pdf";
    lit "application/vnd.openxmlformats-officedocument.wordprocessingml.document" ].

(** [ALLOWED_EXTENSIONS]. *)
Definition ALLOWED_EXTENSIONS : list jsstring := [lit ".pdf"; lit ".docx"].

(** [MAX_FILE_SIZE]: 10MB. *)
Definition MAX_FILE_SIZE : Z := 10 * 1024 * 1024.

(** [String.prototype.endsWith]. *)
Definition endsWith (s suffix : jsstring) : bool :=
  jsstring_eqb (skipn (length s - length suffix) s) suffix
  && (length suffix <=? length s)%nat.

(** A response of the route: [errorResponse(code, message, status)] or the
    answer with status 201. *)
Inductive Response : Type :=
| ErrorResponse (code message : string) (status : Z)
| Created (session_id secure_token document_hash : jsstring).

Section Handler.

Variable P : Platform.

(** [String.prototype.normalize('NFC')] and
    [String.prototype.toLowerCase]. *)
Variable normalize_NFC : jsstring -> jsstring.
Variable toLowerCase : jsstring -> jsstring.

(** The successive values of [Date.now()] and of [uuidv4()]. *)
Variable now : nat -> Z.
Variable uuid : nat -> jsstring.

(** The value of [Math.random().toString(36).substring(2, 10)] in this
    request. *)
Variable random : jsstring.

(** [ensureUploadsDir()]: it returns or throws. *)
Variable ensureUploadsDir : Result JSError unit.

(** The two calls of [join] and [writeFileSync] for a unique file name and
    the bytes: the relative path, or what was thrown. *)
Variable write_upload : jsstring -> Bytes -> Result JSError jsstring.

Definition isValidFileType (name type : jsstring) : bool :=
  if existsb (jsstring_eqb type) ALLOWED_TYPES then true
  else
    let name := toLowerCase name in
    existsb (fun ext => endsWith name ext) ALLOWED_EXTENSIONS.

(** [generateUniqueFilename]. *)
Definition generateUniqueFilename (filename : jsstring) : M jsstring :=
  timestamp <~ Date_now now ;;
  ret (integer_to_string timestamp ++ lit "-" ++ random ++ lit "-"
       ++ filename).

(** [saveDocument]. *)
Definition saveDocument (buffer : Bytes) (filename : jsstring) : M jsstring :=
  _ <~ lift JSException ensureUploadsDir ;;
  uniqueFilename <~ generateUniqueFilename filename ;;
  lift JSException (write_upload uniqueFilename buffer).

(** [createSession] with its reading of the clock and its two draws. *)
Definition createSession_io
    (documentHash documentPath documentName intentText : jsstring)
  : M ApprovalSession :=
  n <~ Date_now now ;;
  id <~ uuidv4 uuid ;;
  secure_token <~ uuidv4 uuid ;;
  ret (createSession (Signing.hashIntent P normalize_NFC) n id secure_token
         documentHash documentPath documentName intentText).

Definition sessionStore_create (session : ApprovalSession)
  : M ApprovalSession :=
  fun w =>
    match MemoryStore.create Session.id (sessionStore w) session with
    | Ok (item, store) => (Ok item, set_sessionStore store w)
    | Throw e => (Throw (StoreException e), w)
    end.

(** The body of the [try] block of [POST]; [form] is [None] when
    [request.formData()] rejects, else the entries [document] and
    [intent]. *)
Definition handler (form : option (FormDataEntryValue * FormDataEntryValue))
  : M Response :=
  match form with
  | None => raise (JSException TypeError)
  | Some (documentFile, intent) =>
      match documentFile with
      | FileEntry name type content =>
          match intent with
          | StringEntry text =>
              if negb (truthy intent) || (length (trim text) =? 0)%nat then
                ret (ErrorResponse "INVALID_INTENT" "Intent text is required"
                       400)
              else if negb (isValidFileType name type) then
                ret (ErrorResponse "INVALID_FILE_TYPE"
                       "Document must be PDF or DOCX" 400)
              else if Z.of_nat (length content) >? MAX_FILE_SIZE then
                ret (ErrorResponse "FILE_TOO_LARGE"
                       "Document exceeds maximum size of 10MB" 400)
              else
                let documentHash := Signing.hashDocument P content in
                documentPath <~ saveDocument content name ;;
                let canonicalIntent :=
                  Hash.canonicalizeIntent normalize_NFC text in
                session <~ createSession_io documentHash documentPath name
                             canonicalIntent ;;
                _ <~ sessionStore_create session ;;
                ret (Created (Session.id session) (secure_token session)
                       documentHash)
          | _ =>
              ret (ErrorResponse "INVALID_INTENT" "Intent text is required"
                     400)
          end
      | _ => ret (ErrorResponse "INVALID_FILE" "Document file is required" 400)
      end
  end.

(** [POST]: the response and the world after the request. *)
Definition POST (form : option (FormDataEntryValue * FormDataEntryValue))
    (w : World) : Response * World :=
  match handler form w with
  | (Ok response, w') => (response, w')
  | (Throw _, w') =>
      (ErrorResponse "INTERNAL_ERROR" "Failed to create approval session" 500,
       w')
  end.

End Handler.

End ApprovalsApi.

(* ================================================================== *)
(** * The route GET /api/approvals/[id] *)
(* ================================================================== *)

Module SessionApi.
Import Session ApproveApi.

(** The object the route answers with. *)
Record SessionDetails : Type := mkDetails {
  id : jsstring;
  document_name : jsstring;
  document_hash : jsstring;
  intent_text : jsstring;
  intent_hash : jsstring;
  status : ApprovalSessionStatus;
  created_at : Z;
  expires_at : Z;
  approved_at : option Z
}.

Inductive Response : Type :=
| ErrorResponse (code message : string) (status : Z)
| Details (details : SessionDetails).

(** [GET]. *)
Definition GET (id : jsstring) (w : World) : Response :=
  match MemoryStore.get (sessionStore w) id with
  | None =>
      ErrorResponse "SESSION_NOT_FOUND" "Approval session not found" 404
  | Some session =>
      Details {| id := Session.id session;
                 document_name := Session.document_name session;
                 document_hash := Session.document_hash session;
                 intent_text := Session.intent_text session;
                 intent_hash := Session.intent_hash session;
                 status := Session.status session;
                 created_at := Session.created_at session;
                 expires_at := Session.expires_at session;
                 approved_at := Session.approved_at session |}
  end.

End SessionApi.

(* ================================================================== *)
(** * The routes one after the other *)
(* ================================================================== *)

Module Service.
Import Session Form ApproveApi.

(** A request to one of the two routes that write, with what the
    environment gives it: the random part of the file name and the outcome
    of the file operations, or the signing key. *)
Inductive Request : Type :=
| CreateApproval (form : option (FormDataEntryValue * FormDataEntryValue))
    (random : jsstring) (ensureUploadsDir : Result JSError unit)
    (write_upload : jsstring -> Bytes -> Result JSError jsstring)
| Approve (body : option JSValue) (id : jsstring) (privateKey : Bytes).

(** The stores when the process starts. *)
Definition initial : World := mkWorld [] [] [] 0 0.

Section Serve.

Variable P : Platform.
Variable normalize_NFC : jsstring -> jsstring.
Variable toLowerCase : jsstring -> jsstring.
Variable now : nat -> Z.
Variable uuid : nat -> jsstring.

(** The world after a request. *)
Definition serve (w : World) (request : Request) : World :=
  match request with
  | CreateApproval form random ensureUploadsDir write_upload =>
      snd (ApprovalsApi.POST P normalize_NFC toLowerCase now uuid random
             ensureUploadsDir write_upload form w)
  | Approve body id privateKey =>
      snd (ApproveApi.POST P now uuid privateKey body id w)
  end.

(** The world after the requests, served in order from the start. *)
Definition after (requests : list Request) : World :=
  fold_left serve requests initial.

(** A stored session and the stores agree: the session is pending with no
    approval fields, or approved with an approval time and the id of a
    stored signature that carries the digests and the intent of the
    session and the id and the hash of a stored presence proof. *)
Definition linked (w : World) (s : ApprovalSession) : Prop :=
  match status s with
  | pending => approved_at s = None /\ signature_id s = None
  | approved =>
      exists sid r stamp proof,
        signature_id s = Some sid
        /\ approved_at s = Some stamp
        /\ MemoryStore.get (signatureStore w) sid = Some (mkStored sid r)
        /\ RealitySignature.document_hash r = document_hash s
        /\ RealitySignature.intent_hash r = intent_hash s
        /\ RealitySignature.intent_text r = intent_text s
        /\ MemoryStore.get (presenceProofStore w)
             (RealitySignature.presence_proof_id r) = Some proof
        /\ RealitySignature.presence_proof_hash r
           = PresenceProof.hashPresenceProof P proof
  | expired => False
  end.

(** Every stored session is stored under its id, expires 86,400,000 ms
    after its creation and agrees with the stores. *)
Definition consistent (w : World) : Prop :=
  forall k s,
    MemoryStore.get (sessionStore w) k = Some s ->
    Session.id s = k
    /\ expires_at s = (created_at s + 86400000)%Z
    /\ linked w s.

(** The signature store and the proof store keep what they hold. *)
Definition grows (w w' : World) : Prop :=
  (forall k v, MemoryStore.get (signatureStore w) k = Some v ->
               MemoryStore.get (signatureStore w') k = Some v)
  /\ (forall k v, MemoryStore.get (presenceProofStore w) k = Some v ->
                  MemoryStore.get (presenceProofStore w') k = Some v).

(** A computation that leaves the session store alone and lets the other
    two stores grow. *)
Definition quiet {A : Type} (m : M A) : Prop :=
  forall w r w', m w = (r, w') ->
    sessionStore w' = sessionStore w /\ grows w w'.

End Serve.

End Service.

(* ================================================================== *)
(** * Properties *)
(* ================================================================== *)

(** ** Intent canonicalisation *)

Module HashFacts.
Import Hash.

Lemma SP_inline : is_inline_space SP = true.
Proof. reflexivity. Qed.

Lemma collapse_from_collapsed b s : collapsed b (collapse_from b s) = true.
Proof.
  revert b. induction s as [|c r IH]; intros b; simpl; [reflexivity|].
  destruct (is_inline_space c) eqn:Hc.
  - destruct b.
    + apply IH.
    + cbn [collapsed]. rewrite SP_inline, IH. reflexivity.
  - cbn [collapsed]. rewrite Hc. apply IH.
Qed.

Lemma collapsed_weaken b s : collapsed b s = true -> collapsed false s = true.
Proof.
  destruct s as [|c r]; simpl; [trivial|].
  destruct (is_inline_space c); [|trivial].
  intros H. apply andb_prop in H. destruct H as [H1 H2].
  apply andb_prop in H1. destruct H1 as [H1 _]. rewrite H1, H2. reflexivity.
Qed.

Lemma collapsed_tail b c r :
  collapsed b (c :: r) = true -> collapsed (is_inline_space c) r = true.
Proof.
  simpl. destruct (is_inline_space c); [|trivial].
  intros H. apply andb_prop in H. tauto.
Qed.

Lemma collapsed_fixed b s : collapsed b s = true -> collapse_from b s = s.
Proof.
  revert b. induction s as [|c r IH]; intros b; simpl; [reflexivity|].
  destruct (is_inline_space c) eqn:Hc.
  - intros H. apply andb_prop in H. destruct H as [H1 H2].
    apply andb_prop in H1. destruct H1 as [Hsp Hb].
    apply N.eqb_eq in Hsp. subst c.
    destruct b; [discriminate|]. rewrite (IH true H2). reflexivity.
  - intros H. rewrite (IH false H). reflexivity.
Qed.

Lemma collapsed_no_CR b s : collapsed b s = true -> ~ In CR s.
Proof.
  revert b. induction s as [|c r IH]; intros b H Hin; [destruct Hin|].
  destruct Hin as [Hin|Hin].
  - subst c. simpl in H. discriminate H.
  - apply collapsed_tail in H. exact (IH _ H Hin).
Qed.

Lemma replace_crlf_fixed s : ~ In CR s -> replace_crlf s = s.
Proof.
  induction s as [|c r IH]; intros Hn; [reflexivity|].
  assert (Hc : (c =? CR) = false).
  { apply N.eqb_neq. intros ->. apply Hn. now left. }
  assert (Hr : replace_crlf r = r) by (apply IH; intros Hin; apply Hn; now right).
  destruct r as [|d r']; [reflexivity|].
  change (replace_crlf (c :: d :: r'))
    with (if (c =? CR) && (d =? LF) then LF :: replace_crlf r'
          else c :: replace_crlf (d :: r')).
  rewrite Hc. cbn [andb]. rewrite Hr. reflexivity.
Qed.

Lemma replace_cr_fixed s : ~ In CR s -> replace_cr s = s.
Proof.
  unfold replace_cr.
  induction s as [|c r IH]; intros Hn; cbn [map]; [reflexivity|].
  assert (Hc : (c =? CR) = false).
  { apply N.eqb_neq. intros ->. apply Hn. now left. }
  rewrite Hc. f_equal. apply IH.
  intros Hin. apply Hn. now right.
Qed.

Lemma collapsed_trimStart b s :
  collapsed b s = true -> collapsed false (trimStart s) = true.
Proof.
  revert b. induction s as [|c r IH]; intros b H; simpl; [reflexivity|].
  destruct (is_whitespace c).
  - apply collapsed_tail in H. exact (IH _ H).
  - exact (collapsed_weaken _ _ H).
Qed.

Lemma collapsed_trimEnd b s :
  collapsed b s = true -> collapsed b (trimEnd s) = true.
Proof.
  revert b. induction s as [|c r IH]; intros b H; [reflexivity|].
  pose proof (collapsed_tail _ _ _ H) as Ht. apply IH in Ht.
  simpl in H. simpl trimEnd.
  destruct (trimEnd r) as [|d r'].
  - destruct (is_whitespace c); [reflexivity|]. simpl.
    destruct (is_inline_space c); [|reflexivity].
    apply andb_prop in H. destruct H as [H _]. rewrite H. reflexivity.
  - cbn [collapsed]. destruct (is_inline_space c); [|exact Ht].
    apply andb_prop in H. destruct H as [H _]. rewrite H. exact Ht.
Qed.

Lemma trimStart_starts_clean s : starts_clean (trimStart s) = true.
Proof.
  induction s as [|c r IH]; simpl; [reflexivity|].
  destruct (is_whitespace c) eqn:Hc; [exact IH|]. simpl. now rewrite Hc.
Qed.

Lemma starts_clean_fixed s : starts_clean s = true -> trimStart s = s.
Proof.
  destruct s as [|c r]; simpl; [reflexivity|].
  destruct (is_whitespace c); [discriminate|reflexivity].
Qed.

Lemma trimEnd_starts_clean s : starts_clean s = true -> starts_clean (trimEnd s) = true.
Proof.
  destruct s as [|c r]; cbn [trimEnd starts_clean]; [reflexivity|].
  intros Hc. destruct (trimEnd r).
  - destruct (is_whitespace c) eqn:E; [reflexivity|].
    cbn [starts_clean]. now rewrite E.
  - exact Hc.
Qed.

Lemma trimEnd_cons_nonempty c r d r' :
  trimEnd r = d :: r' -> trimEnd (c :: r) = c :: d :: r'.
Proof. intros E. cbn [trimEnd]. rewrite E. reflexivity. Qed.

Lemma trimEnd_idempotent s : trimEnd (trimEnd s) = trimEnd s.
Proof.
  induction s as [|c r IH]; [reflexivity|].
  cbn [trimEnd].
  destruct (trimEnd r) as [|d r'] eqn:E.
  - destruct (is_whitespace c) eqn:Hc; [reflexivity|].
    cbn [trimEnd]. now rewrite Hc.
  - apply trimEnd_cons_nonempty. exact IH.
Qed.

Lemma trim_fixed s :
  starts_clean s = true -> trimEnd s = s -> trim s = s.
Proof.
  intros H1 H2. unfold trim. rewrite (starts_clean_fixed _ H1). exact H2.
Qed.

Lemma trim_idempotent s : trim (trim s) = trim s.
Proof.
  apply trim_fixed.
  - unfold trim. apply trimEnd_starts_clean, trimStart_starts_clean.
  - unfold trim. apply trimEnd_idempotent.
Qed.

Lemma rewrite_whitespace_collapsed s :
  collapsed false (rewrite_whitespace s) = true.
Proof.
  unfold rewrite_whitespace, trim, collapse_inline_space.
  apply collapsed_trimEnd. eapply collapsed_trimStart.
  apply collapse_from_collapsed.
Qed.

(** Steps 2 to 4 of the canonicaliser leave their own output unchanged. *)
Lemma rewrite_whitespace_idempotent s :
  rewrite_whitespace (rewrite_whitespace s) = rewrite_whitespace s.
Proof.
  pose proof (rewrite_whitespace_collapsed s) as Hc.
  pose proof (collapsed_no_CR _ _ Hc) as Hn.
  unfold rewrite_whitespace at 1.
  rewrite (replace_crlf_fixed _ Hn), (replace_cr_fixed _ Hn).
  unfold collapse_inline_space. rewrite (collapsed_fixed _ _ Hc).
  unfold rewrite_whitespace. apply trim_idempotent.
Qed.

Section Idempotence.

Variable normalize_NFC : jsstring -> jsstring.

(** Normalising a normalised string changes nothing (UAX #15). *)
Hypothesis NFC_idempotent :
  forall s, normal_form normalize_NFC (normalize_NFC s).

(** White space and line terminators are starters that have no canonical
    decomposition in a normalised string and take part in no canonical
    composition.  A normalised string therefore stays normalised when one
    of them is replaced by a space or a line feed, when one of two
    adjacent ones is dropped, and when one is dropped at either end. *)
Hypothesis NFC_whitespace_to_SP :
  forall a w b, is_whitespace w = true ->
                normal_form normalize_NFC (a ++ w :: b) ->
                normal_form normalize_NFC (a ++ SP :: b).

Hypothesis NFC_whitespace_to_LF :
  forall a w b, is_whitespace w = true ->
                normal_form normalize_NFC (a ++ w :: b) ->
                normal_form normalize_NFC (a ++ LF :: b).

Hypothesis NFC_drop_first_of_two :
  forall a w1 w2 b, is_whitespace w1 = true -> is_whitespace w2 = true ->
                    normal_form normalize_NFC (a ++ w1 :: w2 :: b) ->
                    normal_form normalize_NFC (a ++ w2 :: b).

Hypothesis NFC_drop_second_of_two :
  forall a w1 w2 b, is_whitespace w1 = true -> is_whitespace w2 = true ->
                    normal_form normalize_NFC (a ++ w1 :: w2 :: b) ->
                    normal_form normalize_NFC (a ++ w1 :: b).

Hypothesis NFC_drop_leading :
  forall w b, is_whitespace w = true -> normal_form normalize_NFC (w :: b) ->
  normal_form normalize_NFC b.

Hypothesis NFC_drop_trailing :
  forall a w, is_whitespace w = true -> normal_form normalize_NFC (a ++ [w]) ->
  normal_form normalize_NFC a.

Lemma snoc_app (pre : jsstring) c r : (pre ++ [c]) ++ r = pre ++ c :: r.
Proof. rewrite <- List.app_assoc. reflexivity. Qed.

Lemma normalized_replace_crlf_bounded n :
  forall s pre, (length s <= n)%nat ->
    normal_form normalize_NFC (pre ++ s) ->
    normal_form normalize_NFC (pre ++ replace_crlf s).
Proof.
  induction n as [|n IH]; intros s pre Hn H.
  - destruct s; [exact H|cbn [length] in Hn; lia].
  - destruct s as [|c [|d r']]; [exact H|exact H|].
    cbn [length] in Hn.
    change (replace_crlf (c :: d :: r'))
      with (if (c =? CR) && (d =? LF) then LF :: replace_crlf r'
            else c :: replace_crlf (d :: r')).
    destruct ((c =? CR) && (d =? LF)) eqn:E.
    + apply andb_prop in E. destruct E as [Ec Ed].
      apply N.eqb_eq in Ec, Ed. subst c d.
      rewrite <- snoc_app. apply IH; [lia|]. rewrite snoc_app.
      exact (NFC_drop_first_of_two pre CR LF r' eq_refl eq_refl H).
    + rewrite <- snoc_app. apply IH; [cbn [length]; lia|].
      rewrite snoc_app. exact H.
Qed.

Lemma normalized_replace_cr s :
  forall pre, normal_form normalize_NFC (pre ++ s) ->
  normal_form normalize_NFC (pre ++ replace_cr s).
Proof.
  unfold replace_cr. induction s as [|c r IH]; intros pre H; [exact H|].
  cbn [map]. rewrite <- snoc_app. apply IH. rewrite snoc_app.
  destruct (N.eqb_spec c CR) as [->|_]; [|exact H].
  exact (NFC_whitespace_to_LF pre CR r eq_refl H).
Qed.

Lemma inline_space_is_whitespace c :
  is_inline_space c = true -> is_whitespace c = true.
Proof. unfold is_inline_space. intros H. apply andb_prop in H. tauto. Qed.

Lemma normalized_collapse_from s :
  forall pre b,
    (b = true -> exists p w, pre = p ++ [w] /\ is_whitespace w = true) ->
    normal_form normalize_NFC (pre ++ s) ->
    normal_form normalize_NFC (pre ++ collapse_from b s).
Proof.
  induction s as [|c r IH]; intros pre b Hb H; [exact H|].
  cbn [collapse_from]. destruct (is_inline_space c) eqn:Ec.
  - apply inline_space_is_whitespace in Ec. destruct b.
    + apply IH; [exact Hb|].
      destruct (Hb eq_refl) as (p & w & -> & Hw).
      rewrite snoc_app in *.
      exact (NFC_drop_second_of_two p w c r Hw Ec H).
    + rewrite <- snoc_app. apply IH.
      * intros _. exists pre, SP. split; reflexivity.
      * rewrite snoc_app. exact (NFC_whitespace_to_SP pre c r Ec H).
  - rewrite <- snoc_app. apply IH; [discriminate|].
    rewrite snoc_app. exact H.
Qed.

Lemma normalized_trimStart s :
  normal_form normalize_NFC s ->
  normal_form normalize_NFC (trimStart s).
Proof.
  induction s as [|c r IH]; intros H; [exact H|].
  cbn [trimStart]. destruct (is_whitespace c) eqn:Ec; [|exact H].
  apply IH. exact (NFC_drop_leading c r Ec H).
Qed.

(** What [trimEnd] removes is a run of white space at the end. *)
Lemma trimEnd_split s :
  exists t, s = trimEnd s ++ t /\ Forall (fun w => is_whitespace w = true) t.
Proof.
  induction s as [|c r (t & E & Ht)].
  - exists []. split; [reflexivity|constructor].
  - cbn [trimEnd]. destruct (trimEnd r) as [|d r'].
    + destruct (is_whitespace c) eqn:Ec.
      * exists (c :: t). cbn [app] in *. split; [now rewrite E|].
        constructor; assumption.
      * exists t. cbn [app] in *. split; [now rewrite E|exact Ht].
    + exists t. cbn [app] in *. split; [now rewrite E|exact Ht].
Qed.

Lemma normalized_drop_whitespace_tail t :
  Forall (fun w => is_whitespace w = true) t ->
  forall a, normal_form normalize_NFC (a ++ t) -> normal_form normalize_NFC a.
Proof.
  induction t as [|w t IH] using rev_ind; intros Ht a H.
  - now rewrite List.app_nil_r in H.
  - apply Forall_app in Ht. destruct Ht as [Ht Hw].
    inversion Hw as [|? ? Hw' _]; subst.
    apply IH; [exact Ht|].
    apply (NFC_drop_trailing (a ++ t) w Hw'). now rewrite <- List.app_assoc.
Qed.

Lemma normalized_trimEnd s :
  normal_form normalize_NFC s ->
  normal_form normalize_NFC (trimEnd s).
Proof.
  intros H. destruct (trimEnd_split s) as (t & E & Ht).
  apply (normalized_drop_whitespace_tail t Ht). now rewrite <- E.
Qed.

(** Steps 2 to 4 keep a normalised string normalised. *)
Lemma normalized_rewrite_whitespace s :
  normal_form normalize_NFC s ->
  normal_form normalize_NFC (rewrite_whitespace s).
Proof.
  intros H. unfold rewrite_whitespace, trim, collapse_inline_space.
  apply normalized_trimEnd, normalized_trimStart.
  apply (normalized_collapse_from _ [] false); [discriminate|].
  apply (normalized_replace_cr _ []).
  apply (normalized_replace_crlf_bounded _ _ [] (le_n _)). exact H.
Qed.

(** C6. Intent canonicalisation is idempotent:
    [canonicalizeIntent (canonicalizeIntent t) = canonicalizeIntent t]
    for every string [t], where [canonicalizeIntent] applies, in order,
    NFC normalisation, the replacement of CR LF and of a bare CR by LF,
    the collapsing of runs of white space other than LF into one space,
    and trimming. *)
Theorem canonicalizeIntent_idempotent (t : jsstring) :
  canonicalizeIntent normalize_NFC (canonicalizeIntent normalize_NFC t)
  = canonicalizeIntent normalize_NFC t.
Proof.
  change (rewrite_whitespace
            (normalize_NFC (rewrite_whitespace (normalize_NFC t)))
          = rewrite_whitespace (normalize_NFC t)).
  rewrite (normalized_rewrite_whitespace _ (NFC_idempotent t)).
  apply rewrite_whitespace_idempotent.
Qed.

End Idempotence.

(** *** The quad fragment of NFC meets the assumptions *)

Lemma normalize_quads_fixed_iff s :
  normalize_quads s = s <-> Forall not_a_quad s.
Proof.
  unfold normalize_quads, not_a_quad. induction s as [|c r IH]; cbn [map].
  - split; [constructor|reflexivity].
  - split.
    + intros H. injection H as Hc Hr. constructor; [|now apply IH].
      destruct (N.eqb_spec c 8192) as [->|?]; [discriminate|].
      destruct (N.eqb_spec c 8193) as [->|?]; [discriminate|]. now split.
    + intros H. inversion H as [|? ? [H1 H2] Hr]; subst.
      apply N.eqb_neq in H1, H2. rewrite H1, H2. f_equal. now apply IH.
Qed.

Lemma normalize_quads_idempotent s :
  normalize_quads (normalize_quads s) = normalize_quads s.
Proof.
  unfold normalize_quads. rewrite map_map. apply map_ext. intros c.
  destruct (N.eqb_spec c 8192) as [->|?]; [reflexivity|].
  destruct (N.eqb_spec c 8193) as [->|?]; [reflexivity|].
  apply N.eqb_neq in n, n0. now rewrite n, n0.
Qed.

Lemma quads_replace a w w' b :
  not_a_quad w' ->
  normalize_quads (a ++ w :: b) = a ++ w :: b ->
  normalize_quads (a ++ w' :: b) = a ++ w' :: b.
Proof.
  rewrite !normalize_quads_fixed_iff, !Forall_app. intros Hw' [Ha Hb].
  inversion Hb; subst. split; [exact Ha|]. now constructor.
Qed.

Lemma quads_drop_first a w1 w2 b :
  normalize_quads (a ++ w1 :: w2 :: b) = a ++ w1 :: w2 :: b ->
  normalize_quads (a ++ w2 :: b) = a ++ w2 :: b.
Proof.
  rewrite !normalize_quads_fixed_iff, !Forall_app. intros [Ha Hb].
  inversion Hb; subst. now split.
Qed.

Lemma quads_drop_second a w1 w2 b :
  normalize_quads (a ++ w1 :: w2 :: b) = a ++ w1 :: w2 :: b ->
  normalize_quads (a ++ w1 :: b) = a ++ w1 :: b.
Proof.
  rewrite !normalize_quads_fixed_iff, !Forall_app. intros [Ha Hb].
  inversion Hb as [|? ? H1 Hb']; subst. inversion Hb'; subst.
  split; [exact Ha|]. now constructor.
Qed.

Lemma quads_drop_leading w b :
  normalize_quads (w :: b) = w :: b -> normalize_quads b = b.
Proof.
  rewrite !normalize_quads_fixed_iff. intros H. now inversion H.
Qed.

Lemma quads_drop_trailing a w :
  normalize_quads (a ++ [w]) = a ++ [w] -> normalize_quads a = a.
Proof.
  rewrite !normalize_quads_fixed_iff, Forall_app. tauto.
Qed.

(** The theorem at the text [" Approve\r\n\tcontract  X "] (with an EN QUAD
    in front), under the quad fragment of NFC. *)
Lemma canonicalizeIntent_idempotent_witness :
  let t := 8192 :: lit " Approve" ++ [CR; LF; TAB] ++ lit "contract  X " in
  canonicalizeIntent normalize_quads (canonicalizeIntent normalize_quads t)
  = canonicalizeIntent normalize_quads t.
Proof.
  intros t.
  apply (canonicalizeIntent_idempotent normalize_quads); unfold normal_form.
  - exact normalize_quads_idempotent.
  - intros a w b _. apply quads_replace. split; discriminate.
  - intros a w b _. apply quads_replace. split; discriminate.
  - intros a w1 w2 b _ _. apply quads_drop_first.
  - intros a w1 w2 b _ _. apply quads_drop_second.
  - intros w b _. apply quads_drop_leading.
  - intros a w _. apply quads_drop_trailing.
Defined.

End HashFacts.

(** ** The approval session machine *)

Module SessionFacts.
Import Session.
Local Open Scope Z_scope.

Lemma canApprove_true_iff now s :
  canApprove now s = true <-> status s = pending /\ now <= expires_at s.
Proof.
  unfold canApprove. destruct (status s); cbn [status_eqb negb].
  - destruct (Z.gtb_spec now (expires_at s)) as [Hgt|Hle]; split.
    + discriminate.
    + intros [_ Hn]. lia.
    + intros _. split; [reflexivity|lia].
    + reflexivity.
  - split; [discriminate|intros [Hs _]; discriminate].
  - split; [discriminate|intros [Hs _]; discriminate].
Qed.

(** C8. A session returned by [createSession] is pending with no signature
    reference and no approval time; [approveSession] on a pending session
    whose deadline has not passed returns it approved, with the supplied
    signature reference and an approval time; on an approved session it is
    rejected as already approved, on an expired one as expired. *)
Theorem session_transitions :
  (forall hashIntent now u1 u2 dh dp dn it,
      let s := createSession hashIntent now u1 u2 dh dp dn it in
      status s = pending /\ signature_id s = None /\ approved_at s = None)
  /\ (forall now stamp s sig,
        status s = pending -> now <= expires_at s ->
        exists s', approveSession now stamp s sig = Ok s'
                   /\ status s' = approved
                   /\ signature_id s' = Some sig
                   /\ approved_at s' = Some stamp)
  /\ (forall now stamp s sig,
        status s = approved ->
        approveSession now stamp s sig = Throw SESSION_ALREADY_APPROVED)
  /\ (forall now stamp s sig,
        status s = expired ->
        approveSession now stamp s sig = Throw SESSION_EXPIRED).
Proof.
  repeat split.
  - intros now stamp s sig Hp Ht.
    assert (Hc : canApprove now s = true) by (apply canApprove_true_iff; auto).
    unfold approveSession. rewrite Hc. cbn [negb].
    eexists. split; [reflexivity|]. cbn. auto.
  - intros now stamp s sig Hs. unfold approveSession, canApprove.
    rewrite Hs. reflexivity.
  - intros now stamp s sig Hs. unfold approveSession, canApprove.
    rewrite Hs. reflexivity.
Qed.

(** The theorem on a fresh session created at time [0] and approved at
    time [1000], then approved again, and on the same session expired. *)
Lemma session_transitions_witness :
  let s := createSession (fun t => t) 0 (lit "id") (lit "tok")
             (lit "aa") (lit "/p") (lit "n") (lit "Approve X") in
  status s = pending
  /\ (exists s', approveSession 1000 1001 s (lit "sig-123") = Ok s'
                 /\ status s' = approved
                 /\ signature_id s' = Some (lit "sig-123")
                 /\ approved_at s' = Some 1001)
  /\ approveSession 2000 2001 sample_approved (lit "sig-456")
     = Throw SESSION_ALREADY_APPROVED
  /\ approveSession 2000 2001 (expireSession s) (lit "sig-123")
     = Throw SESSION_EXPIRED.
Proof.
  intros s.
  destruct session_transitions as (H1 & H2 & H3 & H4).
  split; [apply (H1 (fun t => t) 0 (lit "id") (lit "tok")
                   (lit "aa") (lit "/p") (lit "n") (lit "Approve X"))|].
  split; [apply (H2 1000 1001 s (lit "sig-123")); [reflexivity|vm_compute; discriminate]|].
  split; [apply (H3 2000 2001 sample_approved (lit "sig-456")); reflexivity|].
  apply (H4 2000 2001 (expireSession s) (lit "sig-123")); reflexivity.
Defined.

(** C9, as stated, fails: [expireSession] moves an approved session to
    [expired]. *)
Lemma expireSession_leaves_approved :
  status sample_approved = approved
  /\ status (expireSession sample_approved) <> approved.
Proof. split; [reflexivity|discriminate]. Qed.

(** C9, amended. [approveSession] never moves a session out of [approved]
    or [expired]: it is rejected in both and returns no session.
    [expireSession] returns an expired session unchanged; applied to any
    other session, an approved one included, it overwrites the status with
    [expired] and keeps every other field: the id, the token, the three
    document fields, the two intent fields, [created_at], [expires_at],
    [approved_at] and [signature_id]. *)
Theorem terminal_states :
  (forall now stamp s sig,
      status s = approved \/ status s = expired ->
      exists e, approveSession now stamp s sig = Throw e)
  /\ (forall s, status s = expired -> expireSession s = s)
  /\ (forall s,
        status (expireSession s) = expired
        /\ signature_id (expireSession s) = signature_id s
        /\ approved_at (expireSession s) = approved_at s
        /\ expires_at (expireSession s) = expires_at s
        /\ id (expireSession s) = id s
        /\ secure_token (expireSession s) = secure_token s
        /\ document_hash (expireSession s) = document_hash s
        /\ document_path (expireSession s) = document_path s
        /\ document_name (expireSession s) = document_name s
        /\ intent_text (expireSession s) = intent_text s
        /\ intent_hash (expireSession s) = intent_hash s
        /\ created_at (expireSession s) = created_at s).
Proof.
  repeat split.
  - intros now stamp s sig [Hs|Hs]; unfold approveSession, canApprove;
      rewrite Hs; eexists; reflexivity.
  - intros s Hs. destruct s; cbn in *. subst. reflexivity.
Qed.

(** The amended statement on the approved sample session. *)
Lemma terminal_states_witness :
  (exists e, approveSession 2000 2001 sample_approved (lit "sig-456") = Throw e)
  /\ expireSession (expireSession sample_approved) = expireSession sample_approved
  /\ status (expireSession sample_approved) = expired
  /\ signature_id (expireSession sample_approved) = Some (lit "sig-123").
Proof.
  destruct terminal_states as (H1 & H2 & H3).
  split; [apply (H1 2000 2001 sample_approved (lit "sig-456")); left; reflexivity|].
  split; [apply (H2 (expireSession sample_approved)); reflexivity|].
  destruct (H3 sample_approved) as (Ha & Hb & _).
  split; [exact Ha|exact Hb].
Defined.

(** C10. For a session still [pending] whose [expires_at] lies before the
    current time, [approveSession] throws ["SESSION_ALREADY_APPROVED"],
    not ["SESSION_EXPIRED"]; ["SESSION_EXPIRED"] is thrown only when the
    status field is already [expired]. *)
Theorem overdue_pending_reports_already_approved :
  (forall now stamp s sig,
      status s = pending -> expires_at s < now ->
      approveSession now stamp s sig = Throw SESSION_ALREADY_APPROVED)
  /\ (forall now stamp s sig,
        approveSession now stamp s sig = Throw SESSION_EXPIRED ->
        status s = expired).
Proof.
  split.
  - intros now stamp s sig Hs Ht. unfold approveSession, canApprove.
    rewrite Hs. cbn [status_eqb negb].
    destruct (Z.gtb_spec now (expires_at s)); [reflexivity|lia].
  - intros now stamp s sig. unfold approveSession.
    destruct (canApprove now s); cbn [negb]; [discriminate|].
    destruct (status s); cbn [status_eqb]; try discriminate. reflexivity.
Qed.

(** The theorem on the overdue sample session, one millisecond late. *)
Lemma overdue_pending_reports_already_approved_witness :
  approveSession 5001 5002 sample_overdue (lit "sig-123")
  = Throw SESSION_ALREADY_APPROVED
  /\ (approveSession 5001 5002 (expireSession sample_overdue) (lit "sig-123")
      = Throw SESSION_EXPIRED ->
      status (expireSession sample_overdue) = expired).
Proof.
  destruct overdue_pending_reports_already_approved as (H1 & H2).
  split.
  - apply (H1 5001 5002 sample_overdue (lit "sig-123")); [reflexivity|].
    vm_compute. reflexivity.
  - apply (H2 5001 5002 (expireSession sample_overdue) (lit "sig-123")).
Defined.

End SessionFacts.

(** ** [JSON.parse] after [JSON.stringify] *)

Module JSONFacts.

Lemma hex_value_hex_digit d : d < 16 -> hex_value (hex_digit d) = Some d.
Proof.
  intros H. unfold hex_digit, hex_value.
  destruct (N.ltb_spec d 10) as [Hd|Hd].
  - replace ((48 <=? 48 + d) && (48 + d <=? 57)) with true.
    + f_equal. lia.
    + symmetry. apply andb_true_intro. split; apply N.leb_le; lia.
  - replace ((48 <=? 87 + d) && (87 + d <=? 57)) with false.
    + replace ((97 <=? 87 + d) && (87 + d <=? 102)) with true.
      * f_equal. lia.
      * symmetry. apply andb_true_intro. split; apply N.leb_le; lia.
    + symmetry. apply andb_false_intro2. apply N.leb_gt. lia.
Qed.

Lemma hex4_value_unicode_escape c :
  c < 65536 ->
  hex4_value (hex_digit (c / 4096 mod 16)) (hex_digit (c / 256 mod 16))
             (hex_digit (c / 16 mod 16)) (hex_digit (c mod 16)) = Some c.
Proof.
  intros H. unfold hex4_value.
  rewrite !hex_value_hex_digit by (apply N.mod_lt; discriminate).
  f_equal.
  change 4096 with (16 * 16 * 16). change 256 with (16 * 16).
  rewrite <- !N.Div0.div_div.
  pose proof (N.div_mod c 16) as E0.
  pose proof (N.div_mod (c / 16) 16) as E1.
  pose proof (N.div_mod (c / 16 / 16) 16) as E2.
  pose proof (N.mod_small (c / 16 / 16 / 16) 16) as E3.
  assert (c / 16 / 16 / 16 < 16).
  { rewrite !N.Div0.div_div. apply N.Div0.div_lt_upper_bound. exact H. }
  rewrite E3 by assumption.
  specialize (E0 ltac:(discriminate)). specialize (E1 ltac:(discriminate)).
  specialize (E2 ltac:(discriminate)). lia.
Qed.


Lemma parse_unicode_escape c t :
  c < 65536 ->
  parse_string_body (unicode_escape c ++ t)
  = cons_char c (parse_string_body t).
Proof.
  intros H. unfold unicode_escape. cbn [app parse_string_body].
  change (92 =? 34) with false. change (92 =? 92) with true.
  change (117 =? 117) with true. cbn iota.
  rewrite (hex4_value_unicode_escape c H). reflexivity.
Qed.

Lemma parse_raw_char c t :
  c <> 34 -> c <> 92 -> 32 <= c ->
  parse_string_body (c :: t) = cons_char c (parse_string_body t).
Proof.
  intros H1 H2 H3. cbn [parse_string_body].
  apply N.eqb_neq in H1, H2. rewrite H1, H2.
  replace (c <? 32) with false by (symmetry; apply N.ltb_ge; exact H3).
  reflexivity.
Qed.

Lemma parse_quote_unit c t :
  parse_string_body (quote_unit c ++ t) = cons_char c (parse_string_body t).
Proof.
  unfold quote_unit.
  destruct (N.eqb_spec c 8) as [->|H8]; [reflexivity|].
  destruct (N.eqb_spec c 9) as [->|H9]; [reflexivity|].
  destruct (N.eqb_spec c 10) as [->|H10]; [reflexivity|].
  destruct (N.eqb_spec c 12) as [->|H12]; [reflexivity|].
  destruct (N.eqb_spec c 13) as [->|H13]; [reflexivity|].
  destruct (N.eqb_spec c 34) as [->|H34]; [reflexivity|].
  destruct (N.eqb_spec c 92) as [->|H92]; [reflexivity|].
  destruct (N.ltb_spec c 32) as [Hlt|Hge].
  - apply parse_unicode_escape. lia.
  - apply parse_raw_char; assumption.
Qed.

Lemma surrogate_range c :
  is_high_surrogate c = true \/ is_low_surrogate c = true ->
  55296 <= c /\ c < 65536.
Proof.
  unfold is_high_surrogate, is_low_surrogate.
  intros [H|H]; apply andb_prop in H; destruct H as [H1 H2];
    apply N.leb_le in H1, H2; lia.
Qed.

Lemma parse_surrogate c t :
  is_high_surrogate c = true \/ is_low_surrogate c = true ->
  parse_string_body (c :: t) = cons_char c (parse_string_body t).
Proof.
  intros H. apply surrogate_range in H. apply parse_raw_char; lia.
Qed.

(** What [JSON.parse] reads from a quoted string is the string. *)
Lemma parse_quote_body_bounded n :
  forall s rest, (length s <= n)%nat ->
    parse_string_body (quote_body s ++ 34 :: rest) = Some (s, rest).
Proof.
  induction n as [|n IH]; intros s rest Hn.
  - destruct s; [reflexivity|cbn in Hn; lia].
  - destruct s as [|c r]; [reflexivity|].
    cbn [length] in Hn. cbn [quote_body].
    destruct (is_high_surrogate c) eqn:Hh.
    + destruct r as [|d r'].
      * rewrite parse_unicode_escape
          by (apply (surrogate_range c); now left).
        reflexivity.
      * destruct (is_low_surrogate d) eqn:Hl.
        -- cbn [app]. rewrite parse_surrogate by now left.
           rewrite parse_surrogate by now right.
           rewrite IH by (cbn [length] in Hn; lia). reflexivity.
        -- rewrite <- List.app_assoc. rewrite parse_unicode_escape
             by (apply (surrogate_range c); now left).
           rewrite IH by lia. reflexivity.
    + destruct (is_low_surrogate c) eqn:Hl.
      * rewrite <- List.app_assoc. rewrite parse_unicode_escape
          by (apply (surrogate_range c); now right).
        rewrite IH by lia. reflexivity.
      * rewrite <- List.app_assoc. rewrite parse_quote_unit.
        rewrite IH by lia. reflexivity.
Qed.

Lemma parse_quote_body s rest :
  parse_string_body (quote_body s ++ 34 :: rest) = Some (s, rest).
Proof. apply (parse_quote_body_bounded (length s)). apply le_n. Qed.


(** *** Numbers *)

Lemma take_digits_stop rest :
  delimited rest -> take_digits rest = (Decimal.Nil, rest).
Proof.
  destruct rest as [|c r]; [reflexivity|].
  intros [->| ->]; reflexivity.
Qed.

Lemma take_digits_uint_chars u rest :
  delimited rest -> take_digits (uint_chars u ++ rest) = (u, rest).
Proof.
  intros Hd. induction u; cbn [uint_chars app];
    [apply take_digits_stop; exact Hd|..];
    cbn [take_digits]; cbn [digit_of_char N.eqb Pos.eqb];
    rewrite IHu; reflexivity.
Qed.

Lemma unorm_D0_fixed u : Decimal.unorm (Decimal.D0 u) = Decimal.D0 u -> u = Decimal.Nil.
Proof.
  intros H. rewrite unorm_D0 in H.
  unfold Decimal.unorm in H. destruct (Decimal.nzhead u) eqn:E; try discriminate H.
  - injection H as <-. reflexivity.
  - exfalso. exact (nzhead_nonzero u _ E).
Qed.

Lemma to_int_normal z :
  match Z.to_int z with
  | Decimal.Pos u | Decimal.Neg u => Decimal.unorm u = u
  end.
Proof.
  pose proof (DecimalZ.to_of (Z.to_int z)) as H.
  rewrite DecimalZ.of_to in H.
  destruct (Z.to_int z) as [u|u]; cbn [Decimal.norm] in H.
  - now injection H.
  - destruct (Decimal.nzhead u) eqn:E; try discriminate H;
      injection H as H;
      rewrite (unorm_nzhead u) by (rewrite E; discriminate);
      rewrite E; symmetry; exact H.
Qed.

Lemma parse_number_integer negative u rest :
  Decimal.unorm u = u -> delimited rest ->
  parse_number negative (uint_chars u ++ rest)
  = Some (JNumber (NumInt (if negative then - Z.of_uint u else Z.of_uint u)%Z),
          rest).
Proof.
  intros Hu Hd. unfold parse_number. rewrite (take_digits_uint_chars u rest Hd).
  assert (Hrest : match rest with
                  | [] => True
                  | c :: _ => (c =? 46) = false /\ ((c =? 101) || (c =? 69)) = false
                  end).
  { destruct rest as [|c r]; [exact I|]. destruct Hd as [->| ->]; now split. }
  destruct u as [|u'|u'|u'|u'|u'|u'|u'|u'|u'|u'].
  - exfalso. exact (unorm_nonnil Decimal.Nil Hu).
  - rewrite (unorm_D0_fixed u' Hu).
    destruct rest as [|c r]; [reflexivity|].
    destruct Hrest as [H1 H2]. rewrite H1, H2. reflexivity.
  - destruct rest as [|c r]; [reflexivity|].
    destruct Hrest as [H1 H2]. rewrite H1, H2. reflexivity.
  - destruct rest as [|c r]; [reflexivity|].
    destruct Hrest as [H1 H2]. rewrite H1, H2. reflexivity.
  - destruct rest as [|c r]; [reflexivity|].
    destruct Hrest as [H1 H2]. rewrite H1, H2. reflexivity.
  - destruct rest as [|c r]; [reflexivity|].
    destruct Hrest as [H1 H2]. rewrite H1, H2. reflexivity.
  - destruct rest as [|c r]; [reflexivity|].
    destruct Hrest as [H1 H2]. rewrite H1, H2. reflexivity.
  - destruct rest as [|c r]; [reflexivity|].
    destruct Hrest as [H1 H2]. rewrite H1, H2. reflexivity.
  - destruct rest as [|c r]; [reflexivity|].
    destruct Hrest as [H1 H2]. rewrite H1, H2. reflexivity.
  - destruct rest as [|c r]; [reflexivity|].
    destruct Hrest as [H1 H2]. rewrite H1, H2. reflexivity.
  - destruct rest as [|c r]; [reflexivity|].
    destruct Hrest as [H1 H2]. rewrite H1, H2. reflexivity.
Qed.

Lemma parse_value_digits f u rest :
  u <> Decimal.Nil ->
  parse_value (S f) (uint_chars u ++ rest)
  = parse_number false (uint_chars u ++ rest).
Proof.
  intros Hu. destruct u; [congruence|..]; reflexivity.
Qed.

Lemma parse_value_integer f z rest :
  delimited rest ->
  parse_value (S f) (integer_to_string z ++ rest)
  = Some (JNumber (NumInt z), rest).
Proof.
  intros Hd. unfold integer_to_string.
  pose proof (to_int_normal z) as Hn.
  pose proof (DecimalZ.of_to z) as Hz.
  destruct (Z.to_int z) as [u|u]; cbn [Z.of_int] in Hz.
  - rewrite parse_value_digits
      by (intros ->; exact (unorm_nonnil Decimal.Nil Hn)).
    rewrite (parse_number_integer false u rest Hn Hd). now rewrite Hz.
  - change (parse_value (S f) ((45 :: uint_chars u) ++ rest))
      with (parse_number true (uint_chars u ++ rest)).
    rewrite (parse_number_integer true u rest Hn Hd). now rewrite Hz.
Qed.


(** *** Flat objects *)

Lemma jsstring_eqb_eq a b : jsstring_eqb a b = true <-> a = b.
Proof.
  revert b. induction a as [|x a IH]; intros [|y b]; cbn [jsstring_eqb];
    try (split; [discriminate|discriminate]); [split; reflexivity|].
  rewrite andb_true_iff, N.eqb_eq, IH. split.
  - intros [-> ->]. reflexivity.
  - intros H. injection H as -> ->. split; reflexivity.
Qed.

Lemma jsstring_eqb_refl a : jsstring_eqb a a = true.
Proof. now apply jsstring_eqb_eq. Qed.

Lemma jsstring_eqb_neq a b : a <> b -> jsstring_eqb a b = false.
Proof.
  intros H. destruct (jsstring_eqb a b) eqn:E; [|reflexivity].
  apply jsstring_eqb_eq in E. contradiction.
Qed.

Lemma scalar_serializes v :
  scalar v -> exists t, SerializeJSONProperty v = Some t.
Proof.
  destruct v as [| |[|]|n|s|l|ps]; cbn; try contradiction; eauto.
Qed.

Lemma parse_scalar f v t rest :
  scalar v -> SerializeJSONProperty v = Some t -> delimited rest ->
  parse_value (S f) (t ++ rest) = Some (v, rest).
Proof.
  intros Hs Ht Hd.
  destruct v as [| |[|]|[z|m k| |b]|s|l|ps]; cbn in Hs; try contradiction;
    cbn [SerializeJSONProperty number_to_json] in Ht; injection Ht as <-.
  - reflexivity.
  - reflexivity.
  - reflexivity.
  - apply parse_value_integer. exact Hd.
  - unfold QuoteJSONString.
    change (parse_value (S f) ((34 :: quote_body s ++ [34]) ++ rest))
      with (match parse_string_body ((quote_body s ++ [34]) ++ rest) with
            | Some (str, rest0) => Some (JString str, rest0)
            | None => None
            end).
    rewrite <- List.app_assoc. cbn [app]. rewrite parse_quote_body. reflexivity.
Qed.

Lemma serialize_members_comma ps :
  flat ps -> ps <> [] ->
  serialize_members SerializeJSONProperty ps false
  = 44 :: serialize_members SerializeJSONProperty ps true.
Proof.
  intros Hf Hne. destruct ps as [|[k v] r]; [congruence|].
  inversion Hf as [|? ? Hv Hr]; subst. cbn [snd] in Hv.
  destruct (scalar_serializes v Hv) as [t Ht].
  cbn [serialize_members]. rewrite Ht. reflexivity.
Qed.

Lemma members_delimited ps rest :
  flat ps ->
  delimited (serialize_members SerializeJSONProperty ps false ++ 125 :: rest).
Proof.
  intros Hf. destruct ps as [|kv r].
  - cbn. now right.
  - rewrite serialize_members_comma by (assumption || discriminate).
    cbn. now left.
Qed.

Lemma serialize_members_cons k v t r b rest :
  SerializeJSONProperty v = Some t ->
  serialize_members SerializeJSONProperty ((k, v) :: r) b ++ rest
  = (if b then [] else [44])
    ++ 34 :: quote_body k
    ++ 34 :: 58 :: t ++ serialize_members SerializeJSONProperty r false ++ rest.
Proof.
  intros Ht. cbn [serialize_members]. rewrite Ht. unfold QuoteJSONString.
  destruct b; cbn [app]; repeat (rewrite <- List.app_assoc; cbn [app]); reflexivity.
Qed.

Lemma parse_members_step f acc k rest :
  parse_members (S f) acc (34 :: quote_body k ++ 34 :: 58 :: rest)
  = match parse_value f rest with
    | Some (v, r3) =>
        match skip_space r3 with
        | sep :: r4 =>
            if sep =? 44 then parse_members f (set_prop acc k v) r4
            else if sep =? 125 then Some (JObject (set_prop acc k v), r4)
            else None
        | [] => None
        end
    | None => None
    end.
Proof.
  cbn [parse_members skip_space is_json_space N.eqb Pos.eqb orb].
  rewrite parse_quote_body.
  cbn [skip_space is_json_space N.eqb Pos.eqb orb]. reflexivity.
Qed.

Lemma parse_members_serialized ps :
  forall f acc rest,
    flat ps -> ps <> [] -> (length ps < f)%nat ->
    parse_members f acc
      (serialize_members SerializeJSONProperty ps true ++ 125 :: rest)
    = Some (JObject (add_all acc ps), rest).
Proof.
  induction ps as [|[k v] r IH]; intros f acc rest Hf Hne Hlen; [congruence|].
  inversion Hf as [|? ? Hv Hr]; subst. cbn [snd] in Hv.
  destruct (scalar_serializes v Hv) as [t Ht].
  cbn [length] in Hlen.
  destruct f as [|[|f]]; [lia|lia|].
  rewrite (serialize_members_cons k v t r true (125 :: rest) Ht). cbn [app].
  rewrite parse_members_step.
  rewrite (parse_scalar f v t _ Hv Ht (members_delimited r rest Hr)).
  destruct r as [|kv r'].
  - reflexivity.
  - rewrite serialize_members_comma by (assumption || discriminate).
    cbn [app skip_space is_json_space N.eqb Pos.eqb orb].
    rewrite IH by (assumption || discriminate || (cbn [length] in *; lia)).
    reflexivity.
Qed.

Lemma serialize_members_length ps b :
  flat ps ->
  (length ps <= length (serialize_members SerializeJSONProperty ps b))%nat.
Proof.
  intros Hf. revert b. induction Hf as [|[k v] r Hv Hr IH]; intros b;
    [apply le_n|].
  cbn [snd] in Hv. destruct (scalar_serializes v Hv) as [t Ht].
  cbn [serialize_members length]. rewrite Ht.
  unfold QuoteJSONString. rewrite !length_app. cbn [length].
  rewrite !length_app. specialize (IH false). lia.
Qed.

Lemma set_prop_fresh acc k v :
  ~ In k (map fst acc) -> set_prop acc k v = acc ++ [(k, v)].
Proof.
  induction acc as [|[k' v'] r IH]; intros Hn; [reflexivity|].
  cbn [set_prop app]. rewrite jsstring_eqb_neq.
  - rewrite IH; [reflexivity|]. intros Hin. apply Hn. now right.
  - intros ->. apply Hn. now left.
Qed.

Lemma add_all_fresh ps :
  forall acc, NoDup (map fst (acc ++ ps)) -> add_all acc ps = acc ++ ps.
Proof.
  induction ps as [|[k v] r IH]; intros acc Hnd.
  - cbn. now rewrite List.app_nil_r.
  - change (add_all acc ((k, v) :: r)) with (add_all (set_prop acc k v) r).
    assert (Hk : ~ In k (map fst acc)).
    { rewrite map_app in Hnd. cbn [map fst] in Hnd.
      apply NoDup_remove_2 in Hnd. intros Hin. apply Hnd.
      apply in_or_app. now left. }
    rewrite (set_prop_fresh acc k v Hk).
    rewrite IH; rewrite <- List.app_assoc; [reflexivity|exact Hnd].
Qed.

Lemma parse_value_object f ps rest :
  flat ps -> (length ps < f)%nat ->
  parse_value (S f)
    (123 :: serialize_members SerializeJSONProperty ps true ++ 125 :: rest)
  = Some (JObject (add_all [] ps), rest).
Proof.
  intros Hf Hlen. destruct ps as [|[k v] r]; [reflexivity|].
  rewrite <- (parse_members_serialized ((k, v) :: r) f [] rest Hf)
    by (discriminate || exact Hlen).
  inversion Hf as [|? ? Hv Hr]; subst. cbn [snd] in Hv.
  destruct (scalar_serializes v Hv) as [t Ht].
  rewrite (serialize_members_cons k v t r true (125 :: rest) Ht). reflexivity.
Qed.

(** [JSON.parse] undoes [JSON.stringify] on a flat object literal whose
    property names are distinct. *)
Theorem JSON_parse_stringify_object ps :
  flat ps -> NoDup (map fst ps) ->
  JSON_parse (stringify_object ps) = Ok (JObject ps).
Proof.
  intros Hf Hnd. unfold JSON_parse, stringify_object.
  rewrite parse_value_object.
  - rewrite (add_all_fresh ps []) by exact Hnd. reflexivity.
  - exact Hf.
  - cbn [length]. rewrite length_app. cbn [length].
    pose proof (serialize_members_length ps true Hf). lia.
Qed.

End JSONFacts.

(** ** The fuel of [JSON.parse] *)

Module FuelFacts.
Import JSONFacts.

Lemma skip_space_length s : (length (skip_space s) <= length s)%nat.
Proof.
  induction s as [|c r IH]; cbn [skip_space]; [apply le_n|].
  destruct (is_json_space c); cbn [length]; lia.
Qed.

Lemma skip_space_cons s c r :
  skip_space s = c :: r -> (length r < length s)%nat.
Proof.
  intros H. pose proof (skip_space_length s) as L. rewrite H in L.
  cbn [length] in L. lia.
Qed.

Lemma parse_string_body_length_bounded n :
  forall s str rest, (length s <= n)%nat ->
    parse_string_body s = Some (str, rest) -> (length rest < length s)%nat.
Proof.
  induction n as [|n IH]; intros s str rest Hn H.
  - destruct s; [discriminate H|cbn [length] in Hn; lia].
  - destruct s as [|c r]; [discriminate H|].
    cbn [parse_string_body] in H. cbn [length] in *.
    destruct (c =? 34).
    { injection H as _ <-. lia. }
    destruct (c =? 92).
    + destruct r as [|e r1]; [discriminate H|]. cbn [length] in *.
      destruct (e =? 117).
      * destruct r1 as [|h1 [|h2 [|h3 [|h4 r2]]]]; try discriminate H.
        cbn [length] in *.
        destruct (hex4_value h1 h2 h3 h4); [|discriminate H].
        destruct (parse_string_body r2) as [[s' r']|] eqn:E;
          [|discriminate H].
        cbn [cons_char] in H. injection H as _ <-.
        apply IH in E; lia.
      * destruct (simple_escape e); [|discriminate H].
        destruct (parse_string_body r1) as [[s' r']|] eqn:E;
          [|discriminate H].
        cbn [cons_char] in H. injection H as _ <-.
        apply IH in E; lia.
    + destruct (c <? 32); [discriminate H|].
      destruct (parse_string_body r) as [[s' r']|] eqn:E; [|discriminate H].
      cbn [cons_char] in H. injection H as _ <-.
      apply IH in E; lia.
Qed.

Lemma parse_string_body_length s str rest :
  parse_string_body s = Some (str, rest) -> (length rest < length s)%nat.
Proof. apply (parse_string_body_length_bounded (length s)). apply le_n. Qed.

Lemma take_digits_length s :
  (length (snd (take_digits s)) <= length s)%nat
  /\ (fst (take_digits s) <> Decimal.Nil ->
      (length (snd (take_digits s)) < length s)%nat).
Proof.
  induction s as [|c r [IH1 IH2]]; cbn [take_digits].
  - split; [apply le_n|]. intros H. now contradiction H.
  - destruct (digit_of_char c) as [d|].
    + destruct (take_digits r) as [u rest]. cbn [fst snd length] in *.
      split; [lia|]. intros _. lia.
    + cbn [fst snd]. split; [apply le_n|]. intros H. now contradiction H.
Qed.

Lemma parse_exponent_length s ex rest :
  parse_exponent s = Some (ex, rest) -> (length rest <= length s)%nat.
Proof.
  unfold parse_exponent. destruct s as [|c r].
  - intros H. injection H as _ <-. apply le_n.
  - destruct ((c =? 101) || (c =? 69)).
    + destruct r as [|sg r'].
      * cbn. discriminate.
      * destruct (sg =? 45).
        { intros H. pose proof (take_digits_length r') as [T _].
          destruct (take_digits r') as [u rest0]. cbn [snd] in T.
          destruct u; try discriminate H; injection H as _ <-;
            cbn [length]; lia. }
        destruct (sg =? 43).
        { intros H. pose proof (take_digits_length r') as [T _].
          destruct (take_digits r') as [u rest0]. cbn [snd] in T.
          destruct u; try discriminate H; injection H as _ <-;
            cbn [length]; lia. }
        intros H. pose proof (take_digits_length (sg :: r')) as [T _].
        destruct (take_digits (sg :: r')) as [u rest0]. cbn [snd] in T.
        destruct u; try discriminate H; injection H as _ <-;
          cbn [length] in *; lia.
    + intros H. injection H as _ <-. apply le_n.
Qed.


Lemma expect_length w : forall s rest,
  expect w s = Some rest -> (length rest <= length s)%nat.
Proof.
  induction w as [|a w IH]; intros s rest H; cbn [expect] in H.
  - injection H as <-. apply le_n.
  - destruct s as [|c r]; [discriminate H|].
    destruct (c =? a); [|discriminate H].
    apply IH in H. cbn [length]. lia.
Qed.

Ltac number_tail H :=
  match type of H with
  | match ?r with _ => _ end = Some _ =>
      let c := fresh "c" in
      let r1 := fresh "r" in
      destruct r as [|c r1];
      [injection H as _ <-; cbn [length] in *; lia|];
      destruct (c =? 46);
      [ let T := fresh "T" in
        let fp := fresh "fp" in
        let r2 := fresh "r" in
        pose proof (take_digits_length r1) as [T _];
        destruct (take_digits r1) as [fp r2]; cbn [snd] in T;
        destruct fp; try discriminate H;
        (let E := fresh "E" in
         let ex := fresh "ex" in
         let r3 := fresh "r" in
         destruct (parse_exponent r2) as [[ex r3]|] eqn:E; [|discriminate H];
         apply parse_exponent_length in E; injection H as _ <-;
         cbn [length] in *; lia)
      | destruct ((c =? 101) || (c =? 69));
        [ let E := fresh "E" in
          let ex := fresh "ex" in
          let r3 := fresh "r" in
          destruct (parse_exponent (c :: r1)) as [[ex r3]|] eqn:E;
          [|discriminate H];
          apply parse_exponent_length in E; injection H as _ <-;
          cbn [length] in *; lia
        | injection H as _ <-; cbn [length] in *; lia ] ]
  end.

(** A number literal is not empty. *)
Lemma parse_number_length negative s v rest :
  parse_number negative s = Some (v, rest) -> (length rest < length s)%nat.
Proof.
  unfold parse_number. pose proof (take_digits_length s) as [_ T].
  destruct (take_digits s) as [ip r]. cbn [fst snd] in T. intros H.
  destruct ip as [|u|u|u|u|u|u|u|u|u|u]; try discriminate H;
    try (specialize (T ltac:(discriminate)); number_tail H).
  destruct u; try discriminate H.
  specialize (T ltac:(discriminate)). number_tail H.
Qed.

(** Every recursive call of the parser is paid for by a character it
    consumes: a successful parse takes a character at least, and succeeds
    with any fuel not below the number of characters taken. *)
Lemma fuel_by_consumption f :
  (forall s v rest,
      parse_value f s = Some (v, rest) ->
      (length rest < length s)%nat
      /\ forall k, (length s - length rest <= k)%nat ->
                   parse_value k s = Some (v, rest))
  /\ (forall acc s v rest,
        parse_members f acc s = Some (v, rest) ->
        (length rest < length s)%nat
        /\ forall k, (length s - length rest <= k)%nat ->
                     parse_members k acc s = Some (v, rest))
  /\ (forall acc s v rest,
        parse_elements f acc s = Some (v, rest) ->
        (length rest < length s)%nat
        /\ forall k, (length s - length rest <= k)%nat ->
                     parse_elements k acc s = Some (v, rest)).
Proof.
  induction f as [|f (IHv & IHm & IHe)].
  { repeat split; intros; discriminate. }
  split; [|split].
  - intros s v rest H. cbn [parse_value] in H.
    destruct (skip_space s) as [|c r] eqn:Es; [discriminate H|].
    pose proof (skip_space_cons s c r Es) as Ls.
    destruct (c =? 34) eqn:E34.
    { destruct (parse_string_body r) as [[str r']|] eqn:Ep; [|discriminate H].
      injection H as <- <-. pose proof (parse_string_body_length _ _ _ Ep).
      split; [lia|]. intros [|k] Hk; [lia|].
      cbn [parse_value]. rewrite Es, E34, Ep. reflexivity. }
    destruct (c =? 123) eqn:E123.
    { destruct (skip_space r) as [|c1 r1] eqn:Es1; [discriminate H|].
      pose proof (skip_space_cons r c1 r1 Es1).
      destruct (c1 =? 125) eqn:E125.
      - injection H as <- <-. split; [lia|]. intros [|k] Hk; [lia|].
        cbn [parse_value]. rewrite Es, E34, E123, Es1, E125. reflexivity.
      - apply IHm in H. destruct H as [L K]. split; [lia|].
        intros [|k] Hk; [lia|].
        cbn [parse_value]. rewrite Es, E34, E123, Es1, E125. apply K. lia. }
    destruct (c =? 91) eqn:E91.
    { destruct (skip_space r) as [|c1 r1] eqn:Es1; [discriminate H|].
      pose proof (skip_space_cons r c1 r1 Es1).
      destruct (c1 =? 93) eqn:E93.
      - injection H as <- <-. split; [lia|]. intros [|k] Hk; [lia|].
        cbn [parse_value]. rewrite Es, E34, E123, E91, Es1, E93. reflexivity.
      - apply IHe in H. destruct H as [L K]. split; [lia|].
        intros [|k] Hk; [lia|].
        cbn [parse_value]. rewrite Es, E34, E123, E91, Es1, E93. apply K. lia. }
    destruct (c =? 116) eqn:E116.
    { destruct (expect (lit "rue") r) as [r'|] eqn:Ex; [|discriminate H].
      injection H as <- <-. pose proof (expect_length _ _ _ Ex).
      split; [lia|]. intros [|k] Hk; [lia|].
      cbn [parse_value]. rewrite Es, E34, E123, E91, E116, Ex. reflexivity. }
    destruct (c =? 102) eqn:E102.
    { destruct (expect (lit "alse") r) as [r'|] eqn:Ex; [|discriminate H].
      injection H as <- <-. pose proof (expect_length _ _ _ Ex).
      split; [lia|]. intros [|k] Hk; [lia|].
      cbn [parse_value]. rewrite Es, E34, E123, E91, E116, E102, Ex.
      reflexivity. }
    destruct (c =? 110) eqn:E110.
    { destruct (expect (lit "ull") r) as [r'|] eqn:Ex; [|discriminate H].
      injection H as <- <-. pose proof (expect_length _ _ _ Ex).
      split; [lia|]. intros [|k] Hk; [lia|].
      cbn [parse_value]. rewrite Es, E34, E123, E91, E116, E102, E110, Ex.
      reflexivity. }
    destruct (c =? 45) eqn:E45.
    { pose proof (parse_number_length _ _ _ _ H).
      split; [lia|]. intros [|k] Hk; [lia|].
      cbn [parse_value].
      rewrite Es, E34, E123, E91, E116, E102, E110, E45. exact H. }
    pose proof (parse_number_length _ _ _ _ H) as Ln. cbn [length] in Ln.
    split; [lia|]. intros [|k] Hk; [lia|].
    cbn [parse_value].
    rewrite Es, E34, E123, E91, E116, E102, E110, E45. exact H.
  - intros acc s v rest H. cbn [parse_members] in H.
    destruct (skip_space s) as [|q r] eqn:Es; [discriminate H|].
    pose proof (skip_space_cons s q r Es) as Ls.
    destruct (q =? 34) eqn:E34; [|discriminate H].
    destruct (parse_string_body r) as [[key r1]|] eqn:Ep; [|discriminate H].
    pose proof (parse_string_body_length _ _ _ Ep) as Lp.
    destruct (skip_space r1) as [|colon r2] eqn:Es1; [discriminate H|].
    pose proof (skip_space_cons r1 colon r2 Es1) as Ls1.
    destruct (colon =? 58) eqn:E58; [|discriminate H].
    destruct (parse_value f r2) as [[v0 r3]|] eqn:Ev; [|discriminate H].
    destruct (IHv _ _ _ Ev) as [Lv Kv].
    destruct (skip_space r3) as [|sep r4] eqn:Es3; [discriminate H|].
    pose proof (skip_space_cons r3 sep r4 Es3) as Ls3.
    destruct (sep =? 44) eqn:E44.
    + destruct (IHm _ _ _ _ H) as [Lm Km]. split; [lia|].
      intros [|k] Hk; [lia|]. cbn [parse_members].
      rewrite Es, E34, Ep, Es1, E58, (Kv k) by lia.
      rewrite Es3, E44. apply Km. lia.
    + destruct (sep =? 125) eqn:E125; [|discriminate H].
      injection H as <- <-. split; [lia|].
      intros [|k] Hk; [lia|]. cbn [parse_members].
      rewrite Es, E34, Ep, Es1, E58, (Kv k) by lia.
      rewrite Es3, E44, E125. reflexivity.
  - intros acc s v rest H. cbn [parse_elements] in H.
    destruct (parse_value f s) as [[v0 r1]|] eqn:Ev; [|discriminate H].
    destruct (IHv _ _ _ Ev) as [Lv Kv].
    destruct (skip_space r1) as [|sep r2] eqn:Es1; [discriminate H|].
    pose proof (skip_space_cons r1 sep r2 Es1) as Ls1.
    destruct (sep =? 44) eqn:E44.
    + destruct (IHe _ _ _ _ H) as [Le Ke]. split; [lia|].
      intros [|k] Hk; [lia|]. cbn [parse_elements].
      rewrite (Kv k) by lia. rewrite Es1, E44. apply Ke. lia.
    + destruct (sep =? 93) eqn:E93; [|discriminate H].
      injection H as <- <-. split; [lia|].
      intros [|k] Hk; [lia|]. cbn [parse_elements].
      rewrite (Kv k) by lia. rewrite Es1, E44, E93. reflexivity.
Qed.

(** The fuel [JSON_parse] starts with is enough: whatever the parser
    accepts with some amount of fuel, it accepts with this one. *)
Theorem JSON_parse_fuel_adequate f text v rest :
  parse_value f text = Some (v, rest) ->
  parse_value (S (length text)) text = Some (v, rest).
Proof.
  intros H. destruct (fuel_by_consumption f) as (Hv & _ & _).
  destruct (Hv text v rest H) as [_ K]. apply K. lia.
Qed.

End FuelFacts.

(** ** Payload and transfer format *)

Module SignatureFacts.
Import JSONFacts Payload Create.

Lemma payload_keys_NoDup : NoDup payload_keys.
Proof.
  unfold payload_keys. repeat constructor; cbn [In]; intuition discriminate.
Qed.

Lemma canonical_payload_keys f : map fst (canonical_payload f) = payload_keys.
Proof. reflexivity. Qed.

Lemma canonical_payload_flat f : flat (canonical_payload f).
Proof. unfold flat, canonical_payload. repeat constructor. Qed.

Lemma JSON_parse_payload f :
  JSON_parse (buildSignaturePayload f) = Ok (JObject (canonical_payload f)).
Proof.
  apply JSON_parse_stringify_object.
  - apply canonical_payload_flat.
  - rewrite canonical_payload_keys. apply payload_keys_NoDup.
Qed.

(** Two field sets with the same payload are the same field set. *)
Lemma buildSignaturePayload_injective f1 f2 :
  buildSignaturePayload f1 = buildSignaturePayload f2 -> f1 = f2.
Proof.
  intros H.
  assert (E : Ok (E:=JSError) (JObject (canonical_payload f1))
              = Ok (JObject (canonical_payload f2))).
  { rewrite <- !JSON_parse_payload. now rewrite H. }
  destruct f1 as [[] dh1 ih1 it1 ai1 an1 ts1 pp1 pph1 af1].
  destruct f2 as [[] dh2 ih2 it2 ai2 an2 ts2 pp2 pph2 af2].
  unfold canonical_payload in E. cbn in E.
  injection E as -> -> -> -> -> -> -> -> ->. reflexivity.
Qed.

(** The text of the payload, member by member. *)
Lemma buildSignaturePayload_text f :
  buildSignaturePayload f
  = 123 :: json_member "v"
             (QuoteJSONString (version_text (SignaturePayloadFields.version f)))
    ++ 44 :: json_member "dh"
               (QuoteJSONString (SignaturePayloadFields.document_hash f))
    ++ 44 :: json_member "ih"
               (QuoteJSONString (SignaturePayloadFields.intent_hash f))
    ++ 44 :: json_member "it"
               (QuoteJSONString (SignaturePayloadFields.intent_text f))
    ++ 44 :: json_member "ai"
               (QuoteJSONString (SignaturePayloadFields.approver_id f))
    ++ 44 :: json_member "an"
               (QuoteJSONString (SignaturePayloadFields.approver_name f))
    ++ 44 :: json_member "ts"
               (integer_to_string (SignaturePayloadFields.timestamp f))
    ++ 44 :: json_member "pp"
               (QuoteJSONString (SignaturePayloadFields.presence_proof_id f))
    ++ 44 :: json_member "pph"
               (QuoteJSONString (SignaturePayloadFields.presence_proof_hash f))
    ++ 44 :: json_member "af"
               (if SignaturePayloadFields.ai_flag f then lit "true"
                else lit "false")
    ++ [125].
Proof.
  unfold buildSignaturePayload, stringify_object, canonical_payload, json_member.
  cbn [serialize_members SerializeJSONProperty number_to_json].
  destruct (SignaturePayloadFields.ai_flag f);
    cbn [app]; repeat (rewrite <- List.app_assoc; cbn [app]); reflexivity.
Qed.

(** *** The payload is a well-formed string *)

(** A code unit that is not a surrogate. *)
Lemma plain_cons c r :
  is_high_surrogate c = false -> is_low_surrogate c = false ->
  isWellFormed (c :: r) = isWellFormed r.
Proof. intros Hh Hl. cbn [isWellFormed]. rewrite Hh, Hl. reflexivity. Qed.

Lemma plain_below c : c < 55296 ->
  is_high_surrogate c = false /\ is_low_surrogate c = false.
Proof.
  intros H. unfold is_high_surrogate, is_low_surrogate.
  split; apply andb_false_intro1; apply N.leb_gt; lia.
Qed.

Lemma plain_app a b :
  Forall (fun c => c < 55296) a -> isWellFormed (a ++ b) = isWellFormed b.
Proof.
  induction 1 as [|c a Hc _ IH]; [reflexivity|].
  cbn [app]. destruct (plain_below c Hc) as [Hh Hl].
  rewrite (plain_cons c _ Hh Hl). exact IH.
Qed.

Lemma hex_digit_below n : n < 16 -> hex_digit n < 55296.
Proof.
  intros H. unfold hex_digit. destruct (n <? 10); lia.
Qed.

Lemma unicode_escape_plain c : Forall (fun x => x < 55296) (unicode_escape c).
Proof.
  unfold unicode_escape.
  repeat constructor; try lia;
    apply hex_digit_below; apply N.mod_upper_bound; discriminate.
Qed.

Lemma uint_chars_plain u : Forall (fun x => x < 55296) (uint_chars u).
Proof. induction u; cbn [uint_chars]; constructor; auto; lia. Qed.

Lemma integer_to_string_plain z :
  Forall (fun x => x < 55296) (integer_to_string z).
Proof.
  unfold integer_to_string. destruct (Z.to_int z).
  - apply uint_chars_plain.
  - constructor; [lia|apply uint_chars_plain].
Qed.

(** What [QuoteJSONString] writes between the quotes has no lone
    surrogate, whatever the string holds. *)
Lemma quote_body_well_formed s :
  forall rest, isWellFormed (quote_body s ++ rest) = isWellFormed rest.
Proof.
  remember (length s) as n eqn:Hn. revert s Hn.
  induction n as [n IH] using lt_wf_ind. intros s Hn rest.
  destruct s as [|c r]; [reflexivity|].
  cbn [quote_body].
  destruct (is_high_surrogate c) eqn:Hh.
  - destruct r as [|d r'].
    + apply plain_app. apply unicode_escape_plain.
    + destruct (is_low_surrogate d) eqn:Hd.
      * cbn [app isWellFormed]. rewrite Hh, Hd. cbn [andb].
        apply (IH (length r')); [subst n; cbn [length]; lia|reflexivity].
      * rewrite <- List.app_assoc.
        rewrite (plain_app _ _ (unicode_escape_plain c)).
        apply (IH (length (d :: r'))); [subst n; cbn [length]; lia|reflexivity].
  - destruct (is_low_surrogate c) eqn:Hl.
    + rewrite <- List.app_assoc.
      rewrite (plain_app _ _ (unicode_escape_plain c)).
      apply (IH (length r)); [subst n; cbn [length]; lia|reflexivity].
    + rewrite <- List.app_assoc.
      assert (Hq : isWellFormed (quote_unit c ++ quote_body r ++ rest)
                   = isWellFormed (quote_body r ++ rest)).
      { unfold quote_unit.
        repeat match goal with
               | |- context [if ?b then _ else _] =>
                   destruct b;
                   [apply plain_app; repeat constructor; lia|]
               end.
        destruct (c <? 32);
          [apply plain_app; apply unicode_escape_plain|].
        cbn [app]. apply plain_cons; assumption. }
      rewrite Hq.
      apply (IH (length r)); [subst n; cbn [length]; lia|reflexivity].
Qed.

Lemma QuoteJSONString_well_formed s rest :
  isWellFormed (QuoteJSONString s ++ rest) = isWellFormed rest.
Proof.
  unfold QuoteJSONString. cbn [app].
  rewrite plain_cons by reflexivity.
  rewrite <- List.app_assoc, quote_body_well_formed.
  cbn [app]. apply plain_cons; reflexivity.
Qed.

(** The payload has no lone surrogate: a lone surrogate of a field is
    written as an escape. *)
Lemma buildSignaturePayload_well_formed f :
  isWellFormed (buildSignaturePayload f) = true.
Proof.
  rewrite buildSignaturePayload_text. unfold json_member.
  repeat first
    [ rewrite QuoteJSONString_well_formed
    | rewrite (plain_app _ _ (integer_to_string_plain _))
    | rewrite plain_cons by reflexivity
    | rewrite <- List.app_assoc
    | progress cbn [app lit list_ascii_of_string map char16_of_ascii] ].
  destruct (SignaturePayloadFields.ai_flag f); reflexivity.
Qed.

Lemma serialized_flat r : flat (serialized r).
Proof. unfold flat, serialized. repeat constructor. Qed.

Lemma serialized_keys_NoDup r : NoDup (map fst (serialized r)).
Proof.
  unfold serialized. cbn [map fst].
  repeat constructor; cbn [In]; intuition discriminate.
Qed.

Lemma props_flat r : flat (RealitySignature.props r).
Proof. unfold flat, RealitySignature.props. repeat constructor. Qed.

Lemma props_keys_NoDup r : NoDup (map fst (RealitySignature.props r)).
Proof.
  unfold RealitySignature.props. cbn [map fst].
  repeat constructor; cbn [In]; intuition discriminate.
Qed.

Lemma JSON_parse_serialized r :
  JSON_parse (serializeRealitySignature r) = Ok (JObject (serialized r)).
Proof.
  apply JSON_parse_stringify_object;
    [apply serialized_flat|apply serialized_keys_NoDup].
Qed.

Lemma JSON_parse_long r :
  JSON_parse (stringify_long r) = Ok (RealitySignature.to_value r).
Proof.
  apply JSON_parse_stringify_object;
    [apply props_flat|apply props_keys_NoDup].
Qed.

(** The short-key form comes back as the record. *)
Lemma deserialize_serialize r :
  deserializeRealitySignature (serializeRealitySignature r)
  = Ok (RealitySignature.to_value r).
Proof.
  unfold deserializeRealitySignature. rewrite JSON_parse_serialized.
  destruct r as [[] dh ih it ai an ts pp pph af sg pk]. reflexivity.
Qed.

(** The long-name form has no property [v]. *)
Lemma deserialize_long r :
  deserializeRealitySignature (stringify_long r)
  = Throw (Error "Invalid signature version").
Proof.
  unfold deserializeRealitySignature. rewrite JSON_parse_long.
  destruct r as [[] dh ih it ai an ts pp pph af sg pk]. reflexivity.
Qed.

Lemma parseSignature_short r :
  VerifyRoute.parseSignature (serializeRealitySignature r)
  = Ok (RealitySignature.to_value r).
Proof.
  unfold VerifyRoute.parseSignature. rewrite JSON_parse_serialized.
  destruct r as [[] dh ih it ai an ts pp pph af sg pk]. reflexivity.
Qed.

Lemma parseSignature_long r :
  VerifyRoute.parseSignature (stringify_long r)
  = Ok (RealitySignature.to_value r).
Proof.
  unfold VerifyRoute.parseSignature. rewrite JSON_parse_long.
  destruct r as [[] dh ih it ai an ts pp pph af sg pk]. reflexivity.
Qed.

Lemma is_version_1_0_inv x :
  is_version_1_0 x = true -> x = JString (lit "1.0").
Proof.
  destruct x; cbn; try discriminate. intros H.
  apply jsstring_eqb_eq in H. now subst.
Qed.

(** C4, as stated, fails: the long-name form of a record is rejected by
    [deserializeRealitySignature]. *)
Lemma deserialize_rejects_long_names :
  deserializeRealitySignature (stringify_long Sample.record)
  <> Ok (RealitySignature.to_value Sample.record).
Proof. rewrite deserialize_long. discriminate. Qed.

(** C4, amended. [deserializeRealitySignature] accepts the short-key form
    only: the JSON object of a record under the short keys deserializes to
    the record, the one under the long names is rejected with
    ["Invalid signature version"].  Both forms are accepted by
    [parseSignature] of the verify route, which returns the same record for
    either. *)
Theorem field_name_forms (r : RealitySignature.t) :
  deserializeRealitySignature (serializeRealitySignature r)
  = Ok (RealitySignature.to_value r)
  /\ deserializeRealitySignature (stringify_long r)
     = Throw (Error "Invalid signature version")
  /\ VerifyRoute.parseSignature (serializeRealitySignature r)
     = Ok (RealitySignature.to_value r)
  /\ VerifyRoute.parseSignature (stringify_long r)
     = Ok (RealitySignature.to_value r).
Proof.
  split; [apply deserialize_serialize|].
  split; [apply deserialize_long|].
  split; [apply parseSignature_short|apply parseSignature_long].
Qed.

(** C5. [deserializeRealitySignature (serializeRealitySignature r)] is [r]
    in every field, and [deserializeRealitySignature] raises on every JSON
    input whose version field is not the literal ["1.0"]. *)
Theorem serialize_roundtrip_and_version_check :
  (forall r,
      deserializeRealitySignature (serializeRealitySignature r)
      = Ok (RealitySignature.to_value r))
  /\ (forall json,
        (forall parsed, JSON_parse json = Ok parsed ->
                        get parsed (lit "v") <> Ok (JString (lit "1.0"))) ->
        exists e, deserializeRealitySignature json = Throw e).
Proof.
  split; [exact deserialize_serialize|].
  intros json Hv. unfold deserializeRealitySignature.
  destruct (JSON_parse json) as [parsed|e]; [|cbn; eauto].
  specialize (Hv parsed eq_refl). cbn [bind].
  destruct (get parsed (lit "v")) as [v|e]; [|cbn; eauto].
  cbn [bind]. destruct (is_version_1_0 v) eqn:E; [|cbn; eauto].
  apply is_version_1_0_inv in E. subst v. now contradiction Hv.
Qed.

(** The theorem on the sample record and on the text [{"v":"2.0"}]. *)
Lemma serialize_roundtrip_and_version_check_witness :
  deserializeRealitySignature (serializeRealitySignature Sample.record)
  = Ok (RealitySignature.to_value Sample.record)
  /\ exists e,
      deserializeRealitySignature
        (stringify_object [(lit "v", JString (lit "2.0"))]) = Throw e.
Proof.
  destruct serialize_roundtrip_and_version_check as [H1 H2].
  split; [apply (H1 Sample.record)|].
  apply (H2 (stringify_object [(lit "v", JString (lit "2.0"))])).
  intros parsed Hp. vm_compute in Hp. injection Hp as <-.
  vm_compute. discriminate.
Defined.

(** The text of the payload, member by member, whatever
    [Number::toString] writes for the timestamp. *)
Lemma buildSignaturePayload_with_text Number_toString f :
  buildSignaturePayload_with Number_toString f
  = 123 :: json_member "v"
                   (QuoteJSONString
                      (version_text (SignaturePayloadFields.version f)))
          ++ 44 :: json_member "dh"
                     (QuoteJSONString (SignaturePayloadFields.document_hash f))
          ++ 44 :: json_member "ih"
                     (QuoteJSONString (SignaturePayloadFields.intent_hash f))
          ++ 44 :: json_member "it"
                     (QuoteJSONString (SignaturePayloadFields.intent_text f))
          ++ 44 :: json_member "ai"
                     (QuoteJSONString (SignaturePayloadFields.approver_id f))
          ++ 44 :: json_member "an"
                     (QuoteJSONString (SignaturePayloadFields.approver_name f))
          ++ 44 :: json_member "ts"
                     (Number_toString (SignaturePayloadFields.timestamp f))
          ++ 44 :: json_member "pp"
                     (QuoteJSONString
                        (SignaturePayloadFields.presence_proof_id f))
          ++ 44 :: json_member "pph"
                     (QuoteJSONString
                        (SignaturePayloadFields.presence_proof_hash f))
          ++ 44 :: json_member "af"
                     (if SignaturePayloadFields.ai_flag f then lit "true"
                      else lit "false")
          ++ [125].
Proof.
  unfold buildSignaturePayload_with, stringify_object_with, canonical_payload,
    json_member.
  cbn [serialize_members SerializeJSONProperty_with number_to_json_with].
  destruct (SignaturePayloadFields.ai_flag f);
    cbn [app]; repeat (rewrite <- List.app_assoc; cbn [app]); reflexivity.
Qed.

(** With the decimal digits for [Number::toString] it is the payload of
    the other theorems. *)
Lemma buildSignaturePayload_with_digits f :
  buildSignaturePayload_with integer_to_string f = buildSignaturePayload f.
Proof. reflexivity. Qed.

(** C7. [buildSignaturePayload] is a function of the field values alone:
    equal field sets give identical strings; and the keys of the
    serialized JSON appear in the fixed order [v, dh, ih, it, ai, an, ts,
    pp, pph, af], holding the version, document digest, intent digest,
    intent text, approver reference, approver label, event time, presence
    reference, presence digest and assisted flag.  The text is given
    member by member for every [Number::toString], so for every notation
    of the timestamp, exponent notation included; for a timestamp of
    magnitude up to [2^53] the number is written with its decimal digits,
    and the text parses back to the ten members in that order. *)
Theorem payload_deterministic_and_ordered :
  (forall Number_toString f1 f2,
      f1 = f2 ->
      buildSignaturePayload_with Number_toString f1
      = buildSignaturePayload_with Number_toString f2)
  /\ (forall Number_toString f,
        buildSignaturePayload_with Number_toString f
        = 123 :: json_member "v"
                   (QuoteJSONString
                      (version_text (SignaturePayloadFields.version f)))
          ++ 44 :: json_member "dh"
                     (QuoteJSONString (SignaturePayloadFields.document_hash f))
          ++ 44 :: json_member "ih"
                     (QuoteJSONString (SignaturePayloadFields.intent_hash f))
          ++ 44 :: json_member "it"
                     (QuoteJSONString (SignaturePayloadFields.intent_text f))
          ++ 44 :: json_member "ai"
                     (QuoteJSONString (SignaturePayloadFields.approver_id f))
          ++ 44 :: json_member "an"
                     (QuoteJSONString (SignaturePayloadFields.approver_name f))
          ++ 44 :: json_member "ts"
                     (Number_toString (SignaturePayloadFields.timestamp f))
          ++ 44 :: json_member "pp"
                     (QuoteJSONString
                        (SignaturePayloadFields.presence_proof_id f))
          ++ 44 :: json_member "pph"
                     (QuoteJSONString
                        (SignaturePayloadFields.presence_proof_hash f))
          ++ 44 :: json_member "af"
                     (if SignaturePayloadFields.ai_flag f then lit "true"
                      else lit "false")
          ++ [125])
  /\ (forall f1 f2, f1 = f2 -> buildSignaturePayload f1 = buildSignaturePayload f2)
  /\ (forall f,
        (- 9007199254740992 <= SignaturePayloadFields.timestamp f
         <= 9007199254740992)%Z ->
        buildSignaturePayload f
        = 123 :: json_member "v"
                   (QuoteJSONString
                      (version_text (SignaturePayloadFields.version f)))
          ++ 44 :: json_member "dh"
                     (QuoteJSONString (SignaturePayloadFields.document_hash f))
          ++ 44 :: json_member "ih"
                     (QuoteJSONString (SignaturePayloadFields.intent_hash f))
          ++ 44 :: json_member "it"
                     (QuoteJSONString (SignaturePayloadFields.intent_text f))
          ++ 44 :: json_member "ai"
                     (QuoteJSONString (SignaturePayloadFields.approver_id f))
          ++ 44 :: json_member "an"
                     (QuoteJSONString (SignaturePayloadFields.approver_name f))
          ++ 44 :: json_member "ts"
                     (integer_to_string (SignaturePayloadFields.timestamp f))
          ++ 44 :: json_member "pp"
                     (QuoteJSONString
                        (SignaturePayloadFields.presence_proof_id f))
          ++ 44 :: json_member "pph"
                     (QuoteJSONString
                        (SignaturePayloadFields.presence_proof_hash f))
          ++ 44 :: json_member "af"
                     (if SignaturePayloadFields.ai_flag f then lit "true"
                      else lit "false")
          ++ [125])
  /\ (forall f,
        exists ps,
          JSON_parse (buildSignaturePayload f) = Ok (JObject ps)
          /\ map fst ps = payload_keys
          /\ ps = canonical_payload f).
Proof.
  split; [intros Number_toString f1 f2 ->; reflexivity|].
  split; [exact buildSignaturePayload_with_text|].
  split; [intros f1 f2 ->; reflexivity|].
  split; [intros f _; apply buildSignaturePayload_text|].
  intros f. exists (canonical_payload f).
  split; [apply JSON_parse_payload|]. split; reflexivity.
Qed.

(** The theorem on the payload fields of the sample record, whose
    timestamp is written with its decimal digits. *)
Lemma payload_deterministic_and_ordered_witness :
  buildSignaturePayload (extractPayloadFields Sample.record)
  = buildSignaturePayload (extractPayloadFields Sample.record)
  /\ buildSignaturePayload (extractPayloadFields Sample.record)
     = buildSignaturePayload_with integer_to_string
         (extractPayloadFields Sample.record)
  /\ (exists ps,
      JSON_parse (buildSignaturePayload (extractPayloadFields Sample.record))
      = Ok (JObject ps)
      /\ map fst ps = payload_keys).
Proof.
  destruct payload_deterministic_and_ordered as (_ & H0 & H1 & H2 & H3).
  split.
  - apply (H1 (extractPayloadFields Sample.record)
              (extractPayloadFields Sample.record)). reflexivity.
  - split.
    + rewrite (H2 (extractPayloadFields Sample.record));
        [|vm_compute; split; discriminate].
      symmetry.
      apply (H0 integer_to_string (extractPayloadFields Sample.record)).
    + destruct (H3 (extractPayloadFields Sample.record)) as (ps & Hp & Hk & _).
      exists ps. split; assumption.
Defined.

End SignatureFacts.

(** ** The small platform meets the assumptions *)

Module SampleFacts.
Import JSONFacts Payload Create Sample.

Lemma positive_bytes_inj p :
  forall q t t',
    positive_bytes p ++ t = positive_bytes q ++ t' -> p = q /\ t = t'.
Proof.
  induction p as [p IH|p IH|]; intros [q|q|] t t' H; cbn in H;
    try discriminate H; injection H as H.
  - destruct (IH q t t' H) as [-> ->]. now split.
  - destruct (IH q t t' H) as [-> ->]. now split.
  - now split.
Qed.

Lemma unit_bytes_inj c d t t' :
  unit_bytes c ++ t = unit_bytes d ++ t' -> c = d /\ t = t'.
Proof.
  destruct c as [|p], d as [|q]; cbn [unit_bytes]; intros H.
  - injection H as H. now split.
  - destruct q; discriminate H.
  - destruct p; discriminate H.
  - destruct (positive_bytes_inj p q t t' H) as [-> ->]. now split.
Qed.

Lemma encode_inj a : forall b, encode a = encode b -> a = b.
Proof.
  unfold encode. induction a as [|c a IH]; intros [|d b] H; cbn [flat_map] in H.
  - reflexivity.
  - destruct d as [|[q|q|]]; discriminate H.
  - destruct c as [|[p|p|]]; discriminate H.
  - destruct (unit_bytes_inj c d _ _ H) as [-> H']. f_equal. now apply IH.
Qed.

Lemma bytes_eqb_refl a : bytes_eqb a a = true.
Proof.
  induction a as [|x a IH]; [reflexivity|].
  cbn [bytes_eqb]. rewrite IH, (Byte.byte_dec_lb eq_refl). reflexivity.
Qed.

Lemma bytes_eqb_eq a : forall b, bytes_eqb a b = true -> a = b.
Proof.
  induction a as [|x a IH]; intros [|y b] H; cbn [bytes_eqb] in H;
    try discriminate H; [reflexivity|].
  apply andb_prop in H. destruct H as [Hx Hr].
  apply Byte.byte_dec_bl in Hx. subst y. f_equal. now apply IH.
Qed.

Lemma dearmour_armour b : dearmour (armour b) = b.
Proof.
  unfold dearmour, armour. rewrite map_map.
  induction b as [|x b IH]; [reflexivity|].
  cbn [map]. rewrite Byte.of_to_N, IH. reflexivity.
Qed.

Lemma key_length_32 sk pk : tag_getPublicKey sk = Ok pk -> length sk = 32%nat /\ pk = sk.
Proof.
  unfold tag_getPublicKey. destruct (Nat.eqb_spec (length sk) 32) as [E|E];
    [|discriminate]. intros H. injection H as <-. now split.
Qed.

Lemma platform_laws : PlatformLaws platform.
Proof.
  constructor; cbn [platform base64_decode base64_encode ed25519_sign
                    ed25519_getPublicKey ed25519_verify].
  - exact dearmour_armour.
  - intros [|x b] Hb; [congruence|]. unfold armour. cbn [map]. discriminate.
  - intros m sk pk H. apply key_length_32 in H. destruct H as [E _].
    unfold tag_sign. rewrite E. cbn [Nat.eqb]. eauto.
  - intros m sk s. unfold tag_sign.
    destruct (Nat.eqb_spec (length sk) 32) as [E|E]; [|discriminate].
    intros H. injection H as <-. destruct sk; [discriminate E|]. cbn [app]. discriminate.
  - intros sk pk H. apply key_length_32 in H. destruct H as [E ->].
    destruct sk; [discriminate E|discriminate].
  - intros m sk s pk Hs Hp. apply key_length_32 in Hp. destruct Hp as [E ->].
    unfold tag_sign in Hs. rewrite E in Hs. injection Hs as <-.
    unfold tag_verify. rewrite E. cbn [Nat.eqb]. now rewrite bytes_eqb_refl.
Qed.

Lemma record_created :
  createRealitySignature platform params key = Ok record.
Proof. reflexivity. Qed.

Lemma record_binds : signature_binds platform record.
Proof.
  intros payload' _ H. unfold Signing.verify in H.
  cbn [platform base64_decode utf8_encode ed25519_verify] in H.
  unfold record in H at 1 2.
  cbn [RealitySignature.signature RealitySignature.public_key] in H.
  rewrite !dearmour_armour in H. unfold tag_verify in H.
  change (length key =? 32)%nat with true in H. cbn iota in H.
  apply bytes_eqb_eq in H. apply app_inv_head in H.
  apply encode_inj in H. symmetry. exact H.
Qed.

End SampleFacts.

(** ** Verification *)

Module VerifyFacts.
Import JSONFacts SignatureFacts SampleFacts Payload Create Verify.

Lemma narrow_to_value r : narrow (RealitySignature.to_value r) = Some r.
Proof. destruct r as [[] dh ih it ai an ts pp pph af sg pk]. reflexivity. Qed.

Lemma isValidSignatureFormat_to_value r :
  isValidSignatureFormat (RealitySignature.to_value r) = well_formed r.
Proof.
  destruct r as [[] dh ih it ai an ts pp pph af sg pk].
  unfold isValidSignatureFormat, well_formed. cbn.
  repeat match goal with
         | |- context [if negb ?b then false else _] =>
             destruct b; cbn [negb andb]; try reflexivity
         end.
Qed.

(** [verify] on a typed record, step by step. *)
Lemma verify_to_value P document r :
  verify P document (RealitySignature.to_value r)
  = if negb (well_formed r) then VerificationFailureMalformed
    else if negb (jsstring_eqb (Signing.hashDocument P document)
                               (RealitySignature.document_hash r))
    then VerificationFailureDocumentAltered
           (Signing.hashDocument P document)
           (RealitySignature.document_hash r)
    else if negb (Signing.verify P
                    (buildSignaturePayload (extractPayloadFields r))
                    (RealitySignature.signature r)
                    (RealitySignature.public_key r))
    then VerificationFailureInvalidSignature
    else VerificationSuccess
           (RealitySignature.approver_id r)
           (RealitySignature.approver_name r)
           (RealitySignature.timestamp r)
           (RealitySignature.ai_flag r).
Proof.
  unfold verify. rewrite isValidSignatureFormat_to_value, narrow_to_value.
  destruct (well_formed r); reflexivity.
Qed.

(** What a value that passes the format check holds under each name. *)
Lemma isValidSignatureFormat_members v :
  isValidSignatureFormat v = true ->
  is_version_1_0 (member v (lit "version")) = true
  /\ is_hex64_string (member v (lit "document_hash")) = true
  /\ is_hex64_string (member v (lit "intent_hash")) = true
  /\ is_nonempty_string (member v (lit "intent_text")) = true
  /\ is_nonempty_string (member v (lit "approver_id")) = true
  /\ is_nonempty_string (member v (lit "approver_name")) = true
  /\ is_positive_integer (member v (lit "timestamp")) = true
  /\ is_nonempty_string (member v (lit "presence_proof_id")) = true
  /\ is_hex64_string (member v (lit "presence_proof_hash")) = true
  /\ is_boolean (member v (lit "ai_flag")) = true
  /\ is_nonempty_string (member v (lit "signature")) = true
  /\ is_nonempty_string (member v (lit "public_key")) = true.
Proof.
  unfold isValidSignatureFormat.
  destruct (negb (typeof_object v) || is_null v); [discriminate|].
  repeat match goal with
         | |- (if negb ?b then false else _) = true -> _ =>
             destruct b; cbn [negb]; [|discriminate]
         end.
  intros _. repeat split.
Qed.

Lemma is_hex64_string_inv x :
  is_hex64_string x = true -> exists s, x = JString s /\ is_hex64 s = true.
Proof. destruct x; cbn; try discriminate. eauto. Qed.

Lemma is_nonempty_string_inv x :
  is_nonempty_string x = true ->
  exists s, x = JString s /\ negb (length s =? 0)%nat = true.
Proof. destruct x; cbn; try discriminate. eauto. Qed.

Lemma is_positive_integer_inv x :
  is_positive_integer x = true ->
  exists z, x = JNumber (NumInt z) /\ negb (z <=? 0)%Z = true.
Proof. destruct x as [| | |[]| | |]; cbn; try discriminate. eauto. Qed.

Lemma is_boolean_inv x : is_boolean x = true -> exists b, x = JBool b.
Proof. destruct x; cbn; try discriminate. eauto. Qed.

(** The type guard is sound: a value that passes the format check reads as
    a record, and that record meets the format constraints. *)
Lemma isValidSignatureFormat_narrow v :
  isValidSignatureFormat v = true ->
  exists r, narrow v = Some r /\ well_formed r = true.
Proof.
  intros H. apply isValidSignatureFormat_members in H.
  destruct H as (H1 & H2 & H3 & H4 & H5 & H6 & H7 & H8 & H9 & H10 & H11 & H12).
  apply is_version_1_0_inv in H1.
  apply is_hex64_string_inv in H2, H3, H9.
  apply is_nonempty_string_inv in H4, H5, H6, H8, H11, H12.
  apply is_positive_integer_inv in H7. apply is_boolean_inv in H10.
  destruct H2 as (dh & E2 & W2), H3 as (ih & E3 & W3), H4 as (it & E4 & W4),
    H5 as (ai & E5 & W5), H6 as (an & E6 & W6), H7 as (ts & E7 & W7),
    H8 as (pp & E8 & W8), H9 as (pph & E9 & W9), H10 as (af & E10),
    H11 as (sg & E11 & W11), H12 as (pk & E12 & W12).
  unfold narrow.
  rewrite H1, E2, E3, E4, E5, E6, E7, E8, E9, E10, E11, E12.
  cbv beta iota. rewrite jsstring_eqb_refl.
  eexists. split; [reflexivity|].
  unfold well_formed. cbn.
  rewrite W2, W3, W4, W5, W6, W7, W8, W9, W11, W12. reflexivity.
Qed.

Lemma jsstring_eqb_false_iff a b : jsstring_eqb a b = false <-> a <> b.
Proof.
  split.
  - intros H E. apply jsstring_eqb_eq in E. congruence.
  - apply jsstring_eqb_neq.
Qed.

(** C3. [verify] is a total function into the result union.  A value that
    fails the format check yields [invalid_signature_format] with integrity
    [unknown], whatever the platform computes; a well-formed record whose
    digest differs from the computed one yields [document_altered] with
    integrity [altered] and both digests, whatever [ed.verify] would do; a
    matching digest with a failing signature check, a thrown exception
    included, yields [signature_not_authentic] with integrity [unknown]. *)
Theorem verify_total_and_ordered
    (P : Platform) (document : Bytes) (signature : JSValue) :
  (isValidSignatureFormat signature = false ->
   forall P', verify P' document signature = VerificationFailureMalformed)
  /\ (isValidSignatureFormat signature = true ->
      exists sig,
        narrow signature = Some sig
        /\ (Signing.hashDocument P document
            <> RealitySignature.document_hash sig ->
            forall g,
              verify (with_ed25519_verify P g) document signature
              = VerificationFailureDocumentAltered
                  (Signing.hashDocument P document)
                  (RealitySignature.document_hash sig))
        /\ (Signing.hashDocument P document
            = RealitySignature.document_hash sig ->
            Signing.verify P
              (buildSignaturePayload (extractPayloadFields sig))
              (RealitySignature.signature sig)
              (RealitySignature.public_key sig) = false ->
            verify P document signature = VerificationFailureInvalidSignature)
        /\ (Signing.hashDocument P document
            = RealitySignature.document_hash sig ->
            (exists e,
                ed25519_verify P
                  (base64_decode P (RealitySignature.signature sig))
                  (utf8_encode P
                     (buildSignaturePayload (extractPayloadFields sig)))
                  (base64_decode P (RealitySignature.public_key sig))
                = Throw e) ->
            verify P document signature = VerificationFailureInvalidSignature))
  /\ (error VerificationFailureMalformed = Some invalid_signature_format
      /\ document_integrity VerificationFailureMalformed = unknown)
  /\ (forall c e,
        error (VerificationFailureDocumentAltered c e) = Some document_altered
        /\ document_integrity (VerificationFailureDocumentAltered c e) = altered)
  /\ (error VerificationFailureInvalidSignature = Some signature_not_authentic
      /\ document_integrity VerificationFailureInvalidSignature = unknown).
Proof.
  split; [|split; [|repeat split]].
  - intros H P'. unfold verify. rewrite H. reflexivity.
  - intros H. destruct (isValidSignatureFormat_narrow signature H) as (sig & Hn & _).
    exists sig. split; [exact Hn|]. split; [|split].
    + intros Hne g. unfold verify. rewrite H, Hn. cbn [negb].
      change (Signing.hashDocument (with_ed25519_verify P g) document)
        with (Signing.hashDocument P document).
      apply jsstring_eqb_false_iff in Hne. rewrite Hne. reflexivity.
    + intros He Hs. unfold verify. rewrite H, Hn. cbn [negb].
      rewrite He, jsstring_eqb_refl. cbn [negb]. rewrite Hs. reflexivity.
    + intros He [e Ht]. unfold verify. rewrite H, Hn. cbn [negb].
      rewrite He, jsstring_eqb_refl. cbn [negb].
      unfold Signing.verify. rewrite Ht. reflexivity.
Qed.


(** The theorem on [null], on the sample record against the altered
    document under an [ed.verify] that accepts everything, and on the
    sample record under an [ed.verify] that throws. *)
Lemma verify_total_and_ordered_witness :
  verify Sample.platform Sample.document JNull = VerificationFailureMalformed
  /\ verify (with_ed25519_verify Sample.platform (fun _ _ _ => Ok true))
        Sample.document' (RealitySignature.to_value Sample.record)
     = VerificationFailureDocumentAltered
         (Sample.hex Sample.document') (Sample.hex Sample.document)
  /\ verify (with_ed25519_verify Sample.platform (fun _ _ _ => Throw TypeError))
        Sample.document (RealitySignature.to_value Sample.record)
     = VerificationFailureInvalidSignature.
Proof.
  split; [|split].
  - destruct (verify_total_and_ordered Sample.platform Sample.document JNull)
      as (H & _).
    apply (H eq_refl Sample.platform).
  - destruct (verify_total_and_ordered Sample.platform Sample.document'
                (RealitySignature.to_value Sample.record)) as (_ & H & _).
    destruct (H eq_refl) as (sig & Hn & Ha & _).
    rewrite narrow_to_value in Hn. injection Hn as <-.
    apply Ha. vm_compute. discriminate.
  - destruct (verify_total_and_ordered
                (with_ed25519_verify Sample.platform (fun _ _ _ => Throw TypeError))
                Sample.document (RealitySignature.to_value Sample.record))
      as (_ & H & _).
    destruct (H eq_refl) as (sig & Hn & _ & _ & Ht).
    rewrite narrow_to_value in Hn. injection Hn as <-.
    apply Ht; [reflexivity|]. exists TypeError. reflexivity.
Defined.

(** *** Round trip *)

Lemma well_formed_created P params sg pk :
  well_formed_params params = true ->
  base64_encode P sg <> [] -> base64_encode P pk <> [] ->
  well_formed
    {| RealitySignature.version := V1_0;
       RealitySignature.document_hash :=
         RealitySignatureParams.document_hash params;
       RealitySignature.intent_hash :=
         RealitySignatureParams.intent_hash params;
       RealitySignature.intent_text :=
         RealitySignatureParams.intent_text params;
       RealitySignature.approver_id :=
         RealitySignatureParams.approver_id params;
       RealitySignature.approver_name :=
         RealitySignatureParams.approver_name params;
       RealitySignature.timestamp := RealitySignatureParams.timestamp params;
       RealitySignature.presence_proof_id :=
         RealitySignatureParams.presence_proof_id params;
       RealitySignature.presence_proof_hash :=
         RealitySignatureParams.presence_proof_hash params;
       RealitySignature.ai_flag :=
         match RealitySignatureParams.ai_flag params with
         | Some b => b
         | None => false
         end;
       RealitySignature.signature := base64_encode P sg;
       RealitySignature.public_key := base64_encode P pk |} = true.
Proof.
  intros Hw Hs Hp. unfold well_formed.
  cbn [RealitySignature.document_hash RealitySignature.intent_hash
       RealitySignature.intent_text RealitySignature.approver_id
       RealitySignature.approver_name RealitySignature.timestamp
       RealitySignature.presence_proof_id RealitySignature.presence_proof_hash
       RealitySignature.signature RealitySignature.public_key].
  unfold well_formed_params in Hw. rewrite Hw. cbn [andb].
  destruct (base64_encode P sg); [congruence|].
  destruct (base64_encode P pk); [congruence|].
  reflexivity.
Qed.

(** C2. For a document, a well-formed field set whose [document_hash] is
    the digest of the document, and a private key, [createRealitySignature]
    returns a record whose verification against the document succeeds with
    integrity [intact], and the success result carries the record's
    [approver_id], [approver_name], [timestamp] and [ai_flag]. *)
Theorem create_then_verify
    (P : Platform) (laws : PlatformLaws P)
    (document : Bytes) (params : RealitySignatureParams.t)
    (privateKey publicKeyBytes : Bytes) :
  ed25519_getPublicKey P privateKey = Ok publicKeyBytes ->
  well_formed_params params = true ->
  RealitySignatureParams.document_hash params
  = Signing.hashDocument P document ->
  exists r,
    createRealitySignature P params privateKey = Ok r
    /\ verify P document (RealitySignature.to_value r)
       = VerificationSuccess
           (RealitySignature.approver_id r)
           (RealitySignature.approver_name r)
           (RealitySignature.timestamp r)
           (RealitySignature.ai_flag r)
    /\ valid (verify P document (RealitySignature.to_value r)) = true
    /\ document_integrity (verify P document (RealitySignature.to_value r))
       = intact
    /\ RealitySignature.approver_id r
       = RealitySignatureParams.approver_id params
    /\ RealitySignature.approver_name r
       = RealitySignatureParams.approver_name params
    /\ RealitySignature.timestamp r = RealitySignatureParams.timestamp params.
Proof.
  intros Hpk Hw Hh.
  unfold createRealitySignature, Signing.sign.
  match goal with
  | |- context [ed25519_sign P ?m privateKey] =>
      destruct (ed25519_sign_defined P laws m privateKey _ Hpk) as [s Hs];
      rewrite Hs
  end.
  cbn [bind]. rewrite Hpk. cbn [bind].
  eexists. split; [reflexivity|].
  pose proof (base64_encode_nonempty P laws _
                (ed25519_signature_nonempty P laws _ _ _ Hs)) as Hsn.
  pose proof (base64_encode_nonempty P laws _
                (ed25519_public_key_nonempty P laws _ _ Hpk)) as Hpn.
  match goal with
  | |- verify P document (RealitySignature.to_value ?r) = _ /\ _ =>
      assert (Hv : verify P document (RealitySignature.to_value r)
                   = VerificationSuccess
                       (RealitySignature.approver_id r)
                       (RealitySignature.approver_name r)
                       (RealitySignature.timestamp r)
                       (RealitySignature.ai_flag r))
  end.
  { rewrite verify_to_value.
    rewrite (well_formed_created P params s publicKeyBytes Hw Hsn Hpn).
    cbn [negb].
      cbn [RealitySignature.document_hash]. rewrite <- Hh, jsstring_eqb_refl.
      cbn [negb]. unfold Signing.verify.
      cbn [RealitySignature.signature RealitySignature.public_key].
      rewrite !(base64_decode_encode P laws).
      unfold extractPayloadFields.
      cbn [RealitySignature.version RealitySignature.document_hash
           RealitySignature.intent_hash RealitySignature.intent_text
           RealitySignature.approver_id RealitySignature.approver_name
           RealitySignature.timestamp RealitySignature.presence_proof_id
           RealitySignature.presence_proof_hash RealitySignature.ai_flag].
      rewrite (ed25519_verify_sign P laws _ _ _ _ Hs Hpk). reflexivity. }
  rewrite Hv. repeat split.
Qed.

(** The theorem on the sample document, parameters and key. *)
Lemma create_then_verify_witness :
  exists r,
    createRealitySignature Sample.platform Sample.params Sample.key = Ok r
    /\ valid (verify Sample.platform Sample.document (RealitySignature.to_value r))
       = true.
Proof.
  destruct (create_then_verify Sample.platform platform_laws
              Sample.document Sample.params Sample.key Sample.key)
    as (r & Hc & _ & Hv & _).
  - reflexivity.
  - vm_compute. reflexivity.
  - reflexivity.
  - exists r. split; assumption.
Defined.


(** *** Tampering *)

Lemma failure_detected res : valid res = false -> detected res.
Proof.
  destruct res; cbn; intros H; try discriminate H; split; auto.
Qed.

Lemma created_fields P params privateKey r :
  createRealitySignature P params privateKey = Ok r ->
  RealitySignature.document_hash r
  = RealitySignatureParams.document_hash params.
Proof.
  unfold createRealitySignature.
  destruct (Signing.sign P _ privateKey) as [sg|e]; [|discriminate].
  cbn [bind].
  destruct (ed25519_getPublicKey P privateKey) as [pk|e]; [|discriminate].
  cbn [bind]. intros H. injection H as <-. reflexivity.
Qed.

(** A record that keeps the signature and the key of [r] but differs in a
    signed field does not verify. *)
Lemma other_fields_fail P document r r' :
  signature_binds P r ->
  RealitySignature.signature r' = RealitySignature.signature r ->
  RealitySignature.public_key r' = RealitySignature.public_key r ->
  extractPayloadFields r' <> extractPayloadFields r ->
  valid (verify P document (RealitySignature.to_value r')) = false.
Proof.
  intros Hb Hs Hp Hne. rewrite verify_to_value.
  destruct (well_formed r'); [|reflexivity]. cbn [negb].
  destruct (jsstring_eqb _ _); [|reflexivity]. cbn [negb].
  destruct (Signing.verify P _ _ _) eqn:Hv; [|reflexivity].
  exfalso. apply Hne. apply buildSignaturePayload_injective.
  apply Hb; [apply buildSignaturePayload_well_formed|].
  rewrite <- Hs, <- Hp. exact Hv.
Qed.

(** Such a record, when it meets the format constraints and names the
    digest of the document, is rejected at the signature check. *)
Lemma changed_record_rejected P document r r' :
  signature_binds P r ->
  well_formed r' = true ->
  RealitySignature.signature r' = RealitySignature.signature r ->
  RealitySignature.public_key r' = RealitySignature.public_key r ->
  RealitySignature.document_hash r' = Signing.hashDocument P document ->
  extractPayloadFields r' <> extractPayloadFields r ->
  verify P document (RealitySignature.to_value r')
  = VerificationFailureInvalidSignature.
Proof.
  intros Hb Hw Hs Hp Hd Hne. rewrite verify_to_value, Hw. cbn [negb].
  rewrite Hd, jsstring_eqb_refl. cbn [negb].
  destruct (Signing.verify P _ _ _) eqn:Hv; [|reflexivity].
  exfalso. apply Hne. apply buildSignaturePayload_injective.
  apply Hb; [apply buildSignaturePayload_well_formed|].
  rewrite <- Hs, <- Hp. exact Hv.
Qed.

(** A record made from parameters that meet the format constraints meets
    them. *)
Lemma created_well_formed P (laws : PlatformLaws P) params privateKey r :
  createRealitySignature P params privateKey = Ok r ->
  well_formed_params params = true ->
  well_formed r = true.
Proof.
  unfold createRealitySignature, Signing.sign. intros Hc Hw.
  match type of Hc with
  | context [ed25519_sign P ?m privateKey] =>
      destruct (ed25519_sign P m privateKey) as [sg|e] eqn:Hs;
        [|discriminate Hc]
  end.
  cbn [bind] in Hc.
  destruct (ed25519_getPublicKey P privateKey) as [pk|e] eqn:Hpk;
    [|discriminate Hc].
  cbn [bind] in Hc. injection Hc as <-.
  apply well_formed_created; [exact Hw| |].
  - apply (base64_encode_nonempty P laws).
    exact (ed25519_signature_nonempty P laws _ _ _ Hs).
  - apply (base64_encode_nonempty P laws).
    exact (ed25519_public_key_nonempty P laws _ _ Hpk).
Qed.

Ltac tampered_string H x :=
  change (member _ _) with x in H;
  first [apply is_hex64_string_inv in H | apply is_nonempty_string_inv in H];
  destruct H as (s' & -> & _).

Ltac differs_in_one_field Hx :=
  split; [reflexivity|];
  split; [reflexivity|];
  split; [reflexivity|];
  intros Heq; injection Heq as ->; apply Hx; reflexivity.

(** One signed property overwritten with another value: the result no
    longer passes the format check, or it is a record that differs from
    the original in a signed field and in nothing else. *)
Lemma tamper_shape r k x :
  In k RealitySignature.signed_fields ->
  x <> member (RealitySignature.to_value r) k ->
  isValidSignatureFormat (tamper r k x) = false
  \/ exists r',
      tamper r k x = RealitySignature.to_value r'
      /\ RealitySignature.signature r' = RealitySignature.signature r
      /\ RealitySignature.public_key r' = RealitySignature.public_key r
      /\ extractPayloadFields r' <> extractPayloadFields r.
Proof.
  intros Hk Hx.
  destruct r as [[] dh ih it ai an ts pp pph af sg pk].
  destruct (isValidSignatureFormat (tamper _ k x)) eqn:E; [right|left; reflexivity].
  apply isValidSignatureFormat_members in E.
  destruct E as (H1 & H2 & H3 & H4 & H5 & H6 & H7 & H8 & H9 & H10 & _).
  cbn [In RealitySignature.signed_fields] in Hk.
  destruct Hk as [<-|[<-|[<-|[<-|[<-|[<-|[<-|[<-|[<-|[<-|[]]]]]]]]]]].
  - change (member _ _) with x in H1. apply is_version_1_0_inv in H1.
    exfalso. apply Hx. rewrite H1. reflexivity.
  - tampered_string H2 x.
    exists (RealitySignature.make V1_0 s' ih it ai an ts pp pph af sg pk).
    differs_in_one_field Hx.
  - tampered_string H3 x.
    exists (RealitySignature.make V1_0 dh s' it ai an ts pp pph af sg pk).
    differs_in_one_field Hx.
  - tampered_string H4 x.
    exists (RealitySignature.make V1_0 dh ih s' ai an ts pp pph af sg pk).
    differs_in_one_field Hx.
  - tampered_string H5 x.
    exists (RealitySignature.make V1_0 dh ih it s' an ts pp pph af sg pk).
    differs_in_one_field Hx.
  - tampered_string H6 x.
    exists (RealitySignature.make V1_0 dh ih it ai s' ts pp pph af sg pk).
    differs_in_one_field Hx.
  - change (member _ _) with x in H7. apply is_positive_integer_inv in H7.
    destruct H7 as (z & -> & _).
    exists (RealitySignature.make V1_0 dh ih it ai an z pp pph af sg pk).
    differs_in_one_field Hx.
  - tampered_string H8 x.
    exists (RealitySignature.make V1_0 dh ih it ai an ts s' pph af sg pk).
    differs_in_one_field Hx.
  - tampered_string H9 x.
    exists (RealitySignature.make V1_0 dh ih it ai an ts pp s' af sg pk).
    differs_in_one_field Hx.
  - change (member _ _) with x in H10. apply is_boolean_inv in H10.
    destruct H10 as (b & ->).
    exists (RealitySignature.make V1_0 dh ih it ai an ts pp pph b sg pk).
    differs_in_one_field Hx.
Qed.

Ltac differs_in_that_field Hx :=
  split; [reflexivity|];
  split; [reflexivity|];
  split; [reflexivity|];
  split; [intros Heq; injection Heq as ->; apply Hx; reflexivity|];
  split; [first [ intros _ Heq; apply Hx; cbn in Heq; rewrite Heq; reflexivity
                | intros Heq; discriminate Heq ]
         |first [ reflexivity
                | intros Hkk; exfalso; apply Hkk; reflexivity ]].

(** One signed property overwritten with another value that passes the
    format check: the result is a record that differs from the original
    in that field and in nothing else. *)
Lemma tamper_record r k x :
  In k RealitySignature.signed_fields ->
  x <> member (RealitySignature.to_value r) k ->
  isValidSignatureFormat (tamper r k x) = true ->
  exists r',
    tamper r k x = RealitySignature.to_value r'
    /\ RealitySignature.signature r' = RealitySignature.signature r
    /\ RealitySignature.public_key r' = RealitySignature.public_key r
    /\ extractPayloadFields r' <> extractPayloadFields r
    /\ (k = lit "document_hash" ->
        RealitySignature.document_hash r' <> RealitySignature.document_hash r)
    /\ (k <> lit "document_hash" ->
        RealitySignature.document_hash r' = RealitySignature.document_hash r).
Proof.
  intros Hk Hx E.
  destruct r as [[] dh ih it ai an ts pp pph af sg pk].
  apply isValidSignatureFormat_members in E.
  destruct E as (H1 & H2 & H3 & H4 & H5 & H6 & H7 & H8 & H9 & H10 & _).
  cbn [In RealitySignature.signed_fields] in Hk.
  destruct Hk as [<-|[<-|[<-|[<-|[<-|[<-|[<-|[<-|[<-|[<-|[]]]]]]]]]]].
  - change (member _ _) with x in H1. apply is_version_1_0_inv in H1.
    exfalso. apply Hx. rewrite H1. reflexivity.
  - tampered_string H2 x.
    exists (RealitySignature.make V1_0 s' ih it ai an ts pp pph af sg pk).
    differs_in_that_field Hx.
  - tampered_string H3 x.
    exists (RealitySignature.make V1_0 dh s' it ai an ts pp pph af sg pk).
    differs_in_that_field Hx.
  - tampered_string H4 x.
    exists (RealitySignature.make V1_0 dh ih s' ai an ts pp pph af sg pk).
    differs_in_that_field Hx.
  - tampered_string H5 x.
    exists (RealitySignature.make V1_0 dh ih it s' an ts pp pph af sg pk).
    differs_in_that_field Hx.
  - tampered_string H6 x.
    exists (RealitySignature.make V1_0 dh ih it ai s' ts pp pph af sg pk).
    differs_in_that_field Hx.
  - change (member _ _) with x in H7. apply is_positive_integer_inv in H7.
    destruct H7 as (z & -> & _).
    exists (RealitySignature.make V1_0 dh ih it ai an z pp pph af sg pk).
    differs_in_that_field Hx.
  - tampered_string H8 x.
    exists (RealitySignature.make V1_0 dh ih it ai an ts s' pph af sg pk).
    differs_in_that_field Hx.
  - tampered_string H9 x.
    exists (RealitySignature.make V1_0 dh ih it ai an ts pp s' af sg pk).
    differs_in_that_field Hx.
  - change (member _ _) with x in H10. apply is_boolean_inv in H10.
    destruct H10 as (b & ->).
    exists (RealitySignature.make V1_0 dh ih it ai an ts pp pph b sg pk).
    differs_in_that_field Hx.
Qed.

(** Any other value under [version] fails the format check. *)
Lemma version_tamper_malformed P document r x :
  x <> JString (lit "1.0") ->
  verify P document (tamper r (lit "version") x)
  = VerificationFailureMalformed.
Proof.
  intros Hx. unfold verify.
  destruct (isValidSignatureFormat (tamper r (lit "version") x)) eqn:E;
    [|reflexivity].
  exfalso. apply isValidSignatureFormat_members in E.
  destruct E as (H1 & _).
  destruct r as [[] dh ih it ai an ts pp pph af sg pk].
  change (member _ _) with x in H1. apply is_version_1_0_inv in H1.
  exact (Hx H1).
Qed.

(** C1, as stated, fails: overwriting [version] makes the record
    malformed, and the error is [invalid_signature_format]. *)
Lemma version_tamper_is_format_error :
  createRealitySignature Sample.platform Sample.params Sample.key = Ok Sample.record
  /\ valid (verify Sample.platform Sample.document
              (RealitySignature.to_value Sample.record)) = true
  /\ JString (lit "2.0")
     <> member (RealitySignature.to_value Sample.record) (lit "version")
  /\ error (verify Sample.platform Sample.document
              (tamper Sample.record (lit "version") (JString (lit "2.0"))))
     = Some invalid_signature_format.
Proof.
  split; [reflexivity|]. split; [vm_compute; reflexivity|].
  split; [vm_compute; discriminate|]. vm_compute. reflexivity.
Qed.

(** C1, amended. For a record produced by [createRealitySignature] over a
    document, under a signature that verifies for no other payload:
    against any document whose digest differs, and after any signed field
    is overwritten with a different value, [verify] returns a failure,
    never a success.  When the parameters met the format constraints and
    base64 and Ed25519 work as specified, so that the record itself
    verifies, the error is fixed by the order of the checks.  Against a
    document whose digest differs it is
    [document_altered], with both digests.  After a signed field is
    overwritten it is [invalid_signature_format] when the changed record
    no longer passes the format check, as after every change of
    [version]; otherwise [document_altered] when the field is
    [document_hash], and [signature_not_authentic] for each of the other
    fields.  So a timestamp moved to another positive value, another
    non-empty intent text and a flipped AI flag each give
    [signature_not_authentic]. *)
Theorem tampering_detected
    (P : Platform) (document : Bytes) (params : RealitySignatureParams.t)
    (privateKey : Bytes) (r : RealitySignature.t) :
  createRealitySignature P params privateKey = Ok r ->
  RealitySignatureParams.document_hash params
  = Signing.hashDocument P document ->
  signature_binds P r ->
  (forall document',
      Signing.hashDocument P document' <> Signing.hashDocument P document ->
      let result := verify P document' (RealitySignature.to_value r) in
      valid result = false
      /\ (error result = Some invalid_signature_format
          \/ error result = Some document_altered))
  /\ (forall k x,
        In k RealitySignature.signed_fields ->
        x <> member (RealitySignature.to_value r) k ->
        detected (verify P document (tamper r k x)))
  /\ (PlatformLaws P ->
      well_formed_params params = true ->
      (forall document',
          Signing.hashDocument P document'
          <> Signing.hashDocument P document ->
          verify P document' (RealitySignature.to_value r)
          = VerificationFailureDocumentAltered
              (Signing.hashDocument P document')
              (Signing.hashDocument P document))
      /\ (forall k x,
            In k RealitySignature.signed_fields ->
            x <> member (RealitySignature.to_value r) k ->
            let result := verify P document (tamper r k x) in
            (isValidSignatureFormat (tamper r k x) = false ->
             result = VerificationFailureMalformed)
            /\ (isValidSignatureFormat (tamper r k x) = true ->
                k = lit "document_hash" ->
                error result = Some document_altered)
            /\ (isValidSignatureFormat (tamper r k x) = true ->
                k <> lit "document_hash" ->
                result = VerificationFailureInvalidSignature))
      /\ (forall x,
            x <> JString (lit "1.0") ->
            verify P document (tamper r (lit "version") x)
            = VerificationFailureMalformed)
      /\ (forall timestamp',
            (0 < timestamp')%Z ->
            timestamp' <> RealitySignature.timestamp r ->
            verify P document
              (tamper r (lit "timestamp") (JNumber (NumInt timestamp')))
            = VerificationFailureInvalidSignature)
      /\ (forall text',
            text' <> [] ->
            text' <> RealitySignature.intent_text r ->
            verify P document (tamper r (lit "intent_text") (JString text'))
            = VerificationFailureInvalidSignature)
      /\ verify P document
           (tamper r (lit "ai_flag")
              (JBool (negb (RealitySignature.ai_flag r))))
         = VerificationFailureInvalidSignature).
Proof.
  intros Hc Hh Hb.
  pose proof (created_fields P params privateKey r Hc) as Hd.
  rewrite Hh in Hd.
  split.
  { intros document' Hne. cbv zeta. rewrite verify_to_value.
    destruct (well_formed r); [|split; [reflexivity|left; reflexivity]].
    cbn [negb]. rewrite Hd.
    apply jsstring_eqb_false_iff in Hne. rewrite Hne.
    split; [reflexivity|right; reflexivity]. }
  split.
  { intros k x Hk Hx. apply failure_detected.
    destruct (tamper_shape r k x Hk Hx) as [E|(r' & -> & Hs & Hp & Hne)].
    - unfold verify. rewrite E. reflexivity.
    - exact (other_fields_fail P document r r' Hb Hs Hp Hne). }
  intros laws Hwp.
  pose proof (created_well_formed P laws params privateKey r Hc Hwp) as Hw.
  assert (Hgen : forall k x,
             In k RealitySignature.signed_fields ->
             x <> member (RealitySignature.to_value r) k ->
             isValidSignatureFormat (tamper r k x) = true ->
             k <> lit "document_hash" ->
             verify P document (tamper r k x)
             = VerificationFailureInvalidSignature).
  { intros k x Hk Hx E Hnk.
    destruct (tamper_record r k x Hk Hx E)
      as (r' & Ht & Hs & Hp & Hne & _ & Hsame).
    rewrite Ht in E |- *. rewrite isValidSignatureFormat_to_value in E.
    apply (changed_record_rejected P document r r' Hb E Hs Hp);
      [rewrite (Hsame Hnk); exact Hd|exact Hne]. }
  split.
  { intros document' Hne. rewrite verify_to_value, Hw. cbn [negb].
    rewrite Hd. apply jsstring_eqb_false_iff in Hne. rewrite Hne.
    reflexivity. }
  split.
  { intros k x Hk Hx. cbv zeta.
    split.
    { intros E. unfold verify. rewrite E. reflexivity. }
    split.
    { intros E Hkd.
      destruct (tamper_record r k x Hk Hx E)
        as (r' & Ht & Hs & Hp & Hne & Hdiff & _).
      rewrite Ht in E |- *. rewrite isValidSignatureFormat_to_value in E.
      rewrite verify_to_value, E. cbn [negb].
      assert (Hneq : Signing.hashDocument P document
                     <> RealitySignature.document_hash r').
      { rewrite <- Hd. intros Heq. exact (Hdiff Hkd (eq_sym Heq)). }
      apply jsstring_eqb_false_iff in Hneq. rewrite Hneq. reflexivity. }
    { intros E Hnk. exact (Hgen k x Hk Hx E Hnk). } }
  split.
  { intros x Hx. apply version_tamper_malformed. exact Hx. }
  destruct r as [[] dh ih it ai an ts pp pph af sg pk].
  cbn [RealitySignature.timestamp RealitySignature.intent_text
       RealitySignature.ai_flag RealitySignature.document_hash] in *.
  unfold well_formed in Hw.
  cbn [RealitySignature.document_hash RealitySignature.intent_hash
       RealitySignature.intent_text RealitySignature.approver_id
       RealitySignature.approver_name RealitySignature.timestamp
       RealitySignature.presence_proof_id RealitySignature.presence_proof_hash
       RealitySignature.signature RealitySignature.public_key] in Hw.
  rewrite !andb_true_iff in Hw.
  destruct Hw as (((((((((W1 & W2) & W3) & W4) & W5) & W6) & W7) & W8) & W9)
                  & W10).
  split.
  { intros timestamp' Hpos Hne.
    apply Hgen.
    - cbn. do 6 right. left. reflexivity.
    - intros Heq. apply Hne. injection Heq as ->. reflexivity.
    - change (tamper _ _ _)
        with (RealitySignature.to_value
                (RealitySignature.make V1_0 dh ih it ai an timestamp' pp pph
                   af sg pk)).
      rewrite isValidSignatureFormat_to_value. unfold well_formed.
      cbn [RealitySignature.document_hash RealitySignature.intent_hash
           RealitySignature.intent_text RealitySignature.approver_id
           RealitySignature.approver_name RealitySignature.timestamp
           RealitySignature.presence_proof_id
           RealitySignature.presence_proof_hash
           RealitySignature.signature RealitySignature.public_key].
      rewrite W1, W2, W3, W4, W5, W7, W8, W9, W10.
      destruct (Z.leb_spec timestamp' 0); [lia|reflexivity].
    - discriminate. }
  split.
  { intros text' Hnil Hne.
    apply Hgen.
    - cbn. do 3 right. left. reflexivity.
    - intros Heq. apply Hne. injection Heq as ->. reflexivity.
    - change (tamper _ _ _)
        with (RealitySignature.to_value
                (RealitySignature.make V1_0 dh ih text' ai an ts pp pph
                   af sg pk)).
      rewrite isValidSignatureFormat_to_value. unfold well_formed.
      cbn [RealitySignature.document_hash RealitySignature.intent_hash
           RealitySignature.intent_text RealitySignature.approver_id
           RealitySignature.approver_name RealitySignature.timestamp
           RealitySignature.presence_proof_id
           RealitySignature.presence_proof_hash
           RealitySignature.signature RealitySignature.public_key].
      rewrite W1, W2, W4, W5, W6, W7, W8, W9, W10.
      destruct text'; [congruence|reflexivity].
    - discriminate. }
  { apply Hgen.
    - cbn. do 9 right. left. reflexivity.
    - intros Heq. injection Heq as Heq. destruct af; discriminate Heq.
    - change (tamper _ _ _)
        with (RealitySignature.to_value
                (RealitySignature.make V1_0 dh ih it ai an ts pp pph
                   (negb af) sg pk)).
      rewrite isValidSignatureFormat_to_value. unfold well_formed.
      cbn [RealitySignature.document_hash RealitySignature.intent_hash
           RealitySignature.intent_text RealitySignature.approver_id
           RealitySignature.approver_name RealitySignature.timestamp
           RealitySignature.presence_proof_id
           RealitySignature.presence_proof_hash
           RealitySignature.signature RealitySignature.public_key].
      rewrite W1, W2, W3, W4, W5, W6, W7, W8, W9, W10. reflexivity.
    - discriminate. }
Qed.

(** The theorem on the sample record: the document with its second byte
    changed, the timestamp moved by one millisecond, another intent text
    and the AI flag flipped. *)
Lemma tampering_detected_witness :
  error (verify Sample.platform Sample.document'
           (RealitySignature.to_value Sample.record))
  = Some document_altered
  /\ verify Sample.platform Sample.document
       (tamper Sample.record (lit "timestamp")
          (JNumber (NumInt 1234567890124)))
     = VerificationFailureInvalidSignature
  /\ verify Sample.platform Sample.document
       (tamper Sample.record (lit "intent_text") (JString (lit "Approve Y")))
     = VerificationFailureInvalidSignature
  /\ verify Sample.platform Sample.document
       (tamper Sample.record (lit "ai_flag") (JBool false))
     = VerificationFailureInvalidSignature.
Proof.
  destruct (tampering_detected Sample.platform Sample.document
              Sample.params Sample.key Sample.record record_created
              eq_refl record_binds)
    as (_ & _ & H).
  destruct (H platform_laws ltac:(vm_compute; reflexivity))
    as (H1 & _ & _ & H4 & H5 & H6).
  split.
  - rewrite (H1 Sample.document'); [reflexivity|vm_compute; discriminate].
  - split; [apply (H4 1234567890124%Z); [reflexivity|vm_compute; discriminate]|].
    split; [apply (H5 (lit "Approve Y")); vm_compute; discriminate|].
    exact H6.
Defined.

End VerifyFacts.


Module SessionTraceFacts.
Import Session SessionTrace SessionFacts.

Local Open Scope Z_scope.

Lemma same_subject_refl s : same_subject s s.
Proof. unfold same_subject. repeat split. Qed.

Lemma same_subject_trans a b c :
  same_subject a b -> same_subject b c -> same_subject a c.
Proof.
  unfold same_subject.
  intros (?&?&?&?&?&?&?&?&?) (?&?&?&?&?&?&?&?&?).
  repeat split; congruence.
Qed.

Lemma approveSession_Ok_inv now stamp s sig s' :
  approveSession now stamp s sig = Ok s' ->
  status s = pending /\ now <= expires_at s
  /\ s' = {| id := id s;
             secure_token := secure_token s;
             document_hash := document_hash s;
             document_path := document_path s;
             document_name := document_name s;
             intent_text := intent_text s;
             intent_hash := intent_hash s;
             status := approved;
             created_at := created_at s;
             expires_at := expires_at s;
             approved_at := Some stamp;
             signature_id := Some sig |}.
Proof.
  unfold approveSession.
  destruct (canApprove now s) eqn:Hc; cbn [negb]; [|discriminate].
  intros H. injection H as <-.
  apply canApprove_true_iff in Hc. destruct Hc. auto.
Qed.

Lemma approveSession_not_pending now stamp s sig :
  status s <> pending ->
  exists e, approveSession now stamp s sig = Throw e.
Proof.
  intros Hs. destruct (approveSession now stamp s sig) as [s'|e] eqn:H.
  - apply approveSession_Ok_inv in H. tauto.
  - eauto.
Qed.

Lemma apply_same_subject s op : same_subject s (apply s op).
Proof.
  destruct op as [now stamp sig|]; cbn [apply].
  - destruct (approveSession now stamp s sig) as [s'|e] eqn:H.
    + apply approveSession_Ok_inv in H. destruct H as (_&_&->).
      unfold same_subject. cbn. repeat split.
    + apply same_subject_refl.
  - unfold same_subject. cbn. repeat split.
Qed.

Lemma run_same_subject ops : forall s, same_subject s (run s ops).
Proof.
  induction ops as [|op r IH]; intros s;
    [|change (run s (op :: r)) with (run (apply s op) r)].
  - apply same_subject_refl.
  - eapply same_subject_trans; [apply apply_same_subject|apply IH].
Qed.

Lemma apply_coherent s op : coherent s -> coherent (apply s op).
Proof.
  intros Hc. destruct op as [now stamp sig|]; cbn [apply].
  - destruct (approveSession now stamp s sig) as [s'|e] eqn:H; [|exact Hc].
    apply approveSession_Ok_inv in H. destruct H as (_&_&->).
    unfold coherent. cbn. eauto.
  - unfold coherent in *. cbn [expireSession status approved_at signature_id].
    destruct (status s); auto.
Qed.

Lemma run_coherent ops : forall s, coherent s -> coherent (run s ops).
Proof.
  induction ops as [|op r IH]; intros s Hc;
    [|change (run s (op :: r)) with (run (apply s op) r)].
  - exact Hc.
  - apply IH, apply_coherent, Hc.
Qed.

Lemma apply_not_pending s op :
  status s <> pending ->
  status (apply s op) <> pending /\ accepted s op = false
  /\ approved_at (apply s op) = approved_at s
  /\ signature_id (apply s op) = signature_id s.
Proof.
  intros Hs. destruct op as [now stamp sig|]; cbn [apply accepted].
  - destruct (approveSession_not_pending now stamp s sig Hs) as [e ->].
    auto.
  - cbn. repeat split. discriminate.
Qed.

Lemma run_not_pending ops : forall s,
  status s <> pending ->
  status (run s ops) <> pending /\ approvals s ops = O
  /\ approved_at (run s ops) = approved_at s
  /\ signature_id (run s ops) = signature_id s.
Proof.
  induction ops as [|op r IH]; intros s Hs.
  - cbn. auto.
  - change (run s (op :: r)) with (run (apply s op) r).
    cbn [approvals].
    destruct (apply_not_pending s op Hs) as (Hs'&Ha&Ht&Hg).
    destruct (IH _ Hs') as (H1&H2&H3&H4).
    rewrite Ha, H2. repeat split; [exact H1|congruence|congruence].
Qed.

Lemma accepted_status s op :
  accepted s op = true -> status s = pending /\ status (apply s op) = approved.
Proof.
  destruct op as [now stamp sig|]; cbn [accepted apply]; [|discriminate].
  destruct (approveSession now stamp s sig) as [s'|e] eqn:H; [|discriminate].
  apply approveSession_Ok_inv in H. destruct H as (Hp&_&->). auto.
Qed.

(** X1. Whatever calls of [approveSession] and [expireSession] are made on
    a session made by [createSession], in any order and whether they are
    accepted or throw, the session keeps its id, token, document and intent
    fields and creation time, expires exactly 86,400,000 ms after its
    creation, and its approval fields agree with its status: both unset
    while pending, both set when approved, and set or unset together when
    expired. *)
Theorem session_fields_preserved
    (hashIntent : jsstring -> jsstring) (now : Z) (uuid1 uuid2 : jsstring)
    (documentHash documentPath documentName intentText : jsstring)
    (ops : list Operation) :
  let s0 := createSession hashIntent now uuid1 uuid2
              documentHash documentPath documentName intentText in
  let s := run s0 ops in
  id s = uuid1 /\ secure_token s = uuid2
  /\ document_hash s = documentHash
  /\ document_path s = documentPath
  /\ document_name s = documentName
  /\ intent_text s = intentText
  /\ intent_hash s = hashIntent intentText
  /\ created_at s = now
  /\ expires_at s = now + 86400000
  /\ (status s = pending -> approved_at s = None /\ signature_id s = None)
  /\ (status s = approved ->
      exists stamp sig,
        approved_at s = Some stamp /\ signature_id s = Some sig)
  /\ (approved_at s = None <-> signature_id s = None).
Proof.
  intros s0 s.
  pose proof (run_same_subject ops s0) as Hsub.
  assert (Hc : coherent s).
  { apply run_coherent. unfold coherent. cbn. auto. }
  fold s in Hsub. unfold same_subject in Hsub.
  destruct Hsub as (H1&H2&H3&H4&H5&H6&H7&H8&H9).
  cbn in H1, H2, H3, H4, H5, H6, H7, H8, H9.
  assert (H9' : expires_at s = now + 86400000) by (rewrite <- H9; reflexivity).
  unfold coherent in Hc.
  repeat (split; [symmetry; assumption|]).
  split; [intros H; rewrite H in Hc; exact Hc|].
  split; [intros H; rewrite H in Hc; exact Hc|].
  destruct (status s).
  - tauto.
  - destruct Hc as (st&sg&Ha&Hg). split; congruence.
  - destruct Hc as [[? ?]|(st&sg&Ha&Hg)]; [tauto|split; congruence].
Qed.

(** X2. Along any sequence of calls on any session at most one
    [approveSession] is accepted. *)
Theorem approved_at_most_once (s : ApprovalSession) (ops : list Operation) :
  (approvals s ops <= 1)%nat.
Proof.
  revert s. induction ops as [|op r IH]; intros s; cbn [approvals].
  - lia.
  - destruct (accepted s op) eqn:Ha.
    + apply accepted_status in Ha. destruct Ha as [_ Ha].
      assert (Hn : status (apply s op) <> pending) by congruence.
      destruct (run_not_pending r _ Hn) as (_&->&_). lia.
    + specialize (IH (apply s op)). lia.
Qed.

(** X3. Once [approveSession] has returned a session, no later call changes
    its signature reference or its approval time, no later approval is
    accepted, and the session never is pending again. *)
Theorem approval_is_permanent (now stamp : Z) (s s1 : ApprovalSession)
    (sig : jsstring) (ops : list Operation) :
  approveSession now stamp s sig = Ok s1 ->
  signature_id (run s1 ops) = Some sig
  /\ approved_at (run s1 ops) = Some stamp
  /\ approvals s1 ops = O
  /\ status (run s1 ops) <> pending.
Proof.
  intros H. apply approveSession_Ok_inv in H. destruct H as (_&_&->).
  match goal with |- context [run ?x _] => set (a := x) end.
  assert (Hn : status a <> pending) by (cbn; discriminate).
  destruct (run_not_pending ops a Hn) as (H1&H2&H3&H4).
  rewrite H3, H4. cbn. auto.
Qed.

(** The theorem on a session created at time [0], approved at time [5]
    with reference [sig], then expired and approved again with another
    reference. *)
Lemma approval_is_permanent_witness :
  let s := createSession (fun t => t) 0 (lit "id") (lit "tok")
             (lit "dh") (lit "/p") (lit "n") (lit "i") in
  let s1 := apply s (Approve 5 6 (lit "sig")) in
  let ops := [Expire; Approve 7 8 (lit "other")] in
  signature_id (run s1 ops) = Some (lit "sig")
  /\ approved_at (run s1 ops) = Some 6
  /\ approvals s1 ops = O
  /\ status (run s1 ops) <> pending.
Proof.
  intros s s1 ops.
  apply (approval_is_permanent 5 6 s s1 (lit "sig") ops).
  reflexivity.
Defined.

(** X4. A session made by [createSession] at time [t0] is approved by
    [approveSession] exactly when the clock read by [canApprove] is at most
    [t0 + 86,400,000]: the expiry instant itself is still accepted.  The
    approval time is the second clock reading, which the check does not
    bound. *)
Theorem approval_window
    (hashIntent : jsstring -> jsstring) (t0 : Z) (uuid1 uuid2 : jsstring)
    (documentHash documentPath documentName intentText : jsstring)
    (now stamp : Z) (sig : jsstring) :
  let s0 := createSession hashIntent t0 uuid1 uuid2
              documentHash documentPath documentName intentText in
  ((exists s, approveSession now stamp s0 sig = Ok s)
   <-> now <= t0 + 86400000)
  /\ (forall s, approveSession now stamp s0 sig = Ok s ->
        status s = approved /\ approved_at s = Some stamp
        /\ signature_id s = Some sig)
  /\ (t0 + 86400000 < now ->
        approveSession now stamp s0 sig = Throw SESSION_ALREADY_APPROVED).
Proof.
  intros s0. split; [split|split].
  - intros [s H]. apply approveSession_Ok_inv in H.
    destruct H as (_&H&_). exact H.
  - intros H. unfold approveSession.
    assert (Hc : canApprove now s0 = true).
    { apply canApprove_true_iff. split; [reflexivity|exact H]. }
    rewrite Hc. cbn [negb]. eauto.
  - intros s H. apply approveSession_Ok_inv in H. destruct H as (_&_&->).
    cbn. auto.
  - intros H. unfold approveSession.
    destruct (canApprove now s0) eqn:Hc.
    + apply canApprove_true_iff in Hc. destruct Hc as [_ Hc].
      cbn in Hc. change DEFAULT_EXPIRATION_MS with 86400000 in Hc. lia.
    + reflexivity.
Qed.

End SessionTraceFacts.

Module MemoryStoreFacts.
Import MemoryStore JSONFacts.

Section StoreFacts.

Variable T : Type.
Variable item_id : T -> jsstring.
Variable Partial : Type.
Variable assign : T -> Partial -> jsstring -> T.

Lemma map_get_set_same (m : t T) k v : map_get (map_set m k v) k = Some v.
Proof.
  induction m as [|[k' v'] r IH]; cbn [map_set map_get].
  - rewrite jsstring_eqb_refl. reflexivity.
  - destruct (jsstring_eqb k k') eqn:E; cbn [map_get]; rewrite E.
    + reflexivity.
    + exact IH.
Qed.

Lemma map_get_set_other (m : t T) k v k0 :
  k0 <> k -> map_get (map_set m k v) k0 = map_get m k0.
Proof.
  intros Hne. induction m as [|[k' v'] r IH]; cbn [map_set map_get].
  - rewrite (jsstring_eqb_neq k0 k Hne). reflexivity.
  - destruct (jsstring_eqb k k') eqn:E; cbn [map_get].
    + apply jsstring_eqb_eq in E. subst k'.
      rewrite (jsstring_eqb_neq k0 k Hne). reflexivity.
    + rewrite IH. reflexivity.
Qed.

Lemma map_get_In (m : t T) k v : map_get m k = Some v -> In (k, v) m.
Proof.
  induction m as [|[k' v'] r IH]; cbn [map_get]; [discriminate|].
  destruct (jsstring_eqb k k') eqn:E.
  - apply jsstring_eqb_eq in E. intros H. injection H as ->. subst.
    left. reflexivity.
  - intros H. right. apply IH, H.
Qed.

Lemma map_get_None (m : t T) k : map_get m k = None <-> ~ In k (map fst m).
Proof.
  induction m as [|[k' v'] r IH]; cbn [map_get map fst In].
  - tauto.
  - destruct (jsstring_eqb k k') eqn:E.
    + apply jsstring_eqb_eq in E. subst. split; [discriminate|tauto].
    + assert (k' <> k).
      { intros ->. rewrite jsstring_eqb_refl in E. discriminate. }
      tauto.
Qed.

Lemma map_set_absent (m : t T) k v :
  map_get m k = None -> map_set m k v = m ++ [(k, v)].
Proof.
  induction m as [|[k' v'] r IH]; cbn [map_get map_set app]; [reflexivity|].
  destruct (jsstring_eqb k k'); [discriminate|].
  intros H. rewrite (IH H). reflexivity.
Qed.

Lemma map_set_keys_present (m : t T) k v e :
  map_get m k = Some e -> map fst (map_set m k v) = map fst m.
Proof.
  induction m as [|[k' v'] r IH]; cbn [map_get map_set]; [discriminate|].
  destruct (jsstring_eqb k k'); cbn [map fst]; [reflexivity|].
  intros H. rewrite (IH H). reflexivity.
Qed.

Lemma map_set_Forall (P : jsstring * T -> Prop) (m : t T) k v :
  Forall P m -> P (k, v) -> (forall v', P (k, v') -> P (k, v)) ->
  Forall P (map_set m k v).
Proof.
  intros Hm Hkv _. induction Hm as [|[k' v'] r Hx Hr IH]; cbn [map_set].
  - constructor; [exact Hkv|constructor].
  - destruct (jsstring_eqb k k') eqn:E.
    + apply jsstring_eqb_eq in E. subst k'. constructor; assumption.
    + constructor; assumption.
Qed.

Lemma map_remove_get_same (m : t T) k : map_get (map_remove m k) k = None.
Proof.
  induction m as [|[k' v'] r IH]; cbn [map_remove map_get]; [reflexivity|].
  destruct (jsstring_eqb k k') eqn:E; [exact IH|].
  cbn [map_get]. rewrite E. exact IH.
Qed.

Lemma map_remove_get_other (m : t T) k k0 :
  k0 <> k -> map_get (map_remove m k) k0 = map_get m k0.
Proof.
  intros Hne. induction m as [|[k' v'] r IH]; cbn [map_remove map_get];
    [reflexivity|].
  destruct (jsstring_eqb k k') eqn:E.
  - apply jsstring_eqb_eq in E. subst k'.
    rewrite (jsstring_eqb_neq k0 k Hne). exact IH.
  - cbn [map_get]. rewrite IH. reflexivity.
Qed.

Lemma map_remove_absent (m : t T) k :
  map_get m k = None -> map_remove m k = m.
Proof.
  induction m as [|[k' v'] r IH]; cbn [map_remove map_get]; [reflexivity|].
  destruct (jsstring_eqb k k'); [discriminate|].
  intros H. rewrite (IH H). reflexivity.
Qed.

Lemma map_remove_incl (m : t T) k : incl (map_remove m k) m.
Proof.
  induction m as [|[k' v'] r IH]; cbn [map_remove].
  - apply incl_refl.
  - destruct (jsstring_eqb k k').
    + apply incl_tl, IH.
    + apply incl_cons; [left; reflexivity|apply incl_tl, IH].
Qed.

Lemma map_remove_NoDup (m : t T) k :
  NoDup (map fst m) -> NoDup (map fst (map_remove m k)).
Proof.
  induction m as [|[k' v'] r IH]; cbn [map_remove map fst]; [auto|].
  intros H. inversion H as [|? ? Hn Hr]; subst.
  destruct (jsstring_eqb k k'); [apply IH, Hr|].
  cbn [map fst]. constructor; [|apply IH, Hr].
  intros Hin. apply Hn. apply in_map_iff in Hin.
  destruct Hin as [[k1 v1] [Hk Hin]]. cbn in Hk. subst k1.
  apply in_map_iff. exists (k', v1). split; [reflexivity|].
  apply (map_remove_incl r k), Hin.
Qed.

Lemma map_get_of_In (m : t T) k v :
  NoDup (map fst m) -> In (k, v) m -> map_get m k = Some v.
Proof.
  induction m as [|[k' v'] r IH]; cbn [map fst In map_get]; [tauto|].
  intros Hnd [Heq|Hin].
  - injection Heq as -> ->. rewrite jsstring_eqb_refl. reflexivity.
  - inversion Hnd as [|? ? Hn Hr]; subst.
    destruct (jsstring_eqb k k') eqn:E.
    + apply jsstring_eqb_eq in E. subst k'. exfalso. apply Hn.
      apply in_map_iff. exists (k, v). auto.
    + apply IH; assumption.
Qed.

(** X6. [create] throws "already exists" exactly when the id is held;
    otherwise it returns the item itself, [get] of its id then gives the
    item, every other id reads as before and the item is the last one of
    [getAll]. *)
Theorem create_then_get (m : t T) (item : T) :
  (get m (item_id item) <> None ->
   create item_id m item = Throw (AlreadyExists (item_id item)))
  /\ (get m (item_id item) = None ->
      exists m', create item_id m item = Ok (item, m')
        /\ get m' (item_id item) = Some item
        /\ (forall k, k <> item_id item -> get m' k = get m k)
        /\ getAll m' = getAll m ++ [item]).
Proof.
  unfold create, map_has, get. split.
  - destruct (map_get m (item_id item)); [reflexivity|congruence].
  - intros Hg. rewrite Hg. eexists. split; [reflexivity|].
    split; [apply map_get_set_same|].
    split; [intros k Hk; apply map_get_set_other, Hk|].
    rewrite (map_set_absent _ _ _ Hg). unfold getAll.
    rewrite map_app. reflexivity.
Qed.

(** X7. [update] throws "not found" when the id is not held; otherwise it
    returns the existing item overwritten by the updates and with the id
    of the call, [get] of the id then gives that item, every other id
    reads as before and the keys keep their order. *)
Theorem update_then_get (m : t T) (id : jsstring) (updates : Partial) :
  (get m id = None -> update assign m id updates = Throw (NotFound id))
  /\ (forall existing, get m id = Some existing ->
      exists m',
        update assign m id updates = Ok (assign existing updates id, m')
        /\ get m' id = Some (assign existing updates id)
        /\ (forall k, k <> id -> get m' k = get m k)
        /\ map fst m' = map fst m).
Proof.
  unfold update, get. split.
  - intros ->. reflexivity.
  - intros e Hg. rewrite Hg. eexists. split; [reflexivity|].
    split; [apply map_get_set_same|].
    split; [intros k Hk; apply map_get_set_other, Hk|].
    apply (map_set_keys_present _ _ _ _ Hg).
Qed.

(** X9. [delete] returns [true] exactly when the id was held; afterwards
    [get] of the id is [undefined], every other id reads as before, a
    store that did not hold the id is unchanged, and an item with that id
    can be created again. *)
Theorem delete_then_get (m : t T) (id : jsstring) :
  (fst (delete m id) = true <-> get m id <> None)
  /\ get (snd (delete m id)) id = None
  /\ (forall k, k <> id -> get (snd (delete m id)) k = get m k)
  /\ (fst (delete m id) = false -> snd (delete m id) = m)
  /\ (forall item, item_id item = id ->
      exists m', create item_id (snd (delete m id)) item = Ok (item, m')).
Proof.
  unfold delete, get, map_has. cbn [fst snd].
  split; [|split; [|split; [|split]]].
  - destruct (map_get m id); split; congruence.
  - apply map_remove_get_same.
  - intros k Hk. apply map_remove_get_other, Hk.
  - destruct (map_get m id) eqn:Hg; [discriminate|].
    intros _. apply map_remove_absent, Hg.
  - intros item <-. unfold create, map_has.
    rewrite map_remove_get_same. eauto.
Qed.

Hypothesis assign_id : forall existing updates id,
  item_id (assign existing updates id) = id.

Lemma after_well_keyed (m : t T) (c : Call T Partial) :
  well_keyed item_id m -> well_keyed item_id (after item_id assign m c).
Proof.
  intros [Hnd Hid]. destruct c as [item|id u|id|]; cbn [after].
  - unfold create, map_has.
    destruct (map_get m (item_id item)) eqn:Hg; [split; assumption|].
    rewrite (map_set_absent _ _ _ Hg). split.
    + rewrite map_app. cbn [map fst].
      pose proof (Add_app (item_id item) (map fst m) []) as Hadd.
      rewrite List.app_nil_r in Hadd.
      apply (NoDup_Add Hadd). split; [exact Hnd|].
      apply map_get_None, Hg.
    + apply Forall_app. split; [exact Hid|].
      constructor; [reflexivity|constructor].
  - unfold update. destruct (map_get m id) as [e|] eqn:Hg;
      [|split; assumption].
    cbn [snd]. split.
    + rewrite (map_set_keys_present _ _ _ _ Hg). exact Hnd.
    + apply map_set_Forall; [exact Hid|apply assign_id|].
      intros _ _. apply assign_id.
  - cbn [delete snd]. split.
    + apply map_remove_NoDup, Hnd.
    + eapply incl_Forall; [apply map_remove_incl|exact Hid].
  - split; constructor.
Qed.

Lemma run_well_keyed (calls : list (Call T Partial)) : forall m,
  well_keyed item_id m ->
  well_keyed item_id (fold_left (after item_id assign) calls m).
Proof.
  induction calls as [|c r IH]; intros m H; cbn [fold_left].
  - exact H.
  - apply IH, after_well_keyed, H.
Qed.

(** X5. Whatever calls of [create], [update], [delete] and [clear] are
    made on a new store, with any arguments and whether they throw or not,
    no two stored items have the same id, an item read by [get] has the id
    it was asked by, and every item listed by [getAll] is the one [get]
    returns for its id.  The object made by [update] has the id of the
    call, which the last property of its literal sets. *)
Theorem store_keys_unique (calls : list (Call T Partial)) :
  let m := fold_left (after item_id assign) calls empty in
  NoDup (map item_id (getAll m))
  /\ (forall k v, get m k = Some v -> item_id v = k)
  /\ (forall v, In v (getAll m) -> get m (item_id v) = Some v).
Proof.
  intros m.
  assert (H : well_keyed item_id m).
  { apply run_well_keyed. split; constructor. }
  destruct H as [Hnd Hid].
  assert (Hk : map item_id (getAll m) = map fst m).
  { unfold getAll. rewrite map_map. apply map_ext_in.
    intros kv Hin. rewrite Forall_forall in Hid. apply Hid, Hin. }
  split; [rewrite Hk; exact Hnd|]. split.
  - intros k v Hg. apply map_get_In in Hg.
    rewrite Forall_forall in Hid. apply (Hid _ Hg).
  - intros v Hin. unfold getAll in Hin. apply in_map_iff in Hin.
    destruct Hin as [[k v'] [Hv Hin]]. cbn in Hv. subst v'.
    rewrite Forall_forall in Hid. pose proof (Hid _ Hin) as Hkv.
    cbn in Hkv. rewrite Hkv. apply map_get_of_In; assumption.
Qed.

End StoreFacts.

Import Session.

Lemma assign_session_id existing updates k :
  id (assign_session existing updates k) = k.
Proof. reflexivity. Qed.

Lemma assign_all_of existing s :
  assign_session existing (all_of s) (id s) = s.
Proof. destruct s. reflexivity. Qed.

(** The theorem on the session store after a create, a rejected second
    create, an update that names another id, a delete and a create. *)
Lemma store_keys_unique_witness :
  let calls :=
    [CallCreate sample_approved;
     CallCreate sample_approved;
     CallUpdate (id sample_approved) (all_of sample_overdue);
     CallDelete (lit "x");
     CallCreate sample_overdue] in
  let m := fold_left (after id assign_session) calls empty in
  NoDup (map id (getAll m))
  /\ (forall k v, get m k = Some v -> id v = k)
  /\ (forall v, In v (getAll m) -> get m (id v) = Some v).
Proof.
  intros calls.
  apply (store_keys_unique ApprovalSession id SessionUpdates assign_session
           assign_session_id calls).
Defined.

(** X8. On the session store, [update] called with a whole session as the
    updates and with that session's id, as the approve route does, stores
    exactly that session when the id is held; whatever id the updates
    carry, the stored session has the id of the call. *)
Theorem session_update_replaces (m : SessionStore)
    (existing s : ApprovalSession) :
  get m (id s) = Some existing ->
  (exists m',
     update assign_session m (id s) (all_of s) = Ok (s, m')
     /\ get m' (id s) = Some s
     /\ length (getAll m') = length (getAll m))
  /\ (forall updates, exists s' m',
        update assign_session m (id s) updates = Ok (s', m')
        /\ id s' = id s).
Proof.
  intros Hg. unfold update, get in *. rewrite Hg. split.
  - rewrite assign_all_of. eexists. split; [reflexivity|].
    split; [apply map_get_set_same|].
    unfold getAll. rewrite !length_map.
    rewrite <- (length_map fst (map_set m (id s) s)).
    rewrite (map_set_keys_present _ _ _ _ _ Hg). apply length_map.
  - intros u. eexists. eexists. split; reflexivity.
Qed.

(** The theorem on a store that holds a pending session, updated with the
    session [approveSession] returns for it. *)
Lemma session_update_replaces_witness :
  let m := [(id sample_overdue, sample_overdue)] in
  let s := SessionTrace.apply sample_overdue
             (SessionTrace.Approve 10 11 (lit "sig")) in
  (exists m',
     update assign_session m (id s) (all_of s) = Ok (s, m')
     /\ get m' (id s) = Some s
     /\ length (getAll m') = length (getAll m))
  /\ (forall updates, exists s' m',
        update assign_session m (id s) updates = Ok (s', m')
        /\ id s' = id s).
Proof.
  intros m s.
  apply (session_update_replaces m sample_overdue s).
  reflexivity.
Defined.

Lemma find_first {A : Type} (f : A -> bool) (pre : list A) x post :
  (forall y, In y pre -> f y = false) -> f x = true ->
  find f (pre ++ x :: post) = Some x.
Proof.
  induction pre as [|y pre IH]; intros Hpre Hx; cbn [app find].
  - rewrite Hx. reflexivity.
  - rewrite (Hpre y (or_introl eq_refl)). apply IH; [|exact Hx].
    intros z Hz. apply Hpre. right. exact Hz.
Qed.

(** X10. [findSessionByToken] returns a stored session whose token is the
    one asked for, namely the first such session in insertion order, and
    returns [undefined] exactly when no stored session has that token. *)
Theorem findSessionByToken_first (m : SessionStore) (token : jsstring) :
  (forall s, findSessionByToken m token = Some s ->
     In s (getAll m) /\ secure_token s = token)
  /\ (findSessionByToken m token = None <->
      forall s, In s (getAll m) -> secure_token s <> token)
  /\ (forall pre s post,
        getAll m = pre ++ s :: post ->
        secure_token s = token ->
        (forall x, In x pre -> secure_token x <> token) ->
        findSessionByToken m token = Some s).
Proof.
  unfold findSessionByToken. split; [|split].
  - intros s H. apply find_some in H. destruct H as [Hin He].
    apply jsstring_eqb_eq in He. auto.
  - split.
    + intros H s Hin He.
      pose proof (find_none _ _ H s Hin) as Hf. cbn in Hf.
      rewrite (proj2 (jsstring_eqb_eq _ _) He) in Hf. discriminate.
    + intros H.
      destruct (find _ (getAll m)) as [s|] eqn:Hf; [|reflexivity].
      apply find_some in Hf. destruct Hf as [Hin He].
      apply jsstring_eqb_eq in He. exfalso. apply (H s Hin He).
  - intros pre s post -> Hs Hpre. apply find_first.
    + intros y Hy. apply jsstring_eqb_neq. apply Hpre, Hy.
    + apply jsstring_eqb_eq, Hs.
Qed.

End MemoryStoreFacts.

Module JSONNestedFacts.
Import JSONNested JSONFacts FuelFacts.

Lemma nested_ind' (P : JSValue -> Prop) :
  (forall v, scalar v -> P v) ->
  (forall ps, NoDup (map fst ps) -> Forall (fun kv => P (snd kv)) ps ->
              P (JObject ps)) ->
  forall v, nested v -> P v.
Proof.
  intros Hs Ho. fix IH 2. intros v [v' Hv|ps Hnd Hall].
  - apply Hs, Hv.
  - apply Ho; [exact Hnd|].
    clear Hnd. revert ps Hall. fix IHl 2.
    intros ps [|x l Hx Hl]; constructor.
    + apply IH, Hx.
    + apply IHl, Hl.
Qed.

Lemma parse_value_lift f s v rest k :
  parse_value f s = Some (v, rest) -> (length s <= k)%nat ->
  parse_value k s = Some (v, rest).
Proof.
  intros H Hk. destruct (fuel_by_consumption f) as (Hv & _ & _).
  destruct (Hv s v rest H) as [_ K]. apply K. lia.
Qed.

Lemma parse_members_lift f acc s v rest k :
  parse_members f acc s = Some (v, rest) -> (length s <= k)%nat ->
  parse_members k acc s = Some (v, rest).
Proof.
  intros H Hk. destruct (fuel_by_consumption f) as (_ & Hm & _).
  destruct (Hm acc s v rest H) as [_ K]. apply K. lia.
Qed.

Lemma readable_comma ps :
  Forall (fun kv => readable (snd kv)) ps -> ps <> [] ->
  serialize_members SerializeJSONProperty ps false
  = 44 :: serialize_members SerializeJSONProperty ps true.
Proof.
  intros Hf Hne. destruct ps as [|[k v] r]; [congruence|].
  inversion Hf as [|? ? Hv Hr]; subst. cbn [snd] in Hv.
  destruct Hv as (t & Ht & _).
  cbn [serialize_members]. rewrite Ht. reflexivity.
Qed.

Lemma readable_members_delimited ps rest :
  Forall (fun kv => readable (snd kv)) ps ->
  delimited (serialize_members SerializeJSONProperty ps false ++ 125 :: rest).
Proof.
  intros Hf. destruct ps as [|kv r].
  - cbn. now right.
  - rewrite readable_comma by (assumption || discriminate).
    cbn. now left.
Qed.

Lemma parse_members_readable ps :
  Forall (fun kv => readable (snd kv)) ps -> ps <> [] ->
  forall acc rest, exists f,
    parse_members f acc
      (serialize_members SerializeJSONProperty ps true ++ 125 :: rest)
    = Some (JObject (add_all acc ps), rest).
Proof.
  induction ps as [|[k v] r IH]; intros Hf Hne acc rest; [congruence|].
  inversion Hf as [|? ? Hv Hr]; subst. cbn [snd] in Hv.
  destruct Hv as (t & Ht & Hp).
  rewrite (serialize_members_cons k v t r true (125 :: rest) Ht). cbn [app].
  destruct (Hp _ (readable_members_delimited r rest Hr)) as [f1 Hf1].
  exists (S (length
    (t ++ serialize_members SerializeJSONProperty r false ++ 125 :: rest))).
  rewrite parse_members_step.
  rewrite (parse_value_lift f1 _ _ _ _ Hf1 (le_n _)).
  destruct r as [|kv r'].
  - reflexivity.
  - destruct (IH Hr ltac:(discriminate) (set_prop acc k v) rest) as [f2 Hf2].
    rewrite (readable_comma (kv :: r') Hr ltac:(discriminate)).
    cbn [app skip_space is_json_space N.eqb Pos.eqb orb].
    rewrite (parse_members_lift f2 _ _ _ _ _ Hf2).
    + reflexivity.
    + rewrite (length_app t). cbn [length]. lia.
Qed.

Lemma scalar_readable v : scalar v -> readable v.
Proof.
  intros Hs. destruct (scalar_serializes v Hs) as [t Ht].
  exists t. split; [exact Ht|]. intros rest Hd. exists 1%nat.
  apply parse_scalar; assumption.
Qed.

Lemma object_readable ps :
  NoDup (map fst ps) -> Forall (fun kv => readable (snd kv)) ps ->
  readable (JObject ps).
Proof.
  intros Hnd Hf.
  exists (123 :: serialize_members SerializeJSONProperty ps true ++ [125]).
  split; [reflexivity|]. intros rest _.
  destruct ps as [|[k v] r]; [exists 1%nat; reflexivity|].
  destruct (parse_members_readable _ Hf ltac:(discriminate) [] rest)
    as [f Hp].
  exists (S f). rewrite (add_all_fresh _ [] Hnd) in Hp. cbn [app] in Hp.
  inversion Hf as [|? ? Hv Hr]; subst. cbn [snd] in Hv.
  destruct Hv as (t & Ht & _).
  rewrite (serialize_members_cons k v t r true (125 :: rest) Ht) in Hp.
  cbn [app] in Hp.
  assert (E : (123 :: serialize_members SerializeJSONProperty ((k, v) :: r)
                         true ++ [125]) ++ rest
              = 123 :: 34 :: quote_body k ++ 34 :: 58 :: t
                  ++ serialize_members SerializeJSONProperty r false
                  ++ 125 :: rest).
  { cbn [app]. rewrite <- List.app_assoc. cbn [app]. apply f_equal.
    exact (serialize_members_cons k v t r true (125 :: rest) Ht). }
  exact (eq_trans (f_equal (parse_value (S f)) E) Hp).
Qed.

Lemma nested_readable v : nested v -> readable v.
Proof.
  induction 1 using nested_ind'.
  - apply scalar_readable. assumption.
  - apply object_readable; assumption.
Qed.

(** [JSON.parse] undoes [JSON.stringify] on object literals nested in one
    another. *)
Lemma JSON_parse_stringify_nested ps :
  nested (JObject ps) -> JSON_parse (stringify_object ps) = Ok (JObject ps).
Proof.
  intros Hn. destruct (nested_readable _ Hn) as (t & Ht & Hp).
  cbn [SerializeJSONProperty] in Ht. injection Ht as <-.
  destruct (Hp [] I) as [f Hf]. rewrite List.app_nil_r in Hf.
  unfold JSON_parse, stringify_object.
  rewrite (JSON_parse_fuel_adequate _ _ _ _ Hf). reflexivity.
Qed.

Lemma stringify_nested_injective ps qs :
  nested (JObject ps) -> nested (JObject qs) ->
  stringify_object ps = stringify_object qs -> ps = qs.
Proof.
  intros Hp Hq He.
  pose proof (JSON_parse_stringify_nested ps Hp) as H1.
  pose proof (JSON_parse_stringify_nested qs Hq) as H2.
  rewrite He in H1. rewrite H1 in H2. injection H2 as ->. reflexivity.
Qed.

End JSONNestedFacts.

Module PresenceProofFacts.
Import Truthiness PresenceProof JSONNested JSONNestedFacts VerifyFacts.

Local Open Scope Z_scope.

Lemma canonical_nested (p : t) :
  boolean_flags p -> nested (JObject (canonical p)).
Proof.
  intros (H1 & H2 & H3).
  apply is_boolean_inv in H1, H2, H3.
  destruct H1 as [b1 E1], H2 as [b2 E2], H3 as [b3 E3].
  unfold canonical. rewrite E1, E2, E3. apply nested_object.
  - cbn [map fst]. repeat constructor; cbn [In]; intuition discriminate.
  - repeat (apply Forall_cons; [apply nested_scalar; exact I|]).
    apply Forall_cons.
    + apply nested_object.
      * cbn [map fst]. repeat constructor; cbn [In]; intuition discriminate.
      * repeat (apply Forall_cons; [apply nested_scalar; exact I|]).
        apply Forall_nil.
    + repeat (apply Forall_cons; [apply nested_scalar; exact I|]).
      apply Forall_nil.
Qed.

Lemma validateAcknowledgments_Ok_iff acks :
  validateAcknowledgments acks = Ok true
  <-> to_boolean (understands_approval acks) = true
      /\ to_boolean (is_authorized acks) = true
      /\ to_boolean (acting_knowingly acks) = true.
Proof.
  unfold validateAcknowledgments.
  destruct (to_boolean (understands_approval acks));
    destruct (to_boolean (is_authorized acks));
    destruct (to_boolean (acting_knowingly acks)); cbn [negb];
    split; try discriminate; try tauto; intros (?&?&?); discriminate.
Qed.

(** X11. [createPresenceProof] returns a proof exactly when the three
    acknowledgment flags are truthy, and a proof it returns carries the
    flags as given, the given session id, the challenge result as given,
    even an uncompleted one, and the two values read from the id generator
    and the clock.  Otherwise it throws the message of the first flag, in
    the order understands, authorized, knowingly, that is not set, as
    [validateAcknowledgments] does; that function never returns
    [false]. *)
Theorem createPresenceProof_acknowledged (uuid : jsstring) (now : Z)
    (sessionId : jsstring) (challengeResult : ChallengeResult)
    (acks : Acknowledgments) :
  let r := createPresenceProof uuid now sessionId challengeResult acks in
  let ua := to_boolean (understands_approval acks) in
  let ia := to_boolean (is_authorized acks) in
  let ak := to_boolean (acting_knowingly acks) in
  ((exists p, r = Ok p) <-> ua = true /\ ia = true /\ ak = true)
  /\ (forall p, r = Ok p ->
        acknowledgments p = acks
        /\ id p = uuid /\ session_id p = sessionId
        /\ challenge_completed p = completed challengeResult
        /\ challenge_completed_at p = completed_at challengeResult
        /\ acknowledged_at p = now)
  /\ (ua = false ->
      r = Throw (AcknowledgmentsIncompleteError
                   "Approver must understand what they are approving")
      /\ validateAcknowledgments acks = Throw (AcknowledgmentsIncompleteError
                   "Approver must understand what they are approving"))
  /\ (ua = true -> ia = false ->
      r = Throw (AcknowledgmentsIncompleteError
                   "Approver must be authorized to approve")
      /\ validateAcknowledgments acks = Throw (AcknowledgmentsIncompleteError
                   "Approver must be authorized to approve"))
  /\ (ua = true -> ia = true -> ak = false ->
      r = Throw (AcknowledgmentsIncompleteError
                   "Approver must be acting knowingly and voluntarily")
      /\ validateAcknowledgments acks = Throw (AcknowledgmentsIncompleteError
                   "Approver must be acting knowingly and voluntarily"))
  /\ validateAcknowledgments acks <> Ok false.
Proof.
  intros r ua ia ak. subst r ua ia ak.
  unfold createPresenceProof, validateAcknowledgments.
  destruct acks as [u i k].
  cbn [understands_approval is_authorized acting_knowingly].
  destruct (to_boolean u), (to_boolean i), (to_boolean k);
    cbn [negb bind];
    (split; [split; [intros [p Hp]; (discriminate Hp || auto)
                    |intros (H1&H2&H3);
                     (discriminate H1 || discriminate H2 || discriminate H3
                      || eauto)]|]);
    (split; [intros p Hp; (discriminate Hp || (injection Hp as <-; cbn; auto))
            |]);
    repeat split; intros; try discriminate; reflexivity.
Qed.

(** X12. The text hashed by [hashPresenceProof] is a JSON object with the
    keys id, sid, cc, cca, ack, aa in this order.  When the flags are
    booleans, [JSON.parse] reads the text back as the object it was made
    from, and two proofs with the same text are the same proof: every
    field of a proof is bound by the hash input. *)
Theorem hashPresenceProof_canonical (P : Platform) (p q : t) :
  boolean_flags p -> boolean_flags q ->
  hashPresenceProof P p
  = Signing.hashString P (stringify_object (canonical p))
  /\ map fst (canonical p)
     = [lit "id"; lit "sid"; lit "cc"; lit "cca"; lit "ack"; lit "aa"]
  /\ JSON_parse (stringify_object (canonical p)) = Ok (JObject (canonical p))
  /\ (stringify_object (canonical p) = stringify_object (canonical q)
      -> p = q).
Proof.
  intros Hp Hq.
  split; [reflexivity|]. split; [reflexivity|]. split.
  - apply JSON_parse_stringify_nested, canonical_nested, Hp.
  - intros H.
    apply stringify_nested_injective in H;
      try (apply canonical_nested; assumption).
    destruct p as [i1 s1 c1 a1 [u1 z1 k1] t1].
    destruct q as [i2 s2 c2 a2 [u2 z2 k2] t2].
    unfold canonical in H. cbn in H.
    injection H as -> -> -> -> -> -> -> ->. reflexivity.
Qed.

(** The theorem on two proofs made by [createPresenceProof]. *)
Lemma hashPresenceProof_canonical_witness :
  let acks := mkAcknowledgments (JBool true) (JBool true) (JBool true) in
  let p := make (lit "p-1") (lit "s-1") true 5 acks 6 in
  let q := make (lit "p-2") (lit "s-1") true 5 acks 6 in
  createPresenceProof (lit "p-1") 6 (lit "s-1") (mkChallengeResult true 5)
    acks = Ok p
  /\ hashPresenceProof Sample.platform p
     = Signing.hashString Sample.platform (stringify_object (canonical p))
  /\ map fst (canonical p)
     = [lit "id"; lit "sid"; lit "cc"; lit "cca"; lit "ack"; lit "aa"]
  /\ JSON_parse (stringify_object (canonical p)) = Ok (JObject (canonical p))
  /\ (stringify_object (canonical p) = stringify_object (canonical q)
      -> p = q).
Proof.
  intros acks p q. split; [reflexivity|].
  apply (hashPresenceProof_canonical Sample.platform p q);
    repeat split.
Defined.

End PresenceProofFacts.

Module VerifyMoreFacts.
Import JSONFacts SignatureFacts SampleFacts VerifyFacts.
Import Payload Create Verify VerifyReads.

Lemma same_fields_format v v' :
  same_fields v v' -> isValidSignatureFormat v = isValidSignatureFormat v'.
Proof.
  intros (Ht & Hn & Hm). unfold isValidSignatureFormat.
  rewrite Ht, Hn.
  rewrite !Hm by (unfold field_names, RealitySignature.signed_fields;
                  cbn [app In]; tauto).
  reflexivity.
Qed.

Lemma same_fields_narrow v v' : same_fields v v' -> narrow v = narrow v'.
Proof.
  intros (_ & _ & Hm). unfold narrow.
  rewrite !Hm by (unfold field_names, RealitySignature.signed_fields;
                  cbn [app In]; tauto).
  reflexivity.
Qed.

Lemma lookup_set_prop_other ps k x k0 :
  k0 <> k -> lookup k0 (set_prop ps k x) = lookup k0 ps.
Proof.
  intros Hne. induction ps as [|[k' v'] r IH]; cbn [set_prop lookup].
  - rewrite (jsstring_eqb_neq _ _ Hne). reflexivity.
  - destruct (jsstring_eqb k k') eqn:E; cbn [lookup].
    + apply jsstring_eqb_eq in E. subst k'.
      rewrite (jsstring_eqb_neq _ _ Hne). reflexivity.
    + rewrite IH. reflexivity.
Qed.

(** X13. [verify] reports success only when all three checks passed: the
    value passed the format check and reads as a well-formed record, the
    digest of the document is the record's [document_hash], and
    [ed.verify] returned [true] for the payload rebuilt from the record.
    The approver, time and AI flag of the result are the record's. *)
Theorem verify_success_sound (P : Platform) (document : Bytes)
    (signature : JSValue) (a n : jsstring) (ts : Z) (ai : bool) :
  verify P document signature = VerificationSuccess a n ts ai ->
  exists r,
    isValidSignatureFormat signature = true
    /\ narrow signature = Some r
    /\ well_formed r = true
    /\ Signing.hashDocument P document = RealitySignature.document_hash r
    /\ ed25519_verify P
         (base64_decode P (RealitySignature.signature r))
         (utf8_encode P (buildSignaturePayload (extractPayloadFields r)))
         (base64_decode P (RealitySignature.public_key r)) = Ok true
    /\ a = RealitySignature.approver_id r
    /\ n = RealitySignature.approver_name r
    /\ ts = RealitySignature.timestamp r
    /\ ai = RealitySignature.ai_flag r
    /\ (0 < ts)%Z.
Proof.
  unfold verify.
  destruct (isValidSignatureFormat signature) eqn:Hf; cbn [negb];
    [|discriminate].
  destruct (isValidSignatureFormat_narrow _ Hf) as (r & Hn & Hw).
  rewrite Hn.
  destruct (jsstring_eqb (Signing.hashDocument P document)
              (RealitySignature.document_hash r)) eqn:Hh; cbn [negb];
    [|discriminate].
  destruct (Signing.verify P _ _ _) eqn:Hs; cbn [negb]; [|discriminate].
  intros H. injection H as <- <- <- <-.
  exists r. repeat split; try assumption.
  - apply jsstring_eqb_eq, Hh.
  - unfold Signing.verify in Hs.
    destruct (ed25519_verify P _ _ _) as [[|]|e]; try discriminate.
    reflexivity.
  - unfold well_formed in Hw.
    repeat (apply andb_prop in Hw; destruct Hw as [Hw ?]).
    match goal with
    | H : negb (RealitySignature.timestamp r <=? 0)%Z = true |- _ =>
        apply negb_true_iff, Z.leb_gt in H; exact H
    end.
Qed.

(** The theorem on the sample record and its document. *)
Lemma verify_success_sound_witness :
  exists r,
    isValidSignatureFormat (RealitySignature.to_value Sample.record) = true
    /\ narrow (RealitySignature.to_value Sample.record) = Some r
    /\ well_formed r = true
    /\ Signing.hashDocument Sample.platform Sample.document
       = RealitySignature.document_hash r
    /\ ed25519_verify Sample.platform
         (base64_decode Sample.platform (RealitySignature.signature r))
         (utf8_encode Sample.platform
            (buildSignaturePayload (extractPayloadFields r)))
         (base64_decode Sample.platform (RealitySignature.public_key r))
       = Ok true
    /\ lit "user-123" = RealitySignature.approver_id r
    /\ lit "Test User" = RealitySignature.approver_name r
    /\ 1234567890123%Z = RealitySignature.timestamp r
    /\ true = RealitySignature.ai_flag r
    /\ (0 < 1234567890123)%Z.
Proof.
  apply (verify_success_sound Sample.platform Sample.document
           (RealitySignature.to_value Sample.record)).
  vm_compute. reflexivity.
Defined.

(** X14. [verify] reads nothing of its argument but the twelve signature
    properties: two values that agree on them get the same result for
    every document.  So the order of the properties does not matter, and a
    property under any other name, added to a record or overwritten in
    it, changes no verdict. *)
Theorem verify_reads_twelve_members (P : Platform) (document : Bytes)
    (v v' : JSValue) :
  same_fields v v' ->
  verify P document v = verify P document v'.
Proof.
  intros H. unfold verify.
  rewrite (same_fields_format _ _ H), (same_fields_narrow _ _ H).
  reflexivity.
Qed.

Lemma tamper_other_same_fields r k x :
  ~ In k field_names ->
  same_fields (tamper r k x) (RealitySignature.to_value r).
Proof.
  intros Hk. split; [reflexivity|]. split; [reflexivity|].
  intros k0 Hin. unfold tamper, RealitySignature.to_value, member.
  rewrite lookup_set_prop_other; [reflexivity|].
  intros ->. contradiction.
Qed.

(** The theorem on the sample record with a property [note] added. *)
Lemma verify_reads_twelve_members_witness :
  verify Sample.platform Sample.document
    (tamper Sample.record (lit "note") (JString (lit "unsigned")))
  = verify Sample.platform Sample.document
      (RealitySignature.to_value Sample.record).
Proof.
  apply (verify_reads_twelve_members Sample.platform Sample.document).
  apply tamper_other_same_fields.
  unfold field_names, RealitySignature.signed_fields. cbn [app In].
  intuition discriminate.
Defined.

(** What [createRealitySignature] returns under a key the platform
    accepts. *)
Lemma created_record (P : Platform) (laws : PlatformLaws P)
    (params : RealitySignatureParams.t) (privateKey publicKeyBytes : Bytes) :
  ed25519_getPublicKey P privateKey = Ok publicKeyBytes ->
  exists r,
    createRealitySignature P params privateKey = Ok r
    /\ RealitySignature.document_hash r
       = RealitySignatureParams.document_hash params
    /\ RealitySignature.approver_id r
       = RealitySignatureParams.approver_id params
    /\ RealitySignature.approver_name r
       = RealitySignatureParams.approver_name params
    /\ RealitySignature.timestamp r = RealitySignatureParams.timestamp params
    /\ RealitySignature.ai_flag r
       = match RealitySignatureParams.ai_flag params with
         | Some b => b
         | None => false
         end
    /\ Signing.verify P (buildSignaturePayload (extractPayloadFields r))
         (RealitySignature.signature r) (RealitySignature.public_key r)
       = true
    /\ (well_formed_params params = true -> well_formed r = true).
Proof.
  intros Hpk.
  unfold createRealitySignature, Signing.sign.
  match goal with
  | |- context [ed25519_sign P ?m privateKey] =>
      destruct (ed25519_sign_defined P laws m privateKey _ Hpk) as [s Hs];
      pose proof (ed25519_verify_sign P laws m privateKey s _ Hs Hpk) as Hv;
      pose proof (ed25519_signature_nonempty P laws m privateKey s Hs) as Hne;
      rewrite Hs
  end.
  cbn [bind]. rewrite Hpk. cbn [bind].
  eexists. split; [reflexivity|].
  cbn [RealitySignature.document_hash RealitySignature.approver_id
       RealitySignature.approver_name RealitySignature.timestamp
       RealitySignature.ai_flag RealitySignature.signature
       RealitySignature.public_key].
  repeat (split; [reflexivity|]).
  split.
  - unfold Signing.verify.
    rewrite !(base64_decode_encode P laws).
    unfold extractPayloadFields.
    cbn [RealitySignature.version RealitySignature.document_hash
         RealitySignature.intent_hash RealitySignature.intent_text
         RealitySignature.approver_id RealitySignature.approver_name
         RealitySignature.timestamp RealitySignature.presence_proof_id
         RealitySignature.presence_proof_hash RealitySignature.ai_flag
         RealitySignature.signature RealitySignature.public_key].
    rewrite Hv. reflexivity.
  - intros Hw. apply well_formed_created; [exact Hw| |].
    + apply (base64_encode_nonempty P laws), Hne.
    + apply (base64_encode_nonempty P laws).
      apply (ed25519_public_key_nonempty P laws _ _ Hpk).
Qed.

(** X15. [createRealitySignature] validates nothing: with a key the
    platform accepts it returns a record for any parameters, copying them,
    setting the version to 1.0 and the AI flag to [false] when it is not
    given, and the signature of the record verifies under its public key.
    When the parameters do not meet the format constraints, [verify] then
    rejects that record as [invalid_signature_format] for every document.
    An exception of the signing primitive is passed on. *)
Theorem createRealitySignature_unchecked
    (P : Platform) (laws : PlatformLaws P)
    (params : RealitySignatureParams.t) (privateKey publicKeyBytes : Bytes) :
  ed25519_getPublicKey P privateKey = Ok publicKeyBytes ->
  exists r,
    createRealitySignature P params privateKey = Ok r
    /\ RealitySignature.version r = V1_0
    /\ RealitySignature.document_hash r
       = RealitySignatureParams.document_hash params
    /\ RealitySignature.intent_hash r
       = RealitySignatureParams.intent_hash params
    /\ RealitySignature.intent_text r
       = RealitySignatureParams.intent_text params
    /\ RealitySignature.approver_id r
       = RealitySignatureParams.approver_id params
    /\ RealitySignature.approver_name r
       = RealitySignatureParams.approver_name params
    /\ RealitySignature.timestamp r = RealitySignatureParams.timestamp params
    /\ RealitySignature.presence_proof_id r
       = RealitySignatureParams.presence_proof_id params
    /\ RealitySignature.presence_proof_hash r
       = RealitySignatureParams.presence_proof_hash params
    /\ RealitySignature.ai_flag r
       = match RealitySignatureParams.ai_flag params with
         | Some b => b
         | None => false
         end
    /\ RealitySignature.public_key r = base64_encode P publicKeyBytes
    /\ Signing.verify P (buildSignaturePayload (extractPayloadFields r))
         (RealitySignature.signature r) (RealitySignature.public_key r)
       = true
    /\ (well_formed_params params = false ->
        forall document,
          verify P document (RealitySignature.to_value r)
          = VerificationFailureMalformed)
    /\ (well_formed_params params = true ->
        isValidSignatureFormat (RealitySignature.to_value r) = true).
Proof.
  intros Hpk.
  unfold createRealitySignature, Signing.sign.
  match goal with
  | |- context [ed25519_sign P ?m privateKey] =>
      destruct (ed25519_sign_defined P laws m privateKey _ Hpk) as [s Hs];
      pose proof (ed25519_verify_sign P laws m privateKey s _ Hs Hpk) as Hv;
      pose proof (ed25519_signature_nonempty P laws m privateKey s Hs) as Hne;
      rewrite Hs
  end.
  cbn [bind]. rewrite Hpk. cbn [bind].
  eexists. split; [reflexivity|].
  cbn [RealitySignature.version RealitySignature.document_hash
       RealitySignature.intent_hash RealitySignature.intent_text
       RealitySignature.approver_id RealitySignature.approver_name
       RealitySignature.timestamp RealitySignature.presence_proof_id
       RealitySignature.presence_proof_hash RealitySignature.ai_flag
       RealitySignature.signature RealitySignature.public_key].
  repeat (split; [reflexivity|]).
  split; [|split].
  - unfold Signing.verify.
    rewrite !(base64_decode_encode P laws).
    unfold extractPayloadFields.
    cbn [RealitySignature.version RealitySignature.document_hash
         RealitySignature.intent_hash RealitySignature.intent_text
         RealitySignature.approver_id RealitySignature.approver_name
         RealitySignature.timestamp RealitySignature.presence_proof_id
         RealitySignature.presence_proof_hash RealitySignature.ai_flag
         RealitySignature.signature RealitySignature.public_key].
    rewrite Hv. reflexivity.
  - intros Hw document. rewrite verify_to_value.
    match goal with
    | |- context [well_formed ?r] =>
        assert (Hr : well_formed r = false); [|rewrite Hr; reflexivity]
    end.
    unfold well_formed, well_formed_params in *.
    cbn [RealitySignature.document_hash RealitySignature.intent_hash
         RealitySignature.intent_text RealitySignature.approver_id
         RealitySignature.approver_name RealitySignature.timestamp
         RealitySignature.presence_proof_id
         RealitySignature.presence_proof_hash
         RealitySignature.signature RealitySignature.public_key].
    rewrite Hw. reflexivity.
  - intros Hw. rewrite isValidSignatureFormat_to_value.
    apply well_formed_created; [exact Hw| |].
    + apply (base64_encode_nonempty P laws), Hne.
    + apply (base64_encode_nonempty P laws).
      apply (ed25519_public_key_nonempty P laws _ _ Hpk).
Qed.

(** The theorem on the sample platform and key, with parameters whose
    approver name is empty and whose time is zero. *)
Lemma createRealitySignature_unchecked_witness :
  let params :=
    {| RealitySignatureParams.document_hash := lit "not a digest";
       RealitySignatureParams.intent_hash := [];
       RealitySignatureParams.intent_text := [];
       RealitySignatureParams.approver_id := [];
       RealitySignatureParams.approver_name := [];
       RealitySignatureParams.timestamp := 0;
       RealitySignatureParams.presence_proof_id := [];
       RealitySignatureParams.presence_proof_hash := [];
       RealitySignatureParams.ai_flag := None |} in
  exists r,
    createRealitySignature Sample.platform params Sample.key = Ok r
    /\ RealitySignature.ai_flag r = false
    /\ Signing.verify Sample.platform
         (buildSignaturePayload (extractPayloadFields r))
         (RealitySignature.signature r) (RealitySignature.public_key r)
       = true
    /\ verify Sample.platform Sample.document (RealitySignature.to_value r)
       = VerificationFailureMalformed.
Proof.
  intros params.
  destruct (createRealitySignature_unchecked Sample.platform platform_laws
              params Sample.key Sample.key eq_refl)
    as (r & Hc & _ & _ & _ & _ & _ & _ & _ & _ & _ & Ha & _ & Hv & Hm & _).
  exists r. split; [exact Hc|]. split; [exact Ha|]. split; [exact Hv|].
  apply Hm. reflexivity.
Defined.

End VerifyMoreFacts.

Module VerifyApiFacts.
Import JSONFacts SignatureFacts VerifyFacts.
Import Payload Create Verify Form VerifyApi.

Lemma serialize_nonempty r :
  (length (serializeRealitySignature r) =? 0)%nat = false.
Proof. reflexivity. Qed.

Lemma stringify_long_nonempty r :
  (length (stringify_long r) =? 0)%nat = false.
Proof. reflexivity. Qed.

(** X16. The verify route gives, for a signature sent under the short keys
    or under the long names, as a form string or as a file, the result of
    [verify] on the record and the document's bytes, with status 200 and
    no message. *)
Theorem verify_route_accepts_both_forms
    (P : Platform) (utf8_decode : Bytes -> jsstring)
    (name type : jsstring) (document : Bytes) (r : RealitySignature.t) :
  let expected :=
    ResultResponse (verify P document (RealitySignature.to_value r)) None in
  let file := FileEntry name type document in
  POST P utf8_decode
    (Some (file, StringEntry (serializeRealitySignature r))) = expected
  /\ POST P utf8_decode (Some (file, StringEntry (stringify_long r)))
     = expected
  /\ (forall n t content,
        utf8_decode content = serializeRealitySignature r
        \/ utf8_decode content = stringify_long r ->
        POST P utf8_decode (Some (file, FileEntry n t content)) = expected).
Proof.
  intros expected file. unfold POST, file, expected.
  cbn [truthy]. rewrite serialize_nonempty, stringify_long_nonempty.
  cbn [negb]. rewrite parseSignature_short, parseSignature_long.
  split; [reflexivity|]. split; [reflexivity|].
  intros n t content [-> | ->].
  - rewrite parseSignature_short. reflexivity.
  - rewrite parseSignature_long. reflexivity.
Qed.

Lemma parseSignature_not_object text v :
  JSON_parse text = Ok v ->
  match v with JObject _ | JArray _ => False | _ => True end ->
  VerifyRoute.parseSignature text = Throw TypeError.
Proof.
  intros Hp Hv. unfold VerifyRoute.parseSignature. rewrite Hp. cbn [bind].
  destruct v; try contradiction; reflexivity.
Qed.

Lemma parseSignature_array text l :
  JSON_parse text = Ok (JArray l) ->
  VerifyRoute.parseSignature text = Ok (JArray l).
Proof.
  intros Hp. unfold VerifyRoute.parseSignature. rewrite Hp. reflexivity.
Qed.

(** X17. What the verify route answers to a request it cannot use, for
    every platform: [INTERNAL_ERROR] with status 500 when the form cannot
    be read; [INVALID_FILE] when [document] is missing or a string,
    whatever the signature; [INVALID_SIGNATURE] when [signature] is
    missing or the empty string.  A signature text that is not JSON, or is
    the JSON of [null], a number, a string or a boolean, is answered with
    status 200 by the failure [invalid_signature_format] with the message
    "Failed to parse signature JSON"; the JSON of an array by the same
    failure without a message.  No signature makes the route throw. *)
Theorem verify_route_rejections
    (P : Platform) (utf8_decode : Bytes -> jsstring) :
  POST P utf8_decode None
  = ErrorResponse "INTERNAL_ERROR" "Failed to verify signature" 500
  /\ (forall signatureData,
        POST P utf8_decode (Some (NoEntry, signatureData))
        = ErrorResponse "INVALID_FILE" "Document file is required" 400)
  /\ (forall s signatureData,
        POST P utf8_decode (Some (StringEntry s, signatureData))
        = ErrorResponse "INVALID_FILE" "Document file is required" 400)
  /\ (forall n t d signatureData,
        signatureData = NoEntry \/ signatureData = StringEntry [] ->
        POST P utf8_decode (Some (FileEntry n t d, signatureData))
        = ErrorResponse "INVALID_SIGNATURE" "Signature is required" 400)
  /\ (forall n t d text,
        text <> [] ->
        (JSON_parse text = Throw SyntaxError
         \/ exists v, JSON_parse text = Ok v
              /\ match v with JObject _ | JArray _ => False | _ => True end) ->
        POST P utf8_decode (Some (FileEntry n t d, StringEntry text))
        = ResultResponse VerificationFailureMalformed
            (Some "Failed to parse signature JSON"%string))
  /\ (forall n t d text l,
        JSON_parse text = Ok (JArray l) ->
        POST P utf8_decode (Some (FileEntry n t d, StringEntry text))
        = ResultResponse VerificationFailureMalformed None)
  /\ (forall n t d signatureData,
        truthy signatureData = true ->
        exists result message,
          POST P utf8_decode (Some (FileEntry n t d, signatureData))
          = ResultResponse result message).
Proof.
  split; [reflexivity|]. split; [reflexivity|]. split; [reflexivity|].
  split; [|split; [|split]].
  - intros n t d s [-> | ->]; reflexivity.
  - intros n t d text Hne H. unfold POST. cbn [truthy].
    destruct text as [|c text]; [congruence|]. cbn [length Nat.eqb negb].
    destruct H as [H | (v & Hp & Hv)].
    + unfold VerifyRoute.parseSignature. rewrite H. reflexivity.
    + rewrite (parseSignature_not_object _ _ Hp Hv). reflexivity.
  - intros n t d text l Hp. unfold POST. cbn [truthy].
    destruct text as [|c text]; [discriminate Hp|].
    cbn [length Nat.eqb negb].
    rewrite (parseSignature_array _ _ Hp). reflexivity.
  - intros n t d s Ht. unfold POST. rewrite Ht. cbn [negb].
    destruct s as [|n' t' c|s]; [discriminate Ht| |];
      destruct (VerifyRoute.parseSignature _); eauto.
Qed.

End VerifyApiFacts.

Module HashShapeFacts.
Import Hash HashFacts HashShape.

Lemma whitespace_inline_or_LF c :
  is_whitespace c = true -> c = LF \/ is_inline_space c = true.
Proof.
  intros H. unfold is_inline_space. rewrite H. cbn [andb].
  destruct (N.eqb_spec c LF); [left; assumption|right; reflexivity].
Qed.

Lemma inline_is_whitespace c :
  is_inline_space c = true -> is_whitespace c = true.
Proof. unfold is_inline_space. intros H. apply andb_prop in H. tauto. Qed.

Lemma LF_whitespace : is_whitespace LF = true.
Proof. reflexivity. Qed.

Lemma CR_whitespace : is_whitespace CR = true.
Proof. reflexivity. Qed.

Lemma SP_whitespace : is_whitespace SP = true.
Proof. reflexivity. Qed.

Lemma collapsed_whitespace b s :
  collapsed b s = true ->
  forall ch, In ch s -> is_whitespace ch = true -> ch = SP \/ ch = LF.
Proof.
  revert b. induction s as [|c r IH]; intros b H ch Hin Hw; [destruct Hin|].
  destruct Hin as [->|Hin].
  - destruct (whitespace_inline_or_LF _ Hw) as [->|Hi]; [now right|].
    cbn [collapsed] in H. rewrite Hi in H.
    apply andb_prop in H. destruct H as [H _].
    apply andb_prop in H. destruct H as [H _].
    apply N.eqb_eq in H. now left.
  - apply collapsed_tail in H. exact (IH _ H ch Hin Hw).
Qed.

Lemma collapsed_no_double b s :
  collapsed b s = true -> forall pre post, s <> pre ++ SP :: SP :: post.
Proof.
  intros H pre. revert b s H.
  induction pre as [|p pre IH]; intros b s H post E; subst s.
  - cbn [app] in H. apply collapsed_tail in H. rewrite SP_inline in H.
    cbn [collapsed] in H. rewrite SP_inline in H.
    apply andb_prop in H. destruct H as [H _].
    apply andb_prop in H. destruct H as [_ H]. discriminate H.
  - cbn [app] in H. apply collapsed_tail in H.
    exact (IH _ _ H post eq_refl).
Qed.

Lemma trimEnd_last s : forall pre ch,
  trimEnd s = pre ++ [ch] -> is_whitespace ch = false.
Proof.
  induction s as [|c r IH]; intros pre ch E.
  - destruct pre; discriminate E.
  - cbn [trimEnd] in E. destruct (trimEnd r) as [|d r'].
    + destruct (is_whitespace c) eqn:Hc.
      * destruct pre; discriminate E.
      * destruct pre as [|p [|q pre]]; try discriminate E.
        injection E as <-. exact Hc.
    + destruct pre as [|p pre]; [discriminate E|].
      injection E as _ E. exact (IH pre ch E).
Qed.

Lemma trimStart_nil_iff s : trimStart s = [] <-> blank s.
Proof.
  unfold blank. induction s as [|c r IH]; cbn [trimStart].
  - split; [constructor|reflexivity].
  - destruct (is_whitespace c) eqn:Hc.
    + rewrite IH. split; [intros H; constructor; assumption|].
      intros H. inversion H; assumption.
    + split; [discriminate|]. intros H. inversion H; congruence.
Qed.

Lemma trimEnd_nil_iff s : trimEnd s = [] <-> blank s.
Proof.
  unfold blank. induction s as [|c r IH]; cbn [trimEnd].
  - split; [constructor|reflexivity].
  - destruct (trimEnd r) as [|d r'].
    + destruct (is_whitespace c) eqn:Hc.
      * split; [|reflexivity]. intros _. constructor; [exact Hc|].
        apply IH. reflexivity.
      * split; [discriminate|]. intros H. inversion H; congruence.
    + split; [discriminate|]. intros H. inversion H as [|? ? _ Hr]; subst.
      apply IH in Hr. discriminate Hr.
Qed.

Lemma trim_nil_iff s : trim s = [] <-> blank s.
Proof.
  unfold trim. split.
  - intros H. apply trimEnd_nil_iff in H. apply trimStart_nil_iff.
    pose proof (trimStart_starts_clean s) as Hc.
    destruct (trimStart s) as [|c r]; [reflexivity|].
    cbn [starts_clean] in Hc. inversion H; subst.
    rewrite H2 in Hc. discriminate Hc.
  - intros H. apply trimStart_nil_iff in H. rewrite H. reflexivity.
Qed.

Lemma blank_collapse_from b s : blank (collapse_from b s) <-> blank s.
Proof.
  unfold blank. revert b.
  induction s as [|c r IH]; intros b; cbn [collapse_from]; [tauto|].
  destruct (is_inline_space c) eqn:Hc.
  - pose proof (inline_is_whitespace _ Hc) as Hw. destruct b.
    + rewrite IH. split; [intros H; constructor; assumption|].
      intros H. inversion H; assumption.
    + split; intros H; inversion H; subst; constructor;
        try assumption; try reflexivity; apply (IH true); assumption.
  - split; intros H; inversion H; subst; constructor;
      try assumption; apply (IH false); assumption.
Qed.

Lemma blank_replace_cr s : blank (replace_cr s) <-> blank s.
Proof.
  unfold blank, replace_cr. induction s as [|c r IH]; cbn [map]; [tauto|].
  destruct (N.eqb_spec c CR) as [->|Hn].
  - split; intros H; inversion H; subst; constructor;
      try reflexivity; apply IH; assumption.
  - split; intros H; inversion H; subst; constructor;
      try assumption; apply IH; assumption.
Qed.

Lemma blank_replace_crlf_bounded n : forall s,
  (length s <= n)%nat -> (blank (replace_crlf s) <-> blank s).
Proof.
  unfold blank. induction n as [|n IH]; intros s Hn.
  - destruct s; [tauto|cbn [length] in Hn; lia].
  - destruct s as [|c [|d r']]; [tauto|tauto|].
    cbn [length] in Hn.
    change (replace_crlf (c :: d :: r'))
      with (if (c =? CR) && (d =? LF) then LF :: replace_crlf r'
            else c :: replace_crlf (d :: r')).
    destruct ((c =? CR) && (d =? LF)) eqn:E.
    + apply andb_prop in E. destruct E as [Ec Ed].
      apply N.eqb_eq in Ec, Ed. subst c d.
      specialize (IH r' ltac:(lia)).
      split; intros H; inversion H; subst.
      * constructor; [reflexivity|]. constructor; [reflexivity|].
        apply IH. assumption.
      * inversion H3; subst. constructor; [reflexivity|].
        apply IH. assumption.
    + specialize (IH (d :: r') ltac:(cbn [length]; lia)).
      split; intros H; inversion H; subst; constructor;
        try assumption; apply IH; assumption.
Qed.

Lemma blank_replace_crlf s : blank (replace_crlf s) <-> blank s.
Proof. apply (blank_replace_crlf_bounded (length s)). apply le_n. Qed.

Lemma rewrite_whitespace_nil_iff s : rewrite_whitespace s = [] <-> blank s.
Proof.
  unfold rewrite_whitespace, collapse_inline_space.
  rewrite trim_nil_iff, blank_collapse_from, blank_replace_cr.
  apply blank_replace_crlf.
Qed.

(** X18. The canonical intent, for any normaliser and any text, holds no
    carriage return; its only white space is the space and the line feed;
    no two spaces are adjacent; it neither starts nor ends with white
    space; and the four steps after the normalisation leave it as it
    is. *)
Theorem canonical_intent_shape
    (normalize_NFC : jsstring -> jsstring) (text : jsstring) :
  let c := canonicalizeIntent normalize_NFC text in
  ~ In CR c
  /\ (forall ch, In ch c -> is_whitespace ch = true -> ch = SP \/ ch = LF)
  /\ (forall pre post, c <> pre ++ SP :: SP :: post)
  /\ (forall ch r, c = ch :: r -> is_whitespace ch = false)
  /\ (forall pre ch, c = pre ++ [ch] -> is_whitespace ch = false)
  /\ rewrite_whitespace c = c.
Proof.
  intros c.
  change c with (rewrite_whitespace (normalize_NFC text)).
  pose proof (rewrite_whitespace_collapsed (normalize_NFC text)) as Hc.
  split; [exact (collapsed_no_CR _ _ Hc)|].
  split; [exact (collapsed_whitespace _ _ Hc)|].
  split; [exact (collapsed_no_double _ _ Hc)|].
  split; [|split].
  - intros ch r E.
    assert (Hs : starts_clean (rewrite_whitespace (normalize_NFC text))
                 = true).
    { unfold rewrite_whitespace, trim.
      apply trimEnd_starts_clean, trimStart_starts_clean. }
    rewrite E in Hs. cbn [starts_clean] in Hs.
    apply negb_true_iff in Hs. exact Hs.
  - intros pre ch E. unfold rewrite_whitespace, trim in E.
    exact (trimEnd_last _ _ _ E).
  - apply rewrite_whitespace_idempotent.
Qed.

(** X19. The canonical intent is the empty string exactly when the
    normalised text holds nothing but white space (the empty text
    included); likewise [trim], by which the create route tests the
    intent, empties exactly the texts of white space only. *)
Theorem canonical_intent_empty_iff
    (normalize_NFC : jsstring -> jsstring) (text : jsstring) :
  (canonicalizeIntent normalize_NFC text = []
   <-> Forall (fun ch => is_whitespace ch = true) (normalize_NFC text))
  /\ (trim text = [] <-> Forall (fun ch => is_whitespace ch = true) text).
Proof.
  split.
  - apply (rewrite_whitespace_nil_iff (normalize_NFC text)).
  - apply trim_nil_iff.
Qed.

Lemma quads_laws : nfc_laws normalize_quads.
Proof.
  unfold nfc_laws, normal_form. split; [exact normalize_quads_idempotent|].
  split; [intros a w b _; apply quads_replace; split; discriminate|].
  split; [intros a w b _; apply quads_replace; split; discriminate|].
  split; [intros a w1 w2 b _ _; apply quads_drop_first|].
  split; [intros a w1 w2 b _ _; apply quads_drop_second|].
  split; [intros w b _; apply quads_drop_leading|].
  intros a w _. apply quads_drop_trailing.
Qed.

(** Under the laws of the normaliser, canonicalising a canonical intent
    changes nothing. *)
Lemma canonical_twice normalize_NFC text :
  nfc_laws normalize_NFC ->
  canonicalizeIntent normalize_NFC (canonicalizeIntent normalize_NFC text)
  = canonicalizeIntent normalize_NFC text.
Proof.
  intros (H1 & H2 & H3 & H4 & H5 & H6 & H7).
  change (rewrite_whitespace
            (normalize_NFC (rewrite_whitespace (normalize_NFC text)))
          = rewrite_whitespace (normalize_NFC text)).
  rewrite (normalized_rewrite_whitespace normalize_NFC H2 H3 H4 H5 H6 H7 _
             (H1 text)).
  apply rewrite_whitespace_idempotent.
Qed.

End HashShapeFacts.

Module CliFacts.
Import JSONFacts SignatureFacts SampleFacts VerifyFacts.
Import Payload Create CliSample.

Lemma validateSignatureFormat_serialized r :
  Cli.validateSignatureFormat (JObject (serialized r)) = hex_fields r.
Proof.
  destruct r as [[] dh ih it ai an ts pp pph af sg pk].
  unfold Cli.validateSignatureFormat, hex_fields. cbn.
  rewrite !andb_true_r. reflexivity.
Qed.

Lemma narrow_serialized r :
  Cli.narrow (JObject (serialized r)) = Some (Cli.of_record r).
Proof. destruct r as [[] dh ih it ai an ts pp pph af sg pk]. reflexivity. Qed.

Lemma buildPayload_of_record r :
  Cli.buildPayload (Cli.of_record r)
  = buildSignaturePayload (extractPayloadFields r).
Proof. reflexivity. Qed.

Lemma verifySignature_eq P payload signature publicKey :
  Cli.verifySignature P payload signature publicKey
  = Signing.verify P payload signature publicKey.
Proof. reflexivity. Qed.

Lemma well_formed_hex_fields r :
  Verify.well_formed r = true -> hex_fields r = true.
Proof.
  unfold Verify.well_formed, hex_fields. intros H.
  destruct (Verify.is_hex64 (RealitySignature.document_hash r));
    [|discriminate H].
  destruct (Verify.is_hex64 (RealitySignature.intent_hash r));
    [|discriminate H].
  destruct (Verify.is_hex64 (RealitySignature.presence_proof_hash r));
    [reflexivity|].
  rewrite andb_false_r in H. discriminate H.
Qed.

Lemma validateSignatureFormat_narrow json :
  Cli.validateSignatureFormat json = true ->
  exists sig, Cli.narrow json = Some sig
    /\ Verify.is_hex64 (Cli.dh sig) = true
    /\ Cli.v sig = lit "1.0".
Proof.
  unfold Cli.validateSignatureFormat, Cli.narrow.
  destruct (negb (Truthiness.to_boolean json) || negb (typeof_object json));
    [discriminate|].
  cbv zeta. intros H.
  repeat (apply andb_prop in H; destruct H as [H ?]).
  apply is_version_1_0_inv in H.
  repeat match goal with
         | H : Cli.isValidHex64 ?x = true |- _ =>
             let s := fresh "s" in let E := fresh "E" in
             destruct x as [| | | |s| |] eqn:E; try discriminate H;
             cbn [Cli.isValidHex64] in H
         | H : Truthiness.typeof_string ?x = true |- _ =>
             let s := fresh "s" in let E := fresh "E" in
             destruct x as [| | | |s| |] eqn:E; try discriminate H; clear H
         | H : Truthiness.typeof_number ?x = true |- _ =>
             let s := fresh "n" in let E := fresh "E" in
             destruct x as [| | |n| | |] eqn:E; try discriminate H; clear H
         | H : Verify.is_boolean ?x = true |- _ =>
             let s := fresh "b" in let E := fresh "E" in
             destruct x as [| |b| | | |] eqn:E; try discriminate H; clear H
         end.
  rewrite H. eexists. split; [reflexivity|]. cbn. auto.
Qed.

Section CliVerify.

Variable P : Platform.
Variable readFileSync : jsstring -> option Bytes.
Variable utf8_decode : Bytes -> jsstring.
Variable toISOString : JSNumber -> option jsstring.

(** X20. On a signature file written by [serializeRealitySignature] for a
    record that meets the library's format constraints, and whose time can
    be printed as a date, the standalone verifier reaches the verdict of
    the library's [verify]: [valid] is the same, its two checks are the
    digest comparison and the signature check of the library, it reports
    the record's approver, intent and AI flag, its error text is
    "Document has been altered" when the library's error is
    [document_altered] and "Signature is not authentic" when it is
    [signature_not_authentic], and [main] exits with 0 exactly when the
    library's result is valid. *)
Theorem cli_agrees_with_library
    (documentPath signaturePath : jsstring) (document content : Bytes)
    (r : RealitySignature.t) (iso : jsstring) :
  readFileSync documentPath = Some document ->
  readFileSync signaturePath = Some content ->
  utf8_decode content = serializeRealitySignature r ->
  Verify.well_formed r = true ->
  toISOString (NumInt (RealitySignature.timestamp r)) = Some iso ->
  let library := Verify.verify P document (RealitySignature.to_value r) in
  exists res,
    Cli.verify P readFileSync utf8_decode toISOString
      documentPath signaturePath = Ok res
    /\ Cli.valid res = Verify.valid library
    /\ Cli.format_valid res = Cli.pass
    /\ (Cli.document_integrity res = Cli.pass
        <-> Signing.hashDocument P document
            = RealitySignature.document_hash r)
    /\ (Cli.signature_validity res = Cli.pass
        <-> Signing.verify P (buildSignaturePayload (extractPayloadFields r))
              (RealitySignature.signature r) (RealitySignature.public_key r)
            = true)
    /\ Cli.details res
       = Some (Cli.mkDetails (RealitySignature.approver_id r)
                 (RealitySignature.approver_name r) iso
                 (RealitySignature.intent_text r)
                 (RealitySignature.ai_flag r))
    /\ (Verify.error library = Some Verify.document_altered ->
        Cli.error res = Some (lit "Document has been altered"))
    /\ (Verify.error library = Some Verify.signature_not_authentic ->
        Cli.error res = Some (lit "Signature is not authentic"))
    /\ (Verify.error library = None -> Cli.error res = None)
    /\ (Cli.main P readFileSync utf8_decode toISOString
          [documentPath; signaturePath] = 0%Z
        <-> Verify.valid library = true).
Proof.
  intros Hd Hs Hc Hw Hi library. subst library.
  unfold Cli.main, Cli.verify. rewrite Hd, Hs, Hc, JSON_parse_serialized.
  rewrite validateSignatureFormat_serialized, (well_formed_hex_fields _ Hw).
  cbn [negb]. rewrite narrow_serialized.
  cbn [Cli.ts Cli.of_record]. rewrite Hi.
  cbn [Cli.dh Cli.sg Cli.pk Cli.ai Cli.an Cli.it Cli.af Cli.of_record].
  rewrite buildPayload_of_record, verifySignature_eq.
  rewrite verify_to_value, Hw. cbn [negb].
  unfold Cli.hashDocument, Signing.hashDocument.
  destruct (jsstring_eqb (sha256_hex P document)
              (RealitySignature.document_hash r)) eqn:Eh;
    destruct (Signing.verify P _ _ _) eqn:Ev; cbn [negb];
    (eexists; split; [reflexivity|]);
    cbn [Cli.valid Cli.format_valid Cli.document_integrity
         Cli.signature_validity Cli.details Cli.error
         Verify.valid Verify.error negb];
    first [apply jsstring_eqb_eq in Eh
          |apply (proj1 (jsstring_eqb_false_iff _ _)) in Eh];
    repeat split; intros; try discriminate; try reflexivity;
    try assumption; try congruence.
Qed.

(** X22. When [main] exits with 0, the two files were read, the signature
    file held JSON that passed the verifier's format check, the digest of
    the document is the [dh] of the signature, and [ed.verify] returned
    [true] for the payload rebuilt from the signature's ten signed
    fields. *)
Theorem cli_exit_zero_sound (args : list jsstring) :
  Cli.main P readFileSync utf8_decode toISOString args = 0%Z ->
  exists documentPath signaturePath document content json sig,
    args = [documentPath; signaturePath]
    /\ readFileSync documentPath = Some document
    /\ readFileSync signaturePath = Some content
    /\ JSON_parse (utf8_decode content) = Ok json
    /\ Cli.validateSignatureFormat json = true
    /\ Cli.narrow json = Some sig
    /\ Cli.hashDocument P document = Cli.dh sig
    /\ ed25519_verify P (base64_decode P (Cli.sg sig))
         (utf8_encode P (Cli.buildPayload sig))
         (base64_decode P (Cli.pk sig)) = Ok true.
Proof.
  unfold Cli.main.
  destruct args as [|documentPath [|signaturePath [|x args]]];
    try discriminate.
  unfold Cli.verify.
  destruct (readFileSync documentPath) as [document|] eqn:Hd;
    [|discriminate].
  destruct (readFileSync signaturePath) as [content|] eqn:Hs;
    [|discriminate].
  destruct (JSON_parse (utf8_decode content)) as [json|e] eqn:Hj;
    [|discriminate].
  destruct (Cli.validateSignatureFormat json) eqn:Hf; cbn [negb];
    [|discriminate].
  destruct (Cli.narrow json) as [sig|] eqn:Hn; [|discriminate].
  destruct (toISOString (Cli.ts sig)); [|discriminate].
  cbn [Cli.valid].
  destruct (jsstring_eqb (Cli.hashDocument P document) (Cli.dh sig)) eqn:Eh;
    [|discriminate].
  unfold Cli.verifySignature.
  destruct (ed25519_verify P _ _ _) as [[|]|e] eqn:Ev; try discriminate.
  intros _. apply jsstring_eqb_eq in Eh.
  exists documentPath, signaturePath, document, content, json, sig.
  repeat split; assumption.
Qed.

End CliVerify.

Lemma cli_agrees_with_library_witness :
  let library :=
    Verify.verify Sample.platform Sample.document
      (RealitySignature.to_value Sample.record) in
  exists res,
    Cli.verify Sample.platform sample_files sample_decode sample_date
      (lit "doc") (lit "sig") = Ok res
    /\ Cli.valid res = Verify.valid library
    /\ Cli.format_valid res = Cli.pass
    /\ (Cli.document_integrity res = Cli.pass
        <-> Signing.hashDocument Sample.platform Sample.document
            = RealitySignature.document_hash Sample.record)
    /\ (Cli.signature_validity res = Cli.pass
        <-> Signing.verify Sample.platform
              (buildSignaturePayload (extractPayloadFields Sample.record))
              (RealitySignature.signature Sample.record)
              (RealitySignature.public_key Sample.record)
            = true)
    /\ Cli.details res
       = Some (Cli.mkDetails (RealitySignature.approver_id Sample.record)
                 (RealitySignature.approver_name Sample.record)
                 (lit "2009-02-13T23:31:30.123Z")
                 (RealitySignature.intent_text Sample.record)
                 (RealitySignature.ai_flag Sample.record))
    /\ (Verify.error library = Some Verify.document_altered ->
        Cli.error res = Some (lit "Document has been altered"))
    /\ (Verify.error library = Some Verify.signature_not_authentic ->
        Cli.error res = Some (lit "Signature is not authentic"))
    /\ (Verify.error library = None -> Cli.error res = None)
    /\ (Cli.main Sample.platform sample_files sample_decode sample_date
          [lit "doc"; lit "sig"] = 0%Z
        <-> Verify.valid library = true).
Proof.
  apply (cli_agrees_with_library Sample.platform sample_files sample_decode
           sample_date (lit "doc") (lit "sig") Sample.document []
           Sample.record (lit "2009-02-13T23:31:30.123Z"));
    vm_compute; reflexivity.
Defined.

Lemma cli_exit_zero_sound_witness :
  exists documentPath signaturePath document content json sig,
    [lit "doc"; lit "sig"] = [documentPath; signaturePath]
    /\ sample_files documentPath = Some document
    /\ sample_files signaturePath = Some content
    /\ JSON_parse (sample_decode content) = Ok json
    /\ Cli.validateSignatureFormat json = true
    /\ Cli.narrow json = Some sig
    /\ Cli.hashDocument Sample.platform document = Cli.dh sig
    /\ ed25519_verify Sample.platform
         (base64_decode Sample.platform (Cli.sg sig))
         (utf8_encode Sample.platform (Cli.buildPayload sig))
         (base64_decode Sample.platform (Cli.pk sig)) = Ok true.
Proof.
  apply (cli_exit_zero_sound Sample.platform sample_files sample_decode
           sample_date [lit "doc"; lit "sig"]).
  vm_compute. reflexivity.
Defined.

(** X21. The standalone verifier's format check is weaker than the
    library's.  On the short-key object of a record it tests only that the
    three digests are 64 lower-case hexadecimal characters, so it accepts
    every record the library accepts, and also records the library
    rejects, such as one with an empty approver and a time of zero.  It
    rejects the long-name object of every record, which the verify route
    accepts. *)
Theorem cli_format_is_laxer :
  (forall r,
      Cli.validateSignatureFormat (JObject (serialized r))
      = Verify.is_hex64 (RealitySignature.document_hash r)
        && Verify.is_hex64 (RealitySignature.intent_hash r)
        && Verify.is_hex64 (RealitySignature.presence_proof_hash r))
  /\ (forall r,
        Verify.isValidSignatureFormat (RealitySignature.to_value r) = true ->
        Cli.validateSignatureFormat (JObject (serialized r)) = true)
  /\ (forall r,
        Cli.validateSignatureFormat (RealitySignature.to_value r) = false)
  /\ (exists r,
        Cli.validateSignatureFormat (JObject (serialized r)) = true
        /\ Verify.isValidSignatureFormat (RealitySignature.to_value r)
           = false).
Proof.
  split; [exact validateSignatureFormat_serialized|].
  split; [|split].
  - intros r H. rewrite isValidSignatureFormat_to_value in H.
    rewrite validateSignatureFormat_serialized.
    apply well_formed_hex_fields, H.
  - intros r. destruct r as [[] dh ih it ai an ts pp pph af sg pk].
    reflexivity.
  - exists (RealitySignature.make V1_0 (repeat 97 64) (repeat 97 64) [] [] []
              0 [] (repeat 97 64) false [] []).
    split; vm_compute; reflexivity.
Qed.

End CliFacts.

Module ApproveApiFacts.
Import JSONFacts SignatureFacts VerifyFacts MemoryStoreFacts VerifyApiFacts.
Import Truthiness Session ApproveApi VerifyMoreFacts.

Local Open Scope Z_scope.

Section Route.

Variable P : Platform.
Variable now : nat -> Z.
Variable uuid : nat -> jsstring.
Variable privateKey : Bytes.

Lemma seq_ret {A B : Type} (a : A) (k : A -> M B) w :
  seq (ret a) k w = k a w.
Proof. reflexivity. Qed.

Lemma seq_lift_Ok {E A B : Type} (inj : E -> Exception) (a : A)
    (k : A -> M B) w :
  seq (lift inj (Ok a)) k w = k a w.
Proof. reflexivity. Qed.

Lemma seq_Date_now {B : Type} (k : Z -> M B) w :
  seq (Date_now now) k w
  = k (now (ticks w))
      (mkWorld (sessionStore w) (signatureStore w) (presenceProofStore w)
         (S (ticks w)) (draws w)).
Proof. reflexivity. Qed.

Lemma seq_uuidv4 {B : Type} (k : jsstring -> M B) w :
  seq (uuidv4 uuid) k w
  = k (uuid (draws w))
      (mkWorld (sessionStore w) (signatureStore w) (presenceProofStore w)
         (ticks w) (S (draws w))).
Proof. reflexivity. Qed.

Lemma seq_assoc {A B C : Type} (m : M A) (f : A -> M B) (g : B -> M C) w :
  seq (seq m f) g w = seq m (fun a => seq (f a) g) w.
Proof. unfold seq. destruct (m w) as [[a|e] w']; reflexivity. Qed.

Lemma canApprove_io_pending session w :
  status session = pending ->
  canApprove_io now session w
  = (Ok (canApprove (now (ticks w)) session),
     mkWorld (sessionStore w) (signatureStore w) (presenceProofStore w)
       (S (ticks w)) (draws w)).
Proof. intros H. unfold canApprove_io. rewrite H. reflexivity. Qed.

Lemma canApprove_io_settled session w :
  status session <> pending ->
  canApprove_io now session w = (Ok false, w).
Proof.
  intros H. unfold canApprove_io.
  destruct (status session); [congruence|reflexivity|reflexivity].
Qed.

(** [approveSession] with its effects agrees with the function of the two
    clock readings. *)
Lemma approveSession_io_pending session signatureId w :
  status session = pending ->
  approveSession_io now session signatureId w
  = let w1 := mkWorld (sessionStore w) (signatureStore w)
                (presenceProofStore w) (S (ticks w)) (draws w) in
    let w2 := mkWorld (sessionStore w) (signatureStore w)
                (presenceProofStore w) (S (S (ticks w))) (draws w) in
    match approveSession (now (ticks w)) (now (S (ticks w)))
            session signatureId with
    | Ok s => (Ok s, w2)
    | Throw e => (Throw (SessionException e), w1)
    end.
Proof.
  intros H. unfold approveSession_io, seq.
  rewrite (canApprove_io_pending _ _ H). unfold approveSession.
  destruct (canApprove (now (ticks w)) session); cbn [negb].
  - reflexivity.
  - rewrite H. reflexivity.
Qed.

Lemma trim_nil : trim [] = [].
Proof. reflexivity. Qed.

Lemma missing_text_false s :
  trim s <> [] -> missing_text (JString s) = false.
Proof.
  intros H. unfold missing_text. cbn [to_boolean typeof_string trimmed negb].
  destruct s as [|c s]; [contradiction H; reflexivity|].
  cbn [length Nat.eqb negb orb].
  destruct (trim (c :: s)); [contradiction H; reflexivity|reflexivity].
Qed.

Lemma missing_text_inv x :
  missing_text x = false -> exists s, x = JString s /\ trim s <> [].
Proof.
  unfold missing_text.
  destruct x as [| |b|n|s|l|ps]; cbn [typeof_string negb];
    rewrite ?orb_true_r; cbn [orb]; try discriminate.
  intros H. exists s. split; [reflexivity|].
  apply orb_false_iff in H. destruct H as [_ H]. cbn [trimmed] in H.
  destruct (trim s); [discriminate H|discriminate].
Qed.

(** A new presence proof is made, stored and hashed. *)
Lemma presence_to_use_new session acks ppid w :
  to_boolean ppid = false ->
  PresenceProof.validateAcknowledgments acks = Ok true ->
  MemoryStore.get (presenceProofStore w) (uuid (draws w)) = None ->
  let proof :=
    PresenceProof.make (uuid (draws w)) (Session.id session) true
      (now (ticks w)) acks (now (S (ticks w))) in
  presence_to_use P now uuid session acks ppid w
  = (Ok (Some (uuid (draws w), PresenceProof.hashPresenceProof P proof)),
     mkWorld (sessionStore w) (signatureStore w)
       (MemoryStore.map_set (presenceProofStore w) (uuid (draws w)) proof)
       (S (S (ticks w))) (S (draws w))).
Proof.
  intros Hf Hv Hg proof. unfold presence_to_use. rewrite Hf. cbn [negb].
  rewrite seq_Date_now. unfold createPresenceProof_io.
  rewrite seq_assoc. rewrite Hv, seq_lift_Ok.
  rewrite seq_assoc, seq_uuidv4. rewrite seq_assoc, seq_Date_now.
  cbn [ticks draws sessionStore signatureStore presenceProofStore].
  unfold PresenceProof.createPresenceProof. rewrite Hv. cbn [bind].
  rewrite seq_lift_Ok.
  unfold seq at 1. unfold presenceProofStore_create.
  cbn [ticks draws sessionStore signatureStore presenceProofStore].
  unfold MemoryStore.create, MemoryStore.map_has.
  cbn [PresenceProof.id]. unfold MemoryStore.get in Hg. rewrite Hg.
  unfold ret, set_presenceProofStore.
  cbn [ticks draws sessionStore signatureStore presenceProofStore
       PresenceProof.id PresenceProof.completed PresenceProof.completed_at].
  destruct acks as [a1 a2 a3]. reflexivity.
Qed.

Lemma seq_raise {A B : Type} (e : Exception) (k : A -> M B) w :
  seq (raise e) k w = (Throw e, w).
Proof. reflexivity. Qed.

Lemma assign_approved existing session stamp signatureId :
  MemoryStore.assign_session existing
    (MemoryStore.all_of (approved_session session stamp signatureId))
    (Session.id session)
  = approved_session session stamp signatureId.
Proof. reflexivity. Qed.

(** The signature is made and stored; the session is approved unless the
    clock has passed its expiry by then. *)
Lemma sign_and_store_steps session approver_id approver_name ppid pph w r
    existing :
  status session = pending ->
  Create.createRealitySignature P
    (signature_params session (trimmed approver_id) (trimmed approver_name)
       (now (ticks w)) ppid pph) privateKey = Ok r ->
  MemoryStore.get (signatureStore w) (uuid (draws w)) = None ->
  MemoryStore.get (sessionStore w) (Session.id session) = Some existing ->
  let stored := mkStored (uuid (draws w)) r in
  let signatures :=
    MemoryStore.map_set (signatureStore w) (uuid (draws w)) stored in
  sign_and_store P now uuid privateKey session approver_id approver_name
    ppid pph w
  = if now (S (ticks w)) >? expires_at session then
      (Throw (SessionException SESSION_ALREADY_APPROVED),
       mkWorld (sessionStore w) signatures (presenceProofStore w)
         (S (S (ticks w))) (S (draws w)))
    else
      let approvedSession :=
        approved_session session (now (S (S (ticks w)))) (uuid (draws w)) in
      (Ok (JsonResponse (JObject (Create.serialized r)) 200),
       mkWorld
         (MemoryStore.map_set (sessionStore w) (Session.id session)
            approvedSession)
         signatures (presenceProofStore w)
         (S (S (S (ticks w)))) (S (draws w))).
Proof.
  intros Hp Hc Hs Hg stored signatures. unfold sign_and_store.
  rewrite seq_Date_now.
  cbn [ticks draws sessionStore signatureStore presenceProofStore].
  fold (signature_params session (trimmed approver_id)
          (trimmed approver_name) (now (ticks w)) ppid pph).
  rewrite Hc, seq_lift_Ok, seq_uuidv4.
  cbn [ticks draws sessionStore signatureStore presenceProofStore].
  unfold seq at 1. unfold signatureStore_create.
  cbn [ticks draws sessionStore signatureStore presenceProofStore].
  unfold MemoryStore.create, MemoryStore.map_has. cbn [stored_id].
  unfold MemoryStore.get in Hs. rewrite Hs.
  unfold set_signatureStore.
  cbn [ticks draws sessionStore signatureStore presenceProofStore].
  unfold seq at 1. rewrite (approveSession_io_pending _ _ _ Hp).
  cbn [ticks draws sessionStore signatureStore presenceProofStore].
  cbv zeta. unfold approveSession, canApprove. rewrite Hp.
  cbn [status_eqb negb].
  destruct (now (S (ticks w)) >? expires_at session); cbn [negb].
  - reflexivity.
  - unfold seq at 1. unfold sessionStore_update.
    cbn [ticks draws sessionStore signatureStore presenceProofStore].
    unfold MemoryStore.update. unfold MemoryStore.get in Hg. rewrite Hg.
    unfold set_sessionStore.
    cbn [ticks draws sessionStore signatureStore presenceProofStore].
    rewrite JSON_parse_serialized, seq_lift_Ok. unfold ret.
    reflexivity.
Qed.

(** The handler up to the lookup of the session. *)
Lemma handler_found body approver_id approver_name acknowledgments
    presence_proof_id id w session :
  body_reads body approver_id approver_name acknowledgments
    presence_proof_id ->
  accepted_fields approver_id approver_name acknowledgments ->
  MemoryStore.get (sessionStore w) id = Some session ->
  handler P now uuid privateKey (Some body) id w
  = seq (canApprove_io now session) (fun can =>
      if negb can then refusal now session
      else
        let acks := acknowledgments_of acknowledgments in
        match PresenceProof.validateAcknowledgments acks with
        | Throw (PresenceProof.AcknowledgmentsIncompleteError message) =>
            ret (ErrorResponse "ACKNOWLEDGMENTS_INCOMPLETE" message 400)
        | Ok _ =>
            seq (presence_to_use P now uuid session acks presence_proof_id)
              (fun presence =>
                 match presence with
                 | None =>
                     ret (ErrorResponse "PRESENCE_PROOF_NOT_FOUND"
                            "Referenced presence proof not found" 400)
                 | Some (presenceProofIdToUse, presenceProofHashToUse) =>
                     sign_and_store P now uuid privateKey session
                       approver_id approver_name
                       presenceProofIdToUse presenceProofHashToUse
                 end)
        end) w.
Proof.
  intros (H1 & H2 & H3 & H4) (A1 & A2 & A3 & A4) Hg.
  unfold handler. rewrite H1, seq_lift_Ok, H2, seq_lift_Ok.
  rewrite H3, seq_lift_Ok, H4, seq_lift_Ok.
  rewrite A1, A2, A3, A4. cbn [negb orb].
  unfold seq at 1. unfold sessionStore_get. rewrite Hg. reflexivity.
Qed.

Lemma getPublicKey_creates (laws : PlatformLaws P) params pk :
  ed25519_getPublicKey P privateKey = Ok pk ->
  exists r, Create.createRealitySignature P params privateKey = Ok r.
Proof.
  intros H. destruct (created_record P laws params privateKey pk H)
    as (r & Hr & _). eauto.
Qed.

(** X23. The approve route on a request it accepts.  When the body holds a
    non-blank approver id and name and an acknowledgments object with
    three truthy flags and names no presence proof, the session is stored
    and pending, the clock has not passed its expiry at the route's check
    nor at the check of [approveSession], the two ids drawn are new to
    their stores and the key is accepted by the platform, then the route
    answers 200 with the short-key object of the signature that
    [createRealitySignature] makes from the session's digests and intent,
    the trimmed approver fields, the fourth clock reading and a new
    presence proof.  Afterwards the session is stored as approved with the
    drawn signature id and the sixth clock reading, the other sessions are
    as before, the signature and the presence proof are stored under the
    drawn ids, and the clock was read six times.  When moreover the
    parameters meet the format constraints, the verify route, given the
    JSON text of the answer and any document whose digest is the
    session's, reports success with the trimmed approver fields and the
    signing time. *)
Theorem approve_route_success (laws : PlatformLaws P)
    (body approver_id approver_name acknowledgments presence_proof_id
      : JSValue)
    (id : jsstring) (w : World) (session : ApprovalSession) (pk : Bytes) :
  body_reads body approver_id approver_name acknowledgments
    presence_proof_id ->
  accepted_fields approver_id approver_name acknowledgments ->
  to_boolean presence_proof_id = false ->
  PresenceProof.validateAcknowledgments (acknowledgments_of acknowledgments)
  = Ok true ->
  MemoryStore.get (sessionStore w) id = Some session ->
  Session.id session = id ->
  status session = pending ->
  now (ticks w) <= expires_at session ->
  now (ticks w + 4)%nat <= expires_at session ->
  MemoryStore.get (presenceProofStore w) (uuid (draws w)) = None ->
  MemoryStore.get (signatureStore w) (uuid (S (draws w))) = None ->
  ed25519_getPublicKey P privateKey = Ok pk ->
  let proof :=
    PresenceProof.make (uuid (draws w)) id true (now (ticks w + 1)%nat)
      (acknowledgments_of acknowledgments) (now (ticks w + 2)%nat) in
  let params :=
    signature_params session (trimmed approver_id) (trimmed approver_name)
      (now (ticks w + 3)%nat) (uuid (draws w))
      (PresenceProof.hashPresenceProof P proof) in
  exists r w',
    Create.createRealitySignature P params privateKey = Ok r
    /\ POST P now uuid privateKey (Some body) id w
       = (JsonResponse (JObject (Create.serialized r)) 200, w')
    /\ MemoryStore.get (sessionStore w') id
       = Some (approved_session session (now (ticks w + 5)%nat)
                 (uuid (S (draws w))))
    /\ (forall k, k <> id ->
        MemoryStore.get (sessionStore w') k
        = MemoryStore.get (sessionStore w) k)
    /\ MemoryStore.get (signatureStore w') (uuid (S (draws w)))
       = Some (mkStored (uuid (S (draws w))) r)
    /\ MemoryStore.get (presenceProofStore w') (uuid (draws w)) = Some proof
    /\ ticks w' = (ticks w + 6)%nat
    /\ draws w' = (draws w + 2)%nat
    /\ (Verify.well_formed_params params = true ->
        forall utf8_decode name type document,
          Signing.hashDocument P document = document_hash session ->
          VerifyApi.POST P utf8_decode
            (Some (Form.FileEntry name type document,
                   Form.StringEntry (Create.serializeRealitySignature r)))
          = VerifyApi.ResultResponse
              (Verify.VerificationSuccess (trimmed approver_id)
                 (trimmed approver_name) (now (ticks w + 3)%nat) false)
              None).
Proof.
  intros Hb Ha Hf Hv Hg Hid Hp Ht0 Ht4 Hfp Hfs Hpk proof params.
  destruct (created_record P laws params privateKey pk Hpk)
    as (r & Hr & Hdh & Hai & Han & Hts & Haf & Hsv & Hwf).
  assert (Hroute :
    Verify.well_formed_params params = true ->
    forall utf8_decode name type document,
      Signing.hashDocument P document = document_hash session ->
      VerifyApi.POST P utf8_decode
        (Some (Form.FileEntry name type document,
               Form.StringEntry (Create.serializeRealitySignature r)))
      = VerifyApi.ResultResponse
          (Verify.VerificationSuccess (trimmed approver_id)
             (trimmed approver_name) (now (ticks w + 3)%nat) false)
          None).
  { intros Hw dec name type document Hh. unfold VerifyApi.POST.
    cbn [Form.truthy]. rewrite VerifyApiFacts.serialize_nonempty.
    cbn [negb]. rewrite parseSignature_short, verify_to_value.
    rewrite (Hwf Hw). cbn [negb]. rewrite Hdh. subst params.
    cbn [signature_params RealitySignatureParams.document_hash].
    rewrite Hh, jsstring_eqb_refl. cbn [negb]. rewrite Hsv. cbn [negb].
    rewrite Hai, Han, Hts, Haf. reflexivity. }
  unfold POST. rewrite (handler_found _ _ _ _ _ _ _ _ Hb Ha Hg).
  unfold seq at 1. rewrite (canApprove_io_pending _ _ Hp).
  assert (Hc : canApprove (now (ticks w)) session = true).
  { apply SessionFacts.canApprove_true_iff. auto. }
  rewrite Hc. cbn [negb]. cbv zeta. rewrite Hv.
  unfold seq at 1.
  rewrite (presence_to_use_new session _ presence_proof_id _ Hf Hv);
    [|exact Hfp].
  cbn [ticks draws sessionStore signatureStore presenceProofStore].
  subst proof params.
  replace (ticks w + 1)%nat with (S (ticks w)) in * by lia.
  replace (ticks w + 2)%nat with (S (S (ticks w))) in * by lia.
  replace (ticks w + 3)%nat with (S (S (S (ticks w)))) in * by lia.
  replace (ticks w + 4)%nat with (S (S (S (S (ticks w))))) in * by lia.
  replace (ticks w + 5)%nat with (S (S (S (S (S (ticks w)))))) in * by lia.
  replace (ticks w + 6)%nat with (S (S (S (S (S (S (ticks w))))))) by lia.
  replace (draws w + 2)%nat with (S (S (draws w))) by lia.
  rewrite Hid in *.
  match goal with
  | |- context [sign_and_store _ _ _ _ _ _ _ _ _ ?w1] =>
      pose proof (sign_and_store_steps session approver_id approver_name
                    (uuid (draws w)) _ w1 r session Hp Hr) as Hs
  end.
  cbn [ticks draws sessionStore signatureStore presenceProofStore] in Hs.
  rewrite Hid in Hs. specialize (Hs Hfs Hg). cbv zeta in Hs.
  destruct (Z.gtb_spec (now (S (S (S (S (ticks w)))))) (expires_at session))
    as [Hgt|_]; [lia|].
  exists r. eexists. split; [exact Hr|].
  split; [rewrite Hs; reflexivity|].
  cbn [ticks draws sessionStore signatureStore presenceProofStore].
  unfold MemoryStore.get.
  split; [apply map_get_set_same|].
  split; [intros k Hk; apply map_get_set_other, Hk|].
  split; [apply map_get_set_same|].
  split; [apply map_get_set_same|].
  split; [reflexivity|]. split; [reflexivity|].
  exact Hroute.
Qed.

(** X26. The approve route when the clock passes the expiry of the
    session between the route's own check and the check made by
    [approveSession]: under the conditions of a successful approval but
    for that, the route answers 400 [SESSION_ALREADY_APPROVED], "Session
    already has a signature"; the signature has been made and is stored
    under the drawn id and the new presence proof is stored, while the
    session store is as it was, the session still pending, so that no
    session refers to the stored signature. *)
Theorem approve_route_late_expiry (laws : PlatformLaws P)
    (body approver_id approver_name acknowledgments presence_proof_id
      : JSValue)
    (id : jsstring) (w : World) (session : ApprovalSession) (pk : Bytes) :
  body_reads body approver_id approver_name acknowledgments
    presence_proof_id ->
  accepted_fields approver_id approver_name acknowledgments ->
  to_boolean presence_proof_id = false ->
  PresenceProof.validateAcknowledgments (acknowledgments_of acknowledgments)
  = Ok true ->
  MemoryStore.get (sessionStore w) id = Some session ->
  Session.id session = id ->
  status session = pending ->
  now (ticks w) <= expires_at session ->
  expires_at session < now (ticks w + 4)%nat ->
  MemoryStore.get (presenceProofStore w) (uuid (draws w)) = None ->
  MemoryStore.get (signatureStore w) (uuid (S (draws w))) = None ->
  ed25519_getPublicKey P privateKey = Ok pk ->
  let proof :=
    PresenceProof.make (uuid (draws w)) id true (now (ticks w + 1)%nat)
      (acknowledgments_of acknowledgments) (now (ticks w + 2)%nat) in
  let params :=
    signature_params session (trimmed approver_id) (trimmed approver_name)
      (now (ticks w + 3)%nat) (uuid (draws w))
      (PresenceProof.hashPresenceProof P proof) in
  exists r w',
    Create.createRealitySignature P params privateKey = Ok r
    /\ POST P now uuid privateKey (Some body) id w
       = (ErrorResponse "SESSION_ALREADY_APPROVED"
            "Session already has a signature" 400, w')
    /\ sessionStore w' = sessionStore w
    /\ MemoryStore.get (sessionStore w') id = Some session
    /\ MemoryStore.get (signatureStore w') (uuid (S (draws w)))
       = Some (mkStored (uuid (S (draws w))) r)
    /\ MemoryStore.get (presenceProofStore w') (uuid (draws w)) = Some proof.
Proof.
  intros Hb Ha Hf Hv Hg Hid Hp Ht0 Ht4 Hfp Hfs Hpk proof params.
  destruct (getPublicKey_creates laws params pk Hpk) as [r Hr].
  unfold POST. rewrite (handler_found _ _ _ _ _ _ _ _ Hb Ha Hg).
  unfold seq at 1. rewrite (canApprove_io_pending _ _ Hp).
  assert (Hc : canApprove (now (ticks w)) session = true).
  { apply SessionFacts.canApprove_true_iff. auto. }
  rewrite Hc. cbn [negb]. cbv zeta. rewrite Hv.
  unfold seq at 1.
  rewrite (presence_to_use_new session _ presence_proof_id _ Hf Hv);
    [|exact Hfp].
  cbn [ticks draws sessionStore signatureStore presenceProofStore].
  subst proof params.
  replace (ticks w + 1)%nat with (S (ticks w)) in * by lia.
  replace (ticks w + 2)%nat with (S (S (ticks w))) in * by lia.
  replace (ticks w + 3)%nat with (S (S (S (ticks w)))) in * by lia.
  replace (ticks w + 4)%nat with (S (S (S (S (ticks w))))) in * by lia.
  rewrite Hid in *.
  match goal with
  | |- context [sign_and_store _ _ _ _ _ _ _ _ _ ?w1] =>
      pose proof (sign_and_store_steps session approver_id approver_name
                    (uuid (draws w)) _ w1 r session Hp Hr) as Hs
  end.
  cbn [ticks draws sessionStore signatureStore presenceProofStore] in Hs.
  rewrite Hid in Hs. specialize (Hs Hfs Hg). cbv zeta in Hs.
  destruct (Z.gtb_spec (now (S (S (S (S (ticks w)))))) (expires_at session))
    as [_|Hle]; [|lia].
  exists r. eexists. split; [exact Hr|].
  split; [rewrite Hs; reflexivity|].
  cbn [ticks draws sessionStore signatureStore presenceProofStore].
  split; [reflexivity|]. split; [exact Hg|].
  unfold MemoryStore.get.
  split; apply map_get_set_same.
Qed.

Lemma POST_refused body approver_id approver_name acknowledgments
    presence_proof_id id w session :
  body_reads body approver_id approver_name acknowledgments
    presence_proof_id ->
  accepted_fields approver_id approver_name acknowledgments ->
  MemoryStore.get (sessionStore w) id = Some session ->
  forall w1,
    canApprove_io now session w = (Ok false, w1) ->
    POST P now uuid privateKey (Some body) id w
    = match refusal now session w1 with
      | (Ok response, w') => (response, w')
      | (Throw e, w') => (on_error e, w')
      end.
Proof.
  intros Hb Ha Hg w1 Hcan. unfold POST.
  rewrite (handler_found _ _ _ _ _ _ _ _ Hb Ha Hg). unfold seq at 1.
  rewrite Hcan. reflexivity.
Qed.

(** X25. The approve route on a session that cannot be approved, for a
    body that passes the checks.  A session stored as expired is answered
    [SESSION_EXPIRED] without a reading of the clock.  An approved session
    is answered [SESSION_ALREADY_APPROVED] while the clock has not passed
    its expiry and [SESSION_EXPIRED] afterwards.  A pending session whose
    expiry the clock has passed is answered [SESSION_EXPIRED] when the
    second reading also is past the expiry, where [approveSession] would
    say [SESSION_ALREADY_APPROVED].  In each case the three stores are as
    they were: the route creates nothing and does not record the
    expiry. *)
Theorem approve_route_refusal
    (body approver_id approver_name acknowledgments presence_proof_id
      : JSValue)
    (id : jsstring) (w : World) (session : ApprovalSession) :
  body_reads body approver_id approver_name acknowledgments
    presence_proof_id ->
  accepted_fields approver_id approver_name acknowledgments ->
  MemoryStore.get (sessionStore w) id = Some session ->
  let result := POST P now uuid privateKey (Some body) id w in
  let expired_response :=
    ErrorResponse "SESSION_EXPIRED" "Approval session has expired" 400 in
  (status session = expired -> result = (expired_response, w))
  /\ (status session = approved ->
      fst result
      = (if now (ticks w) >? expires_at session then expired_response
         else ErrorResponse "SESSION_ALREADY_APPROVED"
                "Session already has a signature" 400)
      /\ ticks (snd result) = S (ticks w))
  /\ (status session = pending ->
      expires_at session < now (ticks w) ->
      expires_at session < now (S (ticks w)) ->
      fst result = expired_response /\ ticks (snd result) = S (S (ticks w)))
  /\ (status session <> pending
      \/ expires_at session < now (ticks w) ->
      same_stores w (snd result)
      /\ MemoryStore.get (sessionStore (snd result)) id = Some session
      /\ draws (snd result) = draws w
      /\ exists code message status,
           fst result = ErrorResponse code message status).
Proof.
  intros Hb Ha Hg result expired_response. subst result expired_response.
  pose proof (POST_refused _ _ _ _ _ _ _ _ Hb Ha Hg) as Hres.
  split; [|split; [|split]].
  - intros Hs. rewrite (Hres w) by (apply canApprove_io_settled; congruence).
    unfold refusal. rewrite Hs. reflexivity.
  - intros Hs. rewrite (Hres w) by (apply canApprove_io_settled; congruence).
    unfold refusal. rewrite Hs. cbn [status_eqb].
    rewrite seq_Date_now.
    destruct (now (ticks w) >? expires_at session); split; reflexivity.
  - intros Hs H0 H1.
    assert (Hcan : canApprove_io now session w
                   = (Ok false,
                      mkWorld (sessionStore w) (signatureStore w)
                        (presenceProofStore w) (S (ticks w)) (draws w))).
    { rewrite (canApprove_io_pending _ _ Hs).
      unfold canApprove. rewrite Hs. cbn [status_eqb negb].
      destruct (Z.gtb_spec (now (ticks w)) (expires_at session));
        [reflexivity|lia]. }
    rewrite (Hres _ Hcan).
    unfold refusal. rewrite Hs. cbn [status_eqb].
    rewrite seq_Date_now.
    cbn [ticks draws sessionStore signatureStore presenceProofStore].
    destruct (Z.gtb_spec (now (S (ticks w))) (expires_at session)); [|lia].
    split; reflexivity.
  - intros H.
    assert (Hcan :
      exists w1, canApprove_io now session w = (Ok false, w1)
                 /\ same_stores w w1 /\ draws w1 = draws w).
    { destruct (status session) eqn:Hs.
      - destruct H as [H|H]; [congruence|].
        rewrite (canApprove_io_pending _ _ Hs). eexists. split.
        + unfold canApprove. rewrite Hs. cbn [status_eqb negb].
          destruct (Z.gtb_spec (now (ticks w)) (expires_at session));
            [reflexivity|lia].
        + repeat split.
      - rewrite canApprove_io_settled by congruence. exists w.
        repeat split.
      - rewrite canApprove_io_settled by congruence. exists w.
        repeat split. }
    destruct Hcan as (w1 & Hcan & (S1 & S2 & S3) & Hd).
    rewrite (Hres _ Hcan).
    unfold refusal.
    destruct (status_eqb (status session) expired).
    + cbn [ret fst snd]. unfold same_stores.
      rewrite S1, S2, S3, Hd. repeat split; eauto.
    + rewrite seq_Date_now.
      destruct (now (ticks w1) >? expires_at session);
        [|destruct (status_eqb (status session) approved)];
        cbn [ret fst snd ticks draws sessionStore signatureStore
             presenceProofStore];
        unfold same_stores;
        cbn [ticks draws sessionStore signatureStore presenceProofStore];
        rewrite S1, S2, S3, Hd; repeat split; eauto.
Qed.

Lemma seq_Ok_inv {A B : Type} (m : M A) (k : A -> M B) w b w' :
  seq m k w = (Ok b, w') ->
  exists a w1, m w = (Ok a, w1) /\ k a w1 = (Ok b, w').
Proof.
  unfold seq. destruct (m w) as [[a|e] w1]; [eauto|discriminate].
Qed.

Lemma lift_Ok_inv {E A : Type} (inj : E -> Exception) (r : Result E A)
    w a w' :
  lift inj r w = (Ok a, w') -> r = Ok a /\ w' = w.
Proof.
  destruct r as [x|e]; cbn [lift]; unfold ret, raise; intros H;
    [injection H as -> ->; auto|discriminate H].
Qed.

Lemma ret_Ok_inv {A : Type} (x y : A) w w' :
  ret x w = (Ok y, w') -> x = y /\ w' = w.
Proof. unfold ret. intros H. injection H as -> ->. auto. Qed.

Lemma on_error_is_error e :
  exists code message status, on_error e = ErrorResponse code message status.
Proof.
  unfold on_error.
  destruct (message_is e "SESSION_EXPIRED"); [eauto|].
  destruct (message_is e "SESSION_ALREADY_APPROVED"); eauto.
Qed.

Lemma refusal_is_error session w r w' :
  refusal now session w = (Ok r, w') ->
  exists code message status, r = ErrorResponse code message status.
Proof.
  unfold refusal. destruct (status_eqb (status session) expired).
  - intros H. apply ret_Ok_inv in H. destruct H as [<- _]. eauto.
  - rewrite seq_Date_now.
    destruct (_ >? _); [|destruct (status_eqb _ _)];
      intros H; apply ret_Ok_inv in H; destruct H as [<- _]; eauto.
Qed.

Lemma created_fields_all params r :
  Create.createRealitySignature P params privateKey = Ok r ->
  RealitySignature.document_hash r
  = RealitySignatureParams.document_hash params
  /\ RealitySignature.intent_hash r
     = RealitySignatureParams.intent_hash params
  /\ RealitySignature.intent_text r
     = RealitySignatureParams.intent_text params
  /\ RealitySignature.approver_id r
     = RealitySignatureParams.approver_id params
  /\ RealitySignature.approver_name r
     = RealitySignatureParams.approver_name params
  /\ RealitySignature.timestamp r = RealitySignatureParams.timestamp params
  /\ RealitySignature.presence_proof_id r
     = RealitySignatureParams.presence_proof_id params
  /\ RealitySignature.presence_proof_hash r
     = RealitySignatureParams.presence_proof_hash params
  /\ RealitySignature.ai_flag r
     = match RealitySignatureParams.ai_flag params with
       | Some b => b
       | None => false
       end.
Proof.
  unfold Create.createRealitySignature.
  destruct (Signing.sign P _ privateKey) as [sg|e]; [|discriminate].
  cbn [bind].
  destruct (ed25519_getPublicKey P privateKey) as [pk|e]; [|discriminate].
  cbn [bind]. intros H. injection H as <-. repeat split.
Qed.

(** What [presence_to_use] returns is the id and the hash of a proof that
    is in the store afterwards; the other stores are untouched. *)
Lemma presence_to_use_inv session acks ppid w key hash w' :
  presence_to_use P now uuid session acks ppid w = (Ok (Some (key, hash)), w')
  ->
  exists proof,
    MemoryStore.get (presenceProofStore w') key = Some proof
    /\ hash = PresenceProof.hashPresenceProof P proof
    /\ sessionStore w' = sessionStore w
    /\ signatureStore w' = signatureStore w.
Proof.
  unfold presence_to_use. destruct (negb (to_boolean ppid)).
  - rewrite seq_Date_now. intros H.
    apply seq_Ok_inv in H. destruct H as (proof & w1 & Hc & H).
    apply seq_Ok_inv in H. destruct H as (x & w2 & Hs & H).
    apply ret_Ok_inv in H. destruct H as [H ->].
    injection H as <- <-. exists proof.
    unfold presenceProofStore_create in Hs.
    destruct (MemoryStore.create PresenceProof.id _ proof)
      as [[item store]|e] eqn:Hcr; [|discriminate Hs].
    injection Hs as _ <-.
    unfold MemoryStore.create in Hcr.
    destruct (MemoryStore.map_has _ _); [discriminate Hcr|].
    injection Hcr as _ <-.
    cbn [ticks draws sessionStore signatureStore presenceProofStore
         set_presenceProofStore].
    unfold MemoryStore.get. split; [apply map_get_set_same|].
    split; [reflexivity|].
    unfold createPresenceProof_io in Hc.
    apply seq_Ok_inv in Hc. destruct Hc as (x1 & w3 & H1 & Hc).
    apply lift_Ok_inv in H1. destruct H1 as [_ ->].
    rewrite seq_uuidv4, seq_Date_now in Hc.
    apply lift_Ok_inv in Hc. destruct Hc as [_ ->].
    split; reflexivity.
  - intros H. apply seq_Ok_inv in H. destruct H as (found & w1 & Hf & H).
    unfold presenceProofStore_find in Hf. injection Hf as <- <-.
    destruct (find_proof (presenceProofStore w) ppid) as [[k proof]|] eqn:Hfp.
    + apply ret_Ok_inv in H. destruct H as [H ->].
      injection H as <- <-. exists proof.
      unfold find_proof in Hfp. destruct ppid; try discriminate Hfp.
      destruct (MemoryStore.get (presenceProofStore w) s) eqn:Hg;
        [|discriminate Hfp].
      injection Hfp as <- <-. auto.
    + apply ret_Ok_inv in H. destruct H as [H _]. discriminate H.
Qed.

(** How often [presence_to_use] reads the clock: twice for a new proof,
    never for an existing one. *)
Lemma presence_to_use_ticks session acks ppid w key hash w' :
  presence_to_use P now uuid session acks ppid w = (Ok (Some (key, hash)), w')
  ->
  ticks w' = (if to_boolean ppid then ticks w else ticks w + 2)%nat.
Proof.
  unfold presence_to_use. destruct (to_boolean ppid); cbn [negb].
  - intros H. apply seq_Ok_inv in H. destruct H as (found & w1 & Hf & H).
    unfold presenceProofStore_find in Hf. injection Hf as <- <-.
    destruct (find_proof (presenceProofStore w) ppid) as [[k proof]|].
    + apply ret_Ok_inv in H. destruct H as [_ ->]. reflexivity.
    + apply ret_Ok_inv in H. destruct H as [H _]. discriminate H.
  - rewrite seq_Date_now. intros H.
    apply seq_Ok_inv in H. destruct H as (proof & w1 & Hc & H).
    apply seq_Ok_inv in H. destruct H as (x & w2 & Hs & H).
    apply ret_Ok_inv in H. destruct H as [_ ->].
    unfold presenceProofStore_create in Hs.
    destruct (MemoryStore.create PresenceProof.id _ proof)
      as [[item store]|e]; [|discriminate Hs].
    injection Hs as _ <-.
    unfold createPresenceProof_io in Hc.
    apply seq_Ok_inv in Hc. destruct Hc as (x1 & w3 & H1 & Hc).
    apply lift_Ok_inv in H1. destruct H1 as [_ ->].
    rewrite seq_uuidv4, seq_Date_now in Hc.
    apply lift_Ok_inv in Hc. destruct Hc as [_ ->].
    cbn [ticks set_presenceProofStore]. lia.
Qed.

(** What a successful [sign_and_store] has done. *)
Lemma sign_and_store_inv session approver_id approver_name ppid pph w
    response w' :
  sign_and_store P now uuid privateKey session approver_id approver_name
    ppid pph w = (Ok response, w') ->
  exists r sid stamp,
    response = JsonResponse (JObject (Create.serialized r)) 200
    /\ Create.createRealitySignature P
         (signature_params session (trimmed approver_id)
            (trimmed approver_name) (now (ticks w)) ppid pph) privateKey
       = Ok r
    /\ MemoryStore.get (signatureStore w') sid = Some (mkStored sid r)
    /\ MemoryStore.get (sessionStore w') (Session.id session)
       = Some (approved_session session stamp sid)
    /\ presenceProofStore w' = presenceProofStore w.
Proof.
  unfold sign_and_store. rewrite seq_Date_now. intros H.
  apply seq_Ok_inv in H. destruct H as (r & w1 & Hc & H).
  apply lift_Ok_inv in Hc. destruct Hc as [Hc ->].
  rewrite seq_uuidv4 in H.
  apply seq_Ok_inv in H. destruct H as (x & w2 & Hs & H).
  apply seq_Ok_inv in H. destruct H as (approvedSession & w3 & Ha & H).
  apply seq_Ok_inv in H. destruct H as (y & w4 & Hu & H).
  apply seq_Ok_inv in H. destruct H as (parsed & w5 & Hp & H).
  apply lift_Ok_inv in Hp. destruct Hp as [Hp ->].
  apply ret_Ok_inv in H. destruct H as [<- ->].
  rewrite JSON_parse_serialized in Hp. injection Hp as <-.
  cbn [ticks draws sessionStore signatureStore presenceProofStore] in *.
  (* the signature store *)
  unfold signatureStore_create in Hs.
  destruct (MemoryStore.create stored_id _ _) as [[item store]|e] eqn:Hcr;
    [|discriminate Hs].
  injection Hs as _ <-.
  unfold MemoryStore.create in Hcr.
  destruct (MemoryStore.map_has _ _); [discriminate Hcr|].
  injection Hcr as _ <-. cbn [stored_id] in *.
  (* the approval *)
  unfold approveSession_io in Ha.
  apply seq_Ok_inv in Ha. destruct Ha as (can & w6 & Hcan & Ha).
  assert (Hw6 : sessionStore w6 = sessionStore w
                /\ signatureStore w6
                   = MemoryStore.map_set (signatureStore w)
                       (uuid (draws w)) (mkStored (uuid (draws w)) r)
                /\ presenceProofStore w6 = presenceProofStore w).
  { unfold canApprove_io in Hcan.
    destruct (negb (status_eqb (status session) pending)).
    - apply ret_Ok_inv in Hcan. destruct Hcan as [_ ->].
      repeat split.
    - rewrite seq_Date_now in Hcan.
      apply ret_Ok_inv in Hcan. destruct Hcan as [_ ->]. repeat split. }
  destruct Hw6 as (E1 & E2 & E3).
  destruct (negb can); [discriminate Ha|].
  rewrite seq_Date_now in Ha. apply ret_Ok_inv in Ha.
  destruct Ha as [<- ->].
  cbn [ticks draws sessionStore signatureStore presenceProofStore] in Hu.
  (* the update *)
  unfold sessionStore_update in Hu.
  cbn [ticks draws sessionStore signatureStore presenceProofStore] in Hu.
  destruct (MemoryStore.update _ _ _ _) as [[item' store']|e'] eqn:Hup;
    [|discriminate Hu].
  injection Hu as _ <-.
  unfold MemoryStore.update in Hup.
  destruct (MemoryStore.map_get _ _) as [existing|]; [|discriminate Hup].
  injection Hup as _ <-.
  cbn [ticks draws sessionStore signatureStore presenceProofStore
       set_sessionStore].
  exists r, (uuid (draws w)), (now (ticks w6)).
  split; [reflexivity|]. split; [exact Hc|].
  unfold MemoryStore.get. rewrite E2, E3.
  split; [apply map_get_set_same|].
  split; [|reflexivity].
  cbn [approved_session Session.id]. rewrite map_get_set_same.
  reflexivity.
Qed.

(** X24. The approve route answers with a JSON body, whatever the
    status, only when everything was in order: the body held a non-blank
    approver id and name and an acknowledgments object with three truthy
    flags, the session was stored and pending and the clock had not passed
    its expiry.  The status then is 200 and the body is the short-key
    object of the signature that [createRealitySignature] returned, under
    the key of the route, for the digests and the intent of the session,
    the trimmed approver fields, a reading of the clock made after the
    check of the session (the second after it for an existing presence
    proof, the fourth for a new one) and the id and the hash of a proof
    that is in the proof store; its AI flag is [false].  The signature is
    in the signature store under an id, and the session is stored as
    approved with that id. *)
Theorem approve_route_answer_sound (body : option JSValue) (id : jsstring)
    (w w' : World) (v : JSValue) (status : Z) :
  POST P now uuid privateKey body id w = (JsonResponse v status, w') ->
  exists b aid aname a ppid session r proof sid stamp,
    body = Some b
    /\ body_reads b (JString aid) (JString aname) a ppid
    /\ trim aid <> [] /\ trim aname <> []
    /\ PresenceProof.validateAcknowledgments (acknowledgments_of a) = Ok true
    /\ MemoryStore.get (sessionStore w) id = Some session
    /\ Session.status session = pending
    /\ now (ticks w) <= expires_at session
    /\ status = 200
    /\ v = JObject (Create.serialized r)
    /\ RealitySignature.document_hash r = document_hash session
    /\ RealitySignature.intent_hash r = intent_hash session
    /\ RealitySignature.intent_text r = intent_text session
    /\ RealitySignature.approver_id r = trim aid
    /\ RealitySignature.approver_name r = trim aname
    /\ RealitySignature.ai_flag r = false
    /\ MemoryStore.get (presenceProofStore w')
         (RealitySignature.presence_proof_id r) = Some proof
    /\ RealitySignature.presence_proof_hash r
       = PresenceProof.hashPresenceProof P proof
    /\ MemoryStore.get (signatureStore w') sid = Some (mkStored sid r)
    /\ MemoryStore.get (sessionStore w') (Session.id session)
       = Some (approved_session session stamp sid)
    /\ Create.createRealitySignature P
         (signature_params session (trim aid) (trim aname)
            (now (if to_boolean ppid then ticks w + 1 else ticks w + 3)%nat)
            (RealitySignature.presence_proof_id r)
            (PresenceProof.hashPresenceProof P proof))
         privateKey
       = Ok r.
Proof.
  unfold POST.
  destruct (handler P now uuid privateKey body id w) as [[resp|e] w1] eqn:Hh.
  2:{ destruct (on_error_is_error e) as (c & m & st & ->). discriminate. }
  intros H. injection H as -> ->.
  destruct body as [b|].
  2:{ cbn [handler] in Hh. apply ret_Ok_inv in Hh. destruct Hh as [Hh _].
      discriminate Hh. }
  unfold handler in Hh.
  apply seq_Ok_inv in Hh. destruct Hh as (x1 & w2 & G1 & Hh).
  apply lift_Ok_inv in G1. destruct G1 as [G1 ->].
  apply seq_Ok_inv in Hh. destruct Hh as (x2 & w2 & G2 & Hh).
  apply lift_Ok_inv in G2. destruct G2 as [G2 ->].
  apply seq_Ok_inv in Hh. destruct Hh as (a & w2 & G3 & Hh).
  apply lift_Ok_inv in G3. destruct G3 as [G3 ->].
  apply seq_Ok_inv in Hh. destruct Hh as (ppid & w2 & G4 & Hh).
  apply lift_Ok_inv in G4. destruct G4 as [G4 ->].
  destruct (missing_text x1) eqn:M1.
  { apply ret_Ok_inv in Hh. destruct Hh as [Hh _]. discriminate Hh. }
  destruct (missing_text x2) eqn:M2.
  { apply ret_Ok_inv in Hh. destruct Hh as [Hh _]. discriminate Hh. }
  destruct (negb (to_boolean a) || negb (typeof_object a)) eqn:M3.
  { apply ret_Ok_inv in Hh. destruct Hh as [Hh _]. discriminate Hh. }
  apply missing_text_inv in M1, M2.
  destruct M1 as (aid & -> & Haid), M2 as (aname & -> & Haname).
  apply seq_Ok_inv in Hh. destruct Hh as (found & w2 & Hf & Hh).
  unfold sessionStore_get in Hf. injection Hf as <- <-.
  destruct (MemoryStore.get (sessionStore w) id) as [session|] eqn:Hg.
  2:{ apply ret_Ok_inv in Hh. destruct Hh as [Hh _]. discriminate Hh. }
  apply seq_Ok_inv in Hh. destruct Hh as (can & w2 & Hcan & Hh).
  destruct can; cbn [negb] in Hh.
  2:{ apply refusal_is_error in Hh. destruct Hh as (c & m & st & Hh).
      discriminate Hh. }
  assert (Hpend : Session.status session = pending
                  /\ now (ticks w) <= expires_at session
                  /\ sessionStore w2 = sessionStore w
                  /\ signatureStore w2 = signatureStore w
                  /\ presenceProofStore w2 = presenceProofStore w
                  /\ ticks w2 = S (ticks w)).
  { unfold canApprove_io in Hcan.
    destruct (Session.status session) eqn:Hs; cbn [status_eqb negb] in Hcan.
    - rewrite seq_Date_now in Hcan. apply ret_Ok_inv in Hcan.
      destruct Hcan as [Hc ->].
      apply SessionFacts.canApprove_true_iff in Hc.
      destruct Hc as [_ Hc]. repeat split; auto.
    - apply ret_Ok_inv in Hcan. destruct Hcan as [Hc _]. discriminate Hc.
    - apply ret_Ok_inv in Hcan. destruct Hcan as [Hc _]. discriminate Hc. }
  destruct Hpend as (Hs & Ht & E1 & E2 & E3 & E4).
  cbv zeta in Hh.
  destruct (PresenceProof.validateAcknowledgments (acknowledgments_of a))
    as [ok|[m]] eqn:Hv.
  2:{ apply ret_Ok_inv in Hh. destruct Hh as [Hh _]. discriminate Hh. }
  assert (Hok : ok = true).
  { unfold PresenceProof.validateAcknowledgments in Hv.
    repeat match type of Hv with
           | (if ?c then _ else _) = _ => destruct c; [discriminate Hv|]
           end.
    injection Hv as <-. reflexivity. }
  subst ok.
  apply seq_Ok_inv in Hh. destruct Hh as (presence & w3 & Hp & Hh).
  destruct presence as [[key hash]|].
  2:{ apply ret_Ok_inv in Hh. destruct Hh as [Hh _]. discriminate Hh. }
  pose proof (presence_to_use_ticks _ _ _ _ _ _ _ Hp) as Hticks.
  apply presence_to_use_inv in Hp.
  destruct Hp as (proof & Hproof & -> & F1 & F2).
  apply sign_and_store_inv in Hh.
  destruct Hh as (r & sid & stamp & Hresp & Hc & Hsig & Hsess & Hpp).
  injection Hresp as -> ->.
  pose proof Hc as Hcreated.
  apply created_fields_all in Hc.
  cbn [signature_params RealitySignatureParams.document_hash
       RealitySignatureParams.intent_hash RealitySignatureParams.intent_text
       RealitySignatureParams.approver_id
       RealitySignatureParams.approver_name
       RealitySignatureParams.timestamp
       RealitySignatureParams.presence_proof_id
       RealitySignatureParams.presence_proof_hash
       RealitySignatureParams.ai_flag trimmed] in Hc.
  destruct Hc as (C1 & C2 & C3 & C4 & C5 & C6 & C7 & C8 & C9).
  exists b, aid, aname, a, ppid, session, r, proof, sid, stamp.
  split; [reflexivity|]. split; [repeat split; assumption|].
  repeat (split; [assumption || reflexivity|]).
  rewrite Hpp, C7, C8.
  split; [assumption|]. split; [reflexivity|].
  split; [assumption|]. split; [assumption|].
  cbn [trimmed] in Hcreated.
  replace (now (if to_boolean ppid then ticks w + 1 else ticks w + 3)%nat)
    with (now (ticks w3)); [exact Hcreated|].
  f_equal. rewrite Hticks, E4. destruct (to_boolean ppid); lia.
Qed.

(** X27. What the approve route answers before it looks at the session's
    state, each time without any change of the world: [INVALID_JSON] when
    the body cannot be read; status 500 [INTERNAL_ERROR] when the body is
    the JSON [null]; [INVALID_APPROVER_ID], [INVALID_APPROVER_NAME] and
    [INVALID_ACKNOWLEDGMENTS], in this order, for a blank or non-string
    approver id or name and for acknowledgments that are not an object,
    whether the session exists or not; and status 404
    [SESSION_NOT_FOUND] for an id the session store does not hold. *)
Theorem approve_route_rejections (id : jsstring) (w : World) :
  POST P now uuid privateKey None id w
  = (ErrorResponse "INVALID_JSON" "Request body must be valid JSON" 400, w)
  /\ POST P now uuid privateKey (Some JNull) id w
     = (ErrorResponse "INTERNAL_ERROR" "Failed to approve session" 500, w)
  /\ (forall body approver_id approver_name acknowledgments
             presence_proof_id,
        body_reads body approver_id approver_name acknowledgments
          presence_proof_id ->
        let result := POST P now uuid privateKey (Some body) id w in
        (missing_text approver_id = true ->
         result = (ErrorResponse "INVALID_APPROVER_ID"
                     "Approver ID is required" 400, w))
        /\ (missing_text approver_id = false ->
            missing_text approver_name = true ->
            result = (ErrorResponse "INVALID_APPROVER_NAME"
                        "Approver name is required" 400, w))
        /\ (missing_text approver_id = false ->
            missing_text approver_name = false ->
            to_boolean acknowledgments = false
            \/ typeof_object acknowledgments = false ->
            result = (ErrorResponse "INVALID_ACKNOWLEDGMENTS"
                        "Acknowledgments object is required" 400, w))
        /\ (accepted_fields approver_id approver_name acknowledgments ->
            MemoryStore.get (sessionStore w) id = None ->
            result = (ErrorResponse "SESSION_NOT_FOUND"
                        "Approval session not found" 404, w))).
Proof.
  split; [reflexivity|]. split; [reflexivity|].
  intros body aid aname a ppid (H1 & H2 & H3 & H4) result. subst result.
  unfold POST, handler.
  rewrite H1, seq_lift_Ok, H2, seq_lift_Ok, H3, seq_lift_Ok, H4, seq_lift_Ok.
  split; [|split; [|split]].
  - intros ->. reflexivity.
  - intros -> ->. reflexivity.
  - intros -> -> [-> | ->]; cbn [negb orb]; rewrite ?orb_true_r;
      reflexivity.
  - intros (-> & -> & -> & ->) Hg. cbn [negb orb].
    unfold seq at 1. unfold sessionStore_get. rewrite Hg. reflexivity.
Qed.

End Route.

Import SampleFacts.

(** The theorem on the sample world: a pending session created at time 0,
    a clock that starts at 1000 and a body with padded approver id. *)
Lemma approve_route_success_witness :
  exists r w',
    POST Sample.platform ApproveSample.now ApproveSample.uuid Sample.key
      (Some ApproveSample.body) (lit "s-1") ApproveSample.world
    = (JsonResponse (JObject (Create.serialized r)) 200, w')
    /\ RealitySignature.approver_id r = lit "user-123"
    /\ MemoryStore.get (sessionStore w') (lit "s-1")
       = Some (approved_session ApproveSample.session 1005
                 (ApproveSample.uuid 1))
    /\ MemoryStore.get (signatureStore w') (ApproveSample.uuid 1)
       = Some (mkStored (ApproveSample.uuid 1) r)
    /\ ticks w' = 6%nat.
Proof.
  destruct (approve_route_success Sample.platform ApproveSample.now
              ApproveSample.uuid Sample.key platform_laws
              ApproveSample.body (JString (lit " user-123 "))
              (JString (lit "Test User")) ApproveSample.acknowledgments
              JUndefined (lit "s-1") ApproveSample.world
              ApproveSample.session Sample.key
              ltac:(repeat split; vm_compute; reflexivity)
              ltac:(repeat split; vm_compute; reflexivity)
              ltac:(vm_compute; reflexivity)
              ltac:(vm_compute; reflexivity)
              ltac:(vm_compute; reflexivity)
              ltac:(vm_compute; reflexivity)
              ltac:(vm_compute; reflexivity)
              ltac:(vm_compute; discriminate)
              ltac:(vm_compute; discriminate)
              ltac:(vm_compute; reflexivity)
              ltac:(vm_compute; reflexivity)
              ltac:(vm_compute; reflexivity))
    as (r & w' & Hr & Hp & Hs & _ & Hg & _ & Ht & _).
  exists r, w'. split; [exact Hp|].
  split; [|split; [exact Hs|split; [exact Hg|exact Ht]]].
  apply created_fields_all in Hr. destruct Hr as (_ & _ & _ & Ha & _).
  exact Ha.
Defined.

(** The theorem on the answer of the route in the sample world. *)
Lemma approve_route_answer_sound_witness :
  let result :=
    POST Sample.platform ApproveSample.now ApproveSample.uuid Sample.key
      (Some ApproveSample.body) (lit "s-1") ApproveSample.world in
  exists session r sid stamp,
    MemoryStore.get (sessionStore ApproveSample.world) (lit "s-1")
    = Some session
    /\ Session.status session = pending
    /\ RealitySignature.document_hash r = document_hash session
    /\ RealitySignature.approver_id r = lit "user-123"
    /\ MemoryStore.get (signatureStore (snd result)) sid
       = Some (mkStored sid r)
    /\ MemoryStore.get (sessionStore (snd result)) (Session.id session)
       = Some (approved_session session stamp sid).
Proof.
  intros result.
  destruct (approve_route_answer_sound Sample.platform ApproveSample.now
              ApproveSample.uuid Sample.key (Some ApproveSample.body)
              (lit "s-1") ApproveSample.world (snd result)
              (match fst result with
               | JsonResponse v _ => v
               | ErrorResponse _ _ _ => JNull
               end) 200)
    as (b & aid & aname & a & ppid & session & r & proof & sid & stamp
        & Hb & (H1 & _) & _ & _ & _ & Hg & Hs & _ & _ & _ & Hd & _ & _
        & Hai & _ & _ & _ & _ & Hsig & Hsess & _).
  { vm_compute. reflexivity. }
  exists session, r, sid, stamp.
  injection Hb as <-. vm_compute in H1. injection H1 as <-.
  repeat split; assumption.
Defined.

(** The theorem on a world whose session is approved already. *)
Lemma approve_route_refusal_witness :
  let w := mkWorld [(lit "s-1", sample_approved)] [] [] 0 0 in
  let result :=
    POST Sample.platform ApproveSample.now ApproveSample.uuid Sample.key
      (Some ApproveSample.body) (lit "s-1") w in
  fst result
  = ErrorResponse "SESSION_ALREADY_APPROVED" "Session already has a signature"
      400
  /\ same_stores w (snd result).
Proof.
  intros w result.
  destruct (approve_route_refusal Sample.platform ApproveSample.now
              ApproveSample.uuid Sample.key
              ApproveSample.body (JString (lit " user-123 "))
              (JString (lit "Test User")) ApproveSample.acknowledgments
              JUndefined (lit "s-1") w sample_approved
              ltac:(repeat split; vm_compute; reflexivity)
              ltac:(repeat split; vm_compute; reflexivity)
              ltac:(vm_compute; reflexivity))
    as (_ & Ha & _ & Hs).
  split.
  - destruct (Ha eq_refl) as [Hf _]. exact Hf.
  - destruct Hs as (Hs & _); [left; discriminate|exact Hs].
Defined.

(** The theorem on the sample world with a clock that jumps past the
    expiry of the session after its fourth reading. *)
Lemma approve_route_late_expiry_witness :
  exists r w',
    POST Sample.platform ApproveSample.late ApproveSample.uuid Sample.key
      (Some ApproveSample.body) (lit "s-1") ApproveSample.world
    = (ErrorResponse "SESSION_ALREADY_APPROVED"
         "Session already has a signature" 400, w')
    /\ MemoryStore.get (sessionStore w') (lit "s-1")
       = Some ApproveSample.session
    /\ MemoryStore.get (signatureStore w') (ApproveSample.uuid 1)
       = Some (mkStored (ApproveSample.uuid 1) r).
Proof.
  destruct (approve_route_late_expiry Sample.platform ApproveSample.late
              ApproveSample.uuid Sample.key platform_laws
              ApproveSample.body (JString (lit " user-123 "))
              (JString (lit "Test User")) ApproveSample.acknowledgments
              JUndefined (lit "s-1") ApproveSample.world
              ApproveSample.session Sample.key
              ltac:(repeat split; vm_compute; reflexivity)
              ltac:(repeat split; vm_compute; reflexivity)
              ltac:(vm_compute; reflexivity)
              ltac:(vm_compute; reflexivity)
              ltac:(vm_compute; reflexivity)
              ltac:(vm_compute; reflexivity)
              ltac:(vm_compute; reflexivity)
              ltac:(vm_compute; discriminate)
              ltac:(vm_compute; reflexivity)
              ltac:(vm_compute; reflexivity)
              ltac:(vm_compute; reflexivity)
              ltac:(vm_compute; reflexivity))
    as (r & w' & _ & Hp & _ & Hs & Hg & _).
  exists r, w'. auto.
Defined.

End ApproveApiFacts.

Module ApprovalsApiFacts.
Import JSONFacts MemoryStoreFacts ApproveApiFacts HashShapeFacts.
Import Truthiness Session Form ApproveApi ApprovalsApi.

Local Open Scope Z_scope.

Section Route.

Variable P : Platform.
Variable normalize_NFC : jsstring -> jsstring.
Variable toLowerCase : jsstring -> jsstring.
Variable now : nat -> Z.
Variable uuid : nat -> jsstring.
Variable random : jsstring.
Variable ensureUploadsDir : Result JSError unit.
Variable write_upload : jsstring -> Bytes -> Result JSError jsstring.

(** X28. What the create route answers to a request it does not accept,
    each time without any change of the world: status 500 when the form
    cannot be read; [INVALID_FILE] when [document] is not a file, whatever
    the intent; [INVALID_INTENT] when the intent is missing, a file, empty
    or white space only, whatever the file; then [INVALID_FILE_TYPE]; then
    [FILE_TOO_LARGE] for a document of more than 10,485,760 bytes.  A
    document of exactly 10,485,760 bytes is not too large. *)
Theorem create_route_rejections (w : World) :
  let POST :=
    POST P normalize_NFC toLowerCase now uuid random ensureUploadsDir
      write_upload in
  POST None w
  = (ErrorResponse "INTERNAL_ERROR" "Failed to create approval session" 500,
     w)
  /\ (forall documentFile intent,
        (forall name type content,
            documentFile <> FileEntry name type content) ->
        POST (Some (documentFile, intent)) w
        = (ErrorResponse "INVALID_FILE" "Document file is required" 400, w))
  /\ (forall name type content intent,
        (forall text, intent = StringEntry text -> trim text = []) ->
        POST (Some (FileEntry name type content, intent)) w
        = (ErrorResponse "INVALID_INTENT" "Intent text is required" 400, w))
  /\ (forall name type content text,
        trim text <> [] ->
        isValidFileType toLowerCase name type = false ->
        POST (Some (FileEntry name type content, StringEntry text)) w
        = (ErrorResponse "INVALID_FILE_TYPE" "Document must be PDF or DOCX"
             400, w))
  /\ (forall name type content text,
        trim text <> [] ->
        isValidFileType toLowerCase name type = true ->
        10485760 < Z.of_nat (length content) ->
        POST (Some (FileEntry name type content, StringEntry text)) w
        = (ErrorResponse "FILE_TOO_LARGE"
             "Document exceeds maximum size of 10MB" 400, w))
  /\ (forall name type content text,
        Z.of_nat (length content) = 10485760 ->
        fst (POST (Some (FileEntry name type content, StringEntry text)) w)
        <> ErrorResponse "FILE_TOO_LARGE"
             "Document exceeds maximum size of 10MB" 400).
Proof.
  intros POST'. subst POST'.
  split; [reflexivity|]. split; [|split; [|split; [|split]]].
  - intros d i Hd. destruct d as [|n t c|s]; try reflexivity.
    exfalso. exact (Hd n t c eq_refl).
  - intros n t c i Hi. destruct i as [|n' t' c'|text]; try reflexivity.
    unfold POST, handler. rewrite (Hi text eq_refl).
    cbn [length Nat.eqb]. rewrite orb_true_r. reflexivity.
  - intros n t c text Ht Hv. unfold POST, handler.
    assert (Hne : (length (trim text) =? 0)%nat = false).
    { destruct (trim text); [congruence|reflexivity]. }
    assert (Htr : truthy (StringEntry text) = true).
    { destruct text; [contradiction Ht; reflexivity|reflexivity]. }
    rewrite Hne, Htr, Hv. reflexivity.
  - intros n t c text Ht Hv Hl. unfold POST, handler.
    assert (Hne : (length (trim text) =? 0)%nat = false).
    { destruct (trim text); [congruence|reflexivity]. }
    assert (Htr : truthy (StringEntry text) = true).
    { destruct text; [contradiction Ht; reflexivity|reflexivity]. }
    rewrite Hne, Htr, Hv. cbn [negb orb].
    assert (Hs : (Z.of_nat (length c) >? MAX_FILE_SIZE) = true).
    { unfold MAX_FILE_SIZE. apply Z.gtb_lt. lia. }
    rewrite Hs. reflexivity.
  - intros n t c text Hl. unfold POST, handler.
    destruct (negb (truthy (StringEntry text))
              || (length (trim text) =? 0)%nat);
      [cbn [ret fst]; discriminate|].
    destruct (negb (isValidFileType toLowerCase n t));
      [cbn [ret fst]; discriminate|].
    assert (Hs : (Z.of_nat (length c) >? MAX_FILE_SIZE) = false).
    { unfold MAX_FILE_SIZE. rewrite Hl. reflexivity. }
    rewrite Hs.
    match goal with
    | |- fst (match ?m with _ => _ end) <> _ =>
        destruct m as [[[| ]|e] w'] eqn:Hm; cbn [fst]; try discriminate
    end.
    exfalso.
    apply seq_Ok_inv in Hm. destruct Hm as (path & w1 & _ & Hm).
    apply seq_Ok_inv in Hm. destruct Hm as (session & w2 & _ & Hm).
    apply seq_Ok_inv in Hm. destruct Hm as (x & w3 & _ & Hm).
    apply ret_Ok_inv in Hm. destruct Hm as [Hm _]. discriminate Hm.
Qed.

Lemma saveDocument_steps content name w path :
  ensureUploadsDir = Ok tt ->
  write_upload
    (integer_to_string (now (ticks w)) ++ lit "-" ++ random ++ lit "-"
     ++ name) content = Ok path ->
  saveDocument now random ensureUploadsDir write_upload content name w
  = (Ok path,
     mkWorld (sessionStore w) (signatureStore w) (presenceProofStore w)
       (S (ticks w)) (draws w)).
Proof.
  intros He Hw. unfold saveDocument, generateUniqueFilename.
  rewrite He, seq_lift_Ok, seq_assoc, seq_Date_now, seq_ret, Hw.
  reflexivity.
Qed.

Lemma createSession_io_steps documentHash documentPath documentName
    intentText w :
  createSession_io P normalize_NFC now uuid documentHash documentPath
    documentName intentText w
  = (Ok (createSession (Signing.hashIntent P normalize_NFC) (now (ticks w))
           (uuid (draws w)) (uuid (S (draws w)))
           documentHash documentPath documentName intentText),
     mkWorld (sessionStore w) (signatureStore w) (presenceProofStore w)
       (S (ticks w)) (S (S (draws w)))).
Proof. reflexivity. Qed.

(** X29. The create route on a request it accepts: a document of an
    allowed type and of at most 10,485,760 bytes, an intent that is not
    blank, a write that succeeds and a drawn id the session store does not
    hold.  It answers 201 with the two ids drawn and the digest of the
    document, and stores a pending session under the first id, with the
    second as its token, the digest and the path of the saved document,
    the canonical intent as its intent text, the second clock reading as
    its creation time and an expiry 86,400,000 ms later; the other
    sessions and the other stores are as before.  Under the laws of the
    normaliser the stored intent hash is the digest of the stored intent
    text.  The session route then reports the session as pending, and
    [findSessionByToken] finds it when no older session has the same
    token. *)
Theorem create_route_success
    (name type : jsstring) (content : Bytes) (text : jsstring) (w : World)
    (path : jsstring) :
  HashShape.nfc_laws normalize_NFC ->
  trim text <> [] ->
  isValidFileType toLowerCase name type = true ->
  Z.of_nat (length content) <= 10485760 ->
  ensureUploadsDir = Ok tt ->
  write_upload
    (integer_to_string (now (ticks w)) ++ lit "-" ++ random ++ lit "-"
     ++ name) content = Ok path ->
  MemoryStore.get (sessionStore w) (uuid (draws w)) = None ->
  let id := uuid (draws w) in
  let token := uuid (S (draws w)) in
  let digest := Signing.hashDocument P content in
  let canonicalIntent := Hash.canonicalizeIntent normalize_NFC text in
  let result :=
    POST P normalize_NFC toLowerCase now uuid random ensureUploadsDir
      write_upload (Some (FileEntry name type content, StringEntry text)) w in
  let w' := snd result in
  exists session,
    fst result = Created id token digest
    /\ MemoryStore.get (sessionStore w') id = Some session
    /\ (forall k, k <> id ->
        MemoryStore.get (sessionStore w') k
        = MemoryStore.get (sessionStore w) k)
    /\ signatureStore w' = signatureStore w
    /\ presenceProofStore w' = presenceProofStore w
    /\ Session.id session = id
    /\ secure_token session = token
    /\ document_hash session = digest
    /\ document_path session = path
    /\ document_name session = name
    /\ intent_text session = canonicalIntent
    /\ intent_hash session = Signing.hashString P (intent_text session)
    /\ status session = pending
    /\ created_at session = now (S (ticks w))
    /\ expires_at session = now (S (ticks w)) + 86400000
    /\ approved_at session = None
    /\ signature_id session = None
    /\ SessionApi.GET id w'
       = SessionApi.Details
           (SessionApi.mkDetails id name digest canonicalIntent
              (intent_hash session) pending (now (S (ticks w)))
              (now (S (ticks w)) + 86400000) None)
    /\ ((forall s, In s (MemoryStore.getAll (sessionStore w)) ->
                   secure_token s <> token) ->
        MemoryStore.findSessionByToken (sessionStore w') token
        = Some session).
Proof.
  intros Hlaws Ht Hv Hl He Hw Hfresh id token digest canonicalIntent
    result w'.
  assert (Hne : (length (trim text) =? 0)%nat = false).
  { destruct (trim text); [congruence|reflexivity]. }
  assert (Htr : truthy (StringEntry text) = true).
  { destruct text; [contradiction Ht; reflexivity|reflexivity]. }
  assert (Hs : (Z.of_nat (length content) >? MAX_FILE_SIZE) = false).
  { unfold MAX_FILE_SIZE.
    destruct (Z.gtb_spec (Z.of_nat (length content)) (10 * 1024 * 1024));
      [lia|reflexivity]. }
  set (session :=
         createSession (Signing.hashIntent P normalize_NFC) (now (S (ticks w)))
           id token digest path name canonicalIntent).
  assert (Hres :
    result
    = (Created id token digest,
       mkWorld (MemoryStore.map_set (sessionStore w) id session)
         (signatureStore w) (presenceProofStore w)
         (S (S (ticks w))) (S (S (draws w))))).
  { subst result. unfold POST, handler.
    rewrite Hne, Htr, Hv, Hs. cbn [negb orb].
    unfold seq at 1. rewrite (saveDocument_steps _ _ _ _ He Hw).
    unfold seq at 1. rewrite createSession_io_steps.
    cbn [ticks draws sessionStore signatureStore presenceProofStore].
    unfold seq at 1. unfold sessionStore_create.
    cbn [ticks draws sessionStore signatureStore presenceProofStore].
    unfold MemoryStore.create, MemoryStore.map_has.
    cbn [createSession Session.id].
    unfold MemoryStore.get in Hfresh. rewrite Hfresh.
    reflexivity. }
  subst w'. rewrite Hres.
  cbn [fst snd ticks draws sessionStore signatureStore presenceProofStore].
  exists session. unfold MemoryStore.get.
  split; [reflexivity|].
  split; [apply map_get_set_same|].
  split; [intros k Hk; apply map_get_set_other, Hk|].
  repeat (split; [reflexivity|]).
  split.
  { cbn [session createSession intent_hash intent_text].
    unfold Signing.hashIntent. subst canonicalIntent.
    rewrite (canonical_twice _ _ Hlaws). reflexivity. }
  repeat (split; [reflexivity|]).
  split.
  { unfold SessionApi.GET, MemoryStore.get. cbn [sessionStore].
    rewrite map_get_set_same. reflexivity. }
  intros Hold. unfold MemoryStore.findSessionByToken.
  rewrite (map_set_absent _ _ _ _ Hfresh).
  unfold MemoryStore.getAll. rewrite map_app. cbn [map snd].
  apply find_first.
  - intros y Hy. apply jsstring_eqb_neq. apply Hold, Hy.
  - apply jsstring_eqb_refl.
Qed.

End Route.

(** The theorem on an empty world, a PDF of 32 bytes and an intent with
    white space to remove, under the quad fragment of NFC. *)
Lemma create_route_success_witness :
  let w := mkWorld [] [] [] 0 0 in
  let result :=
    POST Sample.platform Hash.normalize_quads (fun s => s)
      ApproveSample.now ApproveSample.uuid (lit "k3x9") (Ok tt)
      (fun name _ => Ok (lit "uploads/" ++ name))
      (Some (FileEntry (lit "x.pdf") (lit "application/pdf") Sample.document,
             StringEntry (lit "  Approve   X ")))
      w in
  exists session,
    fst result
    = Created (ApproveSample.uuid 0) (ApproveSample.uuid 1)
        (Sample.hex Sample.document)
    /\ MemoryStore.get (sessionStore (snd result)) (ApproveSample.uuid 0)
       = Some session
    /\ intent_text session = lit "Approve X"
    /\ intent_hash session
       = Signing.hashString Sample.platform (lit "Approve X")
    /\ document_path session = lit "uploads/1000-k3x9-x.pdf"
    /\ expires_at session = 86401001.
Proof.
  intros w result.
  destruct (create_route_success Sample.platform Hash.normalize_quads
              (fun s => s) ApproveSample.now ApproveSample.uuid (lit "k3x9")
              (Ok tt) (fun name _ => Ok (lit "uploads/" ++ name))
              (lit "x.pdf") (lit "application/pdf") Sample.document
              (lit "  Approve   X ") w (lit "uploads/1000-k3x9-x.pdf")
              quads_laws
              ltac:(vm_compute; discriminate)
              ltac:(vm_compute; reflexivity)
              ltac:(vm_compute; discriminate)
              ltac:(reflexivity)
              ltac:(vm_compute; reflexivity)
              ltac:(vm_compute; reflexivity))
    as (session & Hr & Hg & _ & _ & _ & _ & _ & _ & Hp & _ & Hi & Hh & _ & _
        & He & _).
  exists session.
  split; [exact Hr|]. split; [exact Hg|].
  split; [exact Hi|]. split; [rewrite Hh, Hi; reflexivity|].
  split; [exact Hp|exact He].
Defined.

End ApprovalsApiFacts.

Module ServiceFacts.
Import JSONFacts SignatureFacts MemoryStoreFacts ApproveApiFacts.
Import Truthiness Session Form ApproveApi Service.

Local Open Scope Z_scope.

Lemma grows_refl w : grows w w.
Proof. split; auto. Qed.

Lemma grows_trans w1 w2 w3 : grows w1 w2 -> grows w2 w3 -> grows w1 w3.
Proof. intros [A B] [C D]. split; auto. Qed.

Lemma seq_inv {A B : Type} (m : M A) (k : A -> M B) w r w' :
  seq m k w = (r, w') ->
  (exists a w1, m w = (Ok a, w1) /\ k a w1 = (r, w'))
  \/ (exists e, m w = (Throw e, w') /\ r = Throw e).
Proof.
  unfold seq. destruct (m w) as [[a|e] w1]; intros H.
  - left. eauto.
  - right. injection H as <- <-. eauto.
Qed.

Lemma quiet_ret {A : Type} (a : A) : quiet (ret a).
Proof.
  intros w r w' H. unfold ret in H. injection H as _ <-.
  split; [reflexivity|apply grows_refl].
Qed.

Lemma quiet_raise {A : Type} e : quiet (@raise A e).
Proof.
  intros w r w' H. unfold raise in H. injection H as _ <-.
  split; [reflexivity|apply grows_refl].
Qed.

Lemma quiet_lift {E A : Type} (inj : E -> Exception) (x : Result E A) :
  quiet (lift inj x).
Proof. destruct x; [apply quiet_ret|apply quiet_raise]. Qed.

Lemma quiet_seq {A B : Type} (m : M A) (k : A -> M B) :
  quiet m -> (forall a, quiet (k a)) -> quiet (seq m k).
Proof.
  intros Hm Hk w r w' H. apply seq_inv in H.
  destruct H as [(a & w1 & H1 & H2)|(e & H1 & _)].
  - destruct (Hm _ _ _ H1) as [E1 G1]. destruct (Hk a _ _ _ H2) as [E2 G2].
    split; [congruence|eapply grows_trans; eassumption].
  - exact (Hm _ _ _ H1).
Qed.

Section Quiet.

Variable P : Platform.
Variable now : nat -> Z.
Variable uuid : nat -> jsstring.

Lemma quiet_Date_now : quiet (Date_now now).
Proof.
  intros w r w' H. unfold Date_now in H. injection H as _ <-.
  split; [reflexivity|split; auto].
Qed.

Lemma quiet_uuidv4 : quiet (uuidv4 uuid).
Proof.
  intros w r w' H. unfold uuidv4 in H. injection H as _ <-.
  split; [reflexivity|split; auto].
Qed.

Lemma quiet_canApprove_io session : quiet (canApprove_io now session).
Proof.
  unfold canApprove_io. destruct (negb _); [apply quiet_ret|].
  apply quiet_seq; [apply quiet_Date_now|intros; apply quiet_ret].
Qed.

Lemma quiet_approveSession_io session sid :
  quiet (approveSession_io now session sid).
Proof.
  unfold approveSession_io. apply quiet_seq; [apply quiet_canApprove_io|].
  intros can. destruct (negb can); [apply quiet_raise|].
  apply quiet_seq; [apply quiet_Date_now|intros; apply quiet_ret].
Qed.

Lemma quiet_refusal session : quiet (refusal now session).
Proof.
  unfold refusal. destruct (status_eqb _ _); [apply quiet_ret|].
  apply quiet_seq; [apply quiet_Date_now|]. intros n.
  destruct (_ >? _); [apply quiet_ret|].
  destruct (status_eqb _ _); apply quiet_ret.
Qed.

Lemma quiet_createPresenceProof_io sid ch acks :
  quiet (createPresenceProof_io now uuid sid ch acks).
Proof.
  unfold createPresenceProof_io.
  apply quiet_seq; [apply quiet_lift|]. intros _.
  apply quiet_seq; [apply quiet_uuidv4|]. intros u.
  apply quiet_seq; [apply quiet_Date_now|]. intros n. apply quiet_lift.
Qed.

Lemma map_set_absent_keeps {T : Type} (m : MemoryStore.t T) k v k0 v0 :
  MemoryStore.map_get m k = None ->
  MemoryStore.map_get m k0 = Some v0 ->
  MemoryStore.map_get (MemoryStore.map_set m k v) k0 = Some v0.
Proof.
  intros Hk H0. rewrite map_get_set_other; [exact H0|].
  intros ->. congruence.
Qed.

Lemma quiet_presenceProofStore_create proof :
  quiet (presenceProofStore_create proof).
Proof.
  intros w r w' H. unfold presenceProofStore_create in H.
  unfold MemoryStore.create, MemoryStore.map_has in H.
  destruct (MemoryStore.map_get (presenceProofStore w)
              (PresenceProof.id proof)) eqn:Hg.
  - injection H as _ <-. split; [reflexivity|apply grows_refl].
  - injection H as _ <-. split; [reflexivity|]. split.
    + auto.
    + intros k v Hk. cbn [presenceProofStore set_presenceProofStore].
      apply map_set_absent_keeps; assumption.
Qed.

Lemma quiet_signatureStore_create item :
  quiet (signatureStore_create item).
Proof.
  intros w r w' H. unfold signatureStore_create in H.
  unfold MemoryStore.create, MemoryStore.map_has in H.
  destruct (MemoryStore.map_get (signatureStore w) (stored_id item)) eqn:Hg.
  - injection H as _ <-. split; [reflexivity|apply grows_refl].
  - injection H as _ <-. split; [reflexivity|]. split.
    + intros k v Hk. cbn [signatureStore set_signatureStore].
      apply map_set_absent_keeps; assumption.
    + auto.
Qed.

Lemma quiet_presenceProofStore_find x : quiet (presenceProofStore_find x).
Proof.
  intros w r w' H. unfold presenceProofStore_find in H.
  injection H as _ <-. split; [reflexivity|apply grows_refl].
Qed.

Lemma quiet_sessionStore_get id : quiet (sessionStore_get id).
Proof.
  intros w r w' H. unfold sessionStore_get in H.
  injection H as _ <-. split; [reflexivity|apply grows_refl].
Qed.

Lemma quiet_presence_to_use session acks ppid :
  quiet (presence_to_use P now uuid session acks ppid).
Proof.
  unfold presence_to_use. destruct (negb _).
  - apply quiet_seq; [apply quiet_Date_now|]. intros n.
    apply quiet_seq; [apply quiet_createPresenceProof_io|]. intros proof.
    apply quiet_seq; [apply quiet_presenceProofStore_create|].
    intros _. apply quiet_ret.
  - apply quiet_seq; [apply quiet_presenceProofStore_find|].
    intros [[k p]|]; apply quiet_ret.
Qed.

Variable privateKey : Bytes.

Lemma approveSession_io_Ok_inv session sid w ap w' :
  approveSession_io now session sid w = (Ok ap, w') ->
  status session = pending
  /\ exists stamp, ap = approved_session session stamp sid.
Proof.
  unfold approveSession_io. intros H.
  apply seq_Ok_inv in H. destruct H as (can & w1 & Hc & H).
  destruct can; cbn [negb] in H; [|discriminate H].
  rewrite seq_Date_now in H. apply ret_Ok_inv in H. destruct H as [<- _].
  split; [|eauto].
  unfold canApprove_io in Hc.
  destruct (status session); cbn [status_eqb negb] in Hc;
    [reflexivity| |]; apply ret_Ok_inv in Hc; destruct Hc as [Hc _];
    discriminate Hc.
Qed.

(** What [sign_and_store] does to the stores, whatever its outcome. *)
Lemma sign_and_store_effect session approver_id approver_name ppid pph
    w r w' :
  sign_and_store P now uuid privateKey session approver_id approver_name
    ppid pph w = (r, w') ->
  grows w w'
  /\ (sessionStore w' = sessionStore w
      \/ exists rec sid stamp existing,
           Create.createRealitySignature P
             (signature_params session (trimmed approver_id)
                (trimmed approver_name) (now (ticks w)) ppid pph) privateKey
           = Ok rec
           /\ MemoryStore.get (signatureStore w') sid
              = Some (mkStored sid rec)
           /\ MemoryStore.get (sessionStore w) (Session.id session)
              = Some existing
           /\ sessionStore w'
              = MemoryStore.map_set (sessionStore w) (Session.id session)
                  (approved_session session stamp sid)
           /\ presenceProofStore w' = presenceProofStore w
           /\ status session = pending).
Proof.
  unfold sign_and_store. rewrite seq_Date_now. intros H.
  apply seq_inv in H. destruct H as [(rec & w1 & Hc & H)|(e & Hc & _)].
  2:{ destruct (quiet_lift _ _ _ _ _ Hc) as [E G].
      split; [exact G|left; exact E]. }
  destruct (Create.createRealitySignature P _ privateKey) as [rec'|e] eqn:Hcr;
    [|discriminate Hc].
  cbn [lift] in Hc. unfold ret in Hc. injection Hc as -> <-.
  rewrite seq_uuidv4 in H.
  cbn [ticks draws sessionStore signatureStore presenceProofStore] in H.
  apply seq_inv in H. destruct H as [(x & w2 & Hs & H)|(e & Hs & _)].
  2:{ destruct (quiet_signatureStore_create _ _ _ _ Hs) as [E G].
      split; [exact G|left; exact E]. }
  assert (Hstored : MemoryStore.get (signatureStore w2) (uuid (draws w))
                    = Some (mkStored (uuid (draws w)) rec)).
  { unfold signatureStore_create in Hs.
    unfold MemoryStore.create, MemoryStore.map_has in Hs.
    cbn [ticks draws sessionStore signatureStore presenceProofStore
         stored_id] in Hs.
    destruct (MemoryStore.map_get (signatureStore w) (uuid (draws w)));
      [discriminate Hs|].
    injection Hs as _ <-. cbn [signatureStore set_signatureStore].
    apply map_get_set_same. }
  destruct (quiet_signatureStore_create _ _ _ _ Hs) as [E2 G2].
  cbn [sessionStore] in E2.
  assert (G2' : grows w w2).
  { destruct G2 as [A B]. split; intros k v Hk; [apply A|apply B]; exact Hk. }
  assert (P2 : presenceProofStore w2 = presenceProofStore w).
  { unfold signatureStore_create in Hs.
    destruct (MemoryStore.create _ _ _) as [[i st]|e]; [|discriminate Hs].
    injection Hs as _ <-. reflexivity. }
  apply seq_inv in H. destruct H as [(ap & w3 & Ha & H)|(e & Ha & _)].
  2:{ destruct (quiet_approveSession_io _ _ _ _ _ Ha) as [E G].
      split; [eapply grows_trans; eassumption|left; congruence]. }
  destruct (quiet_approveSession_io _ _ _ _ _ Ha) as [E3 G3].
  assert (P3 : presenceProofStore w3 = presenceProofStore w2
               /\ signatureStore w3 = signatureStore w2).
  { unfold approveSession_io in Ha.
    apply seq_Ok_inv in Ha. destruct Ha as (can & w4 & Hc & Ha).
    assert (Hw4 : presenceProofStore w4 = presenceProofStore w2
                  /\ signatureStore w4 = signatureStore w2).
    { unfold canApprove_io in Hc. destruct (negb _).
      - apply ret_Ok_inv in Hc. destruct Hc as [_ ->]. auto.
      - rewrite seq_Date_now in Hc. apply ret_Ok_inv in Hc.
        destruct Hc as [_ ->]. auto. }
    destruct (negb can); [discriminate Ha|].
    rewrite seq_Date_now in Ha. apply ret_Ok_inv in Ha.
    destruct Ha as [_ ->]. exact Hw4. }
  destruct P3 as [P3 S3].
  apply approveSession_io_Ok_inv in Ha. destruct Ha as (Hp & stamp & ->).
  apply seq_inv in H. destruct H as [(y & w4 & Hu & H)|(e & Hu & _)].
  2:{ unfold sessionStore_update in Hu.
      destruct (MemoryStore.update _ _ _ _) as [[i st]|e']; [discriminate Hu|].
      injection Hu as _ <-.
      split; [eapply grows_trans; eassumption|left; congruence]. }
  unfold sessionStore_update in Hu.
  destruct (MemoryStore.update _ _ _ _) as [[i st]|e'] eqn:Hup;
    [|discriminate Hu].
  injection Hu as _ <-.
  unfold MemoryStore.update in Hup.
  destruct (MemoryStore.map_get (sessionStore w3) _) as [existing|] eqn:Hex;
    [|discriminate Hup].
  injection Hup as _ <-.
  rewrite JSON_parse_serialized, seq_lift_Ok in H.
  unfold ret in H. injection H as _ <-.
  split.
  - destruct (grows_trans _ _ _ G2' G3) as [A B].
    split; intros k v Hk; cbn [signatureStore presenceProofStore
                               set_sessionStore]; [apply A|apply B]; exact Hk.
  - right. exists rec, (uuid (draws w)), stamp, existing.
    split; [reflexivity|].
    cbn [sessionStore signatureStore presenceProofStore set_sessionStore].
    split; [rewrite S3; exact Hstored|].
    split; [unfold MemoryStore.get; rewrite <- E2, <- E3; exact Hex|].
    split; [rewrite E3, E2; reflexivity|].
    split; [congruence|exact Hp].
Qed.

Ltac unchanged :=
  let H := fresh "H" in
  intros H; unfold ret in H; injection H as _ <-;
  split; [apply grows_refl|left; reflexivity].

(** What the approve route does to the stores, whatever it answers. *)
Lemma approve_handler_effect body id w r w' :
  handler P now uuid privateKey body id w = (r, w') ->
  grows w w'
  /\ (sessionStore w' = sessionStore w
      \/ exists session rec sid stamp proof existing,
           MemoryStore.get (sessionStore w) id = Some session
           /\ status session = pending
           /\ MemoryStore.get (sessionStore w) (Session.id session)
              = Some existing
           /\ sessionStore w'
              = MemoryStore.map_set (sessionStore w) (Session.id session)
                  (approved_session session stamp sid)
           /\ MemoryStore.get (signatureStore w') sid
              = Some (mkStored sid rec)
           /\ RealitySignature.document_hash rec = document_hash session
           /\ RealitySignature.intent_hash rec = intent_hash session
           /\ RealitySignature.intent_text rec = intent_text session
           /\ MemoryStore.get (presenceProofStore w')
                (RealitySignature.presence_proof_id rec) = Some proof
           /\ RealitySignature.presence_proof_hash rec
              = PresenceProof.hashPresenceProof P proof).
Proof.
  destruct body as [b|]; [|unchanged].
  unfold handler.
  destruct (get b (lit "approver_id")) as [x1|e1];
    [|intros H; cbn in H; injection H as _ <-;
      split; [apply grows_refl|left; reflexivity]].
  rewrite seq_lift_Ok.
  destruct (get b (lit "approver_name")) as [x2|e2];
    [|intros H; cbn in H; injection H as _ <-;
      split; [apply grows_refl|left; reflexivity]].
  rewrite seq_lift_Ok.
  destruct (get b (lit "acknowledgments")) as [a|e3];
    [|intros H; cbn in H; injection H as _ <-;
      split; [apply grows_refl|left; reflexivity]].
  rewrite seq_lift_Ok.
  destruct (get b (lit "presence_proof_id")) as [ppid|e4];
    [|intros H; cbn in H; injection H as _ <-;
      split; [apply grows_refl|left; reflexivity]].
  rewrite seq_lift_Ok.
  destruct (missing_text x1); [unchanged|].
  destruct (missing_text x2); [unchanged|].
  destruct (negb (to_boolean a) || negb (typeof_object a));
    [unchanged|].
  unfold seq at 1. unfold sessionStore_get at 1.
  destruct (MemoryStore.get (sessionStore w) id) as [session|] eqn:Hg;
    [|unchanged].
  intros H. apply seq_inv in H.
  destruct H as [(can & w1 & Hc & H)|(e & Hc & _)].
  2:{ destruct (quiet_canApprove_io _ _ _ _ Hc) as [E G].
      split; [exact G|left; exact E]. }
  destruct (quiet_canApprove_io _ _ _ _ Hc) as [E1 G1].
  destruct (negb can).
  { destruct (quiet_refusal _ _ _ _ H) as [E G].
    split; [eapply grows_trans; eassumption|left; congruence]. }
  cbv zeta in H.
  destruct (PresenceProof.validateAcknowledgments _) as [ok|[m]].
  2:{ unfold ret in H. injection H as _ <-.
      split; [exact G1|left; exact E1]. }
  apply seq_inv in H.
  destruct H as [(presence & w2 & Hp & H)|(e & Hp & _)].
  2:{ destruct (quiet_presence_to_use _ _ _ _ _ _ Hp) as [E G].
      split; [eapply grows_trans; eassumption|left; congruence]. }
  destruct (quiet_presence_to_use _ _ _ _ _ _ Hp) as [E2 G2].
  destruct presence as [[key hash]|].
  2:{ unfold ret in H. injection H as _ <-.
      split; [eapply grows_trans; eassumption|left; congruence]. }
  apply presence_to_use_inv in Hp.
  destruct Hp as (proof & Hproof & -> & _ & _).
  apply sign_and_store_effect in H.
  destruct H as [G3 [E3|(rec & sid & stamp & existing & Hcr & Hsig & Hex
                          & Hst & Hpp & Hpend)]].
  - split; [eapply grows_trans; [eapply grows_trans|]; eassumption|].
    left. congruence.
  - split; [eapply grows_trans; [eapply grows_trans|]; eassumption|].
    right. apply created_fields_all in Hcr.
    cbn [signature_params RealitySignatureParams.document_hash
         RealitySignatureParams.intent_hash
         RealitySignatureParams.intent_text
         RealitySignatureParams.presence_proof_id
         RealitySignatureParams.presence_proof_hash] in Hcr.
    destruct Hcr as (C1 & C2 & C3 & _ & _ & _ & C7 & C8 & _).
    exists session, rec, sid, stamp, proof, existing.
    split; [reflexivity|]. split; [exact Hpend|].
    split; [rewrite <- E1, <- E2; exact Hex|].
    split; [rewrite Hst, E2, E1; reflexivity|].
    split; [exact Hsig|].
    split; [exact C1|]. split; [exact C2|]. split; [exact C3|].
    rewrite Hpp, C7, C8. auto.
Qed.

End Quiet.

Section ServeFacts.

Variable P : Platform.
Variable normalize_NFC : jsstring -> jsstring.
Variable toLowerCase : jsstring -> jsstring.
Variable now : nat -> Z.
Variable uuid : nat -> jsstring.

Ltac still :=
  let H := fresh "H" in
  intros H; unfold ret, raise in H; injection H as _ <-;
  split; [apply grows_refl|left; reflexivity].

(** What the create route does to the stores, whatever it answers. *)
Lemma create_handler_effect random ensureUploadsDir write_upload form
    w r w' :
  ApprovalsApi.handler P normalize_NFC toLowerCase now uuid random
    ensureUploadsDir write_upload form w = (r, w') ->
  grows w w'
  /\ (sessionStore w' = sessionStore w
      \/ exists session,
           MemoryStore.get (sessionStore w) (Session.id session) = None
           /\ sessionStore w'
              = MemoryStore.map_set (sessionStore w) (Session.id session)
                  session
           /\ status session = pending
           /\ approved_at session = None
           /\ signature_id session = None
           /\ expires_at session = created_at session + 86400000).
Proof.
  unfold ApprovalsApi.handler.
  destruct form as [[documentFile intent]|]; [|still].
  destruct documentFile as [|name type content|s]; [still| |still].
  destruct intent as [|n' t' c'|text]; [still|still|].
  destruct (negb (truthy (StringEntry text)) || _); [still|].
  destruct (negb (ApprovalsApi.isValidFileType toLowerCase name type));
    [still|].
  destruct (_ >? _); [still|].
  intros H. apply seq_inv in H.
  destruct H as [(path & w1 & Hs & H)|(e & Hs & _)].
  2:{ assert (Hq : quiet (ApprovalsApi.saveDocument now random
                            ensureUploadsDir write_upload content name)).
      { unfold ApprovalsApi.saveDocument, ApprovalsApi.generateUniqueFilename.
        apply quiet_seq; [apply quiet_lift|]. intros _.
        apply quiet_seq; [|intros; apply quiet_lift].
        apply quiet_seq; [apply quiet_Date_now|intros; apply quiet_ret]. }
      destruct (Hq _ _ _ Hs) as [E G]. split; [exact G|left; exact E]. }
  assert (Hq : quiet (ApprovalsApi.saveDocument now random
                        ensureUploadsDir write_upload content name)).
  { unfold ApprovalsApi.saveDocument, ApprovalsApi.generateUniqueFilename.
    apply quiet_seq; [apply quiet_lift|]. intros _.
    apply quiet_seq; [|intros; apply quiet_lift].
    apply quiet_seq; [apply quiet_Date_now|intros; apply quiet_ret]. }
  destruct (Hq _ _ _ Hs) as [E1 G1].
  unfold seq at 1 in H.
  rewrite ApprovalsApiFacts.createSession_io_steps in H.
  unfold seq at 1 in H. unfold ApprovalsApi.sessionStore_create at 1 in H.
  cbn [ticks draws sessionStore signatureStore presenceProofStore] in H.
  unfold MemoryStore.create, MemoryStore.map_has in H.
  match type of H with
  | context [createSession ?h ?n ?i ?t ?dh ?dp ?dn ?it] =>
      set (session := createSession h n i t dh dp dn it) in *
  end.
  destruct (MemoryStore.map_get (sessionStore w1) (Session.id session))
    eqn:Hg.
  - injection H as _ <-. split.
    + destruct G1 as [A B]. split; intros k v Hk; [apply A|apply B]; exact Hk.
    + left. exact E1.
  - unfold ret in H. injection H as _ <-. split.
    + destruct G1 as [A B]. split; intros k v Hk;
        cbn [signatureStore presenceProofStore set_sessionStore];
        [apply A|apply B]; exact Hk.
    + right. exists session.
      cbn [sessionStore set_sessionStore]. rewrite <- E1.
      split; [exact Hg|]. repeat split.
Qed.

(** A session that agrees with the stores still does when they grow. *)
Lemma linked_grows w w' s : grows w w' -> linked P w s -> linked P w' s.
Proof.
  intros [A B]. unfold linked. destruct (status s); [auto| |auto].
  intros (sid & r & stamp & proof & H1 & H2 & H3 & H4 & H5 & H6 & H7 & H8).
  exists sid, r, stamp, proof. repeat split; auto.
Qed.

Lemma serve_consistent w request :
  consistent P w -> consistent P (serve P normalize_NFC toLowerCase now uuid
                                    w request).
Proof.
  intros Hc. destruct request as [form random ens wr|body id key];
    cbn [serve].
  - unfold ApprovalsApi.POST.
    destruct (ApprovalsApi.handler _ _ _ _ _ _ _ _ form w) as [r w'] eqn:Hh.
    apply create_handler_effect in Hh.
    assert (Hw : snd (match r with
                      | Ok response => (response, w')
                      | Throw _ =>
                          (ApprovalsApi.ErrorResponse "INTERNAL_ERROR"
                             "Failed to create approval session" 500, w')
                      end) = w') by (destruct r; reflexivity).
    rewrite Hw. clear Hw.
    destruct Hh as [G [E|(session & Hn & E & H1 & H2 & H3 & H4)]].
    + intros k s Hk. unfold MemoryStore.get in *. rewrite E in Hk.
      destruct (Hc k s Hk) as (I1 & I2 & I3).
      split; [exact I1|]. split; [exact I2|].
      eapply linked_grows; eassumption.
    + intros k s Hk. unfold MemoryStore.get in *. rewrite E in Hk.
      destruct (list_eq_dec N.eq_dec k (Session.id session)) as [->|Hne].
      * rewrite map_get_set_same in Hk. injection Hk as <-.
        split; [reflexivity|]. split; [exact H4|].
        unfold linked. rewrite H1. auto.
      * rewrite map_get_set_other in Hk by exact Hne.
        destruct (Hc k s Hk) as (I1 & I2 & I3).
        split; [exact I1|]. split; [exact I2|].
        eapply linked_grows; eassumption.
  - unfold POST.
    destruct (handler P now uuid key body id w) as [r w'] eqn:Hh.
    apply approve_handler_effect in Hh.
    assert (Hw : snd (match r with
                      | Ok response => (response, w')
                      | Throw e => (on_error e, w')
                      end) = w') by (destruct r; reflexivity).
    rewrite Hw. clear Hw.
    destruct Hh as [G [E|(session & rec & sid & stamp & proof & existing
                          & Hg & Hp & Hex & E & Hsig & D1 & D2 & D3 & Hpr
                          & Hph)]].
    + intros k s Hk. unfold MemoryStore.get in *. rewrite E in Hk.
      destruct (Hc k s Hk) as (I1 & I2 & I3).
      split; [exact I1|]. split; [exact I2|].
      eapply linked_grows; eassumption.
    + destruct (Hc id session Hg) as (J1 & J2 & _).
      intros k s Hk. unfold MemoryStore.get in *. rewrite E in Hk.
      destruct (list_eq_dec N.eq_dec k (Session.id session)) as [->|Hne].
      * rewrite map_get_set_same in Hk. injection Hk as <-.
        split; [reflexivity|]. split; [exact J2|].
        unfold linked. cbn [approved_session status].
        exists sid, rec, stamp, proof. repeat split; assumption.
      * rewrite map_get_set_other in Hk by exact Hne.
        destruct (Hc k s Hk) as (I1 & I2 & I3).
        split; [exact I1|]. split; [exact I2|].
        eapply linked_grows; eassumption.
Qed.

Lemma after_consistent_from requests : forall w,
  consistent P w ->
  consistent P (fold_left (serve P normalize_NFC toLowerCase now uuid)
                  requests w).
Proof.
  induction requests as [|q r IH]; intros w H; cbn [fold_left].
  - exact H.
  - apply IH, serve_consistent, H.
Qed.

(** X30. Whatever requests the create route and the approve route have
    served since the start, in any order, with any forms, bodies, ids and
    keys, for any clock and any id generator, and whatever they answered:
    every stored session is stored under its id and expires 86,400,000 ms
    after its creation; it is either pending with no approval time and no
    signature id, or approved with an approval time and the id of a stored
    signature that carries the document digest, the intent digest and the
    intent text of the session and the id and the hash of a stored
    presence proof; no stored session is expired.  Accordingly the session
    route never reports the status [expired], and reports an approval
    time exactly for the approved sessions. *)
Theorem service_consistent (requests : list Request) :
  let w := after P normalize_NFC toLowerCase now uuid requests in
  consistent P w
  /\ (forall k s, MemoryStore.get (sessionStore w) k = Some s ->
        status s <> expired)
  /\ (forall id details,
        SessionApi.GET id w = SessionApi.Details details ->
        SessionApi.id details = id
        /\ SessionApi.status details <> expired
        /\ (SessionApi.status details = approved
            <-> SessionApi.approved_at details <> None)
        /\ SessionApi.expires_at details
           = SessionApi.created_at details + 86400000).
Proof.
  intros w.
  assert (Hc : consistent P w).
  { apply after_consistent_from. intros k s Hk. discriminate Hk. }
  split; [exact Hc|]. split.
  - intros k s Hk. destruct (Hc k s Hk) as (_ & _ & Hl).
    unfold linked in Hl. destruct (status s); [discriminate|discriminate|].
    contradiction.
  - intros id details Hd. unfold SessionApi.GET in Hd.
    destruct (MemoryStore.get (sessionStore w) id) as [s|] eqn:Hk;
      [|discriminate Hd].
    injection Hd as <-. destruct (Hc id s Hk) as (I1 & I2 & Hl).
    cbn [SessionApi.id SessionApi.status SessionApi.approved_at
         SessionApi.expires_at SessionApi.created_at].
    split; [exact I1|]. unfold linked in Hl.
    destruct (status s).
    + destruct Hl as [Ha _]. rewrite Ha.
      split; [discriminate|]. split; [|exact I2].
      split; [discriminate|congruence].
    + destruct Hl as (sid & r & stamp & proof & _ & Ha & _). rewrite Ha.
      split; [discriminate|]. split; [|exact I2].
      split; [discriminate|reflexivity].
    + contradiction.
Qed.

End ServeFacts.

End ServiceFacts.
